(** * RandomAccessFilesystem: a bounded-FD random-access file store

    A shallow embedding of the callback-driven variant of
    [random-access-filesystem.js] (the one with a schedule queue and
    [pull()]): the per-file state machine [PathWorker], the facade
    [PathInterface] and the scheduler [RandomAccessFilesystem].

    JavaScript objects are mutable and shared, so workers and handles live
    in a heap (a list indexed by allocation order) and the queues hold
    references (indices).  Asynchronous I/O is a list of pending requests;
    an input of the event loop completes one of them with the reply of the
    operating system.  Every function threads the whole world through a
    state-and-exception monad. *)

From Stdlib Require Import ZArith Lia.
From Stdlib Require Import Init.Byte Strings.Ascii.
From stdpp Require Import base option list gmap strings.

(** ** Data model *)

(** References into the two heaps. *)
Abbreviation wid := nat.
Abbreviation hid := nat.

(** [this.control]: the wish of the scheduler, ['start'] or ['stop']. *)
Inductive Control := Start | Stop.

(** [this.state]: the observed lifecycle of the file. *)
Inductive State := Closed | Opening | Opened | Draining | Closing.

Definition Control_eqb (a b : Control) : bool :=
  match a, b with Start, Start | Stop, Stop => true | _, _ => false end.

Definition State_eqb (a b : State) : bool :=
  match a, b with
  | Closed, Closed | Opening, Opening | Opened, Opened
  | Draining, Draining | Closing, Closing => true
  | _, _ => false
  end.

(** What can be thrown or handed to a completion: an error of the operating
    system, [new Error(msg)], a failed [assert], or the [TypeError] of a
    property access on [undefined]. *)
Inductive Error :=
| OSError (code : string)
| JsError (msg : string)
| AssertionError (expr : string)
| TypeError (what : string).

(** A client completion is a function of the client.  It is known by a name
    and by the calls it makes on the store when it runs (the test script
    issues its next write from inside the completion of the previous one). *)
Inductive ClientCb :=
| ClientFn (name : nat) (body : list Call)
with Call :=
| CallStorageFor (shortPath : string)
| CallRead (h : hid) (offset size : Z) (cb : ClientCb)
| CallWrite (h : hid) (offset : Z) (data : list byte) (cb : ClientCb).

Definition cb_name (cb : ClientCb) : nat := let 'ClientFn n _ := cb in n.
Definition cb_body (cb : ClientCb) : list Call := let 'ClientFn _ b := cb in b.

(** [const op = [type, offset, sizeOrData, cb]]; the type is ['read'] or
    ['write'], the only two that [PathInterface] builds. *)
Inductive Op :=
| Read (offset size : Z) (cb : ClientCb)
| Write (offset : Z) (data : list byte) (cb : ClientCb).

(** The two closures that [pull] hands to [start] and [stop]:
    [() => { this.stoppableQueue.push(pathWorker); this.pull() }] and
    [() => { this.numActivePathWorkers -= 1; this.pull() }]. *)
Inductive Callback :=
| OnStarted (pathWorker : wid)
| OnStopped.

Record PathWorker := mkPathWorker {
  fullPath : string;
  fullDirPath : string;
  fullDirMade : bool;
  control : Control;
  state : State;
  fd : Z;
  ops : list Op;
  inFlightReads : Z;
  inFlightWrites : Z;
  startCb : option Callback;
  stopCb : option Callback
}.

Record PathInterface := mkPathInterface { pathWorker : wid }.

(** Requests handed to the operating system, each with the worker whose
    closure will receive the reply. *)
Inductive IoReq :=
| Mkdirp (w : wid) (dir : string)
| FsOpen (w : wid) (path : string)
| FsClose (w : wid) (fd : Z)
| FsRead (w : wid) (fd : Z) (size offset : Z) (cb : ClientCb)
| FsWrite (w : wid) (fd : Z) (data : list byte) (offset : Z) (cb : ClientCb).

(** The reply to a request: [err], the number the callback receives (the
    descriptor of an open, the count of bytes of a read or a write), and the
    bytes a read has put in the buffer. *)
Record OsReply := mkOsReply {
  os_err : option string;
  os_num : Z;
  os_bytes : list byte
}.

(** Arguments of a client completion: [null], an error or a buffer. *)
Inductive Arg :=
| ANull
| AErr (e : Error)
| ABuf (b : list byte).

(** What an execution does, in the order it does it: an op enters the queue
    of a worker, a request goes to the operating system, a client completion
    is invoked, [numActivePathWorkers] is assigned. *)
Inductive Event :=
| EvSubmit (w : wid) (op : Op)
| EvIssue (r : IoReq)
| EvCallback (name : nat) (args : list Arg)
| EvActive (n : Z).

(** The scheduler ([RandomAccessFilesystem]) with the two heaps, the requests
    in flight and the trace. *)
Record World := mkWorld {
  dirPath : string;
  maxOpenFiles : Z;
  pathInterfaces : gmap string hid;
  numActivePathWorkers : Z;
  stoppableQueue : list wid;
  scheduleQueue : list wid;
  workers : list PathWorker;
  handles : list PathInterface;
  pending : list IoReq;
  trace : list Event
}.

(** *** Field updates *)

Definition set_fullDirMade (v : bool) (k : PathWorker) : PathWorker :=
  mkPathWorker (fullPath k) (fullDirPath k) v (control k) (state k) (fd k)
    (ops k) (inFlightReads k) (inFlightWrites k) (startCb k) (stopCb k).
Definition set_control (v : Control) (k : PathWorker) : PathWorker :=
  mkPathWorker (fullPath k) (fullDirPath k) (fullDirMade k) v (state k) (fd k)
    (ops k) (inFlightReads k) (inFlightWrites k) (startCb k) (stopCb k).
Definition set_state (v : State) (k : PathWorker) : PathWorker :=
  mkPathWorker (fullPath k) (fullDirPath k) (fullDirMade k) (control k) v (fd k)
    (ops k) (inFlightReads k) (inFlightWrites k) (startCb k) (stopCb k).
Definition set_fd (v : Z) (k : PathWorker) : PathWorker :=
  mkPathWorker (fullPath k) (fullDirPath k) (fullDirMade k) (control k) (state k) v
    (ops k) (inFlightReads k) (inFlightWrites k) (startCb k) (stopCb k).
Definition set_ops (v : list Op) (k : PathWorker) : PathWorker :=
  mkPathWorker (fullPath k) (fullDirPath k) (fullDirMade k) (control k) (state k) (fd k)
    v (inFlightReads k) (inFlightWrites k) (startCb k) (stopCb k).
Definition set_inFlightReads (v : Z) (k : PathWorker) : PathWorker :=
  mkPathWorker (fullPath k) (fullDirPath k) (fullDirMade k) (control k) (state k) (fd k)
    (ops k) v (inFlightWrites k) (startCb k) (stopCb k).
Definition set_inFlightWrites (v : Z) (k : PathWorker) : PathWorker :=
  mkPathWorker (fullPath k) (fullDirPath k) (fullDirMade k) (control k) (state k) (fd k)
    (ops k) (inFlightReads k) v (startCb k) (stopCb k).
Definition set_startCb (v : option Callback) (k : PathWorker) : PathWorker :=
  mkPathWorker (fullPath k) (fullDirPath k) (fullDirMade k) (control k) (state k) (fd k)
    (ops k) (inFlightReads k) (inFlightWrites k) v (stopCb k).
Definition set_stopCb (v : option Callback) (k : PathWorker) : PathWorker :=
  mkPathWorker (fullPath k) (fullDirPath k) (fullDirMade k) (control k) (state k) (fd k)
    (ops k) (inFlightReads k) (inFlightWrites k) (startCb k) v.

Definition set_pathInterfaces (v : gmap string hid) (s : World) : World :=
  mkWorld (dirPath s) (maxOpenFiles s) v (numActivePathWorkers s)
    (stoppableQueue s) (scheduleQueue s) (workers s) (handles s) (pending s) (trace s).
Definition set_numActivePathWorkers (v : Z) (s : World) : World :=
  mkWorld (dirPath s) (maxOpenFiles s) (pathInterfaces s) v
    (stoppableQueue s) (scheduleQueue s) (workers s) (handles s) (pending s) (trace s).
Definition set_stoppableQueue (v : list wid) (s : World) : World :=
  mkWorld (dirPath s) (maxOpenFiles s) (pathInterfaces s) (numActivePathWorkers s)
    v (scheduleQueue s) (workers s) (handles s) (pending s) (trace s).
Definition set_scheduleQueue (v : list wid) (s : World) : World :=
  mkWorld (dirPath s) (maxOpenFiles s) (pathInterfaces s) (numActivePathWorkers s)
    (stoppableQueue s) v (workers s) (handles s) (pending s) (trace s).
Definition set_workers (v : list PathWorker) (s : World) : World :=
  mkWorld (dirPath s) (maxOpenFiles s) (pathInterfaces s) (numActivePathWorkers s)
    (stoppableQueue s) (scheduleQueue s) v (handles s) (pending s) (trace s).
Definition set_handles (v : list PathInterface) (s : World) : World :=
  mkWorld (dirPath s) (maxOpenFiles s) (pathInterfaces s) (numActivePathWorkers s)
    (stoppableQueue s) (scheduleQueue s) (workers s) v (pending s) (trace s).
Definition set_pending (v : list IoReq) (s : World) : World :=
  mkWorld (dirPath s) (maxOpenFiles s) (pathInterfaces s) (numActivePathWorkers s)
    (stoppableQueue s) (scheduleQueue s) (workers s) (handles s) v (trace s).
Definition set_trace (v : list Event) (s : World) : World :=
  mkWorld (dirPath s) (maxOpenFiles s) (pathInterfaces s) (numActivePathWorkers s)
    (stoppableQueue s) (scheduleQueue s) (workers s) (handles s) (pending s) v.

(** ** The monad: state, exceptions and fuel

    A computation ends normally, by a thrown exception, or starved of fuel
    (the model of [pull]'s [while (true)] counts its iterations).  The three
    outcomes carry the world at that moment, so that what holds of every
    outcome holds of the states an execution passes through. *)

Inductive Outcome (A : Type) :=
| Done (a : A) (s : World)
| Thrown (e : Error) (s : World)
| Starved (s : World).
Arguments Done {A} a s.
Arguments Thrown {A} e s.
Arguments Starved {A} s.

Definition world_of {A} (o : Outcome A) : World :=
  match o with Done _ s | Thrown _ s | Starved s => s end.

Definition is_starved {A} (o : Outcome A) : bool :=
  match o with Starved _ => true | _ => false end.

Definition M (A : Type) : Type := World → Outcome A.

Definition ret {A} (a : A) : M A := λ s, Done a s.
Definition bind {A B} (m : M A) (f : A → M B) : M B :=
  λ s, match m s with
       | Done a s' => f a s'
       | Thrown e s' => Thrown e s'
       | Starved s' => Starved s'
       end.

#[global] Instance M_ret : MRet M := @ret.
#[global] Instance M_bind : MBind M := λ A B f m, bind m f.

Definition throw {A} (e : Error) : M A := λ s, Thrown e s.
Definition starve {A} : M A := λ s, Starved s.
Definition get : M World := λ s, Done s s.
Definition modify (f : World → World) : M unit := λ s, Done tt (f s).

(** [assert(b)] of Node's [assert] module. *)
Definition assert (b : bool) (expr : string) : M unit :=
  if b then ret tt else throw (AssertionError expr).

(** [!x] for a reference that is an object or [null]. *)
Definition is_null {A} (o : option A) : bool :=
  match o with None => true | Some _ => false end.

(** [for (const x of l) f(x)]. *)
Fixpoint for_each {A} (f : A → M unit) (l : list A) : M unit :=
  match l with
  | [] => ret tt
  | x :: l' => f x;; for_each f l'
  end.

(** ** Primitive effects *)

(** Appends to the trace. *)
Definition emit (ev : Event) : M unit :=
  modify (λ s, set_trace (trace s ++ [ev]) s).

(** Hands a request to the operating system: it is in flight until an input
    of the event loop completes it. *)
Definition issue (r : IoReq) : M unit :=
  modify (λ s, set_trace (trace s ++ [EvIssue r]) (set_pending (pending s ++ [r]) s)).

(** Assignment to [this.numActivePathWorkers]. *)
Definition set_active (n : Z) : M unit :=
  modify (λ s, set_trace (trace s ++ [EvActive n]) (set_numActivePathWorkers n s)).

(** Dereferences a worker; a dangling reference is the [TypeError] of a
    property access on [undefined]. *)
Definition get_worker (w : wid) : M PathWorker :=
  λ s, match workers s !! w with
       | Some k => Done k s
       | None => Thrown (TypeError "pathWorker is undefined") s
       end.

(** Assignment to fields of the worker [w]. *)
Definition upd_worker (w : wid) (f : PathWorker → PathWorker) : M unit :=
  k ← get_worker w;
  modify (λ s, set_workers (<[w := f k]> (workers s)) s).

Definition get_handle (h : hid) : M PathInterface :=
  λ s, match handles s !! h with
       | Some i => Done i s
       | None => Thrown (TypeError "pathInterface is undefined") s
       end.

(** [Deque.push] adds at the back, [Deque.shift] takes from the front (and
    returns [undefined] on an empty queue), [Deque.unshift] adds at the front. *)
Definition deque_push {A} (x : A) (q : list A) : list A := q ++ [x].
Definition deque_unshift {A} (x : A) (q : list A) : list A := x :: q.
Definition deque_shift {A} (q : list A) : option A * list A :=
  match q with
  | [] => (None, [])
  | x :: q' => (Some x, q')
  end.
Definition deque_isEmpty {A} (q : list A) : bool :=
  match q with [] => true | _ => false end.

(** [this.ops.push(op)], recorded in the trace. *)
Definition push_op (w : wid) (op : Op) : M unit :=
  upd_worker w (λ k, set_ops (deque_push op (ops k)) k);;
  emit (EvSubmit w op).

(** ** Node's [path] module, as far as the store uses it: [Path.join] of the
    directory and the short path, and [Path.dirname] (no normalisation of
    [.] and [..]; nothing below depends on the text of a path). *)

Definition path_join (dir short : string) : string :=
  (dir +:+ "/" +:+ short)%string.

Fixpoint dirname_aux (p : string) : option string :=
  match p with
  | EmptyString => None
  | String c r =>
      match dirname_aux r with
      | Some d => Some (String c d)
      | None => if Ascii.eqb c "/"%char then Some EmptyString else None
      end
  end.

Definition path_dirname (p : string) : string :=
  match dirname_aux p with
  | Some EmptyString => "/"
  | Some d => d
  | None => "."
  end.

(** ** PathWorker *)

(** [new PathWorker(fullPath)]. *)
Definition new_PathWorker (fullPath : string) : PathWorker :=
  {| fullPath := fullPath;
     fullDirPath := path_dirname fullPath;
     fullDirMade := false;
     control := Stop;
     state := Closed;
     fd := 0;
     ops := [];
     inFlightReads := 0;
     inFlightWrites := 0;
     startCb := None;
     stopCb := None |}.

(** [Buffer.alloc(size)]: [size] zero bytes. *)
Definition Buffer_alloc (size : Z) : list byte := replicate (Z.to_nat size) x00.

(** The buffer of a read after the operating system has put [data] at its
    start: the length of the buffer does not change. *)
Definition Buffer_fill (buf data : list byte) : list byte :=
  take (length buf) (data ++ drop (length data) buf).

Section Worker.

(** The scheduler's [pull], which the callbacks re-enter. *)
Variable pull : M unit.

(** Invocation of a callback given to [start] or [stop]. *)
Definition call (cb : Callback) : M unit :=
  match cb with
  | OnStarted pathWorker =>
      modify (λ s, set_stoppableQueue (deque_push pathWorker (stoppableQueue s)) s);;
      pull
  | OnStopped =>
      s ← get;
      set_active (numActivePathWorkers s - 1);;
      pull
  end.

(** One turn of the loop of [execIfOps] once [op] has been shifted from
    the queue: the [switch (type)]. *)
Definition exec_op (w : wid) (op : Op) : M unit :=
  match op with
  | Read offset readSize cb =>
      upd_worker w (λ k, set_inFlightReads (inFlightReads k + 1) k);;
      assert (0 <? readSize)%Z "readSize > 0";;
      k ← get_worker w;
      issue (FsRead w (fd k) readSize offset cb)
  | Write offset writeData cb =>
      upd_worker w (λ k, set_inFlightWrites (inFlightWrites k + 1) k);;
      k ← get_worker w;
      issue (FsWrite w (fd k) writeData offset cb)
  end.

(** [while (!this.ops.isEmpty()) { ... }]: every turn takes one op from the
    queue and nothing adds one meanwhile (the I/O is asynchronous), so the
    length of the queue at entry bounds the number of turns. *)
Fixpoint exec_loop (turns : nat) (w : wid) : M unit :=
  k ← get_worker w;
  match deque_shift (ops k) with
  | (None, _) => ret tt
  | (Some op, rest) =>
      match turns with
      | O => starve
      | S turns' =>
          assert (State_eqb (state k) Opened || State_eqb (state k) Draining)
            "state === opened || state === draining";;
          upd_worker w (set_ops rest);;
          exec_op w op;;
          exec_loop turns' w
      end
  end.

Definition execIfOps (w : wid) : M unit :=
  k ← get_worker w;
  exec_loop (length (ops k)) w.

Definition open (w : wid) : M unit :=
  k ← get_worker w;
  assert (State_eqb (state k) Closed) "state === closed";;
  upd_worker w (set_state Opening);;
  if fullDirMade k
  then issue (FsOpen w (fullPath k))
  else issue (Mkdirp w (fullDirPath k)).

Definition closeIfDrained (w : wid) : M unit :=
  k ← get_worker w;
  assert (State_eqb (state k) Opened || State_eqb (state k) Draining)
    "state === opened || state === draining";;
  if ((inFlightReads k =? 0) && (inFlightWrites k =? 0))%Z
  then upd_worker w (set_state Closing);;
       issue (FsClose w (fd k))
  else ret tt.

(** [tick()].  It calls itself from [draining] under [start] (then the
    state is [opened]) and from [opened] under [stop] (then the state is
    [draining]); [depth] counts these nested calls. *)
Fixpoint tick_at (depth : nat) (w : wid) : M unit :=
  let tick_again : M unit :=
    match depth with
    | O => starve
    | S depth' => tick_at depth' w
    end in
  k ← get_worker w;
  match control k with
  | Start =>
      match state k with
      | Opening => ret tt
      | Opened =>
          execIfOps w;;
          k' ← get_worker w;
          match startCb k' with
          | Some cb => call cb;; upd_worker w (set_startCb None)
          | None => ret tt
          end
      | Draining => upd_worker w (set_state Opened);; tick_again
      | Closing => ret tt
      | Closed => open w
      end
  | Stop =>
      match state k with
      | Opening => ret tt
      | Opened => execIfOps w;; upd_worker w (set_state Draining);; tick_again
      | Draining => closeIfDrained w
      | Closing => ret tt
      | Closed =>
          match stopCb k with
          | Some cb => call cb;; upd_worker w (set_stopCb None)
          | None => ret tt
          end
      end
  end.

Definition tick (w : wid) : M unit := tick_at 1 w.

Definition add (w : wid) (op : Op) : M unit :=
  push_op w op;;
  tick w.

Definition start (w : wid) (cb : option Callback) : M unit :=
  upd_worker w (set_control Start);;
  match cb with
  | Some _ =>
      k ← get_worker w;
      assert (is_null (startCb k)) "!this.startCb";;
      upd_worker w (set_startCb cb)
  | None => ret tt
  end;;
  tick w.

Definition stop (w : wid) (cb : option Callback) : M unit :=
  upd_worker w (set_control Stop);;
  k ← get_worker w;
  assert (is_null (stopCb k)) "!this.stopCb";;
  upd_worker w (set_stopCb cb);;
  tick w.

End Worker.

(** ** RandomAccessFilesystem *)

(** The configuration object; a field that is missing is [undefined]. *)
Record Config := mkConfig {
  cfg_dirPath : option string;
  cfg_maxOpenFiles : option Z
}.

(** Truthiness of a string and of a number that may be [undefined]. *)
Definition truthy_string (v : option string) : bool :=
  match v with
  | Some EmptyString | None => false
  | Some _ => true
  end.
Definition truthy_number (v : option Z) : bool :=
  match v with
  | Some 0%Z | None => false
  | Some _ => true
  end.

(** The fields that the constructor assigns. *)
Definition fresh_store (dirPath : string) (maxOpenFiles : Z) : World :=
  {| dirPath := dirPath;
     maxOpenFiles := maxOpenFiles;
     pathInterfaces := ∅;
     numActivePathWorkers := 0;
     stoppableQueue := [];
     scheduleQueue := [];
     workers := [];
     handles := [];
     pending := [];
     trace := [] |}.

(** [new RandomAccessFilesystem({ dirPath, maxOpenFiles })]: the two
    [assert]s, then the fields. *)
Definition new_RandomAccessFilesystem (cfg : Config) : Error + World :=
  if negb (truthy_string (cfg_dirPath cfg)) then inl (AssertionError "dirPath")
  else if negb (truthy_number (cfg_maxOpenFiles cfg)) then inl (AssertionError "maxOpenFiles")
  else inr (fresh_store (default EmptyString (cfg_dirPath cfg))
                        (default 0%Z (cfg_maxOpenFiles cfg))).

(** [storageFor(shortPath)]: the new worker and the new handle go to the
    ends of their heaps. *)
Definition storageFor (shortPath : string) : M hid :=
  s ← get;
  (if is_null (pathInterfaces s !! shortPath) then
     let fullPath := path_join (dirPath s) shortPath in
     let pathWorker := length (workers s) in
     modify (λ s, set_workers (workers s ++ [new_PathWorker fullPath]) s);;
     let h := length (handles s) in
     modify (λ s, set_handles (handles s ++ [mkPathInterface pathWorker]) s);;
     modify (λ s, set_pathInterfaces (<[shortPath := h]> (pathInterfaces s)) s)
   else ret tt);;
  s' ← get;
  match pathInterfaces s' !! shortPath with
  | Some h => ret h
  | None => throw (TypeError "pathInterface is undefined")
  end.

(** The two ways an iteration of the loop of [pull] ends. *)
Inductive Loop := Return | Continue.

Section Pull.

(** [pull] itself, for the callbacks of this iteration. *)
Variable pull : M unit.

(** The body of [while (true) { ... }] in [pull]. *)
Definition pull_iter : M Loop :=
  s ← get;
  let emptyScheduleQueue := deque_isEmpty (scheduleQueue s) in
  if emptyScheduleQueue then ret Return else
  let fdHeadroom := (numActivePathWorkers s <? maxOpenFiles s)%Z in
  let emptyStoppableQueue := deque_isEmpty (stoppableQueue s) in
  if negb fdHeadroom && emptyStoppableQueue then ret Return else
  match deque_shift (scheduleQueue s) with
  | (None, _) => throw (TypeError "pathWorker is undefined")
  | (Some pathWorker, rest) =>
      modify (set_scheduleQueue rest);;
      k ← get_worker pathWorker;
      match control k with
      | Start => ret Continue
      | Stop =>
          if negb (State_eqb (state k) Closed) then
            start pull pathWorker None;;
            ret Continue
          else if fdHeadroom then
            s1 ← get;
            set_active (numActivePathWorkers s1 + 1);;
            start pull pathWorker (Some (OnStarted pathWorker));;
            ret Continue
          else if negb emptyStoppableQueue then
            s1 ← get;
            match deque_shift (stoppableQueue s1) with
            | (None, _) => throw (TypeError "stoppableWorker is undefined")
            | (Some stoppableWorker, rest') =>
                modify (set_stoppableQueue rest');;
                stop pull stoppableWorker (Some OnStopped);;
                modify (λ s, set_scheduleQueue (deque_unshift pathWorker (scheduleQueue s)) s);;
                ret Continue
            end
          else throw (AssertionError "false")
      end
  end.

End Pull.

(** [pull()]: [fuel] bounds the iterations of the loop and the depth of the
    calls of [pull] from callbacks. *)
Fixpoint pull (fuel : nat) : M unit :=
  match fuel with
  | O => starve
  | S fuel' =>
      c ← pull_iter (pull fuel');
      match c with
      | Return => ret tt
      | Continue => pull fuel'
      end
  end.

(** What the event loop receives: a call of the client, or the reply of
    the operating system to the [i]-th request in flight. *)
Inductive Input :=
| Client (c : Call)
| Reply (i : nat) (reply : OsReply).

Section Store.

Variable fuel : nat.

(** [op(pathWorker, type, offset, sizeOrData, cb)]. *)
Definition op (pathWorker : wid) (o : Op) : M unit :=
  add (pull fuel) pathWorker o;;
  modify (λ s, set_scheduleQueue (deque_push pathWorker (scheduleQueue s)) s);;
  pull fuel.

(** [PathInterface.read] and [PathInterface.write]. *)
Definition read (h : hid) (offset size : Z) (readCb : ClientCb) : M unit :=
  i ← get_handle h;
  op (pathWorker i) (Read offset size readCb).

Definition write (h : hid) (offset : Z) (data : list byte) (writeCb : ClientCb) : M unit :=
  i ← get_handle h;
  op (pathWorker i) (Write offset data writeCb).

(** A call of the client on the public surface. *)
Definition run_call (c : Call) : M unit :=
  match c with
  | CallStorageFor p => storageFor p;; ret tt
  | CallRead h offset size cb => read h offset size cb
  | CallWrite h offset data cb => write h offset data cb
  end.

(** Invocation of a client completion: the client's code runs to its end
    inside the call. *)
Definition invoke (cb : ClientCb) (args : list Arg) : M unit :=
  emit (EvCallback (cb_name cb) args);;
  for_each run_call (cb_body cb).

(** The callbacks given to [mkdirp], [FS.open], [FS.close], [FS.read] and
    [FS.write], run with the reply of the operating system. *)
Definition on_reply (r : IoReq) (reply : OsReply) : M unit :=
  match r with
  | Mkdirp w _ =>
      match os_err reply with
      | Some e => throw (OSError e)
      | None =>
          upd_worker w (set_fullDirMade true);;
          k ← get_worker w;
          issue (FsOpen w (fullPath k))
      end
  | FsOpen w _ =>
      match os_err reply with
      | Some e => throw (OSError e)
      | None =>
          k ← get_worker w;
          assert (State_eqb (state k) Opening) "state === opening";;
          upd_worker w (set_state Opened);;
          upd_worker w (set_fd (os_num reply));;
          tick (pull fuel) w
      end
  | FsClose w _ =>
      match os_err reply with
      | Some e => throw (OSError e)
      | None =>
          k ← get_worker w;
          assert (State_eqb (state k) Closing) "state === closing";;
          upd_worker w (set_state Closed);;
          upd_worker w (set_fd 0);;
          tick (pull fuel) w
      end
  | FsRead w _ readSize _ cb =>
      let readData := Buffer_fill (Buffer_alloc readSize) (os_bytes reply) in
      let read := os_num reply in
      upd_worker w (λ k, set_inFlightReads (inFlightReads k - 1) k);;
      match os_err reply with
      | Some e => invoke cb [AErr (OSError e); ANull]
      | None =>
          if (read =? 0)%Z
          then invoke cb [AErr (JsError "Could not satisfy length"); ANull]
          else assert (read =? readSize)%Z "read === readSize";;
               invoke cb [ANull; ABuf readData]
      end;;
      tick (pull fuel) w
  | FsWrite w _ writeData _ cb =>
      let written := os_num reply in
      upd_worker w (λ k, set_inFlightWrites (inFlightWrites k - 1) k);;
      match os_err reply with
      | Some e => invoke cb [AErr (OSError e)]
      | None =>
          assert (written =? Z.of_nat (length writeData))%Z "written === writeData.length";;
          invoke cb [ANull]
      end;;
      tick (pull fuel) w
  end.

Definition step (e : Input) : M unit :=
  match e with
  | Client c => run_call c
  | Reply i reply =>
      s ← get;
      match pending s !! i with
      | None => ret tt
      | Some r =>
          modify (λ s, set_pending (delete i (pending s)) s);;
          on_reply r reply
      end
  end.

(** A run of the event loop; an uncaught exception ends it. *)
Definition run (es : list Input) : M unit := for_each step es.

End Store.

(** * The version with timers

    [src/src/random-access-filesystem.js] is the earlier version of the
    store.  Its [PathWorker] is the one above, but for [start]; its
    scheduler has no schedule queue and no [pull]: [op] calls [schedule] for
    the worker, and [schedule] sets a timer to try again when the worker
    cannot be started at once.  The callbacks that [schedule] gives to
    [start] and [stop] end where those of [pull] call [pull], so the
    functions of the worker are used with [ret tt] for [pull]. *)

Module Legacy.

(** What this scheduler has besides the fields of [World]:
    [this.pathWorkers], the heap of its [PathInterface] objects (each holds
    its [shortPath]) and the timers of [delay] that have not fired, oldest
    first.  The fields [scheduleQueue] and [handles] of [World] stay
    empty. *)
Record Extras := mkExtras {
  pathWorkers : gmap string wid;
  interfaces : list string;
  timers : list wid
}.

Definition set_pathWorkers (v : gmap string wid) (x : Extras) : Extras :=
  mkExtras v (interfaces x) (timers x).
Definition set_interfaces (v : list string) (x : Extras) : Extras :=
  mkExtras (pathWorkers x) v (timers x).
Definition set_timers (v : list wid) (x : Extras) : Extras :=
  mkExtras (pathWorkers x) (interfaces x) v.

(** The monad of the store with these fields threaded through it. *)
Definition L (A : Type) : Type := Extras → M (A * Extras).

#[global] Instance L_ret : MRet L := λ A a x, ret (a, x).
#[global] Instance L_bind : MBind L := λ A B f m x, bind (m x) (λ ax, f ax.1 ax.2).

Definition lift {A} (m : M A) : L A := λ x, bind m (λ a, ret (a, x)).
Definition get_extras : L Extras := λ x, ret (x, x).
Definition modify_extras (f : Extras → Extras) : L unit := λ x, ret (tt, f x).

Fixpoint for_each {A} (f : A → L unit) (l : list A) : L unit :=
  match l with
  | [] => mret tt
  | x :: l' => f x;; for_each f l'
  end.

(** [start(startCb)]: the callback is always given and always taken. *)
Definition start (w : wid) (cb : Callback) : M unit :=
  upd_worker w (set_control Start);;
  k ← get_worker w;
  assert (is_null (startCb k)) "!this.startCb";;
  upd_worker w (set_startCb (Some cb));;
  tick (ret tt) w.

(** [new RandomAccessFilesystem({ dirPath, maxOpenFiles })]: the fields of
    the later version, and [this.pathWorkers = {}]. *)
Definition new_RandomAccessFilesystem (cfg : Config) : Error + World * Extras :=
  match new_RandomAccessFilesystem cfg with
  | inl e => inl e
  | inr s => inr (s, mkExtras ∅ [] [])
  end.

(** [storageFor(shortPath)]. *)
Definition storageFor (shortPath : string) : L hid :=
  s ← lift get;
  (if is_null (pathInterfaces s !! shortPath) then
     x ← get_extras;
     lift (assert (is_null (pathWorkers x !! shortPath)) "!this.pathWorkers[shortPath]");;
     let fullPath := path_join (dirPath s) shortPath in
     let h := length (interfaces x) in
     modify_extras (λ x, set_interfaces (interfaces x ++ [shortPath]) x);;
     lift (modify (λ s, set_pathInterfaces (<[shortPath := h]> (pathInterfaces s)) s));;
     let pathWorker := length (workers s) in
     lift (modify (λ s, set_workers (workers s ++ [new_PathWorker fullPath]) s));;
     modify_extras (λ x, set_pathWorkers (<[shortPath := pathWorker]> (pathWorkers x)) x)
   else mret tt);;
  s' ← lift get;
  match pathInterfaces s' !! shortPath with
  | Some h => mret h
  | None => lift (throw (TypeError "pathInterface is undefined"))
  end.

(** [delay(pathWorker)]: [setTimeout(() => this.schedule(pathWorker), 4)]. *)
Definition delay (pathWorker : wid) : L unit :=
  modify_extras (λ x, set_timers (timers x ++ [pathWorker]) x).

(** [schedule(pathWorker)]. *)
Definition schedule (pathWorker : wid) : L unit :=
  k ← lift (get_worker pathWorker);
  match control k with
  | Start => mret tt
  | Stop =>
      if negb (State_eqb (state k) Closed) then delay pathWorker
      else
        s ← lift get;
        if (numActivePathWorkers s <? maxOpenFiles s)%Z then
          lift (set_active (numActivePathWorkers s + 1);;
                start pathWorker (OnStarted pathWorker))
        else
          match deque_shift (stoppableQueue s) with
          | (Some stoppablePathWorker, rest) =>
              lift (modify (set_stoppableQueue rest);;
                    stop (ret tt) stoppablePathWorker (Some OnStopped));;
              delay pathWorker
          | (None, _) => delay pathWorker
          end
  end.

(** [op(shortPath, type, offset, sizeOrData, cb)]. *)
Definition op (shortPath : string) (o : Op) : L unit :=
  x ← get_extras;
  match pathWorkers x !! shortPath with
  | None => lift (throw (AssertionError "pathWorker"))
  | Some pathWorker =>
      lift (add (ret tt) pathWorker o);;
      schedule pathWorker
  end.

(** Dereferences a [PathInterface]: its [shortPath]. *)
Definition get_interface (h : hid) : L string :=
  x ← get_extras;
  match interfaces x !! h with
  | Some shortPath => mret shortPath
  | None => lift (throw (TypeError "pathInterface is undefined"))
  end.

(** [PathInterface.read] and [PathInterface.write]. *)
Definition read (h : hid) (offset size : Z) (readCb : ClientCb) : L unit :=
  shortPath ← get_interface h;
  op shortPath (Read offset size readCb).

Definition write (h : hid) (offset : Z) (data : list byte) (writeCb : ClientCb) : L unit :=
  shortPath ← get_interface h;
  op shortPath (Write offset data writeCb).

Definition run_call (c : Call) : L unit :=
  match c with
  | CallStorageFor p => storageFor p;; mret tt
  | CallRead h offset size cb => read h offset size cb
  | CallWrite h offset data cb => write h offset data cb
  end.

Definition invoke (cb : ClientCb) (args : list Arg) : L unit :=
  lift (emit (EvCallback (cb_name cb) args));;
  for_each run_call (cb_body cb).

(** The callbacks given to [mkdirp], [FS.open], [FS.close], [FS.read] and
    [FS.write]. *)
Definition on_reply (r : IoReq) (reply : OsReply) : L unit :=
  match r with
  | Mkdirp w _ =>
      lift (match os_err reply with
            | Some e => throw (OSError e)
            | None =>
                upd_worker w (set_fullDirMade true);;
                k ← get_worker w;
                issue (FsOpen w (fullPath k))
            end)
  | FsOpen w _ =>
      lift (match os_err reply with
            | Some e => throw (OSError e)
            | None =>
                k ← get_worker w;
                assert (State_eqb (state k) Opening) "state === opening";;
                upd_worker w (set_state Opened);;
                upd_worker w (set_fd (os_num reply));;
                tick (ret tt) w
            end)
  | FsClose w _ =>
      lift (match os_err reply with
            | Some e => throw (OSError e)
            | None =>
                k ← get_worker w;
                assert (State_eqb (state k) Closing) "state === closing";;
                upd_worker w (set_state Closed);;
                upd_worker w (set_fd 0);;
                tick (ret tt) w
            end)
  | FsRead w _ readSize _ cb =>
      let readData := Buffer_fill (Buffer_alloc readSize) (os_bytes reply) in
      let read := os_num reply in
      lift (upd_worker w (λ k, set_inFlightReads (inFlightReads k - 1) k));;
      match os_err reply with
      | Some e => invoke cb [AErr (OSError e); ANull]
      | None =>
          if (read =? 0)%Z
          then invoke cb [AErr (JsError "Could not satisfy length"); ANull]
          else lift (assert (read =? readSize)%Z "read === readSize");;
               invoke cb [ANull; ABuf readData]
      end;;
      lift (tick (ret tt) w)
  | FsWrite w _ writeData _ cb =>
      let written := os_num reply in
      lift (upd_worker w (λ k, set_inFlightWrites (inFlightWrites k - 1) k));;
      match os_err reply with
      | Some e => invoke cb [AErr (OSError e)]
      | None =>
          lift (assert (written =? Z.of_nat (length writeData))%Z
                  "written === writeData.length");;
          invoke cb [ANull]
      end;;
      lift (tick (ret tt) w)
  end.

(** What the event loop receives: a call of the client, the reply of the
    operating system to the [i]-th request in flight, or the expiry of the
    [i]-th timer (any timer may fire next: nothing is assumed of the clock). *)
Inductive Input :=
| Client (c : Call)
| Reply (i : nat) (reply : OsReply)
| Timeout (i : nat).

Definition step (e : Input) : L unit :=
  match e with
  | Client c => run_call c
  | Reply i reply =>
      s ← lift get;
      match pending s !! i with
      | None => mret tt
      | Some r =>
          lift (modify (λ s, set_pending (delete i (pending s)) s));;
          on_reply r reply
      end
  | Timeout i =>
      x ← get_extras;
      match timers x !! i with
      | None => mret tt
      | Some pathWorker =>
          modify_extras (λ x, set_timers (delete i (timers x)) x);;
          schedule pathWorker
      end
  end.

Definition run (es : list Input) : L unit := for_each step es.

End Legacy.

(** * Vocabulary of the properties *)

(** ** Invariants of executions *)

(** Requests of the life cycle of a file, as opposed to the reads and writes
    of the clients. *)
Definition lifecycle (r : IoReq) : bool :=
  match r with
  | Mkdirp _ _ | FsOpen _ _ | FsClose _ _ => true
  | FsRead _ _ _ _ _ | FsWrite _ _ _ _ _ => false
  end.

(** An assignment to fields of a worker other than its queue of ops and the
    path of its file. *)
Definition same_file (f : PathWorker → PathWorker) : Prop :=
  ∀ k, ops (f k) = ops k ∧ fullPath (f k) = fullPath k.

(** [I] holds of the world where a computation ended or starved, [E] of the
    world where it threw. *)
Definition ok (I E : World → Prop) {A} (o : Outcome A) : Prop :=
  match o with
  | Done _ s | Starved s => I s
  | Thrown _ s => E s
  end.

(** From a world where [I] holds, the computation [m] keeps it. *)
Definition keeps (I E : World → Prop) {A} (m : M A) : Prop :=
  ∀ s, I s → ok I E (m s).

(** ** The budget of open files *)

(** The values assigned to [numActivePathWorkers] so far, oldest first. *)
Definition active_writes (t : list Event) : list Z :=
  omap (λ ev, match ev with EvActive n => Some n | _ => None end) t.

(** The counter is within the budget [m], and so was every value it took;
    the counter is the last value assigned to it ([0] before any). *)
Definition within_budget (m : Z) (s : World) : Prop :=
  maxOpenFiles s = m ∧
  (numActivePathWorkers s ≤ m)%Z ∧
  Forall (λ n, (n ≤ m)%Z) (active_writes (trace s)) ∧
  numActivePathWorkers s = List.last (active_writes (trace s)) 0%Z.

(** ** Completions *)

(** The client completions invoked so far, with their arguments. *)
Definition callbacks (t : list Event) : list (nat * list Arg) :=
  omap (λ ev, match ev with EvCallback n a => Some (n, a) | _ => None end) t.

(** ** The registry of handles *)



(** ** Order of dispatch *)

(** The op that a request to the operating system carries out, with its
    worker. *)
Definition op_of_request (r : IoReq) : option (wid * Op) :=
  match r with
  | FsRead w _ size offset cb => Some (w, Read offset size cb)
  | FsWrite w _ data offset cb => Some (w, Write offset data cb)
  | _ => None
  end.

(** The ops submitted to the worker [w] so far, in the order of the calls. *)
Definition submitted (w : wid) (t : list Event) : list Op :=
  omap (λ ev, match ev with
              | EvSubmit w' o => if decide (w' = w) then Some o else None
              | _ => None
              end) t.

(** The ops of the worker [w] handed to the operating system so far, in the
    order of the requests. *)
Definition dispatched (w : wid) (t : list Event) : list Op :=
  omap (λ ev, match ev with
              | EvIssue r =>
                  match op_of_request r with
                  | Some (w', o) => if decide (w' = w) then Some o else None
                  | None => None
                  end
              | _ => None
              end) t.

(** [ops] of the worker at [w]. *)
Definition queue_of (s : World) (w : wid) : list Op :=
  match workers s !! w with
  | Some k => ops k
  | None => []
  end.



(** ** What [add] and [execIfOps] leave behind *)

(** The world once [this.ops.push(op)] has run on the worker [k] at [w]. *)
Definition pushed (w : wid) (o : Op) (k : PathWorker) (s : World) : World :=
  set_trace (trace s ++ [EvSubmit w o])
    (set_workers (<[w := set_ops (deque_push o (ops k)) k]> (workers s)) s).

(** An op that passes the checks of [execIfOps]: a read has a size [> 0]. *)
Definition valid_op (o : Op) : bool :=
  match o with
  | Read _ size _ => (0 <? size)%Z
  | Write _ _ _ => true
  end.

(** The request that [execIfOps] issues for an op of the worker [w], whose
    descriptor is [fd]. *)
Definition request_of (w : wid) (fd : Z) (o : Op) : IoReq :=
  match o with
  | Read offset size cb => FsRead w fd size offset cb
  | Write offset data cb => FsWrite w fd data offset cb
  end.

(** The counters of reads and writes in flight once the ops [l] are issued. *)
Fixpoint in_flight_after (l : list Op) (k : PathWorker) : PathWorker :=
  match l with
  | [] => k
  | Read _ _ _ :: l' => in_flight_after l' (set_inFlightReads (inFlightReads k + 1) k)
  | Write _ _ _ :: l' => in_flight_after l' (set_inFlightWrites (inFlightWrites k + 1) k)
  end.

(** The world once [execIfOps] has issued the whole queue of the worker [k]
    at [w]. *)
Definition executed (w : wid) (k : PathWorker) (s : World) : World :=
  let reqs := map (request_of w (fd k)) (ops k) in
  set_trace (trace s ++ map EvIssue reqs)
    (set_pending (pending s ++ reqs)
       (set_workers (<[w := in_flight_after (ops k) (set_ops [] k)]> (workers s)) s)).

(** [state === opened || state === draining]. *)
Definition is_open (k : PathWorker) : bool :=
  State_eqb (state k) Opened || State_eqb (state k) Draining.

(** ** The work that [pull] has left *)

(** The measure of the work that [pull] has left: every iteration that
    continues takes a worker off the schedule queue for good, or puts it
    back and takes one off the stoppable queue. *)
Definition mu (s : World) : nat :=
  2 * length (scheduleQueue s) + length (stoppableQueue s).

(** The two queues of the scheduler are the same in [s'] as in [s]. *)
Definition same_queues (s s' : World) : Prop :=
  scheduleQueue s' = scheduleQueue s ∧ stoppableQueue s' = stoppableQueue s.

(** The computation ended or threw (it did not starve) and left the queues
    of the scheduler alone. *)
Definition calm {A} (s : World) (o : Outcome A) : Prop :=
  match o with
  | Done _ s' | Thrown _ s' => same_queues s s'
  | Starved _ => False
  end.

(** A computation that is calm from every world. *)
Definition Calm {A} (m : M A) : Prop := ∀ s, calm s (m s).

(** The computation ended or threw (it did not starve); if it ended, the
    schedule queue is not longer and the measure went up by [d] at most. *)
Definition settles {A} (d : nat) (s : World) (o : Outcome A) : Prop :=
  match o with
  | Done _ s' =>
      length (scheduleQueue s') ≤ length (scheduleQueue s) ∧ mu s' ≤ mu s + d
  | Thrown _ _ => True
  | Starved _ => False
  end.

(** The branch of [tick] for [opened] under [start]. *)
Definition notify_started (pull0 : M unit) (w : wid) : M unit :=
  bind (execIfOps w) (λ _,
  bind (get_worker w) (λ k',
  match startCb k' with
  | Some cb => bind (call pull0 cb) (λ _, upd_worker w (set_startCb None))
  | None => ret tt
  end)).

(** The branch of [tick] for [closed] under [stop]. *)
Definition notify_stopped (pull0 : M unit) (w : wid) (k : PathWorker) : M unit :=
  match stopCb k with
  | Some cb => bind (call pull0 cb) (λ _, upd_worker w (set_stopCb None))
  | None => ret tt
  end.

(** ** The stoppable queue and the callbacks of [pull] *)

(** The workers of the stoppable queue are opened under [start], each once. *)
Definition stoppable_ok (s : World) : Prop :=
  NoDup (stoppableQueue s) ∧
  ∀ j, j ∈ stoppableQueue s →
    ∃ k, workers s !! j = Some k ∧ control k = Start ∧ state k = Opened.

(** The callbacks pending on the worker [k] at [j]: a start callback is the
    closure of [pull] for [j], and it is pending on a worker that is opening
    under [start], or on the worker [x] whose start callback is running; a
    stop callback is the closure of [pull]. *)
Definition regular (x : option wid) (j : wid) (k : PathWorker) : Prop :=
  (∀ cb, startCb k = Some cb →
     cb = OnStarted j ∧ ((control k = Start ∧ state k = Opening) ∨ x = Some j)) ∧
  (∀ cb, stopCb k = Some cb → cb = OnStopped).

Definition Inv (x : option wid) (s : World) : Prop :=
  stoppable_ok s ∧ ∀ j k, workers s !! j = Some k → regular x j k.

(** What holds when a computation run under [Inv x] ends, and when it
    throws or starves. *)
Definition post {A} (x : option wid) (o : Outcome A) : Prop :=
  match o with
  | Done _ s' => Inv x s'
  | Thrown _ s' | Starved s' => stoppable_ok s'
  end.

(** What [tick] needs of the worker it is called on: its start callback, if
    any, is pending because the worker is opening, or has just opened and is
    not yet on the stoppable queue. *)
Definition ticking (w : wid) (s : World) (k : PathWorker) : Prop :=
  (∀ cb, startCb k = Some cb →
     cb = OnStarted w ∧ control k = Start ∧
     (state k = Opening ∨ (state k = Opened ∧ w ∉ stoppableQueue s))) ∧
  (∀ cb, stopCb k = Some cb → cb = OnStopped).

(** ** Requests in flight and the state of their worker *)

(** The number of elements of [l] that pass [f]. *)
Fixpoint count_if {A} (f : A → bool) (l : list A) : nat :=
  match l with
  | [] => 0
  | x :: l' => (if f x then 1 else 0) + count_if f l'
  end.

(** What a request asks of the operating system: to open the file (the
    directory is made first), to close it, to read or to write. *)
Inductive ReqKind := ROpen | RClose | RRead | RWrite.

Definition ReqKind_eqb (a b : ReqKind) : bool :=
  match a, b with
  | ROpen, ROpen | RClose, RClose | RRead, RRead | RWrite, RWrite => true
  | _, _ => false
  end.

Definition req_kind (r : IoReq) : ReqKind :=
  match r with
  | Mkdirp _ _ | FsOpen _ _ => ROpen
  | FsClose _ _ => RClose
  | FsRead _ _ _ _ _ => RRead
  | FsWrite _ _ _ _ _ => RWrite
  end.

(** The worker whose closure receives the reply. *)
Definition req_worker (r : IoReq) : wid :=
  match r with
  | Mkdirp w _ | FsOpen w _ | FsClose w _ | FsRead w _ _ _ _ | FsWrite w _ _ _ _ => w
  end.

Definition asks (w : wid) (c : ReqKind) (r : IoReq) : bool :=
  (req_worker r =? w) && ReqKind_eqb (req_kind r) c.

(** The requests of kind [c] of the worker [w] that wait for their reply. *)
Definition outstanding (w : wid) (c : ReqKind) (s : World) : nat :=
  count_if (asks w c) (pending s).

(** The request names the directory, the file or the descriptor of [k]. *)
Definition addressed (k : PathWorker) (r : IoReq) : Prop :=
  match r with
  | Mkdirp _ d => d = fullDirPath k
  | FsOpen _ p => p = fullPath k
  | FsClose _ d | FsRead _ d _ _ _ | FsWrite _ d _ _ _ => d = fd k
  end.

(** The worker [k] at [j] and the requests in flight agree: one request to
    open exactly while [k] is opening, one to close exactly while it is
    closing, as many reads and writes as its counters say and none unless
    the file is open, each for the descriptor that [k] holds. *)
Definition tidy_worker (s : World) (j : wid) (k : PathWorker) : Prop :=
  outstanding j ROpen s = (if State_eqb (state k) Opening then 1 else 0) ∧
  outstanding j RClose s = (if State_eqb (state k) Closing then 1 else 0) ∧
  inFlightReads k = Z.of_nat (outstanding j RRead s) ∧
  inFlightWrites k = Z.of_nat (outstanding j RWrite s) ∧
  (is_open k = false → outstanding j RRead s = 0 ∧ outstanding j RWrite s = 0) ∧
  (∀ r, r ∈ pending s → req_worker r = j → addressed k r).

Definition tidy (s : World) : Prop :=
  (∀ r, r ∈ pending s → req_worker r < length (workers s)) ∧
  ∀ j k, workers s !! j = Some k → tidy_worker s j k.

(** [I] holds of the world where a computation ended. *)
Definition fine (I : World → Prop) {A} (o : Outcome A) : Prop :=
  match o with
  | Done _ s => I s
  | Thrown _ _ | Starved _ => True
  end.

(** The worker [k1] is [k] as far as its requests are concerned: the same
    file and descriptor, the same counters, and a state of the same kind
    ([opened] and [draining] are both open). *)
Definition same_io (k1 k : PathWorker) : Prop :=
  State_eqb (state k1) Opening = State_eqb (state k) Opening ∧
  State_eqb (state k1) Closing = State_eqb (state k) Closing ∧
  is_open k1 = is_open k ∧
  fd k1 = fd k ∧
  inFlightReads k1 = inFlightReads k ∧
  inFlightWrites k1 = inFlightWrites k ∧
  fullPath k1 = fullPath k ∧
  fullDirPath k1 = fullDirPath k.

(** ** The scheduler between two turns of the event loop *)

(** The worker counts against the budget: the scheduler wants its file open,
    or the file is not closed yet. *)
Definition holds_slot (k : PathWorker) : bool :=
  Control_eqb (control k) Start || negb (State_eqb (state k) Closed).

Definition slots (s : World) : nat := count_if holds_slot (workers s).

(** The file of the worker is open, or on its way to be open or closed. *)
Definition has_file (k : PathWorker) : bool := negb (State_eqb (state k) Closed).

(** [pull] has nothing left that it could do: no worker waits, or the budget
    is used up and no worker can be stopped. *)
Definition saturated (s : World) : Prop :=
  scheduleQueue s = [] ∨
  ((maxOpenFiles s ≤ numActivePathWorkers s)%Z ∧ stoppableQueue s = []).

(** The worker at the head of the schedule queue is closed and the budget is
    used up: [pull] can only stop workers for it. *)
Definition blocked (s : World) : Prop :=
  ∃ p rest kp,
    scheduleQueue s = p :: rest ∧ workers s !! p = Some kp ∧
    control kp = Stop ∧ state kp = Closed ∧
    (maxOpenFiles s ≤ numActivePathWorkers s)%Z.

(** Where the event loop is: between two turns, or inside the start callback
    or the stop callback of the worker [j]. *)
Inductive Mode := Idle | Starting (j : wid) | Stopping (j : wid).

(** The worker [k] at [j] when none of its callbacks runs.  A start callback
    waits on a worker that is opening under [start]; under [stop] a worker
    is closed, or it drains or closes with the stop callback of its eviction
    pending; the workers of the stoppable queue are opened under [start] and
    have no stop callback. *)
Definition at_rest (s : World) (j : wid) (k : PathWorker) : Prop :=
  (∀ cb, startCb k = Some cb →
     cb = OnStarted j ∧ control k = Start ∧ state k = Opening ∧ stopCb k = None) ∧
  (∀ cb, stopCb k = Some cb → cb = OnStopped) ∧
  (control k = Stop →
     (state k = Closed ∧ stopCb k = None) ∨
     ((state k = Draining ∨ state k = Closing) ∧ stopCb k = Some OnStopped)) ∧
  (j ∈ stoppableQueue s → control k = Start ∧ state k = Opened ∧ stopCb k = None).

(** The worker whose start callback runs: it is on the stoppable queue, or
    the [pull] of the callback has stopped it already, and then [pull] is
    blocked. *)
Definition starting (s : World) (j : wid) (k : PathWorker) : Prop :=
  startCb k = Some (OnStarted j) ∧
  ((control k = Start ∧ state k = Opened ∧ stopCb k = None ∧ j ∈ stoppableQueue s) ∨
   (control k = Stop ∧ (state k = Draining ∨ state k = Closing) ∧
    stopCb k = Some OnStopped ∧ (j ∉ stoppableQueue s) ∧ blocked s)).

(** The worker whose stop callback runs: it is closed, or the [pull] of the
    callback has started it again. *)
Definition stopping (s : World) (j : wid) (k : PathWorker) : Prop :=
  stopCb k = Some OnStopped ∧ (j ∉ stoppableQueue s) ∧
  ((control k = Stop ∧ state k = Closed ∧ startCb k = None) ∨
   (control k = Start ∧ state k = Opening ∧ startCb k = Some (OnStarted j))).

Definition shape (m : Mode) (s : World) (j : wid) (k : PathWorker) : Prop :=
  match m with
  | Idle => at_rest s j k
  | Starting x => if decide (x = j) then starting s j k else at_rest s j k
  | Stopping x => if decide (x = j) then stopping s j k else at_rest s j k
  end.

(** The scheduler and its workers agree: the queues and the handles refer to
    workers that exist, no worker is twice on the stoppable queue, the
    counter is the number of workers that hold a slot, and every worker has
    the shape of the mode. *)
Definition Sound (m : Mode) (s : World) : Prop :=
  NoDup (stoppableQueue s) ∧
  (∀ j, j ∈ stoppableQueue s → j < length (workers s)) ∧
  (∀ j, j ∈ scheduleQueue s → j < length (workers s)) ∧
  (∀ h i, handles s !! h = Some i → pathWorker i < length (workers s)) ∧
  numActivePathWorkers s = Z.of_nat (slots s) ∧
  (∀ j k, workers s !! j = Some k → shape m s j k).

(** The exceptions that the checks on the arguments of the clients and on
    the replies of the operating system raise: an error of [mkdirp],
    [FS.open] or [FS.close], a read of a size [<= 0], a short read or write,
    and the use of a handle that [storageFor] did not return. *)
Definition allowed (e : Error) : Prop :=
  match e with
  | OSError _ => True
  | AssertionError x =>
      x = "readSize > 0"%string ∨ x = "read === readSize"%string ∨
      x = "written === writeData.length"%string
  | TypeError x => x = "pathInterface is undefined"%string
  | JsError _ => False
  end.

(** A computation of the scheduler: it ends in a sound world, or throws an
    exception that is allowed. *)
Definition sound (m : Mode) {A} (o : Outcome A) : Prop :=
  match o with
  | Done _ s => Sound m s
  | Thrown e _ => allowed e
  | Starved _ => True
  end.

(** The same, for a computation that ends with [pull]. *)
Definition settled (m : Mode) {A} (o : Outcome A) : Prop :=
  match o with
  | Done _ s => Sound m s ∧ saturated s
  | Thrown e _ => allowed e
  | Starved _ => True
  end.

(** Everything of the scheduler but its workers, the requests in flight and
    the trace is in [s'] as in [s]. *)
Definition same_scheduler (s s' : World) : Prop :=
  scheduleQueue s' = scheduleQueue s ∧ stoppableQueue s' = stoppableQueue s ∧
  numActivePathWorkers s' = numActivePathWorkers s ∧
  maxOpenFiles s' = maxOpenFiles s ∧ handles s' = handles s.

(** What [tick] makes of the worker [k] when no callback is due. *)
Definition ticked (k k' : PathWorker) : Prop :=
  control k' = control k ∧ startCb k' = startCb k ∧ stopCb k' = stopCb k ∧
  match control k, state k with
  | Start, Closed => state k' = Opening
  | Start, Draining => state k' = Opened
  | Stop, Opened | Stop, Draining => state k' = Draining ∨ state k' = Closing
  | _, _ => state k' = state k
  end.

(** A run of the event loop leaves the scheduler at rest. *)
Definition rested {A} (o : Outcome A) : Prop :=
  match o with
  | Done _ s => Sound Idle s ∧ saturated s ∧ tidy s
  | Thrown e _ => allowed e
  | Starved _ => True
  end.

(** ** A store without a budget *)

(** Nothing was ever asked of the operating system and no completion was
    invoked: the trace holds submissions only. *)
Definition only_submissions (t : list Event) : Prop :=
  Forall (λ ev, match ev with EvSubmit _ _ => True | _ => False end) t.

(** The budget is negative, the counter is zero and every worker is closed
    under [stop], as it was created, with everything that was submitted to
    it in its queue. *)
Definition dormant (s : World) : Prop :=
  (maxOpenFiles s < 0)%Z ∧ numActivePathWorkers s = 0%Z ∧
  stoppableQueue s = [] ∧ pending s = [] ∧
  (∀ j k, workers s !! j = Some k →
     control k = Stop ∧ state k = Closed ∧ stopCb k = None) ∧
  only_submissions (trace s) ∧
  (∀ w, queue_of s w = submitted w (trace s)).

(** ** Every read and write is answered once *)


(** The reads and writes handed to the operating system so far. *)
Definition handed_over (t : list Event) : nat :=
  count_if (λ ev, match ev with EvIssue r => negb (lifecycle r) | _ => false end) t.


(** ** No op is left behind *)

(** A worker under [start] is opening or closing, or it is opened and its
    queue is empty; a worker under [stop] whose queue is not empty is on the
    schedule queue. *)
Definition served (s : World) : Prop :=
  ∀ j k, workers s !! j = Some k →
    (control k = Start →
       state k = Opening ∨ state k = Closing ∨ (state k = Opened ∧ ops k = [])) ∧
    (control k = Stop → ops k ≠ [] → j ∈ scheduleQueue s).

(** ** The version with timers *)

(** The computation [m] of the version with timers keeps [I], whatever its
    own fields hold. *)
Definition keeps_all (I E : World → Prop) {A} (m : Legacy.L A) : Prop :=
  ∀ x, keeps I E (m x).

(** What [tick] makes of the state and of the queue of the worker, when its
    callbacks call no [pull]. *)
Definition ticked_alone (k k' : PathWorker) : Prop :=
  control k' = control k ∧
  match control k, state k with
  | Start, Opened | Start, Draining => state k' = Opened ∧ ops k' = []
  | Start, Closed => state k' = Opening ∧ ops k' = ops k
  | Stop, Opened => (state k' = Draining ∨ state k' = Closing) ∧ ops k' = []
  | Stop, Draining => (state k' = Draining ∨ state k' = Closing) ∧ ops k' = ops k
  | _, _ => state k' = state k ∧ ops k' = ops k
  end.


(** The scheduler with timers and its heaps agree: a short path without an
    interface has no worker, the short path of every interface has a worker,
    and the timers are for workers that exist. *)
Definition registry (s : World) (x : Legacy.Extras) : Prop :=
  (∀ p, pathInterfaces s !! p = None → Legacy.pathWorkers x !! p = None) ∧
  (∀ h p, Legacy.interfaces x !! h = Some p →
     ∃ w, Legacy.pathWorkers x !! p = Some w ∧ w < length (workers s)) ∧
  (∀ w, w ∈ Legacy.timers x → w < length (workers s)).

(** No op is left behind: a worker under [start] is opening, or it is opened
    and its queue is empty; a worker under [stop] whose queue is not empty
    has a timer pending, but for the worker [exempt], that [schedule] is
    about to consider. *)
Definition timed (exempt : option wid) (s : World) (x : Legacy.Extras) : Prop :=
  ∀ j k, workers s !! j = Some k →
    (control k = Start → state k = Opening ∨ (state k = Opened ∧ ops k = [])) ∧
    (control k = Stop → ops k ≠ [] → exempt = Some j ∨ j ∈ Legacy.timers x).

(** The version with timers between two turns of the event loop. *)
Definition grounded (s : World) (x : Legacy.Extras) : Prop :=
  Sound Idle s ∧ tidy s ∧ scheduleQueue s = [] ∧ registry s x.

Definition steady (s : World) (x : Legacy.Extras) : Prop :=
  grounded s x ∧ timed None s x.

(** A computation of the version with timers ends in a steady world or
    throws an exception that is allowed; it does not run out of fuel. *)
Definition steady_after {A} (o : Outcome (A * Legacy.Extras)) : Prop :=
  match o with
  | Done (_, x) s => steady s x
  | Thrown e _ => allowed e
  | Starved _ => False
  end.

(** ** Scenarios

    A store with a budget of two files and three short paths, and client
    completions that make no further call. *)

Definition store2 : World := fresh_store "dir" 2.

Definition done (name : nat) : ClientCb := ClientFn name [].

Definition reply_ok (n : Z) : OsReply := mkOsReply None n [].

(** ["a"] and ["c"] are written to and opened; the write to ["c"] completes,
    the write to ["a"] stays in flight. *)
Definition two_files_open : list Input :=
  [ Client (CallStorageFor "a"); Client (CallStorageFor "b");
    Client (CallStorageFor "c");
    Client (CallWrite 0 0 [x01] (done 1));
    Client (CallWrite 2 0 [x01] (done 2));
    Reply 0 (reply_ok 0); Reply 0 (reply_ok 0);
    Reply 0 (reply_ok 6); Reply 0 (reply_ok 7);
    Reply 1 (reply_ok 1) ].

(** A write to ["b"] then evicts both: ["a"] drains, ["c"] closes and
    ["b"] takes its place. *)
Definition b_takes_a_slot : list Input :=
  two_files_open ++
  [ Client (CallWrite 1 0 [x02] (done 3));
    Reply 1 (reply_ok 0); Reply 1 (reply_ok 0); Reply 1 (reply_ok 8) ].

(** A second write to ["a"], still draining, makes [pull] rescue it; then
    all the writes complete. *)
Definition a_is_rescued : list Input :=
  b_takes_a_slot ++
  [ Client (CallWrite 0 5 [x03] (done 4));
    Reply 0 (reply_ok 1); Reply 0 (reply_ok 1); Reply 0 (reply_ok 1) ].

(** ["c"] is open and a read of four bytes on it is in flight. *)
Definition reading_c : World :=
  world_of (run 20 (two_files_open ++ [Client (CallRead 2 0 4 (done 9))]) store2).

Definition worker_c : PathWorker :=
  {| fullPath := "dir/c"; fullDirPath := "dir"; fullDirMade := true;
     control := Start; state := Opened; fd := 7; ops := [];
     inFlightReads := 1; inFlightWrites := 0; startCb := None; stopCb := None |}.





Definition closed_b : PathWorker :=
  {| fullPath := "dir/b"; fullDirPath := "dir"; fullDirMade := false;
     control := Stop; state := Closed; fd := 0;
     ops := [Write 0 [x02] (done 3)];
     inFlightReads := 0; inFlightWrites := 0;
     startCb := None; stopCb := None |}.

Definition opened_a : PathWorker :=
  {| fullPath := "dir/a"; fullDirPath := "dir"; fullDirMade := true;
     control := Start; state := Opened; fd := 6;
     ops := [];
     inFlightReads := 0; inFlightWrites := 1;
     startCb := None; stopCb := None |}.

(** ["a"] has been written to and waits for its file to open. *)
Definition a_is_opening : list Input :=
  [ Client (CallStorageFor "a"); Client (CallWrite 0 0 [x01] (done 1)) ].

Definition opening_a : PathWorker :=
  {| fullPath := "dir/a"; fullDirPath := "dir"; fullDirMade := false;
     control := Start; state := Opening; fd := 0;
     ops := [Write 0 [x01] (done 1)];
     inFlightReads := 0; inFlightWrites := 0;
     startCb := Some (OnStarted 0); stopCb := None |}.


(** ["a"] once the write to ["b"] has evicted it: it drains, its write is
    still in flight. *)
Definition evicted_a : PathWorker :=
  {| fullPath := "dir/a"; fullDirPath := "dir"; fullDirMade := true;
     control := Stop; state := Draining; fd := 6; ops := [];
     inFlightReads := 0; inFlightWrites := 1;
     startCb := None; stopCb := Some OnStopped |}.

(** A write to a fresh file and the replies that would open the file. *)
Definition a_is_written : list Input :=
  [ Client (CallStorageFor "a"); Client (CallWrite 0 0 [x01] (done 1));
    Reply 0 (reply_ok 0); Reply 0 (reply_ok 6); Reply 0 (reply_ok 1) ].

(** ["a"] and ["c"] are open and a write to ["b"] has evicted both: ["a"]
    drains, ["c"] closes, and ["b"] waits in the schedule queue. *)
Definition b_waits : World :=
  world_of (run 20 (two_files_open ++ [Client (CallWrite 1 0 [x02] (done 3))]) store2).

Definition closing_c : PathWorker :=
  {| fullPath := "dir/c"; fullDirPath := "dir"; fullDirMade := true;
     control := Stop; state := Closing; fd := 7; ops := [];
     inFlightReads := 0; inFlightWrites := 0;
     startCb := None; stopCb := Some OnStopped |}.

(** The version with timers and a budget of one file: ["a"] is written to
    and opened; a write to ["b"] stops it and sets a timer; ["a"] closes,
    the timer fires and ["b"] is opened. *)
Definition no_extras : Legacy.Extras := Legacy.mkExtras ∅ [] [].

Definition b_after_a : list Legacy.Input :=
  [ Legacy.Client (CallStorageFor "a"); Legacy.Client (CallStorageFor "b");
    Legacy.Client (CallWrite 0 0 [x01] (done 1));
    Legacy.Reply 0 (reply_ok 0); Legacy.Reply 0 (reply_ok 6);
    Legacy.Client (CallWrite 1 0 [x02] (done 2));
    Legacy.Reply 0 (reply_ok 1); Legacy.Reply 0 (reply_ok 0);
    Legacy.Timeout 0;
    Legacy.Reply 0 (reply_ok 0); Legacy.Reply 0 (reply_ok 7) ].

(** The same, up to the write to ["b"]: ["a"] is open, ["b"] waits with its
    op queued and a timer set. *)
Definition b_has_a_timer : list Legacy.Input :=
  [ Legacy.Client (CallStorageFor "a"); Legacy.Client (CallStorageFor "b");
    Legacy.Client (CallWrite 0 0 [x01] (done 1));
    Legacy.Reply 0 (reply_ok 0); Legacy.Reply 0 (reply_ok 6);
    Legacy.Client (CallWrite 1 0 [x02] (done 2)) ].

(** The version with timers: ["a"] is open and a read of four bytes on it is
    in flight. *)
Definition a_is_read : World :=
  world_of (Legacy.run
    [ Legacy.Client (CallStorageFor "a"); Legacy.Client (CallRead 0 0 4 (done 9));
      Legacy.Reply 0 (reply_ok 0); Legacy.Reply 0 (reply_ok 6) ]
    no_extras (fresh_store "dir" 1)).

Definition reading_a : PathWorker :=
  {| fullPath := "dir/a"; fullDirPath := "dir"; fullDirMade := true;
     control := Start; state := Opened; fd := 6; ops := [];
     inFlightReads := 1; inFlightWrites := 0; startCb := None; stopCb := None |}.

(** The version with timers, with a budget of one: ["a"] is opened with its
    write in flight, and a write to ["b"] has just been added to its worker,
    before [schedule] considers it. *)
Definition b_is_added : World :=
  world_of (add (ret tt) 1 (Write 0 [x02] (done 3))
    (world_of (Legacy.run
       [ Legacy.Client (CallStorageFor "a"); Legacy.Client (CallStorageFor "b");
         Legacy.Client (CallWrite 0 0 [x01] (done 1));
         Legacy.Reply 0 (reply_ok 0); Legacy.Reply 0 (reply_ok 6) ]
       no_extras (fresh_store "dir" 1)))).

Definition two_paths : Legacy.Extras :=
  Legacy.mkExtras (<["b" := 1]> (<["a" := 0]> ∅)) ["a"; "b"] [].

(** * Proofs *)

(** ** Reasoning about computations *)

Ltac munfold := unfold mbind, M_bind, mret, M_ret in *; cbv beta in *.

Lemma bind_assoc {A B C} (m : M A) (f : A → M B) (g : B → M C) (s : World) :
  bind (bind m f) g s = bind m (λ a, bind (f a) g) s.
Proof. unfold bind. destruct (m s); reflexivity. Qed.

Lemma bind_Done {A B} (m : M A) (f : A → M B) (s s' : World) (a : A) :
  m s = Done a s' → bind m f s = f a s'.
Proof. unfold bind. intros ->. reflexivity. Qed.

Lemma deque_shift_Some {A} (q : list A) (x : A) (rest : list A) :
  deque_shift q = (Some x, rest) → q = x :: rest.
Proof. destruct q; simpl; congruence. Qed.

Lemma deque_shift_None {A} (q : list A) (rest : list A) :
  deque_shift q = (None, rest) → q = [].
Proof. destruct q; simpl; congruence. Qed.

(** *** What the elementary effects do to a concrete world *)

Lemma get_worker_run (w : wid) (s : World) (k : PathWorker) :
  workers s !! w = Some k → get_worker w s = Done k s.
Proof. intros Hk. unfold get_worker. by rewrite Hk. Qed.

Lemma upd_worker_run (w : wid) (f : PathWorker → PathWorker) (s : World) (k : PathWorker) :
  workers s !! w = Some k →
  upd_worker w f s = Done tt (set_workers (<[w := f k]> (workers s)) s).
Proof.
  intros Hk. unfold upd_worker, get_worker, modify. munfold. unfold bind.
  by rewrite Hk.
Qed.

Lemma upd_worker_lookup (w : wid) (k k1 : PathWorker) (s : World) :
  workers s !! w = Some k →
  workers (set_workers (<[w := k1]> (workers s)) s) !! w = Some k1.
Proof. intros Hk. simpl. apply list_lookup_insert_eq. by eapply lookup_lt_Some. Qed.

(** A turn of [execIfOps] on a read: the counter of reads in flight goes up,
    then the size is checked, then the request is issued. *)
Lemma exec_turn_read (w : wid) (s : World) (k : PathWorker) (rest : list Op)
    (offset size : Z) (cb : ClientCb) :
  workers s !! w = Some k →
  bind (upd_worker w (set_ops rest)) (λ _, exec_op w (Read offset size cb)) s =
  let k1 := set_inFlightReads (inFlightReads k + 1) (set_ops rest k) in
  let s1 := set_workers (<[w := k1]> (workers s)) s in
  let r := FsRead w (fd k) size offset cb in
  if (0 <? size)%Z
  then Done tt (set_trace (trace s ++ [EvIssue r]) (set_pending (pending s ++ [r]) s1))
  else Thrown (AssertionError "readSize > 0") s1.
Proof.
  intros Hk.
  erewrite bind_Done by (by apply upd_worker_run).
  unfold exec_op. munfold.
  erewrite bind_Done by (apply upd_worker_run; simpl; apply list_lookup_insert_eq; rewrite ?length_insert; by eapply lookup_lt_Some).
  simpl. rewrite list_insert_insert_eq.
  destruct (0 <? size)%Z; simpl; [|reflexivity].
  unfold bind at 1. simpl.
  erewrite bind_Done by (apply get_worker_run; simpl; apply list_lookup_insert_eq; rewrite ?length_insert; by eapply lookup_lt_Some).
  reflexivity.
Qed.

(** A turn of [execIfOps] on a write. *)
Lemma exec_turn_write (w : wid) (s : World) (k : PathWorker) (rest : list Op)
    (offset : Z) (data : list byte) (cb : ClientCb) :
  workers s !! w = Some k →
  bind (upd_worker w (set_ops rest)) (λ _, exec_op w (Write offset data cb)) s =
  let k1 := set_inFlightWrites (inFlightWrites k + 1) (set_ops rest k) in
  let s1 := set_workers (<[w := k1]> (workers s)) s in
  let r := FsWrite w (fd k) data offset cb in
  Done tt (set_trace (trace s ++ [EvIssue r]) (set_pending (pending s ++ [r]) s1)).
Proof.
  intros Hk.
  erewrite bind_Done by (by apply upd_worker_run).
  unfold exec_op. munfold.
  erewrite bind_Done by (apply upd_worker_run; simpl; apply list_lookup_insert_eq; rewrite ?length_insert; by eapply lookup_lt_Some).
  simpl. rewrite list_insert_insert_eq.
  erewrite bind_Done by (apply get_worker_run; simpl; apply list_lookup_insert_eq; rewrite ?length_insert; by eapply lookup_lt_Some).
  reflexivity.
Qed.

Lemma push_op_run (w : wid) (o : Op) (s : World) (k : PathWorker) :
  workers s !! w = Some k →
  push_op w o s =
  Done tt (set_trace (trace s ++ [EvSubmit w o])
             (set_workers (<[w := set_ops (deque_push o (ops k)) k]> (workers s)) s)).
Proof.
  intros Hk. unfold push_op. munfold.
  erewrite bind_Done by (by apply upd_worker_run). reflexivity.
Qed.

Lemma push_op_fail (w : wid) (o : Op) (s : World) :
  workers s !! w = None →
  push_op w o s = Thrown (TypeError "pathWorker is undefined") s.
Proof.
  intros Hk. unfold push_op, upd_worker, get_worker. munfold. unfold bind.
  by rewrite Hk.
Qed.

Lemma storageFor_known (p : string) (s : World) (h : hid) :
  pathInterfaces s !! p = Some h → storageFor p s = Done h s.
Proof.
  intros Hp. unfold storageFor, get. munfold. unfold bind. simpl.
  rewrite Hp. simpl. by rewrite Hp.
Qed.

Lemma storageFor_new (p : string) (s : World) :
  pathInterfaces s !! p = None →
  storageFor p s =
  Done (length (handles s))
    (set_pathInterfaces (<[p := length (handles s)]> (pathInterfaces s))
       (set_handles (handles s ++ [mkPathInterface (length (workers s))])
          (set_workers (workers s ++ [new_PathWorker (path_join (dirPath s) p)]) s))).
Proof.
  intros Hp. unfold storageFor, get, modify. munfold. unfold bind. simpl.
  rewrite Hp. simpl. by rewrite lookup_insert_eq.
Qed.

(** *** Invariants of every execution

    [I] is to hold whenever a computation ends or starves, [E] when it
    throws.  What is assumed of them is that each elementary effect of the
    program keeps [I]; what follows is that every function of the program
    does, whatever the inputs of the event loop. *)

Section Invariant.

Variables I E : World → Prop.

Hypothesis I_E : ∀ s, I s → E s.
Hypothesis I_field : ∀ w f s k,
  same_file f → I s → workers s !! w = Some k →
  I (set_workers (<[w := f k]> (workers s)) s).
Hypothesis I_push_op : ∀ w o, keeps I E (push_op w o).
Hypothesis I_exec : ∀ w o rest s k,
  I s → workers s !! w = Some k → ops k = o :: rest →
  ok I E (bind (upd_worker w (set_ops rest)) (λ _, exec_op w o) s).
Hypothesis I_issue : ∀ r, lifecycle r = true → keeps I E (issue r).
Hypothesis I_callback : ∀ n args, keeps I E (emit (EvCallback n args)).
Hypothesis I_decrement : ∀ s, I s → ok I E (set_active (numActivePathWorkers s - 1) s).
Hypothesis I_increment : ∀ s,
  I s → (numActivePathWorkers s < maxOpenFiles s)%Z →
  ok I E (set_active (numActivePathWorkers s + 1) s).
Hypothesis I_stoppableQueue : ∀ q s, I s → I (set_stoppableQueue q s).
Hypothesis I_scheduleQueue : ∀ q s, I s → I (set_scheduleQueue q s).
Hypothesis I_pending : ∀ q s, I s → I (set_pending q s).
Hypothesis I_storageFor : ∀ p, keeps I E (storageFor p).

Lemma ok_bind {A B} (m : M A) (f : A → M B) (s : World) :
  ok I E (m s) → (∀ a s', m s = Done a s' → I s' → ok I E (f a s')) → ok I E (bind m f s).
Proof. unfold bind. destruct (m s); simpl; eauto. Qed.

Lemma keeps_bind {A B} (m : M A) (f : A → M B) :
  keeps I E m → (∀ a, keeps I E (f a)) → keeps I E (bind m f).
Proof. intros Hm Hf s Hs. apply ok_bind; [by apply Hm | intros; by apply Hf]. Qed.

Lemma keeps_ret {A} (a : A) : keeps I E (ret a).
Proof. intros s Hs. exact Hs. Qed.

Lemma keeps_throw {A} (e : Error) : keeps I E (@throw A e).
Proof. intros s Hs. by apply I_E. Qed.

Lemma keeps_starve {A} : keeps I E (@starve A).
Proof. intros s Hs. exact Hs. Qed.

Lemma keeps_get : keeps I E get.
Proof. intros s Hs. exact Hs. Qed.

Lemma keeps_assert (b : bool) (expr : string) : keeps I E (assert b expr).
Proof. destruct b; [apply keeps_ret | apply keeps_throw]. Qed.

Lemma keeps_get_worker (w : wid) : keeps I E (get_worker w).
Proof.
  intros s Hs. unfold get_worker. destruct (workers s !! w); simpl; auto.
Qed.

Lemma keeps_get_handle (h : hid) : keeps I E (get_handle h).
Proof.
  intros s Hs. unfold get_handle. destruct (handles s !! h); simpl; auto.
Qed.

Lemma keeps_upd_worker (w : wid) (f : PathWorker → PathWorker) :
  same_file f → keeps I E (upd_worker w f).
Proof.
  intros Hf s Hs. unfold upd_worker, get_worker. munfold. unfold bind.
  destruct (workers s !! w) eqn:Hw; simpl; eauto.
Qed.

Lemma keeps_for_each {A} (f : A → M unit) (l : list A) :
  (∀ x, keeps I E (f x)) → keeps I E (for_each f l).
Proof.
  intros Hf. induction l as [|x l IH]; simpl.
  - apply keeps_ret.
  - munfold. apply keeps_bind; auto.
Qed.

Lemma keeps_modify (f : World → World) : (∀ s, I s → I (f s)) → keeps I E (modify f).
Proof. intros Hf s Hs. by apply Hf. Qed.

Lemma get_worker_Done (w : wid) (s s' : World) (k : PathWorker) :
  get_worker w s = Done k s' → s' = s ∧ workers s !! w = Some k.
Proof. unfold get_worker. destruct (workers s !! w); naive_solver. Qed.

Lemma get_Done (s s' a : World) : get s = Done a s' → s' = s ∧ a = s.
Proof. unfold get. naive_solver. Qed.

Lemma assert_Done (b : bool) (expr : string) (s s' : World) (u : unit) :
  assert b expr s = Done u s' → s' = s ∧ b = true.
Proof. destruct b; unfold assert, ret, throw; naive_solver. Qed.

Ltac keeps_step :=
  cbv zeta; munfold;
  lazymatch goal with
  | |- keeps I E (bind _ _) => apply keeps_bind; [| intros ?]
  | |- keeps I E (ret _) => apply keeps_ret
  | |- keeps I E (throw _) => apply keeps_throw
  | |- keeps I E starve => apply keeps_starve
  | |- keeps I E get => apply keeps_get
  | |- keeps I E (assert _ _) => apply keeps_assert
  | |- keeps I E (get_worker _) => apply keeps_get_worker
  | |- keeps I E (get_handle _) => apply keeps_get_handle
  | |- keeps I E (upd_worker _ _) => apply keeps_upd_worker; intros []; split; reflexivity
  | |- keeps I E (issue _) => apply I_issue; reflexivity
  | |- keeps I E (emit (EvCallback _ _)) => apply I_callback
  | |- keeps I E (push_op _ _) => apply I_push_op
  | |- keeps I E (storageFor _) => apply I_storageFor
  | |- keeps I E (modify (set_scheduleQueue _)) =>
      apply keeps_modify; intros; by apply I_scheduleQueue
  | |- keeps I E (modify (λ s, set_scheduleQueue _ s)) =>
      apply keeps_modify; intros; by apply I_scheduleQueue
  | |- keeps I E (modify (set_stoppableQueue _)) =>
      apply keeps_modify; intros; by apply I_stoppableQueue
  | |- keeps I E (modify (λ s, set_stoppableQueue _ s)) =>
      apply keeps_modify; intros; by apply I_stoppableQueue
  | |- keeps I E (modify (λ s, set_pending _ s)) =>
      apply keeps_modify; intros; by apply I_pending
  | |- keeps I E (match ?x with _ => _ end) => destruct x eqn:?
  end.

Lemma keeps_exec_loop (turns : nat) (w : wid) : keeps I E (exec_loop turns w).
Proof.
  induction turns as [|turns IH]; intros s Hs; simpl; munfold.
  - apply ok_bind; [by apply keeps_get_worker|].
    intros k s' _ Hs'. destruct (deque_shift (ops k)) as [[o|] rest]; exact Hs'.
  - apply ok_bind; [by apply keeps_get_worker|].
    intros k s' [-> Hk]%get_worker_Done _.
    destruct (deque_shift (ops k)) as [[o|] rest] eqn:Hq; [|exact Hs].
    apply deque_shift_Some in Hq.
    apply ok_bind; [by apply keeps_assert|].
    intros [] s' [-> _]%assert_Done _.
    rewrite <- bind_assoc.
    apply ok_bind; [by eapply I_exec|].
    intros _ s' _ Hs'. by apply IH.
Qed.

Lemma keeps_execIfOps (w : wid) : keeps I E (execIfOps w).
Proof. unfold execIfOps. keeps_step; [keeps_step | apply keeps_exec_loop]. Qed.

Lemma keeps_open (w : wid) : keeps I E (open w).
Proof. unfold open. repeat keeps_step. Qed.

Lemma keeps_closeIfDrained (w : wid) : keeps I E (closeIfDrained w).
Proof. unfold closeIfDrained. repeat keeps_step. Qed.

(** The functions that may re-enter [pull] keep [I] when [pull] does. *)
Section Reentrant.

Variable pull0 : M unit.
Hypothesis keeps_pull0 : keeps I E pull0.

Lemma keeps_call (cb : Callback) : keeps I E (call pull0 cb).
Proof.
  destruct cb; simpl; munfold.
  - repeat keeps_step. exact keeps_pull0.
  - intros s Hs. unfold bind at 1. simpl.
    apply ok_bind; [by apply I_decrement|].
    intros _ s' _ Hs'. by apply keeps_pull0.
Qed.

Lemma keeps_tick_at (depth : nat) (w : wid) : keeps I E (tick_at pull0 depth w).
Proof.
  induction depth as [|depth IH]; simpl;
    repeat first [ apply keeps_execIfOps | apply keeps_open
                 | apply keeps_closeIfDrained | apply keeps_call
                 | apply IH | keeps_step ].
Qed.

Lemma keeps_tick (w : wid) : keeps I E (tick pull0 w).
Proof. apply keeps_tick_at. Qed.

Lemma keeps_add (w : wid) (o : Op) : keeps I E (add pull0 w o).
Proof. unfold add. repeat first [apply keeps_tick | keeps_step]. Qed.

Lemma keeps_start (w : wid) (cb : option Callback) : keeps I E (start pull0 w cb).
Proof. unfold start. repeat first [apply keeps_tick | keeps_step]. Qed.

Lemma keeps_stop (w : wid) (cb : option Callback) : keeps I E (stop pull0 w cb).
Proof. unfold stop. repeat first [apply keeps_tick | keeps_step]. Qed.

Lemma keeps_pull_iter : keeps I E (pull_iter pull0).
Proof.
  intros s Hs. unfold pull_iter. munfold. unfold bind at 1. simpl.
  destruct (deque_isEmpty (scheduleQueue s)); [exact Hs|].
  destruct (negb _ && _) eqn:Hgo; [exact Hs|].
  destruct (deque_shift (scheduleQueue s)) as [[w|] rest]; [|by apply I_E].
  unfold bind at 1. simpl.
  apply ok_bind; [apply keeps_get_worker; by apply I_scheduleQueue|].
  intros k s' [-> _]%get_worker_Done Hs'.
  destruct (control k); [exact Hs'|].
  destruct (negb (State_eqb (state k) Closed)).
  { revert Hs'. generalize (set_scheduleQueue rest s).
    change (keeps I E (bind (start pull0 w None) (λ _, ret Continue))).
    repeat first [apply keeps_start | keeps_step]. }
  destruct (numActivePathWorkers s <? maxOpenFiles s)%Z eqn:Hroom.
  { unfold bind at 1. simpl.
    apply ok_bind.
    { apply (I_increment (set_scheduleQueue rest s) Hs'). simpl. lia. }
    intros _ s' _. revert s'.
    change (keeps I E (bind (start pull0 w (Some (OnStarted w))) (λ _, ret Continue))).
    repeat first [apply keeps_start | keeps_step]. }
  revert Hs'. generalize (set_scheduleQueue rest s).
  change (keeps I E (if negb (deque_isEmpty (stoppableQueue s))
                 then bind get (λ s1,
                        match deque_shift (stoppableQueue s1) with
                        | (Some v, rest') =>
                            bind (modify (set_stoppableQueue rest')) (λ _,
                            bind (stop pull0 v (Some OnStopped)) (λ _,
                            bind (modify (λ s, set_scheduleQueue
                                    (deque_unshift w (scheduleQueue s)) s))
                              (λ _, ret Continue)))
                        | (None, _) => throw (TypeError "stoppableWorker is undefined")
                        end)
                 else throw (AssertionError "false"))).
  repeat first [apply keeps_stop | keeps_step].
Qed.

End Reentrant.

Lemma keeps_pull (fuel : nat) : keeps I E (pull fuel).
Proof.
  induction fuel as [|fuel IH]; simpl.
  - apply keeps_starve.
  - repeat first [by apply keeps_pull_iter | apply IH | keeps_step].
Qed.

Lemma keeps_op (fuel : nat) (w : wid) (o : Op) : keeps I E (op fuel w o).
Proof.
  unfold op.
  repeat first [apply keeps_add | apply keeps_pull | keeps_step].
Qed.

Lemma keeps_run_call (fuel : nat) (c : Call) : keeps I E (run_call fuel c).
Proof.
  destruct c; simpl; unfold read, write;
    repeat first [apply keeps_op | keeps_step].
Qed.

Lemma keeps_invoke (fuel : nat) (cb : ClientCb) (args : list Arg) :
  keeps I E (invoke fuel cb args).
Proof.
  unfold invoke. keeps_step; [keeps_step|].
  apply keeps_for_each. apply keeps_run_call.
Qed.

Lemma keeps_on_reply (fuel : nat) (r : IoReq) (reply : OsReply) :
  keeps I E (on_reply fuel r reply).
Proof.
  destruct r; simpl;
    repeat first [ apply keeps_invoke | apply keeps_tick; apply keeps_pull
                 | keeps_step ].
Qed.

Lemma keeps_step_input (fuel : nat) (e : Input) : keeps I E (step fuel e).
Proof.
  destruct e; simpl;
    repeat first [apply keeps_run_call | apply keeps_on_reply | keeps_step].
Qed.

(** Every run of the event loop keeps I E the invariant. *)
Theorem keeps_run (fuel : nat) (es : list Input) : keeps I E (run fuel es).
Proof. apply keeps_for_each. apply keeps_step_input. Qed.

End Invariant.

Lemma ok_world_of {A} (I : World → Prop) (o : Outcome A) : ok I I o → I (world_of o).
Proof. by destruct o. Qed.

(** Discharges what [keeps_run] and its lemmas ask of an invariant that reads
    the trace through a projection [p] with [p (t1 ++ t2) = p t1 ++ p t2]. *)
Ltac trace_frame app_lemma :=
  unfold keeps, ok; intros;
  repeat match goal with
  | |- context [push_op ?w ?o ?s] =>
      let Hk := fresh "Hk" in
      destruct (workers s !! w) eqn:Hk;
      [erewrite push_op_run by eassumption | rewrite push_op_fail by assumption]
  | o : Op |- context [exec_op _ ?o] => destruct o
  | |- context [exec_op _ (Read _ _ _)] => erewrite exec_turn_read by eassumption; cbv zeta
  | |- context [exec_op _ (Write _ _ _)] => erewrite exec_turn_write by eassumption; cbv zeta
  | |- context [storageFor ?p ?s] =>
      let Hp := fresh "Hp" in
      destruct (pathInterfaces s !! p) eqn:Hp;
      [erewrite storageFor_known by eassumption | rewrite storageFor_new by assumption]
  | |- context [if ?b then _ else _] => destruct b
  end;
  unfold issue, emit, set_active, modify; simpl;
  rewrite ?app_lemma; simpl; rewrite ?app_nil_r; try assumption.

(** ** The budget of open files *)

Lemma active_writes_app (t1 t2 : list Event) :
  active_writes (t1 ++ t2) = active_writes t1 ++ active_writes t2.
Proof. apply omap_app. Qed.

(** Unfolds the elementary effects on a given world. *)
Ltac effects :=
  unfold push_op, exec_op, storageFor, issue, emit, set_active, upd_worker,
    get_worker, get_handle, assert, modify, get, throw, ret;
  munfold; unfold bind; simpl.

Lemma within_budget_keeps (m : Z) (fuel : nat) (es : list Input) :
  keeps (within_budget m) (within_budget m) (run fuel es).
Proof.
  apply keeps_run; clear fuel es; unfold keeps, ok, within_budget.
  - auto.
  - intros w f s k _ H _. exact H.
  - intros w o s (Hm & Hn & Ht & Hl). effects.
    destruct (workers s !! w); simpl; rewrite ?active_writes_app, ?app_nil_r; auto.
  - intros w o rest s k (Hm & Hn & Ht & Hl) Hk _. effects. rewrite Hk. simpl.
    destruct o as [offset size cb|offset data cb]; simpl;
      rewrite list_lookup_insert_eq by (by eapply lookup_lt_Some); simpl;
      rewrite ?list_lookup_insert_eq by (rewrite length_insert; by eapply lookup_lt_Some);
      simpl.
    + destruct (0 <? size)%Z; simpl;
        rewrite ?list_lookup_insert_eq by (rewrite length_insert; by eapply lookup_lt_Some);
        simpl; rewrite ?active_writes_app, ?app_nil_r; auto.
    + rewrite ?active_writes_app, ?app_nil_r; auto.
  - intros r _ s (Hm & Hn & Ht & Hl). effects.
    rewrite active_writes_app, app_nil_r. auto.
  - intros n args s (Hm & Hn & Ht & Hl). effects.
    rewrite active_writes_app, app_nil_r. auto.
  - intros s (Hm & Hn & Ht & Hl). effects. rewrite active_writes_app.
    split_and!; [done | lia | | cbn; by rewrite List.last_last].
    apply Forall_app. split; [done|]. constructor; [lia | constructor].
  - intros s (Hm & Hn & Ht & Hl) Hroom. effects. rewrite active_writes_app.
    split_and!; [done | lia | | cbn; by rewrite List.last_last].
    apply Forall_app. split; [done|]. constructor; [lia | constructor].
  - intros q s H. exact H.
  - intros q s H. exact H.
  - intros q s H. exact H.
  - intros p s (Hm & Hn & Ht & Hl). effects.
    destruct (pathInterfaces s !! p) eqn:Hp; simpl; [rewrite Hp; simpl; auto|].
    rewrite lookup_insert_eq. simpl. auto.
Qed.

(** C1.  [numActivePathWorkers <= maxOpenFiles] at every moment of every
    execution of a store built with [maxOpenFiles >= 1]: whatever the calls
    of the clients and the replies of the operating system, and wherever the
    execution is observed (at its end, at a thrown exception, or starved in
    the middle of a loop of [pull]), the counter is within the budget and so
    is every value that was ever assigned to it; the counter is only
    modified by these assignments. *)
Theorem budget_never_exceeded (cfg : Config) (s0 : World) (fuel : nat) (es : list Input) :
  new_RandomAccessFilesystem cfg = inr s0 →
  (1 ≤ maxOpenFiles s0)%Z →
  let s := world_of (run fuel es s0) in
  maxOpenFiles s = maxOpenFiles s0 ∧
  (numActivePathWorkers s ≤ maxOpenFiles s)%Z ∧
  Forall (λ n, (n ≤ maxOpenFiles s)%Z) (active_writes (trace s)) ∧
  numActivePathWorkers s = List.last (active_writes (trace s)) 0%Z.
Proof.
  intros Hnew Hmax. simpl.
  assert (within_budget (maxOpenFiles s0) s0) as Hs0.
  { unfold new_RandomAccessFilesystem in Hnew.
    repeat case_match; simplify_eq. unfold within_budget. simpl in *.
    split_and!; [done | lia | constructor | done]. }
  pose proof (within_budget_keeps (maxOpenFiles s0) fuel es s0 Hs0) as H.
  assert (within_budget (maxOpenFiles s0) (world_of (run fuel es s0))) as (Hm & Hn & Ht & Hl).
  { unfold ok in H. by destruct (run fuel es s0). }
  rewrite Hm. auto.
Qed.

Lemma budget_never_exceeded_witness :
  let s := world_of (run 20 a_is_rescued store2) in
  maxOpenFiles s = 2%Z ∧
  (numActivePathWorkers s ≤ maxOpenFiles s)%Z ∧
  Forall (λ n, (n ≤ maxOpenFiles s)%Z) (active_writes (trace s)) ∧
  numActivePathWorkers s = List.last (active_writes (trace s)) 0%Z.
Proof.
  apply (budget_never_exceeded (mkConfig (Some "dir"%string) (Some 2%Z)) store2 20 a_is_rescued).
  - reflexivity.
  - simpl. lia.
Defined.

(** ** Completion of reads and writes *)

Lemma callbacks_app (t1 t2 : list Event) :
  callbacks (t1 ++ t2) = callbacks t1 ++ callbacks t2.
Proof. apply omap_app. Qed.

(** Neither the calls of a client nor [tick] invoke a client completion. *)
Lemma callbacks_quiet (c : list (nat * list Arg)) (fuel : nat) (body : list Call) (w : wid) :
  keeps (λ s, callbacks (trace s) = c) (λ s, callbacks (trace s) = c)
    (bind (for_each (run_call fuel) body) (λ _, tick (pull fuel) w)).
Proof.
  apply keeps_bind;
    [ apply keeps_for_each; intros; apply keeps_run_call
    | intros; apply keeps_tick; [..| apply keeps_pull] ];
    trace_frame callbacks_app.
Qed.

Lemma invoke_then_tick (fuel : nat) (cb : ClientCb) (args : list Arg) (w : wid) (s : World) :
  callbacks (trace (world_of (bind (invoke fuel cb args) (λ _, tick (pull fuel) w) s))) =
  callbacks (trace s) ++ [(cb_name cb, args)].
Proof.
  unfold invoke. munfold. rewrite bind_assoc. unfold bind at 1. simpl.
  apply (ok_world_of (λ s, callbacks (trace s) = _)).
  apply callbacks_quiet. simpl. by rewrite callbacks_app.
Qed.

Lemma Buffer_fill_length (buf data : list byte) :
  length (Buffer_fill buf data) = length buf.
Proof.
  unfold Buffer_fill. rewrite length_take, length_app, length_drop. lia.
Qed.

Lemma Buffer_alloc_length (size : Z) : length (Buffer_alloc size) = Z.to_nat size.
Proof. apply length_replicate. Qed.

(** C2.  The callback of [FS.read], for a read of [size > 0] bytes (the only
    ones that [execIfOps] issues).  With an error of the operating system
    the completion of the op is invoked with that error and [null]; with no
    error and zero bytes read it is invoked with the error ["Could not
    satisfy length"] and [null]; with exactly [size] bytes read it is
    invoked with [null] and the buffer, whose length is [size]; with any
    other count the assertion [read === readSize] fails and the completion
    is not invoked.  In each case no other completion is invoked while the
    reply is handled. *)
Theorem read_completion_policy (fuel : nat) (s : World) (w : wid) (k : PathWorker)
    (fd size offset : Z) (cb : ClientCb) (reply : OsReply) :
  workers s !! w = Some k →
  (0 < size)%Z →
  let o := on_reply fuel (FsRead w fd size offset cb) reply s in
  let s1 := set_workers (<[w := set_inFlightReads (inFlightReads k - 1) k]> (workers s)) s in
  let readData := Buffer_fill (Buffer_alloc size) (os_bytes reply) in
  let before := callbacks (trace s) in
  let after := callbacks (trace (world_of o)) in
  match os_err reply with
  | Some e => after = before ++ [(cb_name cb, [AErr (OSError e); ANull])]
  | None =>
      if (os_num reply =? 0)%Z then
        after = before ++ [(cb_name cb, [AErr (JsError "Could not satisfy length"); ANull])]
      else if (os_num reply =? size)%Z then
        after = before ++ [(cb_name cb, [ANull; ABuf readData])] ∧
        Z.of_nat (length readData) = size
      else
        o = Thrown (AssertionError "read === readSize") s1 ∧ after = before
  end.
Proof.
  intros Hk Hsize. cbv zeta. unfold on_reply. munfold.
  erewrite bind_Done by (by apply upd_worker_run).
  destruct (os_err reply) as [e|].
  { exact (invoke_then_tick fuel cb _ w _). }
  destruct (os_num reply =? 0)%Z.
  { exact (invoke_then_tick fuel cb _ w _). }
  destruct (os_num reply =? size)%Z.
  - split.
    + unfold assert. rewrite (bind_assoc (ret tt)). unfold bind at 1. simpl.
      exact (invoke_then_tick fuel cb _ w _).
    + rewrite Buffer_fill_length, Buffer_alloc_length. lia.
  - split; reflexivity.
Qed.

Lemma read_completion_policy_witness :
  callbacks (trace (world_of
    (on_reply 20 (FsRead 2 7 4 0 (done 9)) (mkOsReply None 4 [x01; x02; x03; x04]) reading_c))) =
  callbacks (trace reading_c) ++ [(9, [ANull; ABuf [x01; x02; x03; x04]])].
Proof.
  assert (workers reading_c !! 2 = Some worker_c) as Hk by (vm_compute; reflexivity).
  assert (0 < 4)%Z as Hsize by lia.
  exact (proj1 (read_completion_policy 20 reading_c 2 worker_c 7 4 0 (done 9)
                  (mkOsReply None 4 [x01; x02; x03; x04]) Hk Hsize)).
Defined.

(** C9.  The callback of [FS.write].  With an error of the operating system
    the completion of the op is invoked with that error; with no error the
    count of bytes written must be the length of the caller's buffer, and
    the completion is then invoked with [null]; a partial write with no
    error fails the assertion [written === writeData.length] and the
    completion is not invoked. *)
Theorem write_completion_policy (fuel : nat) (s : World) (w : wid) (k : PathWorker)
    (fd offset : Z) (data : list byte) (cb : ClientCb) (reply : OsReply) :
  workers s !! w = Some k →
  let o := on_reply fuel (FsWrite w fd data offset cb) reply s in
  let s1 := set_workers (<[w := set_inFlightWrites (inFlightWrites k - 1) k]> (workers s)) s in
  let before := callbacks (trace s) in
  let after := callbacks (trace (world_of o)) in
  match os_err reply with
  | Some e => after = before ++ [(cb_name cb, [AErr (OSError e)])]
  | None =>
      if (os_num reply =? Z.of_nat (length data))%Z then
        after = before ++ [(cb_name cb, [ANull])]
      else
        o = Thrown (AssertionError "written === writeData.length") s1 ∧ after = before
  end.
Proof.
  intros Hk. cbv zeta. unfold on_reply. munfold.
  erewrite bind_Done by (by apply upd_worker_run).
  destruct (os_err reply) as [e|].
  { exact (invoke_then_tick fuel cb _ w _). }
  destruct (os_num reply =? Z.of_nat (length data))%Z.
  - unfold assert. rewrite (bind_assoc (ret tt)). unfold bind at 1. simpl.
    exact (invoke_then_tick fuel cb _ w _).
  - split; reflexivity.
Qed.

Lemma write_completion_policy_witness :
  let s1 := set_workers
              (<[2 := set_inFlightWrites (inFlightWrites worker_c - 1) worker_c]>
                 (workers reading_c)) reading_c in
  on_reply 20 (FsWrite 2 7 [x01; x02] 0 (done 8)) (reply_ok 1) reading_c =
    Thrown (AssertionError "written === writeData.length") s1 ∧
  callbacks (trace (world_of
    (on_reply 20 (FsWrite 2 7 [x01; x02] 0 (done 8)) (reply_ok 1) reading_c))) =
  callbacks (trace reading_c).
Proof.
  assert (workers reading_c !! 2 = Some worker_c) as Hk by (vm_compute; reflexivity).
  exact (write_completion_policy 20 reading_c 2 worker_c 7 0 [x01; x02] (done 8)
           (reply_ok 1) Hk).
Defined.

(** ** The registry of handles *)








(** ** Order of dispatch *)

Lemma submitted_app w t1 t2 : submitted w (t1 ++ t2) = submitted w t1 ++ submitted w t2.
Proof. apply omap_app. Qed.


Lemma queue_of_insert (s : World) (w w' : wid) (k k1 : PathWorker) :
  workers s !! w = Some k →
  queue_of (set_workers (<[w := k1]> (workers s)) s) w' =
  if decide (w = w') then ops k1 else queue_of s w'.
Proof.
  intros Hk. unfold queue_of. simpl. case_decide as Hw.
  - subst. by rewrite list_lookup_insert_eq by (by eapply lookup_lt_Some).
  - by rewrite list_lookup_insert_ne.
Qed.




(** ** Invalid arguments *)




Lemma add_run (pull0 : M unit) (w : wid) (o : Op) (s : World) (k : PathWorker) :
  workers s !! w = Some k →
  add pull0 w o s = tick pull0 w (pushed w o k s).
Proof.
  intros Hk. unfold add. munfold. erewrite bind_Done by (by apply push_op_run).
  reflexivity.
Qed.




(** ** The loop of [execIfOps] *)

Lemma executed_nil (w : wid) (k : PathWorker) (s : World) :
  workers s !! w = Some k → ops k = [] → executed w k s = s.
Proof.
  intros Hk Hops. unfold executed. rewrite Hops. simpl. rewrite !app_nil_r.
  replace (set_ops [] k) with k by (destruct k; simpl in *; by subst).
  rewrite list_insert_id by done. by destruct s.
Qed.

(** What the loop of [execIfOps] does: it never starves; when it ends it has
    issued the whole queue; when it throws, the worker was not open or a
    read had a size [<= 0], and the queues of the scheduler are as before. *)
Lemma exec_loop_effect (turns : nat) :
  ∀ (w : wid) (s : World) (k : PathWorker),
  workers s !! w = Some k → length (ops k) ≤ turns →
  match exec_loop turns w s with
  | Done _ s' => s' = executed w k s
  | Thrown _ s' =>
      scheduleQueue s' = scheduleQueue s ∧ stoppableQueue s' = stoppableQueue s ∧
      (is_open k = false ∨ forallb valid_op (ops k) = false)
  | Starved _ => False
  end.
Proof.
  induction turns as [|turns IH]; intros w s k Hk Hlen.
  - destruct (ops k) eqn:Hops; [|simpl in Hlen; lia].
    simpl. munfold. erewrite bind_Done by (by apply get_worker_run).
    rewrite Hops. simpl. by rewrite executed_nil.
  - simpl. munfold. erewrite bind_Done by (by apply get_worker_run).
    destruct (ops k) as [|o rest] eqn:Hops; simpl.
    { by rewrite executed_nil. }
    fold (is_open k). destruct (is_open k) eqn:Hopen; simpl; [|auto].
    unfold bind at 1. simpl. rewrite <- bind_assoc.
    simpl in Hlen.
    destruct o as [offset size cb|offset data cb].
    + pose proof (exec_turn_read w s k rest offset size cb Hk) as Hturn.
      cbv zeta in Hturn. unfold bind at 1.
      destruct (0 <? size)%Z eqn:Hsize; rewrite Hturn;
        [|split_and!; [done | done | right; simpl; rewrite Hsize; reflexivity]].
      match goal with |- match exec_loop _ _ ?s1 with _ => _ end =>
        specialize (IH w s1 (set_inFlightReads (inFlightReads k + 1) (set_ops rest k)))
      end.
      destruct (exec_loop turns w _) as [[] s'|e s'|s'].
      * rewrite IH; [| simpl; apply list_lookup_insert_eq; by eapply lookup_lt_Some | simpl; lia].
        unfold executed. simpl. rewrite Hops. simpl.
        rewrite list_insert_insert_eq, <- !app_assoc. reflexivity.
      * destruct IH as (? & ? & Hwhy);
          [simpl; apply list_lookup_insert_eq; by eapply lookup_lt_Some | simpl; lia |].
        split_and!; [done | done |]. destruct Hwhy as [Hwhy|Hwhy];
          [|right; simpl in *; rewrite Hwhy; by rewrite ?andb_false_r].
        left. by rewrite <- Hwhy.
      * apply IH; [simpl; apply list_lookup_insert_eq; by eapply lookup_lt_Some | simpl; lia].
    + pose proof (exec_turn_write w s k rest offset data cb Hk) as Hturn.
      cbv zeta in Hturn. unfold bind at 1. rewrite Hturn.
      match goal with |- match exec_loop _ _ ?s1 with _ => _ end =>
        specialize (IH w s1 (set_inFlightWrites (inFlightWrites k + 1) (set_ops rest k)))
      end.
      destruct (exec_loop turns w _) as [[] s'|e s'|s'].
      * rewrite IH; [| simpl; apply list_lookup_insert_eq; by eapply lookup_lt_Some | simpl; lia].
        unfold executed. simpl. rewrite Hops. simpl.
        rewrite list_insert_insert_eq, <- !app_assoc. reflexivity.
      * destruct IH as (? & ? & Hwhy);
          [simpl; apply list_lookup_insert_eq; by eapply lookup_lt_Some | simpl; lia |].
        split_and!; [done | done |]. destruct Hwhy as [Hwhy|Hwhy];
          [|right; simpl in *; rewrite Hwhy; by rewrite ?andb_false_r].
        left. by rewrite <- Hwhy.
      * apply IH; [simpl; apply list_lookup_insert_eq; by eapply lookup_lt_Some | simpl; lia].
Qed.

Lemma execIfOps_effect (w : wid) (s : World) (k : PathWorker) :
  workers s !! w = Some k →
  match execIfOps w s with
  | Done _ s' => s' = executed w k s
  | Thrown _ s' =>
      scheduleQueue s' = scheduleQueue s ∧ stoppableQueue s' = stoppableQueue s ∧
      (is_open k = false ∨ forallb valid_op (ops k) = false)
  | Starved _ => False
  end.
Proof.
  intros Hk. unfold execIfOps. munfold.
  erewrite bind_Done by (by apply get_worker_run). by apply exec_loop_effect.
Qed.

(** When the worker is open and every queued read has a size [> 0],
    [execIfOps] issues the requests of the whole queue, in order. *)
Lemma execIfOps_run (w : wid) (s : World) (k : PathWorker) :
  workers s !! w = Some k →
  is_open k = true → forallb valid_op (ops k) = true →
  execIfOps w s = Done tt (executed w k s).
Proof.
  intros Hk Hopen Hvalid. pose proof (execIfOps_effect w s k Hk) as H.
  destruct (execIfOps w s) as [[] s'|e s'|s'].
  - by subst.
  - destruct H as (_ & _ & [H|H]); congruence.
  - done.
Qed.

(** ** Termination of [pull] *)

Lemma same_queues_refl s : same_queues s s.
Proof. by split. Qed.

Lemma same_queues_mu s s' : same_queues s s' → mu s' = mu s.
Proof. intros [H1 H2]. unfold mu. by rewrite H1, H2. Qed.

Lemma calm_bind {A B} (m : M A) (f : A → M B) (s : World) :
  calm s (m s) → (∀ a s1, m s = Done a s1 → calm s1 (f a s1)) → calm s (bind m f s).
Proof.
  unfold bind. destruct (m s) as [a s1|e s1|s1]; simpl; [|done..].
  intros [H1 H2] Hf. specialize (Hf a s1 eq_refl).
  destruct (f a s1); simpl in *; [| |done]; destruct Hf as [H3 H4];
    split; congruence.
Qed.

Lemma Calm_bind {A B} (m : M A) (f : A → M B) :
  Calm m → (∀ a, Calm (f a)) → Calm (bind m f).
Proof. intros Hm Hf s. apply calm_bind; [apply Hm | intros; apply Hf]. Qed.

Lemma calm_settles {A} (s : World) (o : Outcome A) : calm s o → settles 0 s o.
Proof.
  destruct o; simpl; [|done..]. intros H.
  rewrite (same_queues_mu _ _ H). destruct H as [-> _]. lia.
Qed.

Lemma settles_mono {A} (d d' : nat) (s : World) (o : Outcome A) :
  d ≤ d' → settles d s o → settles d' s o.
Proof. destruct o; simpl; [|done..]. lia. Qed.

Lemma settles_bind {A B} (d1 d2 : nat) (m : M A) (f : A → M B) (s : World) :
  settles d1 s (m s) →
  (∀ a s1, m s = Done a s1 → settles d2 s1 (f a s1)) →
  settles (d1 + d2) s (bind m f s).
Proof.
  unfold bind. destruct (m s) as [a s1|e s1|s1]; simpl; [|done..].
  intros [H1 H2] Hf. specialize (Hf a s1 eq_refl).
  destruct (f a s1); simpl in *; [|done..]. lia.
Qed.

Lemma settles_calm_bind {A B} (d : nat) (m : M A) (f : A → M B) (s : World) :
  calm s (m s) →
  (∀ a s1, m s = Done a s1 → same_queues s s1 → settles d s1 (f a s1)) →
  settles d s (bind m f s).
Proof.
  intros Hm Hf. apply (settles_bind 0 d); [by apply calm_settles|].
  intros a s1 Heq. apply Hf; [done|]. by rewrite Heq in Hm.
Qed.

Lemma Calm_ret {A} (a : A) : Calm (ret a).
Proof. intros s. apply same_queues_refl. Qed.
Lemma Calm_throw {A} (e : Error) : Calm (@throw A e).
Proof. intros s. apply same_queues_refl. Qed.
Lemma Calm_assert (b : bool) (expr : string) : Calm (assert b expr).
Proof. destruct b; [apply Calm_ret | apply Calm_throw]. Qed.
Lemma Calm_get_worker (w : wid) : Calm (get_worker w).
Proof. intros s. unfold get_worker. destruct (workers s !! w); apply same_queues_refl. Qed.
Lemma Calm_upd_worker (w : wid) (f : PathWorker → PathWorker) : Calm (upd_worker w f).
Proof.
  intros s. unfold upd_worker, get_worker, modify. munfold. unfold bind.
  destruct (workers s !! w); simpl; by split.
Qed.
Lemma Calm_issue (r : IoReq) : Calm (issue r).
Proof. intros s. by split. Qed.
Lemma Calm_set_active (n : Z) : Calm (set_active n).
Proof. intros s. by split. Qed.

Lemma Calm_execIfOps (w : wid) : Calm (execIfOps w).
Proof.
  intros s. destruct (workers s !! w) as [k|] eqn:Hk.
  - pose proof (execIfOps_effect w s k Hk) as H.
    destruct (execIfOps w s); simpl; [subst; by split | by destruct H as (? & ? & _) | done].
  - unfold execIfOps, get_worker. munfold. unfold bind. rewrite Hk. apply same_queues_refl.
Qed.

Ltac calm_step :=
  cbv zeta; munfold;
  lazymatch goal with
  | |- Calm (bind _ _) => apply Calm_bind; [| intros ?]
  | |- Calm (ret _) => apply Calm_ret
  | |- Calm (throw _) => apply Calm_throw
  | |- Calm (assert _ _) => apply Calm_assert
  | |- Calm (get_worker _) => apply Calm_get_worker
  | |- Calm (upd_worker _ _) => apply Calm_upd_worker
  | |- Calm (issue _) => apply Calm_issue
  | |- Calm (set_active _) => apply Calm_set_active
  | |- Calm (execIfOps _) => apply Calm_execIfOps
  | |- Calm (match ?x with _ => _ end) => destruct x eqn:?
  end.

Lemma Calm_open (w : wid) : Calm (open w).
Proof. unfold open. repeat calm_step. Qed.

Lemma Calm_closeIfDrained (w : wid) : Calm (closeIfDrained w).
Proof. unfold closeIfDrained. repeat calm_step. Qed.

Lemma in_flight_after_control l k : control (in_flight_after l k) = control k.
Proof. revert k. induction l as [|[] l IH]; intros k; simpl; [done|by rewrite IH..]. Qed.
Lemma in_flight_after_state l k : state (in_flight_after l k) = state k.
Proof. revert k. induction l as [|[] l IH]; intros k; simpl; [done|by rewrite IH..]. Qed.
Lemma in_flight_after_startCb l k : startCb (in_flight_after l k) = startCb k.
Proof. revert k. induction l as [|[] l IH]; intros k; simpl; [done|by rewrite IH..]. Qed.
Lemma in_flight_after_stopCb l k : stopCb (in_flight_after l k) = stopCb k.
Proof. revert k. induction l as [|[] l IH]; intros k; simpl; [done|by rewrite IH..]. Qed.
Lemma in_flight_after_fd l k : fd (in_flight_after l k) = fd k.
Proof. revert k. induction l as [|[] l IH]; intros k; simpl; [done|by rewrite IH..]. Qed.
Lemma in_flight_after_ops l k : ops (in_flight_after l k) = ops k.
Proof. revert k. induction l as [|[] l IH]; intros k; simpl; [done|by rewrite IH..]. Qed.

(** [tick], branch by branch. *)
Lemma tick_at_run (pull0 : M unit) (depth : nat) (w : wid) (s : World) (k : PathWorker) :
  workers s !! w = Some k →
  tick_at pull0 depth w s =
  let tick_again : M unit :=
    match depth with O => starve | S depth' => tick_at pull0 depth' w end in
  match control k, state k with
  | Start, Opened => notify_started pull0 w s
  | Start, Draining => bind (upd_worker w (set_state Opened)) (λ _, tick_again) s
  | Start, Closed => open w s
  | Stop, Opened =>
      bind (execIfOps w) (λ _,
        bind (upd_worker w (set_state Draining)) (λ _, tick_again)) s
  | Stop, Draining => closeIfDrained w s
  | Stop, Closed => notify_stopped pull0 w k s
  | _, _ => Done tt s
  end.
Proof.
  intros Hk. destruct depth; simpl; munfold;
    (erewrite bind_Done by (by apply get_worker_run));
    destruct (control k), (state k); reflexivity.
Qed.

Lemma tick_at_fail (pull0 : M unit) (depth : nat) (w : wid) (s : World) :
  workers s !! w = None →
  tick_at pull0 depth w s = Thrown (TypeError "pathWorker is undefined") s.
Proof.
  intros Hk. destruct depth; simpl; munfold; unfold bind, get_worker; by rewrite Hk.
Qed.

(** What [pull] does to the queues, given that the calls of [pull] from
    callbacks settle in every world of measure below [n]. *)
Section Termination.

Variable pull0 : M unit.
Variable n : nat.
Hypothesis pull0_settles : ∀ s, mu s < n → settles 0 s (pull0 s).

Lemma call_settles (cb : Callback) (s : World) :
  mu s + 1 < n → settles 1 s (call pull0 cb s).
Proof.
  intros Hmu. destruct cb as [v|]; simpl; munfold.
  - unfold bind at 1, modify. simpl.
    match goal with |- settles _ _ (pull0 ?s1) =>
      pose proof (pull0_settles s1) as H; destruct (pull0 s1); simpl in *;
      unfold mu, deque_push in *; simpl in *; rewrite ?length_app in *; simpl in *
    end; [|done|]; [|apply H; lia].
    destruct H; lia.
  - unfold bind at 1. simpl. unfold bind, set_active, modify.
    match goal with |- settles _ _ (pull0 ?s1) =>
      pose proof (pull0_settles s1) as H; destruct (pull0 s1); simpl in *;
      unfold mu in *; simpl in *
    end; [|done|]; [|apply H; lia].
    destruct H; lia.
Qed.

Lemma call_stopped_settles (s : World) :
  mu s < n → settles 0 s (call pull0 OnStopped s).
Proof.
  intros Hmu. simpl; munfold.
  unfold bind at 1. simpl. unfold bind, set_active, modify.
  match goal with |- settles _ _ (pull0 ?s1) =>
    pose proof (pull0_settles s1) as H; destruct (pull0 s1); simpl in *;
    unfold mu in *; simpl in *
  end; [|done|]; [|apply H; lia].
  destruct H; lia.
Qed.

Lemma notify_started_settles (w : wid) (s : World) :
  mu s + 1 < n → settles 1 s (notify_started pull0 w s).
Proof.
  intros Hmu. unfold notify_started.
  apply settles_calm_bind; [apply Calm_execIfOps|]. intros _ s1 _ Hq1.
  apply settles_calm_bind; [apply Calm_get_worker|]. intros k' s2 _ Hq2.
  destruct (startCb k') as [cb|]; [|simpl; lia].
  change 1 with (1 + 0). apply settles_bind.
  - apply call_settles. rewrite (same_queues_mu _ _ Hq2), (same_queues_mu _ _ Hq1). lia.
  - intros. apply calm_settles, Calm_upd_worker.
Qed.

Lemma notify_stopped_settles (w : wid) (k : PathWorker) (s : World) :
  mu s + 1 < n → settles 1 s (notify_stopped pull0 w k s).
Proof.
  intros Hmu. unfold notify_stopped.
  destruct (stopCb k) as [cb|]; [|simpl; lia].
  change 1 with (1 + 0). apply settles_bind.
  - by apply call_settles.
  - intros. apply calm_settles, Calm_upd_worker.
Qed.

Lemma tick_settles (w : wid) (s : World) :
  mu s + 1 < n → settles 1 s (tick pull0 w s).
Proof.
  intros Hmu. unfold tick.
  destruct (workers s !! w) as [k|] eqn:Hk; [|by rewrite tick_at_fail].
  rewrite (tick_at_run _ _ _ _ k) by done. cbv zeta.
  destruct (control k) eqn:Hc, (state k) eqn:Hs; try (simpl; lia).
  - apply (settles_mono 0); [lia|]. apply calm_settles, Calm_open.
  - by apply notify_started_settles.
  - erewrite bind_Done by (by apply upd_worker_run).
    erewrite tick_at_run
      by (simpl; apply list_lookup_insert_eq; by eapply lookup_lt_Some).
    simpl. rewrite Hc. exact (notify_started_settles w (set_workers _ s) Hmu).
  - by apply notify_stopped_settles.
  - apply (settles_mono 0); [lia|].
    apply settles_calm_bind; [apply Calm_execIfOps|]. intros [] s1 Hrun Hq1.
    pose proof (execIfOps_effect w s k Hk) as Heff. rewrite Hrun in Heff. subst s1.
    erewrite bind_Done
      by (apply upd_worker_run; simpl; apply list_lookup_insert_eq; by eapply lookup_lt_Some).
    erewrite tick_at_run
      by (simpl; apply list_lookup_insert_eq; rewrite length_insert; by eapply lookup_lt_Some).
    simpl. rewrite in_flight_after_control. simpl. rewrite Hc.
    match goal with |- settles _ _ (closeIfDrained w ?s2) =>
      exact (calm_settles s2 _ (Calm_closeIfDrained w s2))
    end.
  - apply (settles_mono 0); [lia|]. apply calm_settles, Calm_closeIfDrained.
Qed.

Lemma tick_stop_settles (w : wid) (s : World) (k : PathWorker) :
  workers s !! w = Some k → control k = Stop →
  stopCb k = None ∨ stopCb k = Some OnStopped →
  mu s < n → settles 0 s (tick pull0 w s).
Proof.
  intros Hk Hc Hcb Hmu. unfold tick.
  rewrite (tick_at_run _ _ _ _ k) by done. cbv zeta. rewrite Hc.
  destruct (state k) eqn:Hs; try (simpl; lia).
  - unfold notify_stopped. destruct Hcb as [-> | ->]; [simpl; lia|].
    change 0 with (0 + 0). apply settles_bind.
    + by apply call_stopped_settles.
    + intros. apply calm_settles, Calm_upd_worker.
  - apply settles_calm_bind; [apply Calm_execIfOps|]. intros [] s1 Hrun Hq1.
    pose proof (execIfOps_effect w s k Hk) as Heff. rewrite Hrun in Heff. subst s1.
    erewrite bind_Done
      by (apply upd_worker_run; simpl; apply list_lookup_insert_eq; by eapply lookup_lt_Some).
    erewrite tick_at_run
      by (simpl; apply list_lookup_insert_eq; rewrite length_insert; by eapply lookup_lt_Some).
    simpl. rewrite in_flight_after_control. simpl. rewrite Hc.
    match goal with |- settles _ _ (closeIfDrained w ?s2) =>
      exact (calm_settles s2 _ (Calm_closeIfDrained w s2))
    end.
  - apply calm_settles, Calm_closeIfDrained.
Qed.

Lemma start_settles (w : wid) (cb : option Callback) (s : World) :
  mu s + 1 < n → settles 1 s (start pull0 w cb s).
Proof.
  intros Hmu. unfold start. munfold.
  apply settles_calm_bind; [apply Calm_upd_worker|]. intros _ s1 _ Hq1.
  apply settles_calm_bind.
  { destruct cb; [|apply Calm_ret]. revert s1 Hq1. 
    change (∀ s1, same_queues s s1 → calm s1 (bind (get_worker w) (λ k, bind (assert (is_null (startCb k)) "!this.startCb") (λ _, upd_worker w (set_startCb (Some c)))) s1)).
    intros s1 _. revert s1.
    change (Calm (bind (get_worker w) (λ k, bind (assert (is_null (startCb k)) "!this.startCb") (λ _, upd_worker w (set_startCb (Some c)))))).
    repeat calm_step. }
  intros _ s2 _ Hq2. apply tick_settles.
  rewrite (same_queues_mu _ _ Hq2), (same_queues_mu _ _ Hq1). lia.
Qed.

Lemma stop_settles (w : wid) (s : World) :
  mu s < n → settles 0 s (stop pull0 w (Some OnStopped) s).
Proof.
  intros Hmu. unfold stop. munfold.
  destruct (workers s !! w) as [k|] eqn:Hk.
  2:{ unfold bind, upd_worker, get_worker. munfold. unfold bind. by rewrite Hk. }
  erewrite bind_Done by (by apply upd_worker_run).
  erewrite bind_Done
    by (apply get_worker_run; simpl; apply list_lookup_insert_eq; by eapply lookup_lt_Some).
  simpl. destruct (is_null (stopCb k)); [|done].
  unfold assert, bind at 1. simpl.
  erewrite bind_Done
    by (apply upd_worker_run; simpl; apply list_lookup_insert_eq; by eapply lookup_lt_Some).
  match goal with |- settles _ _ (tick pull0 w ?s2) =>
    refine (tick_stop_settles w s2 (set_stopCb (Some OnStopped) (set_control Stop k)) _ _ _ _)
  end;
    [simpl; apply list_lookup_insert_eq; rewrite length_insert; by eapply lookup_lt_Some
    | done | by right | done].
Qed.

Lemma pull_iter_settles (s : World) :
  mu s ≤ n →
  match pull_iter pull0 s with
  | Done Return s' => s' = s
  | Done Continue s' =>
      length (scheduleQueue s') ≤ length (scheduleQueue s) ∧ mu s' < mu s
  | Thrown _ _ => True
  | Starved _ => False
  end.
Proof.
  intros Hmu. unfold pull_iter. munfold. unfold bind at 1. simpl.
  destruct (scheduleQueue s) as [|w rest] eqn:Hsched; simpl; [done|].
  destruct (negb _ && _) eqn:Hgo; [done|].
  unfold bind at 1. simpl.
  set (s1 := set_scheduleQueue rest s).
  assert (mu s1 + 2 = mu s) as Hmu1 by (unfold mu, s1; simpl; rewrite Hsched; simpl; lia).
  assert (length (scheduleQueue s1) + 1 = length (scheduleQueue s)) as Hlen1
    by (unfold s1; simpl; rewrite Hsched; simpl; lia).
  destruct (workers s1 !! w) as [k|] eqn:Hk.
  2:{ unfold bind, get_worker. by rewrite Hk. }
  erewrite bind_Done by (by apply get_worker_run).
  destruct (control k); [simpl; lia|].
  destruct (negb (State_eqb (state k) Closed)).
  { pose proof (start_settles w None s1) as H.
    unfold bind. destruct (start pull0 w None s1); simpl in *; [|done|apply H; lia].
    destruct H; lia. }
  destruct (numActivePathWorkers s <? maxOpenFiles s)%Z.
  { unfold bind at 1. simpl. unfold bind at 1. unfold set_active, modify.
    match goal with |- context [bind (start pull0 w ?cb) _ ?s2] =>
      pose proof (start_settles w cb s2) as H;
      unfold bind; destruct (start pull0 w cb s2); simpl in *;
      unfold mu in *; simpl in *
    end; [|done|apply H; lia].
    destruct H; lia. }
  simpl in Hgo. destruct (stoppableQueue s) as [|v vs] eqn:Hstop; [done|]. simpl.
  unfold bind at 1. simpl. rewrite Hstop. simpl.
  unfold bind at 1. simpl.
  match goal with |- context [bind (stop pull0 v ?cb) _ ?s2] =>
    pose proof (stop_settles v s2) as H;
    unfold bind at 1; destruct (stop pull0 v cb s2); simpl in *;
    unfold mu in *; simpl in *; rewrite ?Hstop, ?Hsched in *; simpl in *
  end; [|done|apply H; lia].
  destruct H; lia.
Qed.

End Termination.

Lemma pull_settles (fuel : nat) (s : World) :
  mu s < fuel → settles 0 s (pull fuel s).
Proof.
  revert s. induction fuel as [|fuel IH]; intros s Hmu; [lia|].
  simpl. munfold. pose proof (pull_iter_settles (pull fuel) fuel IH s) as H.
  unfold bind. destruct (pull_iter (pull fuel) s) as [[] s'|e s'|s']; simpl.
  - rewrite H by lia. simpl. lia.
  - destruct H as [H1 H2]; [lia|].
    pose proof (IH s') as H'. destruct (pull fuel s'); simpl in *; [|done|apply H'; lia].
    destruct H'; lia.
  - done.
  - apply H. lia.
Qed.

#[local] Arguments tick_at : simpl never.

Ltac lookup_same :=
  simpl; apply list_lookup_insert_eq; rewrite ?length_insert; by eapply lookup_lt_Some.

Lemma calm_same_queues {A} (s : World) (o : Outcome A) :
  calm s o → same_queues s (world_of o).
Proof. by destruct o. Qed.

(** [start] on a closed worker opens the file: no callback runs. *)
Lemma start_closed_calm (pull0 : M unit) (w : wid) (cb : option Callback)
    (s : World) (k : PathWorker) :
  workers s !! w = Some k → state k = Closed → calm s (start pull0 w cb s).
Proof.
  intros Hk Hs. unfold start. munfold.
  erewrite bind_Done by (by apply upd_worker_run).
  destruct cb as [c|].
  - erewrite (bind_assoc (get_worker w)).
    erewrite bind_Done by (apply get_worker_run; lookup_same).
    simpl. destruct (is_null (startCb k)); [|by split].
    unfold assert. rewrite (bind_assoc (ret tt)). unfold bind at 1. simpl.
    erewrite bind_Done by (apply upd_worker_run; lookup_same).
    unfold tick. erewrite tick_at_run by lookup_same. simpl. rewrite Hs.
    match goal with |- calm _ (open w ?s2) => exact (Calm_open w s2) end.
  - unfold bind at 1. simpl.
    unfold tick. erewrite tick_at_run by lookup_same. simpl. rewrite Hs.
    match goal with |- calm _ (open w ?s2) => exact (Calm_open w s2) end.
Qed.

(** [start(null)] on a draining worker with no start callback pending goes
    back to [opened] and executes the queue: no callback runs. *)
Lemma start_draining_calm (pull0 : M unit) (w : wid) (s : World) (k : PathWorker) :
  workers s !! w = Some k → state k = Draining → startCb k = None →
  calm s (start pull0 w None s).
Proof.
  intros Hk Hs Hcb. unfold start. munfold.
  erewrite bind_Done by (by apply upd_worker_run).
  unfold bind at 1. simpl.
  unfold tick. erewrite tick_at_run by lookup_same. simpl. rewrite Hs.
  erewrite bind_Done by (apply upd_worker_run; lookup_same).
  erewrite tick_at_run by lookup_same. simpl.
  unfold notify_started.
  match goal with |- calm _ (bind (execIfOps w) _ ?s2) =>
    pose proof (execIfOps_effect w s2 (set_state Opened (set_control Start k))) as Heff;
    unfold bind at 1; destruct (execIfOps w s2) as [[] s3|e s3|s3]
  end.
  - rewrite Heff by lookup_same.
    erewrite bind_Done by (apply get_worker_run; lookup_same).
    rewrite in_flight_after_startCb. simpl. rewrite Hcb. by split.
  - destruct Heff as (? & ? & _); [lookup_same|]. by split.
  - apply Heff. lookup_same.
Qed.

(** [stop] on an opened worker executes the queue and drains: no callback
    runs. *)
Lemma stop_opened_calm (pull0 : M unit) (w : wid) (cb : option Callback)
    (s : World) (k : PathWorker) :
  workers s !! w = Some k → state k = Opened → calm s (stop pull0 w cb s).
Proof.
  intros Hk Hs. unfold stop. munfold.
  erewrite bind_Done by (by apply upd_worker_run).
  erewrite bind_Done by (apply get_worker_run; lookup_same).
  simpl. destruct (is_null (stopCb k)); [|by split].
  unfold assert, bind at 1. simpl.
  erewrite bind_Done by (apply upd_worker_run; lookup_same).
  unfold tick. erewrite tick_at_run by lookup_same. simpl. rewrite Hs.
  match goal with |- calm _ (bind (execIfOps w) _ ?s2) =>
    pose proof (execIfOps_effect w s2 (set_stopCb cb (set_control Stop k))) as Heff;
    unfold bind at 1; destruct (execIfOps w s2) as [[] s3|e s3|s3]
  end.
  - rewrite Heff by lookup_same.
    erewrite bind_Done by (apply upd_worker_run; lookup_same).
    erewrite tick_at_run by lookup_same. simpl.
    rewrite in_flight_after_control. simpl.
    match goal with |- calm _ (closeIfDrained w ?s4) => exact (Calm_closeIfDrained w s4) end.
  - destruct Heff as (? & ? & _); [lookup_same|]. by split.
  - apply Heff. lookup_same.
Qed.

(** C10.  Every invocation of [pull] terminates: with more fuel than
    [2 * |scheduleQueue| + |stoppableQueue|] the loop never starves.  Each
    iteration returns (leaving the world as it is), or leaves the schedule
    queue shorter, or leaves it as long as it was and the stoppable queue
    shorter.  The synchronous calls of an iteration invoke no callback and
    leave both queues alone: [start] of a closed worker (it issues the open),
    [start(null)] of a draining worker that has no start callback pending
    (it goes back to [opened] and issues its ops), [stop] of an opened
    worker (it issues its ops and drains). *)
Theorem pull_terminates :
  (∀ s fuel, mu s < fuel → is_starved (pull fuel s) = false) ∧
  (∀ s fuel c s',
     mu s ≤ fuel → pull_iter (pull fuel) s = Done c s' →
     match c with
     | Return => s' = s
     | Continue =>
         length (scheduleQueue s') < length (scheduleQueue s) ∨
         (length (scheduleQueue s') = length (scheduleQueue s) ∧
          length (stoppableQueue s') < length (stoppableQueue s))
     end) ∧
  (∀ pull0 w cb s k,
     workers s !! w = Some k → state k = Closed →
     same_queues s (world_of (start pull0 w cb s))) ∧
  (∀ pull0 w s k,
     workers s !! w = Some k → state k = Draining → startCb k = None →
     same_queues s (world_of (start pull0 w None s))) ∧
  (∀ pull0 w cb s k,
     workers s !! w = Some k → state k = Opened →
     same_queues s (world_of (stop pull0 w cb s))).
Proof.
  split_and!.
  - intros s fuel Hmu. pose proof (pull_settles fuel s Hmu) as H.
    by destruct (pull fuel s).
  - intros s fuel c s' Hmu Hrun.
    pose proof (pull_iter_settles (pull fuel) fuel (pull_settles fuel) s Hmu) as H.
    rewrite Hrun in H. destruct c; [done|]. unfold mu in H. lia.
  - intros. by eapply calm_same_queues, start_closed_calm.
  - intros. by eapply calm_same_queues, start_draining_calm.
  - intros. by eapply calm_same_queues, stop_opened_calm.
Qed.

(** ** Rescue and eviction *)



Lemma closeIfDrained_run (w : wid) (s : World) (k : PathWorker) :
  workers s !! w = Some k → is_open k = true →
  closeIfDrained w s =
  if ((inFlightReads k =? 0) && (inFlightWrites k =? 0))%Z
  then Done tt (set_trace (trace s ++ [EvIssue (FsClose w (fd k))])
                  (set_pending (pending s ++ [FsClose w (fd k)])
                     (set_workers (<[w := set_state Closing k]> (workers s)) s)))
  else Done tt s.
Proof.
  intros Hk Hopen. unfold closeIfDrained. munfold.
  erewrite bind_Done by (by apply get_worker_run).
  fold (is_open k). rewrite Hopen. unfold assert, bind at 1. simpl.
  destruct ((inFlightReads k =? 0) && (inFlightWrites k =? 0))%Z; [|done].
  erewrite bind_Done by (by apply upd_worker_run). reflexivity.
Qed.

Lemma stop_opened_run (pull0 : M unit) (v : wid) (cb : option Callback)
    (s : World) (kv : PathWorker) :
  workers s !! v = Some kv → state kv = Opened → stopCb kv = None →
  forallb valid_op (ops kv) = true →
  stop pull0 v cb s =
  let k1 := set_stopCb cb (set_control Stop kv) in
  let s1 := executed v k1 (set_workers (<[v := k1]> (workers s)) s) in
  let k2 := set_state Draining (in_flight_after (ops kv) (set_ops [] k1)) in
  closeIfDrained v (set_workers (<[v := k2]> (workers s1)) s1).
Proof.
  intros Hk Hs Hcb Hvalid. unfold stop. munfold.
  erewrite bind_Done by (by apply upd_worker_run).
  erewrite bind_Done by (apply get_worker_run; lookup_same).
  simpl. rewrite Hcb. simpl. unfold bind at 1. simpl.
  erewrite bind_Done by (apply upd_worker_run; lookup_same).
  unfold tick. erewrite tick_at_run by lookup_same. simpl. rewrite Hs.
  rewrite list_insert_insert_eq.
  erewrite bind_Done
    by (apply execIfOps_run; [lookup_same | unfold is_open; simpl; by rewrite Hs | done]).
  erewrite bind_Done by (apply upd_worker_run; unfold executed; lookup_same).
  erewrite tick_at_run by (unfold executed; lookup_same).
  simpl. rewrite in_flight_after_control. simpl. reflexivity.
Qed.

Lemma closeIfDrained_effect (v : wid) (s : World) (k : PathWorker) :
  workers s !! v = Some k → is_open k = true →
  ∃ s' k',
    closeIfDrained v s = Done tt s' ∧
    same_queues s s' ∧
    numActivePathWorkers s' = numActivePathWorkers s ∧
    workers s' !! v = Some k' ∧
    control k' = control k ∧ stopCb k' = stopCb k ∧
    (state k' = state k ∨ state k' = Closing) ∧
    (∀ w, w ≠ v → workers s' !! w = workers s !! w).
Proof.
  intros Hk Hopen. rewrite (closeIfDrained_run v s k Hk Hopen).
  destruct (_ && _)%Z.
  - eexists _, (set_state Closing k). split; [reflexivity|].
    split_and!; try done; simpl.
    + apply list_lookup_insert_eq. by eapply lookup_lt_Some.
    + by right.
    + intros w Hne. by apply list_lookup_insert_ne.
  - exists s, k. split_and!; try done. by left.
Qed.

Lemma stop_opened_effect (pull0 : M unit) (v : wid) (cb : option Callback)
    (s : World) (kv : PathWorker) :
  workers s !! v = Some kv → state kv = Opened → stopCb kv = None →
  forallb valid_op (ops kv) = true →
  ∃ s' k',
    stop pull0 v cb s = Done tt s' ∧
    same_queues s s' ∧
    numActivePathWorkers s' = numActivePathWorkers s ∧
    workers s' !! v = Some k' ∧
    control k' = Stop ∧ stopCb k' = cb ∧
    (state k' = Draining ∨ state k' = Closing) ∧
    (∀ w, w ≠ v → workers s' !! w = workers s !! w).
Proof.
  intros Hk Hs Hcb Hvalid.
  rewrite (stop_opened_run pull0 v cb s kv Hk Hs Hcb Hvalid). cbv zeta.
  set (k1 := set_stopCb cb (set_control Stop kv)).
  set (k2 := set_state Draining (in_flight_after (ops kv) (set_ops [] k1))).
  set (s1 := executed v k1 (set_workers (<[v := k1]> (workers s)) s)).
  set (s2 := set_workers (<[v := k2]> (workers s1)) s1).
  assert (workers s2 !! v = Some k2) as Hk2.
  { unfold s2, s1, executed. lookup_same. }
  assert (is_open k2 = true) as Hopen by reflexivity.
  destruct (closeIfDrained_effect v s2 k2 Hk2 Hopen)
    as (s' & k' & Hrun & [Hq1 Hq2] & Hnum & Hk' & Hc & Hscb & Hst & Hother).
  exists s', k'. split; [done|].
  assert (control k2 = Stop) as Hc2
    by (unfold k2; simpl; by rewrite in_flight_after_control).
  assert (stopCb k2 = cb) as Hcb2
    by (unfold k2; simpl; by rewrite in_flight_after_stopCb).
  split_and!; try congruence.
  - split; [rewrite Hq1 | rewrite Hq2]; reflexivity.
  - rewrite Hnum. reflexivity.
  - destruct Hst as [->|]; [by left | by right].
  - intros w Hne. rewrite Hother by done. unfold s2, s1, executed. simpl.
    by rewrite !list_lookup_insert_ne.
Qed.





(** ** The stoppable queue after a rescue *)

(** C4 fails on the code.  With a budget of two: ["a"] and ["c"] are open,
    a write to ["b"] evicts both, ["c"] closes and ["b"] opens while ["a"]
    still drains; a write to ["a"] then makes [pull] rescue it with
    [start(null)].  Once all the writes have completed, ["a"] is opened
    under [start], its queue is empty, both of its writes were issued and
    nothing is in flight: yet it is not on the stoppable queue, which holds
    ["b"] only.  The stop callback of the eviction is still pending on
    ["a"], which counts against the budget and can no longer be evicted. *)
Theorem rescued_worker_is_not_stoppable :
  ∃ s k,
    run 20 a_is_rescued store2 = Done tt s ∧
    workers s !! 0 = Some k ∧
    control k = Start ∧ state k = Opened ∧ ops k = [] ∧
    inFlightReads k = 0%Z ∧ inFlightWrites k = 0%Z ∧
    dispatched 0 (trace s) = [Write 0 [x01] (done 1); Write 5 [x03] (done 4)] ∧
    pending s = [] ∧
    (0 ∉ stoppableQueue s) ∧
    stoppableQueue s = [1] ∧
    stopCb k = Some OnStopped ∧
    numActivePathWorkers s = 2%Z.
Proof.
  eexists _, _. split; [vm_compute; reflexivity|].
  split; [vm_compute; reflexivity|].
  split_and!; try reflexivity.
  intros H. repeat (apply elem_of_cons in H as [H|H]; [discriminate|]).
  by apply elem_of_nil in H.
Qed.

(** ** What every execution keeps of the stoppable queue

    The rescue does not put a worker on the stoppable queue; the queue
    itself stays sound: [stoppable_ok] holds of every world that an
    execution passes through, and the callbacks that are pending between
    two turns of the event loop are those of [regular]. *)

Lemma Inv_stoppable_ok x s : Inv x s → stoppable_ok s.
Proof. by intros [H _]. Qed.

Lemma regular_None x j k : regular None j k → regular x j k.
Proof.
  intros [H1 H2]. split; [|done]. intros cb Hcb.
  destruct (H1 cb Hcb) as [-> [H|H]]; [|done]. split; [done|by left].
Qed.

Lemma Inv_None x s : Inv None s → Inv x s.
Proof. intros [H1 H2]. split; [done|]. intros j k Hk. by apply regular_None, H2. Qed.

Lemma post_bind {A B} (x : option wid) (m : M A) (f : A → M B) (s : World) :
  post x (m s) → (∀ a s1, m s = Done a s1 → Inv x s1 → post x (f a s1)) →
  post x (bind m f s).
Proof. unfold bind. destruct (m s) as [a s1|e s1|s1]; simpl; eauto. Qed.

(** A worker of [s] is replaced by one with the same control, state and
    callbacks. *)
Lemma Inv_worker (x : option wid) (s : World) (w : wid) (k k1 : PathWorker) :
  workers s !! w = Some k →
  control k1 = control k → state k1 = state k →
  startCb k1 = startCb k → stopCb k1 = stopCb k →
  Inv x s → Inv x (set_workers (<[w := k1]> (workers s)) s).
Proof.
  intros Hk Hc Hs Hcb1 Hcb2 [[Hnd Hq] Hreg]. split; [split; [done|] |]; simpl.
  - intros j Hj. destruct (Hq j Hj) as (k' & Hk' & Hc' & Hs').
    destruct (decide (w = j)) as [->|Hne].
    + exists k1. rewrite list_lookup_insert_eq by (by eapply lookup_lt_Some).
      split; [done|]. simplify_eq. split; congruence.
    + exists k'. by rewrite list_lookup_insert_ne.
  - intros j k'. destruct (decide (w = j)) as [->|Hne].
    + rewrite list_lookup_insert_eq by (by eapply lookup_lt_Some).
      intros [= <-]. specialize (Hreg j k Hk). unfold regular in *.
      rewrite Hc, Hs, Hcb1, Hcb2. done.
    + rewrite list_lookup_insert_ne by done. apply Hreg.
Qed.

Lemma stoppable_ok_worker (s : World) (w : wid) (k k1 : PathWorker) :
  workers s !! w = Some k →
  control k1 = control k → state k1 = state k →
  stoppable_ok s → stoppable_ok (set_workers (<[w := k1]> (workers s)) s).
Proof.
  intros Hk Hc Hs [Hnd Hq]. split; [done|]; simpl.
  intros j Hj. destruct (Hq j Hj) as (k' & Hk' & Hc' & Hs').
  destruct (decide (w = j)) as [->|Hne].
  - exists k1. rewrite list_lookup_insert_eq by (by eapply lookup_lt_Some).
    split; [done|]. simplify_eq. split; congruence.
  - exists k'. by rewrite list_lookup_insert_ne.
Qed.

(** [execIfOps] keeps [Inv x], also when it throws. *)
Lemma Inv_execIfOps (x : option wid) (w : wid) : keeps (Inv x) (Inv x) (execIfOps w).
Proof.
  apply keeps_execIfOps; [done|].
  intros w' o rest s k Hs Hk Hops. unfold ok.
  destruct o as [offset size cb|offset data cb].
  - rewrite (exec_turn_read w' s k rest offset size cb Hk). cbv zeta.
    destruct (0 <? size)%Z; by apply (Inv_worker x s w' k).
  - rewrite (exec_turn_write w' s k rest offset data cb Hk). cbv zeta.
    by apply (Inv_worker x s w' k).
Qed.

Lemma post_of_keeps {A} (x : option wid) (o : Outcome A) :
  ok (Inv x) (Inv x) o → post x o.
Proof. destruct o; simpl; [done|apply Inv_stoppable_ok..]. Qed.

Lemma post_weaken {A} (x : option wid) (o : Outcome A) : post None o → post x o.
Proof. destruct o; simpl; [apply Inv_None|done..]. Qed.

(** The worker at [w] is replaced; the others are as [Inv x] wants them. *)
Lemma Inv_update (y : option wid) (s : World) (w : wid) (k k1 : PathWorker) :
  workers s !! w = Some k →
  stoppable_ok s →
  (∀ j kj, j ≠ w → workers s !! j = Some kj → regular y j kj) →
  (w ∈ stoppableQueue s → control k1 = Start ∧ state k1 = Opened) →
  regular y w k1 →
  Inv y (set_workers (<[w := k1]> (workers s)) s).
Proof.
  intros Hk [Hnd Hq] Hreg Hmem Hw. split; [split; [done|] |]; simpl.
  - intros j Hj. destruct (decide (w = j)) as [->|Hne].
    + exists k1. rewrite list_lookup_insert_eq by (by eapply lookup_lt_Some).
      split; [done|]. by apply Hmem.
    + destruct (Hq j Hj) as (k' & Hk' & Hc' & Hs'). exists k'.
      by rewrite list_lookup_insert_ne.
  - intros j k'. destruct (decide (w = j)) as [->|Hne].
    + rewrite list_lookup_insert_eq by (by eapply lookup_lt_Some). by intros [= <-].
    + rewrite list_lookup_insert_ne by done. by apply Hreg.
Qed.

Lemma not_stoppable (s : World) (w : wid) (k : PathWorker) :
  stoppable_ok s → workers s !! w = Some k →
  control k ≠ Start ∨ state k ≠ Opened → w ∉ stoppableQueue s.
Proof.
  intros [_ Hq] Hk Hnot Hin. destruct (Hq w Hin) as (k' & Hk' & Hc & Hs).
  simplify_eq. destruct Hnot; congruence.
Qed.

(** Under [stop] the state and the stop callback of a worker may change. *)
Lemma Inv_stopping (x : option wid) (s : World) (w : wid) (k k1 : PathWorker) :
  workers s !! w = Some k →
  control k = Stop → control k1 = Stop →
  startCb k1 = startCb k →
  (∀ cb, stopCb k1 = Some cb → cb = OnStopped) →
  Inv x s → Inv x (set_workers (<[w := k1]> (workers s)) s).
Proof.
  intros Hk Hc Hc1 Hcb1 Hcb2 [Hq Hreg].
  apply (Inv_update x s w k); [done | done | by intros; apply Hreg | |].
  - intros Hin. exfalso. eapply not_stoppable; [done | done | | done].
    left. congruence.
  - destruct (Hreg w k Hk) as [H1 H2]. split; [|done].
    intros cb Hcb. rewrite Hcb1 in Hcb. destruct (H1 cb Hcb) as [-> [[? _]|Hx]].
    + congruence.
    + split; [done | by right].
Qed.

Lemma Inv_closeIfDrained (x : option wid) (w : wid) (s : World) (k : PathWorker) :
  workers s !! w = Some k → control k = Stop → Inv x s →
  post x (closeIfDrained w s).
Proof.
  intros Hk Hc Hs. unfold closeIfDrained. munfold.
  erewrite bind_Done by (by apply get_worker_run).
  destruct (State_eqb (state k) Opened || State_eqb (state k) Draining);
    [|by apply (Inv_stoppable_ok x)].
  unfold assert, bind at 1. simpl.
  destruct (_ && _)%Z; [|done].
  erewrite bind_Done by (by apply upd_worker_run).
  apply (Inv_stopping x s w k); try done. destruct Hs as [_ Hreg].
  apply (Hreg w k Hk).
Qed.

(** [open] of a closed worker under [start]. *)
Lemma open_run (w : wid) (s : World) (k : PathWorker) :
  workers s !! w = Some k → state k = Closed →
  open w s =
  let r := if fullDirMade k then FsOpen w (fullPath k) else Mkdirp w (fullDirPath k) in
  Done tt (set_trace (trace s ++ [EvIssue r])
             (set_pending (pending s ++ [r])
                (set_workers (<[w := set_state Opening k]> (workers s)) s))).
Proof.
  intros Hk Hs. unfold open. munfold.
  erewrite bind_Done by (by apply get_worker_run).
  rewrite Hs. simpl. unfold bind at 1. simpl.
  erewrite bind_Done by (by apply upd_worker_run).
  by destruct (fullDirMade k).
Qed.

Lemma stoppable_ok_update (s : World) (w : wid) (k1 : PathWorker) :
  w ∉ stoppableQueue s → stoppable_ok s →
  stoppable_ok (set_workers (<[w := k1]> (workers s)) s).
Proof.
  intros Hw [Hnd Hq]. split; [done|]. simpl. intros j Hj.
  destruct (Hq j Hj) as (k' & Hk' & Hc' & Hs'). exists k'.
  rewrite list_lookup_insert_ne; [done|]. intros ->. done.
Qed.

(** A worker under [stop] is put under [start]. *)
Lemma Inv_restarted (x : option wid) (s : World) (w : wid) (k k1 : PathWorker) :
  workers s !! w = Some k → control k = Stop →
  startCb k1 = startCb k → stopCb k1 = stopCb k →
  Inv x s → Inv x (set_workers (<[w := k1]> (workers s)) s).
Proof.
  intros Hk Hc Hcb1 Hcb2 [Hq Hreg].
  apply (Inv_update x s w k); [done | done | by intros; apply Hreg | |].
  - intros Hin. exfalso. eapply not_stoppable; [done | done | | done].
    left. congruence.
  - destruct (Hreg w k Hk) as [H1 H2]. split.
    + intros cb Hcb. rewrite Hcb1 in Hcb. destruct (H1 cb Hcb) as [-> [[? _]|Hx]].
      * congruence.
      * split; [done | by right].
    + intros cb Hcb. rewrite Hcb2 in Hcb. by apply H2.
Qed.

Section Reachable.

Variable pull0 : M unit.
Hypothesis pull0_post : ∀ x s, Inv x s → post x (pull0 s).

Lemma notify_started_idle (x : option wid) (w : wid) (s : World) (k : PathWorker) :
  workers s !! w = Some k → startCb k = None → Inv x s →
  post x (notify_started pull0 w s).
Proof.
  intros Hk Hcb Hs. unfold notify_started.
  pose proof (Inv_execIfOps x w s Hs) as Hkeep.
  pose proof (execIfOps_effect w s k Hk) as Heff.
  unfold bind at 1. destruct (execIfOps w s) as [[] s1|e s1|s1]; simpl in *;
    [|by apply (Inv_stoppable_ok x)..].
  subst s1.
  erewrite bind_Done by (apply get_worker_run; unfold executed; lookup_same).
  rewrite in_flight_after_startCb. simpl. rewrite Hcb. exact Hkeep.
Qed.

Lemma notify_started_fire (w : wid) (s : World) (k : PathWorker) (cb : Callback) :
  workers s !! w = Some k → control k = Start → state k = Opened →
  startCb k = Some cb → w ∉ stoppableQueue s → Inv (Some w) s →
  post None (notify_started pull0 w s).
Proof.
  intros Hk Hc Hst Hcb Hw Hs. unfold notify_started.
  pose proof (Inv_execIfOps (Some w) w s Hs) as Hkeep.
  pose proof (execIfOps_effect w s k Hk) as Heff.
  unfold bind at 1. destruct (execIfOps w s) as [[] s1|e s1|s1]; simpl in *;
    [|by apply (Inv_stoppable_ok (Some w))..].
  assert (workers s1 !! w = Some (in_flight_after (ops k) (set_ops [] k))) as Hk1
    by (subst s1; unfold executed; lookup_same).
  assert (stoppableQueue s1 = stoppableQueue s) as Hq1 by (by subst s1).
  clear Heff.
  erewrite bind_Done by (by apply get_worker_run).
  rewrite in_flight_after_startCb. simpl. rewrite Hcb.
  destruct Hs as [_ Hreg]. destruct (Hreg w k Hk) as [Hcbw _].
  destruct (Hcbw cb Hcb) as [-> _]. simpl. munfold.
  unfold bind at 2, modify. simpl.
  set (s2 := set_stoppableQueue (deque_push w (stoppableQueue s1)) s1).
  assert (Inv (Some w) s2) as Hs2.
  { destruct Hkeep as [[Hnd Hmem] Hreg1]. split; [split|]; simpl.
    - unfold deque_push. apply NoDup_app. split_and!; [done | | apply NoDup_singleton].
      intros j Hj ->%list_elem_of_singleton. rewrite Hq1 in Hj. by apply Hw.
    - intros j [Hj| ->%list_elem_of_singleton]%elem_of_app; [by apply Hmem|].
      eexists. split; [exact Hk1|].
      by rewrite in_flight_after_control, in_flight_after_state.
    - exact Hreg1. }
  pose proof (pull0_post (Some w) s2 Hs2) as Hpull.
  unfold bind at 1. fold s2. destruct (pull0 s2) as [[] s3|e s3|s3]; [|exact Hpull..].
  simpl in Hpull.
  destruct (workers s3 !! w) as [k3|] eqn:Hk3.
  - rewrite (upd_worker_run w _ s3 k3 Hk3). simpl.
    destruct Hpull as [Hq3 Hreg3].
    apply (Inv_update None s3 w k3); [done | done | | |].
    + intros j kj Hne Hkj. destruct (Hreg3 j kj Hkj) as [H1 H2]. split; [|done].
      intros cb' Hcb'. destruct (H1 cb' Hcb') as [-> [H|H]]; [by split; [|left]|].
      congruence.
    + intros Hin. destruct Hq3 as [_ Hmem]. destruct (Hmem w Hin) as (k' & ? & ? & ?).
      by simplify_eq.
    + split; [done|]. apply (Hreg3 w k3 Hk3).
  - unfold upd_worker, get_worker. munfold. unfold bind. rewrite Hk3.
    by apply (Inv_stoppable_ok (Some w)).
Qed.

(** [start(null)] on a worker under [stop]. *)
Lemma start_again_post (x : option wid) (w : wid) (s : World) (k : PathWorker) :
  workers s !! w = Some k → control k = Stop → Inv x s →
  post x (start pull0 w None s).
Proof.
  intros Hk Hc Hs. unfold start. munfold.
  erewrite bind_Done by (by apply upd_worker_run).
  unfold bind at 1. simpl.
  set (k1 := set_control Start k).
  assert (Inv x (set_workers (<[w := k1]> (workers s)) s)) as Hs1
    by (by apply (Inv_restarted x s w k)).
  assert (w ∉ stoppableQueue s) as Hw
    by (eapply not_stoppable; [by apply (Inv_stoppable_ok x) | done | left; congruence]).
  assert (∀ cb, startCb k = Some cb → x = Some w) as Hx.
  { intros cb Hcb. destruct Hs as [_ Hreg]. destruct (Hreg w k Hk) as [H1 _].
    destruct (H1 cb Hcb) as [_ [[? _]|?]]; [congruence | done]. }
  unfold tick. erewrite tick_at_run by lookup_same. simpl.
  destruct (state k) eqn:Hst; try exact Hs1.
  - (* closed *)
    erewrite open_run by (first [lookup_same | done]). simpl.
    rewrite list_insert_insert_eq.
    apply (Inv_update x s w k); [done | by apply (Inv_stoppable_ok x) | | done |].
    + destruct Hs as [_ Hreg]. intros. by apply Hreg.
    + destruct Hs as [_ Hreg]. destruct (Hreg w k Hk) as [H1 H2]. split; [|done].
      intros cb Hcb. simpl in Hcb. destruct (H1 cb Hcb) as [-> _].
      split; [done | by left].
  - (* opened *)
    destruct (startCb k) as [cb|] eqn:Hcb.
    + rewrite (Hx cb eq_refl) in *. apply post_weaken.
      eapply (notify_started_fire w _ k1); [lookup_same | done | done | done | done | done].
    + eapply (notify_started_idle x w _ k1); [lookup_same | done | done].
  - (* draining *)
    erewrite bind_Done by (apply upd_worker_run; lookup_same).
    erewrite tick_at_run by lookup_same. simpl.
    rewrite list_insert_insert_eq.
    set (k2 := set_state Opened k1).
    assert (Inv x (set_workers (<[w := k2]> (workers s)) s)) as Hs2
      by (by apply (Inv_restarted x s w k)).
    destruct (startCb k) as [cb|] eqn:Hcb.
    + rewrite (Hx cb eq_refl) in *. apply post_weaken.
      eapply (notify_started_fire w _ k2); [lookup_same | done | done | done | done | done].
    + eapply (notify_started_idle x w _ k2); [lookup_same | done | done].
Qed.

(** [start(cb)] on a closed worker under [stop], with the closure of [pull]. *)
Lemma start_fresh_post (x : option wid) (w : wid) (s : World) (k : PathWorker) :
  workers s !! w = Some k → control k = Stop → state k = Closed → Inv x s →
  post x (start pull0 w (Some (OnStarted w)) s).
Proof.
  intros Hk Hc Hst Hs. unfold start. munfold.
  assert (w ∉ stoppableQueue s) as Hw
    by (eapply not_stoppable; [by apply (Inv_stoppable_ok x) | done | left; congruence]).
  erewrite bind_Done by (by apply upd_worker_run).
  rewrite (bind_assoc (get_worker w)).
  erewrite bind_Done by (apply get_worker_run; lookup_same).
  simpl. destruct (startCb k) as [cb|] eqn:Hcb; simpl.
  { apply stoppable_ok_update; [done | by apply (Inv_stoppable_ok x)]. }
  rewrite (bind_assoc (ret tt)). unfold bind at 1. simpl.
  erewrite bind_Done by (apply upd_worker_run; lookup_same).
  unfold tick. erewrite tick_at_run by lookup_same. simpl. rewrite Hst.
  erewrite open_run by (first [lookup_same | done]). simpl.
  rewrite !list_insert_insert_eq.
  apply (Inv_update x s w k); [done | by apply (Inv_stoppable_ok x) | | done |].
  - destruct Hs as [_ Hreg]. intros. by apply Hreg.
  - destruct Hs as [_ Hreg]. destruct (Hreg w k Hk) as [H1 H2]. split; [|done].
    simpl. intros cb [= <-]. split; [done | by left].
Qed.

(** [stop] on a worker just taken from the stoppable queue. *)
Lemma stop_evicted_post (x : option wid) (v : wid) (s : World) (kv : PathWorker) :
  workers s !! v = Some kv → state kv = Opened → v ∉ stoppableQueue s → Inv x s →
  post x (stop pull0 v (Some OnStopped) s).
Proof.
  intros Hk Hst Hv Hs. unfold stop. munfold.
  erewrite bind_Done by (by apply upd_worker_run).
  erewrite bind_Done by (apply get_worker_run; lookup_same).
  simpl. destruct (stopCb kv) as [cb|] eqn:Hcb; simpl.
  { apply stoppable_ok_update; [done | by apply (Inv_stoppable_ok x)]. }
  unfold bind at 1. simpl.
  erewrite bind_Done by (apply upd_worker_run; lookup_same).
  unfold tick. erewrite tick_at_run by lookup_same. simpl. rewrite Hst.
  rewrite list_insert_insert_eq.
  set (k2 := set_stopCb (Some OnStopped) (set_control Stop kv)).
  set (s2 := set_workers (<[v := k2]> (workers s)) s).
  assert (Inv x s2) as Hs2.
  { apply (Inv_update x s v kv); [done | by apply (Inv_stoppable_ok x) | | done |].
    - destruct Hs as [_ Hreg]. intros. by apply Hreg.
    - destruct Hs as [_ Hreg]. destruct (Hreg v kv Hk) as [H1 H2]. split.
      + simpl. intros cb Hcb'. destruct (H1 cb Hcb') as [-> [[_ ?]|?]]; [congruence|].
        split; [done | by right].
      + simpl. by intros cb [= <-]. }
  assert (workers s2 !! v = Some k2) as Hk2 by (unfold s2; lookup_same).
  pose proof (Inv_execIfOps x v s2 Hs2) as Hkeep.
  pose proof (execIfOps_effect v s2 k2 Hk2) as Heff.
  match goal with |- post x (bind (execIfOps v) ?f _) =>
    change (post x (bind (execIfOps v) f s2))
  end.
  unfold bind at 1. destruct (execIfOps v s2) as [[] s3|e s3|s3]; simpl in Hkeep;
    [|by apply (Inv_stoppable_ok x)..].
  set (k3 := in_flight_after (ops k2) (set_ops [] k2)).
  assert (workers s3 !! v = Some k3) as Hk3
    by (rewrite Heff; unfold executed; lookup_same).
  clear Heff.
  assert (control k3 = Stop) as Hc3 by (unfold k3; by rewrite in_flight_after_control).
  assert (stopCb k3 = Some OnStopped) as Hcb3
    by (unfold k3; by rewrite in_flight_after_stopCb).
  erewrite bind_Done by (by apply upd_worker_run).
  erewrite tick_at_run by lookup_same. simpl. rewrite Hc3.
  eapply (Inv_closeIfDrained x v _ (set_state Draining k3)); [lookup_same | done | ].
  apply (Inv_stopping x s3 v k3); try done.
  simpl. rewrite Hcb3. by intros cb [= <-].
Qed.

Lemma pull_iter_post (x : option wid) (s : World) :
  Inv x s → post x (pull_iter pull0 s).
Proof.
  intros Hs. unfold pull_iter. munfold. unfold bind at 1. simpl.
  destruct (scheduleQueue s) as [|w rest] eqn:Hsched; simpl; [done|].
  destruct (negb _ && _) eqn:Hgo; [done|].
  unfold bind at 1. simpl.
  set (s0 := set_scheduleQueue rest s).
  assert (Inv x s0) as Hs0 by exact Hs.
  destruct (workers s0 !! w) as [k|] eqn:Hk.
  2:{ unfold bind, get_worker. rewrite Hk. by apply (Inv_stoppable_ok x). }
  erewrite bind_Done by (by apply get_worker_run).
  destruct (control k) eqn:Hc; [exact Hs0|].
  destruct (State_eqb (state k) Closed) eqn:Hst; simpl.
  2:{ apply post_bind; [by eapply start_again_post|]. intros _ s1 _ Hs1. exact Hs1. }
  assert (state k = Closed) as Hclosed by (by destruct (state k)).
  destruct (numActivePathWorkers s <? maxOpenFiles s)%Z.
  { unfold bind at 1. simpl. unfold bind at 1. unfold set_active, modify.
    apply post_bind; [by eapply start_fresh_post|]. intros _ s1 _ Hs1. exact Hs1. }
  simpl in Hgo. destruct (stoppableQueue s) as [|v vs] eqn:Hstop; [done|]. simpl.
  unfold bind at 1. simpl. rewrite Hstop. simpl.
  unfold bind at 1. simpl.
  destruct Hs as [[Hnd Hmem] Hreg]. rewrite Hstop in Hnd, Hmem.
  apply NoDup_cons in Hnd as [Hv Hnd].
  destruct (Hmem v) as (kv & Hkv & Hcv & Hsv); [by left|].
  apply post_bind.
  - eapply (stop_evicted_post x v _ kv); [done | done | done |].
    split; [split; [done|] | done]. simpl. intros j Hj. apply Hmem. by right.
  - intros _ s1 _ Hs1. exact Hs1.
Qed.

End Reachable.

Lemma pull_post (fuel : nat) (x : option wid) (s : World) :
  Inv x s → post x (pull fuel s).
Proof.
  revert x s. induction fuel as [|fuel IH]; intros x s Hs.
  - by apply (Inv_stoppable_ok x).
  - simpl. munfold. apply post_bind; [by apply pull_iter_post|].
    intros [] s1 _ Hs1; [exact Hs1 | by apply IH].
Qed.

Lemma Inv_ticking (w : wid) (s : World) (k : PathWorker) :
  Inv None s → workers s !! w = Some k → ticking w s k.
Proof.
  intros [_ Hreg] Hk. destruct (Hreg w k Hk) as [H1 H2]. split; [|done].
  intros cb Hcb. destruct (H1 cb Hcb) as [-> [[? ?]|?]]; [|done].
  split_and!; [done | done | by left].
Qed.

Lemma Inv_parts (x : option wid) (w : wid) (s : World) (k : PathWorker) :
  workers s !! w = Some k → stoppable_ok s →
  (∀ j kj, j ≠ w → workers s !! j = Some kj → regular None j kj) →
  regular x w k → Inv x s.
Proof.
  intros Hk Hq Hreg Hw. split; [done|]. intros j kj Hkj.
  destruct (decide (j = w)) as [->|Hne]; [by simplify_eq|].
  by apply regular_None, Hreg.
Qed.

(** The branch of [tick] for [opened] under [stop]. *)
Lemma drain_post (pull0 : M unit) (x : option wid) (w : wid) (s : World) (k : PathWorker) :
  workers s !! w = Some k → control k = Stop → Inv x s →
  post x (bind (execIfOps w)
            (λ _, bind (upd_worker w (set_state Draining)) (λ _, tick_at pull0 0 w)) s).
Proof.
  intros Hk Hc Hs.
  pose proof (Inv_execIfOps x w s Hs) as Hkeep.
  pose proof (execIfOps_effect w s k Hk) as Heff.
  unfold bind at 1. destruct (execIfOps w s) as [[] s3|e s3|s3]; simpl in Hkeep;
    [|by apply (Inv_stoppable_ok x)..].
  set (k3 := in_flight_after (ops k) (set_ops [] k)).
  assert (workers s3 !! w = Some k3) as Hk3
    by (rewrite Heff; unfold executed; lookup_same).
  clear Heff.
  assert (control k3 = Stop) as Hc3 by (unfold k3; by rewrite in_flight_after_control).
  assert (stopCb k3 = stopCb k) as Hcb3
    by (unfold k3; by rewrite in_flight_after_stopCb).
  erewrite bind_Done by (by apply upd_worker_run).
  erewrite tick_at_run by lookup_same. simpl. rewrite Hc3.
  eapply (Inv_closeIfDrained x w _ (set_state Draining k3)); [lookup_same | done | ].
  apply (Inv_stopping x s3 w k3); try done.
  simpl. destruct Hkeep as [_ Hreg]. apply (Hreg w k3 Hk3).
Qed.

Lemma tick_post (fuel : nat) (w : wid) (s : World) (k : PathWorker) :
  workers s !! w = Some k → stoppable_ok s →
  (∀ j kj, j ≠ w → workers s !! j = Some kj → regular None j kj) →
  ticking w s k →
  post None (tick (pull fuel) w s).
Proof.
  intros Hk Hq Hreg [Ht1 Ht2].
  unfold tick. erewrite tick_at_run by done. cbv zeta.
  destruct (control k) eqn:Hc.
  - destruct (state k) eqn:Hst.
    + (* closed *)
      erewrite open_run by done. simpl.
      apply (Inv_update None s w k); [done | done | done | |].
      * intros Hin. exfalso. eapply not_stoppable; [done | done | | done].
        right. congruence.
      * split; [|done]. simpl. intros cb Hcb. destruct (Ht1 cb Hcb) as (-> & _ & _).
        split; [done | by left].
    + (* opening *)
      apply (Inv_parts None w s k); [done | done | done |]. split; [|done].
      intros cb Hcb. destruct (Ht1 cb Hcb) as (-> & _ & _). split; [done | by left].
    + (* opened *)
      destruct (startCb k) as [cb|] eqn:Hcb.
      * destruct (Ht1 cb eq_refl) as (-> & _ & [?|[_ Hw]]); [congruence|].
        eapply (notify_started_fire (pull fuel) (pull_post fuel) w s k (OnStarted w));
          [done | done | done | done | done |].
        apply (Inv_parts (Some w) w s k); [done | done | done |]. split; [|done].
        intros cb Hcb'. simplify_eq. split; [done | by right].
      * eapply (notify_started_idle (pull fuel) None w s k); [done | done |].
        apply (Inv_parts None w s k); [done | done | done |]. split; [|done].
        intros cb Hcb'. congruence.
    + (* draining *)
      assert (startCb k = None) as Hcb.
      { destruct (startCb k) as [cb|] eqn:Hcb; [|done].
        destruct (Ht1 cb eq_refl) as (_ & _ & [?|[? _]]); congruence. }
      erewrite bind_Done by (by apply upd_worker_run).
      erewrite tick_at_run by lookup_same. simpl. rewrite Hc.
      eapply (notify_started_idle (pull fuel) None w _ (set_state Opened k));
        [lookup_same | done |].
      apply (Inv_update None s w k); [done | done | done | |].
      * intros Hin. exfalso. eapply not_stoppable; [done | done | | done].
        right. congruence.
      * split; [|done]. simpl. intros cb Hcb'. congruence.
    + (* closing *)
      apply (Inv_parts None w s k); [done | done | done |]. split; [|done].
      intros cb Hcb. destruct (Ht1 cb Hcb) as (_ & _ & [?|[? _]]); congruence.
  - assert (Inv None s) as Hs.
    { apply (Inv_parts None w s k); [done | done | done |]. split; [|done].
      intros cb Hcb. destruct (Ht1 cb Hcb) as (_ & ? & _). congruence. }
    destruct (state k) eqn:Hst; try exact Hs.
    + (* closed *)
      unfold notify_stopped. destruct (stopCb k) as [cb|] eqn:Hcb; [|exact Hs].
      rewrite (Ht2 cb eq_refl). simpl. munfold.
      unfold bind at 2. simpl. unfold bind at 2, set_active, modify.
      apply post_bind; [by apply pull_post|].
      intros [] s2 _ Hs2.
      destruct (workers s2 !! w) as [k2|] eqn:Hk2.
      * rewrite (upd_worker_run w _ s2 k2 Hk2). simpl.
        destruct Hs2 as [Hq2 Hreg2].
        apply (Inv_update None s2 w k2); [done | done | by intros; apply Hreg2 | |].
        -- intros Hin. destruct Hq2 as [_ Hmem].
           destruct (Hmem w Hin) as (k' & ? & ? & ?). by simplify_eq.
        -- destruct (Hreg2 w k2 Hk2) as [H1 H2]. split; [done|]. simpl. congruence.
      * unfold upd_worker, get_worker. munfold. unfold bind. rewrite Hk2.
        by apply (Inv_stoppable_ok None).
    + (* opened *)
      by eapply drain_post.
    + (* draining *)
      by eapply Inv_closeIfDrained.
Qed.

Lemma Inv_same (x : option wid) (s s' : World) :
  stoppableQueue s' = stoppableQueue s → workers s' = workers s →
  Inv x s → Inv x s'.
Proof. unfold Inv, stoppable_ok. by intros -> ->. Qed.

Lemma tick_Inv (fuel : nat) (w : wid) (s : World) :
  Inv None s → post None (tick (pull fuel) w s).
Proof.
  intros Hs. destruct (workers s !! w) as [k|] eqn:Hk.
  - destruct Hs as [Hq Hreg].
    apply (tick_post fuel w s k); [done | done | by intros; apply Hreg |].
    by apply Inv_ticking.
  - unfold tick. rewrite tick_at_fail by done. by apply (Inv_stoppable_ok None).
Qed.

Lemma add_post (fuel : nat) (w : wid) (o : Op) (s : World) :
  Inv None s → post None (add (pull fuel) w o s).
Proof.
  intros Hs. unfold add. munfold.
  destruct (workers s !! w) as [k|] eqn:Hk.
  - erewrite bind_Done by (by apply push_op_run).
    apply tick_Inv.
    eapply Inv_same; [| | by apply (Inv_worker None s w k (set_ops (deque_push o (ops k)) k))];
      done.
  - unfold bind. rewrite push_op_fail by done. by apply (Inv_stoppable_ok None).
Qed.

Lemma op_post (fuel : nat) (w : wid) (o : Op) (s : World) :
  Inv None s → post None (op fuel w o s).
Proof.
  intros Hs. unfold op. munfold.
  apply post_bind; [by apply add_post|]. intros [] s1 _ Hs1.
  unfold bind, modify. apply pull_post. by eapply Inv_same.
Qed.

Lemma storageFor_post (p : string) (s : World) :
  Inv None s → post None (storageFor p s).
Proof.
  intros Hs. destruct (pathInterfaces s !! p) as [h|] eqn:Hp.
  - by rewrite (storageFor_known p s h).
  - rewrite storageFor_new by done. simpl.
    destruct Hs as [[Hnd Hq] Hreg]. split; [split; [done|] |]; simpl.
    + intros j Hj. destruct (Hq j Hj) as (k & Hk & Hc & Hst). exists k.
      split; [|done]. by apply lookup_app_l_Some.
    + intros j k Hk. apply lookup_app_Some in Hk as [Hk|[_ Hk]]; [by apply Hreg|].
      apply list_lookup_singleton_Some in Hk as [_ <-]. by split.
Qed.

Lemma run_call_post (fuel : nat) (c : Call) (s : World) :
  Inv None s → post None (run_call fuel c s).
Proof.
  intros Hs. destruct c as [p|h offset size cb|h offset data cb]; simpl; munfold.
  - apply post_bind; [by apply storageFor_post | by intros].
  - unfold read. munfold. unfold bind at 1, get_handle.
    destruct (handles s !! h); [by apply op_post | by apply (Inv_stoppable_ok None)].
  - unfold write. munfold. unfold bind at 1, get_handle.
    destruct (handles s !! h); [by apply op_post | by apply (Inv_stoppable_ok None)].
Qed.

Lemma for_each_post {A} (f : A → M unit) (l : list A) (s : World) :
  (∀ a s1, Inv None s1 → post None (f a s1)) →
  Inv None s → post None (for_each f l s).
Proof.
  intros Hf. revert s. induction l as [|a l IH]; intros s Hs; simpl; [done|].
  munfold. apply post_bind; [by apply Hf|]. intros [] s1 _ Hs1. by apply IH.
Qed.

Lemma invoke_post (fuel : nat) (cb : ClientCb) (args : list Arg) (s : World) :
  Inv None s → post None (invoke fuel cb args s).
Proof.
  intros Hs. unfold invoke, emit. munfold. unfold bind at 1, modify.
  apply for_each_post; [by intros; apply run_call_post|]. by eapply Inv_same.
Qed.

(** The file of [w] is opened or closed: [w] was not on the stoppable queue,
    and its start callback, if any, was waiting for this. *)
Lemma settled_post (fuel : nat) (w : wid) (s : World) (k : PathWorker) (st : State) (n : Z) :
  workers s !! w = Some k → state k = Opening ∨ state k = Closing →
  (state k = Opening → st = Opened) →
  Inv None s →
  post None (bind (upd_worker w (set_state st))
               (λ _, bind (upd_worker w (set_fd n)) (λ _, tick (pull fuel) w)) s).
Proof.
  intros Hk Hst Hto [Hq Hreg].
  assert (w ∉ stoppableQueue s) as Hw.
  { eapply not_stoppable; [done | done |]. right. destruct Hst; congruence. }
  erewrite bind_Done by (by apply upd_worker_run).
  erewrite bind_Done by (apply upd_worker_run; lookup_same).
  apply (tick_post fuel w _ (set_fd n (set_state st k))); [lookup_same | | |].
  - apply stoppable_ok_update; [done|]. by apply stoppable_ok_update.
  - simpl. intros j kj Hne. rewrite !list_lookup_insert_ne by done. apply Hreg.
  - destruct (Hreg w k Hk) as [H1 H2]. split; [|done]. simpl. intros cb Hcb.
    destruct (H1 cb Hcb) as [-> [[Hc Ho]|?]]; [|done].
    split_and!; [done | done |]. right. split; [by apply Hto | done].
Qed.

Lemma completed_post (fuel : nat) (w : wid) (f : PathWorker → PathWorker)
    (m : M unit) (s : World) :
  (∀ k, control (f k) = control k ∧ state (f k) = state k ∧
        startCb (f k) = startCb k ∧ stopCb (f k) = stopCb k) →
  (∀ s1, Inv None s1 → post None (m s1)) →
  Inv None s →
  post None (bind (upd_worker w f) (λ _, bind m (λ _, tick (pull fuel) w)) s).
Proof.
  intros Hf Hm Hs. destruct (workers s !! w) as [k|] eqn:Hk.
  - erewrite bind_Done by (by apply upd_worker_run).
    destruct (Hf k) as (? & ? & ? & ?).
    apply post_bind; [by apply Hm, (Inv_worker None s w k)|].
    intros [] s2 _ Hs2. by apply tick_Inv.
  - unfold upd_worker, get_worker. munfold. unfold bind. rewrite Hk.
    by apply (Inv_stoppable_ok None).
Qed.

Lemma on_reply_post (fuel : nat) (r : IoReq) (reply : OsReply) (s : World) :
  Inv None s → post None (on_reply fuel r reply s).
Proof.
  intros Hs.
  destruct r as [w p|w p|w fd|w fd size offset cb|w fd data offset cb]; simpl.
  - destruct (os_err reply); [by apply (Inv_stoppable_ok None)|]. munfold.
    destruct (workers s !! w) as [k|] eqn:Hk.
    + erewrite bind_Done by (by apply upd_worker_run).
      erewrite bind_Done by (apply get_worker_run; lookup_same).
      unfold issue, modify. eapply Inv_same; [| | by apply (Inv_worker None s w k (set_fullDirMade true k))]; done.
    + unfold upd_worker, get_worker. munfold. unfold bind. rewrite Hk.
      by apply (Inv_stoppable_ok None).
  - destruct (os_err reply); [by apply (Inv_stoppable_ok None)|]. munfold.
    unfold bind at 1, get_worker.
    destruct (workers s !! w) as [k|] eqn:Hk; [|by apply (Inv_stoppable_ok None)].
    destruct (state k) eqn:Hst; simpl; try by apply (Inv_stoppable_ok None).
    unfold bind at 1. simpl.
    apply (settled_post fuel w s k); [done | by left | done | done].
  - destruct (os_err reply); [by apply (Inv_stoppable_ok None)|]. munfold.
    unfold bind at 1, get_worker.
    destruct (workers s !! w) as [k|] eqn:Hk; [|by apply (Inv_stoppable_ok None)].
    destruct (state k) eqn:Hst; simpl; try by apply (Inv_stoppable_ok None).
    unfold bind at 1. simpl.
    apply (settled_post fuel w s k); [done | by right | congruence | done].
  - munfold. apply completed_post; [done | | done].
    intros s1 Hs1. destruct (os_err reply); [by apply invoke_post|].
    destruct (os_num reply =? 0)%Z; [by apply invoke_post|].
    unfold assert. destruct (os_num reply =? size)%Z.
    + unfold bind at 1. simpl. by apply invoke_post.
    + by apply (Inv_stoppable_ok None).
  - munfold. apply completed_post; [done | | done].
    intros s1 Hs1. destruct (os_err reply); [by apply invoke_post|].
    unfold assert. destruct (os_num reply =? _)%Z.
    + unfold bind at 1. simpl. by apply invoke_post.
    + by apply (Inv_stoppable_ok None).
Qed.

Lemma step_post (fuel : nat) (e : Input) (s : World) :
  Inv None s → post None (step fuel e s).
Proof.
  intros Hs. destruct e as [c|i reply]; simpl; [by apply run_call_post|].
  munfold. unfold bind at 1, get. destruct (pending s !! i) as [r|]; [|done].
  unfold bind at 1, modify. apply on_reply_post. by eapply Inv_same.
Qed.

Lemma run_post (fuel : nat) (es : list Input) (s : World) :
  Inv None s → post None (run fuel es s).
Proof. intros Hs. apply for_each_post; [by intros; apply step_post | done]. Qed.

Lemma Inv_fresh_store (d : string) (n : Z) : Inv None (fresh_store d n).
Proof.
  split; [split|]; simpl.
  - constructor.
  - intros j Hj. by apply elem_of_nil in Hj.
  - intros j k Hk. done.
Qed.

Lemma Inv_new (cfg : Config) (s0 : World) :
  new_RandomAccessFilesystem cfg = inr s0 → Inv None s0.
Proof.
  unfold new_RandomAccessFilesystem. intros H.
  destruct (negb _); [done|]. destruct (negb _); [done|].
  injection H as <-. apply Inv_fresh_store.
Qed.

(** The stoppable queue at every moment of every execution: it holds no
    worker twice, and each of its workers is opened under [start].  The
    converse, that every idle worker opened under [start] is on the queue,
    is what a rescue breaks. *)
Theorem stoppable_workers_are_open (cfg : Config) (s0 : World) (fuel : nat) (es : list Input) :
  new_RandomAccessFilesystem cfg = inr s0 →
  stoppable_ok (world_of (run fuel es s0)).
Proof.
  intros Hnew. pose proof (run_post fuel es s0 (Inv_new cfg s0 Hnew)) as H.
  destruct (run fuel es s0); simpl in *; [by apply (Inv_stoppable_ok None) | done..].
Qed.

(** Between two turns of the event loop a start callback is pending only on
    a worker that is opening under [start], and it is the closure that
    [pull] made for this worker; a pending stop callback is the closure of
    an eviction. *)
Theorem callbacks_wait_for_the_file (cfg : Config) (s0 s : World) (fuel : nat) (es : list Input)
    (j : wid) (k : PathWorker) :
  new_RandomAccessFilesystem cfg = inr s0 →
  run fuel es s0 = Done tt s →
  workers s !! j = Some k →
  (∀ cb, startCb k = Some cb → cb = OnStarted j ∧ control k = Start ∧ state k = Opening) ∧
  (∀ cb, stopCb k = Some cb → cb = OnStopped).
Proof.
  intros Hnew Hrun Hk. pose proof (run_post fuel es s0 (Inv_new cfg s0 Hnew)) as H.
  rewrite Hrun in H. destruct H as [_ Hreg]. destruct (Hreg j k Hk) as [H1 H2].
  split; [|done]. intros cb Hcb. by destruct (H1 cb Hcb) as [-> [[? ?]|?]].
Qed.

Lemma stoppable_workers_are_open_witness :
  stoppable_ok (world_of (run 20 a_is_rescued store2)).
Proof.
  apply (stoppable_workers_are_open (mkConfig (Some "dir"%string) (Some 2%Z)) store2
           20 a_is_rescued).
  reflexivity.
Defined.

Lemma callbacks_wait_for_the_file_witness :
  (∀ cb, startCb opening_a = Some cb →
     cb = OnStarted 0 ∧ control opening_a = Start ∧ state opening_a = Opening) ∧
  (∀ cb, stopCb opening_a = Some cb → cb = OnStopped).
Proof.
  apply (callbacks_wait_for_the_file (mkConfig (Some "dir"%string) (Some 2%Z)) store2
           (world_of (run 20 a_is_opening store2)) 20 a_is_opening 0 opening_a).
  - reflexivity.
  - vm_compute. reflexivity.
  - vm_compute. reflexivity.
Defined.

(** ** Requests in flight and the state of their worker *)

Lemma count_if_app {A} (f : A → bool) (l1 l2 : list A) :
  count_if f (l1 ++ l2) = count_if f l1 + count_if f l2.
Proof. induction l1 as [|x l1 IH]; simpl; [done|]. rewrite IH. lia. Qed.

Lemma count_if_delete {A} (f : A → bool) (l : list A) (i : nat) (x : A) :
  l !! i = Some x → count_if f (delete i l) + (if f x then 1 else 0) = count_if f l.
Proof.
  revert i. induction l as [|y l IH]; intros [|i] H; simplify_eq/=; [lia|].
  specialize (IH i H). lia.
Qed.

Lemma count_if_none {A} (f : A → bool) (l : list A) :
  (∀ x, x ∈ l → f x = false) → count_if f l = 0.
Proof.
  induction l as [|y l IH]; intros H; simpl; [done|].
  rewrite (H y) by (by left). rewrite IH; [done|]. intros x Hx. apply H. by right.
Qed.

Lemma count_if_zero {A} (f : A → bool) (l : list A) (x : A) :
  count_if f l = 0 → x ∈ l → f x = false.
Proof.
  induction l as [|y l IH]; intros H Hx; [by apply elem_of_nil in Hx|].
  simpl in H. apply elem_of_cons in Hx as [->|Hx].
  - destruct (f y); [lia|done].
  - apply IH; [|done]. destruct (f y); lia.
Qed.

Lemma fine_bind {A B} (I : World → Prop) (m : M A) (f : A → M B) (s : World) :
  fine I (m s) → (∀ a s1, I s1 → fine I (f a s1)) → fine I (bind m f s).
Proof. unfold bind. destruct (m s) as [a s1|e s1|s1]; simpl; eauto. Qed.

Lemma same_io_refl (k : PathWorker) : same_io k k.
Proof. by repeat split. Qed.

(** A worker of kind [c] has no request of another worker. *)
Lemma asks_other (w j : wid) (c : ReqKind) (r : IoReq) :
  req_worker r = w → j ≠ w → asks j c r = false.
Proof.
  intros Hr Hne. unfold asks. rewrite Hr. apply andb_false_iff. left.
  by apply Nat.eqb_neq.
Qed.

Lemma asks_own (c : ReqKind) (r : IoReq) :
  asks (req_worker r) c r = ReqKind_eqb (req_kind r) c.
Proof. unfold asks. by rewrite Nat.eqb_refl. Qed.

(** The worker at [w] becomes [k1] and requests of [w] are issued: what is
    to show is that [k1] agrees with the requests now in flight. *)
Lemma tidy_update (w : wid) (k k1 : PathWorker) (new : list IoReq) (s s' : World) :
  workers s !! w = Some k →
  workers s' = <[w := k1]> (workers s) →
  pending s' = pending s ++ new →
  (∀ r, r ∈ new → req_worker r = w) →
  tidy s →
  tidy_worker s' w k1 →
  tidy s'.
Proof.
  intros Hk Hw Hp Hnew [Hval Hs] Hk1. split.
  - intros r Hr. rewrite Hp in Hr. rewrite Hw, length_insert.
    apply elem_of_app in Hr as [Hr|Hr]; [by apply Hval|].
    rewrite (Hnew r Hr). by eapply lookup_lt_Some.
  - intros j kj Hj. rewrite Hw in Hj. destruct (decide (j = w)) as [->|Hne].
    + rewrite list_lookup_insert_eq in Hj by (by eapply lookup_lt_Some). by simplify_eq.
    + rewrite list_lookup_insert_ne in Hj by done.
      destruct (Hs j kj Hj) as (H1 & H2 & H3 & H4 & H5 & H6).
      assert (∀ c, outstanding j c s' = outstanding j c s) as Hc.
      { intros c. unfold outstanding. rewrite Hp, count_if_app.
        rewrite (count_if_none _ new); [lia|].
        intros r Hr. apply (asks_other w); [by apply Hnew | done]. }
      unfold tidy_worker. rewrite !Hc. split_and!; try done.
      intros r Hr Hrj. rewrite Hp in Hr.
      apply elem_of_app in Hr as [Hr|Hr]; [by apply H6|].
      rewrite (Hnew r Hr) in Hrj. done.
Qed.

Lemma addressed_same (k1 k : PathWorker) (r : IoReq) :
  fd k1 = fd k → fullPath k1 = fullPath k → fullDirPath k1 = fullDirPath k →
  addressed k r → addressed k1 r.
Proof. intros E1 E2 E3. destruct r; simpl; congruence. Qed.

Lemma tidy_frame (s s' : World) :
  pending s' = pending s → workers s' = workers s → tidy s → tidy s'.
Proof.
  intros Hp Hw. unfold tidy, tidy_worker, outstanding. by rewrite Hp, Hw.
Qed.

Lemma tidy_worker_same_io (s s' : World) (j : wid) (k k1 : PathWorker) :
  pending s' = pending s → same_io k1 k → tidy_worker s j k → tidy_worker s' j k1.
Proof.
  intros Hp (E1 & E2 & E3 & E4 & E5 & E6 & E7 & E8) (H1 & H2 & H3 & H4 & H5 & H6).
  unfold tidy_worker, outstanding in *. rewrite Hp, E1, E2, E3, E5, E6.
  split_and!; try done.
  intros r Hr Hj. by apply (addressed_same _ k), H6.
Qed.

Lemma tidy_field (w : wid) (k k1 : PathWorker) (s : World) :
  workers s !! w = Some k → same_io k1 k → tidy s →
  tidy (set_workers (<[w := k1]> (workers s)) s).
Proof.
  intros Hk Hio Hs.
  apply (tidy_update w k k1 [] s); [done | done | by rewrite app_nil_r | | done |].
  - intros r Hr. by apply elem_of_nil in Hr.
  - apply (tidy_worker_same_io s _ w k); [done | done |]. destruct Hs as [_ Hs]. by apply Hs.
Qed.

Lemma tidy_upd_worker (w : wid) (f : PathWorker → PathWorker) (s : World) :
  (∀ k, same_io (f k) k) → tidy s → fine tidy (upd_worker w f s).
Proof.
  intros Hf Hs. destruct (workers s !! w) as [k|] eqn:Hk.
  - rewrite (upd_worker_run w f s k Hk). by apply (tidy_field w k).
  - unfold upd_worker, get_worker. munfold. unfold bind. by rewrite Hk.
Qed.

(** *** [execIfOps] *)

Lemma in_flight_after_fullPath l k : fullPath (in_flight_after l k) = fullPath k.
Proof. revert k. induction l as [|[] l IH]; intros k; simpl; [done|by rewrite IH..]. Qed.

Lemma in_flight_after_fullDirPath l k : fullDirPath (in_flight_after l k) = fullDirPath k.
Proof. revert k. induction l as [|[] l IH]; intros k; simpl; [done|by rewrite IH..]. Qed.

Lemma in_flight_after_reads (w : wid) (d : Z) (l : list Op) (k : PathWorker) :
  inFlightReads (in_flight_after l k) =
  (inFlightReads k + Z.of_nat (count_if (asks w RRead) (map (request_of w d) l)))%Z.
Proof.
  revert k. induction l as [|[] l IH]; intros k; simpl; [lia|..]; rewrite IH; simpl;
    unfold asks; simpl; rewrite Nat.eqb_refl; simpl; lia.
Qed.

Lemma in_flight_after_writes (w : wid) (d : Z) (l : list Op) (k : PathWorker) :
  inFlightWrites (in_flight_after l k) =
  (inFlightWrites k + Z.of_nat (count_if (asks w RWrite) (map (request_of w d) l)))%Z.
Proof.
  revert k. induction l as [|[] l IH]; intros k; simpl; [lia|..]; rewrite IH; simpl;
    unfold asks; simpl; rewrite Nat.eqb_refl; simpl; lia.
Qed.

Lemma request_of_worker (w : wid) (d : Z) (l : list Op) (r : IoReq) :
  r ∈ map (request_of w d) l → req_worker r = w ∧ lifecycle r = false ∧ ∀ k, fd k = d → addressed k r.
Proof.
  intros Hr. apply list_elem_of_fmap in Hr as (o & -> & _). by destruct o.
Qed.

Lemma request_of_lifecycle (w j : wid) (d : Z) (l : list Op) (c : ReqKind) :
  c = ROpen ∨ c = RClose → count_if (asks j c) (map (request_of w d) l) = 0.
Proof.
  intros Hc. apply count_if_none. intros r Hr.
  apply list_elem_of_fmap in Hr as (o & -> & _). unfold asks.
  apply andb_false_iff. right. by destruct Hc as [-> | ->], o.
Qed.

Lemma tidy_executed (w : wid) (s : World) (k : PathWorker) :
  workers s !! w = Some k → is_open k = true → tidy s → tidy (executed w k s).
Proof.
  intros Hk Hopen Hs.
  apply (tidy_update w k (in_flight_after (ops k) (set_ops [] k))
           (map (request_of w (fd k)) (ops k)) s); [done | done | done | | done |].
  - intros r Hr. by apply request_of_worker in Hr as [? _].
  - destruct Hs as [_ Hs]. destruct (Hs w k Hk) as (H1 & H2 & H3 & H4 & H5 & H6).
    unfold tidy_worker, outstanding in *. simpl pending.
    rewrite !count_if_app, !request_of_lifecycle by auto.
    rewrite in_flight_after_state. simpl state.
    rewrite (in_flight_after_reads w (fd k)), (in_flight_after_writes w (fd k)). simpl.
    split_and!; [lia | lia | lia | lia | |].
    + unfold is_open. rewrite in_flight_after_state. simpl. fold (is_open k). congruence.
    + intros r Hr Hj.
      apply (addressed_same _ k);
        [by rewrite in_flight_after_fd | by rewrite in_flight_after_fullPath
        | by rewrite in_flight_after_fullDirPath |].
      apply elem_of_app in Hr as [Hr|Hr]; [by apply H6|].
      apply request_of_worker in Hr as (_ & _ & Ha). by apply Ha.
Qed.

Lemma tidy_execIfOps (w : wid) (s : World) (k : PathWorker) :
  workers s !! w = Some k → is_open k = true → tidy s → fine tidy (execIfOps w s).
Proof.
  intros Hk Hopen Hs. pose proof (execIfOps_effect w s k Hk) as H.
  destruct (execIfOps w s) as [[] s'|e s'|s']; simpl; [|done..].
  subst s'. by apply tidy_executed.
Qed.

(** *** [open] and [closeIfDrained] *)

Lemma tidy_open (w : wid) (s : World) (k : PathWorker) :
  workers s !! w = Some k → state k = Closed → tidy s → fine tidy (open w s).
Proof.
  intros Hk Hst Hs. rewrite (open_run w s k Hk Hst). cbv zeta. simpl.
  set (r := if fullDirMade k then FsOpen w (fullPath k) else Mkdirp w (fullDirPath k)).
  apply (tidy_update w k (set_state Opening k) [r] s); [done | done | done | | done |].
  - intros r' Hr. apply list_elem_of_singleton in Hr as ->. unfold r. by destruct (fullDirMade k).
  - destruct Hs as [_ Hs]. destruct (Hs w k Hk) as (H1 & H2 & H3 & H4 & H5 & H6).
    unfold is_open in H5. rewrite Hst in H1, H2, H5. simpl in H1, H2, H5.
    destruct (H5 eq_refl) as [H7 H8].
    unfold tidy_worker, outstanding in *. simpl pending. rewrite !count_if_app. simpl.
    assert (asks w ROpen r = true ∧ asks w RClose r = false ∧
            asks w RRead r = false ∧ asks w RWrite r = false) as (-> & -> & -> & ->).
    { unfold r, asks. destruct (fullDirMade k); simpl; by rewrite Nat.eqb_refl. }
    split_and!; [lia | lia | lia | lia | lia |].
    intros r' Hr Hj. apply elem_of_app in Hr as [Hr|Hr].
    + specialize (H6 r' Hr Hj). by destruct r'.
    + apply list_elem_of_singleton in Hr as ->. unfold r. by destruct (fullDirMade k).
Qed.

Lemma tidy_closeIfDrained (w : wid) (s : World) (k : PathWorker) :
  workers s !! w = Some k → is_open k = true → tidy s → fine tidy (closeIfDrained w s).
Proof.
  intros Hk Hopen Hs. rewrite (closeIfDrained_run w s k Hk Hopen).
  destruct (_ && _)%Z eqn:Hidle; [|exact Hs]. simpl.
  apply andb_true_iff in Hidle as [Hr Hw%Z.eqb_eq]. apply Z.eqb_eq in Hr.
  apply (tidy_update w k (set_state Closing k) [FsClose w (fd k)] s);
    [done | done | done | | done |].
  - intros r' Hr'. by apply list_elem_of_singleton in Hr' as ->.
  - destruct Hs as [_ Hs]. destruct (Hs w k Hk) as (H1 & H2 & H3 & H4 & H5 & H6).
    assert (State_eqb (state k) Opening = false ∧ State_eqb (state k) Closing = false)
      as [E1 E2] by (unfold is_open in Hopen; by destruct (state k)).
    rewrite E1 in H1. rewrite E2 in H2.
    unfold tidy_worker, outstanding in *. simpl pending. rewrite !count_if_app. simpl.
    assert (asks w ROpen (FsClose w (fd k)) = false ∧ asks w RClose (FsClose w (fd k)) = true ∧
            asks w RRead (FsClose w (fd k)) = false ∧ asks w RWrite (FsClose w (fd k)) = false)
      as (-> & -> & -> & ->) by (unfold asks; simpl; by rewrite Nat.eqb_refl).
    split_and!; [lia | lia | lia | lia | lia |].
    intros r' Hr' Hj. apply elem_of_app in Hr' as [Hr'|Hr'].
    + specialize (H6 r' Hr' Hj). by destruct r'.
    + by apply list_elem_of_singleton in Hr' as ->.
Qed.

(** *** [tick], [start], [stop] and [pull] *)

Section Tidy.

Variable pull0 : M unit.
Hypothesis tidy_pull0 : ∀ s, tidy s → fine tidy (pull0 s).

Lemma tidy_call (cb : Callback) (s : World) : tidy s → fine tidy (call pull0 cb s).
Proof.
  intros Hs. destruct cb as [w|]; simpl; munfold.
  - unfold bind, modify. apply tidy_pull0. by eapply tidy_frame.
  - unfold bind at 1, get. unfold bind, set_active, modify.
    apply tidy_pull0. by eapply tidy_frame.
Qed.

Lemma tidy_notify_started (w : wid) (s : World) (k : PathWorker) :
  workers s !! w = Some k → is_open k = true → tidy s →
  fine tidy (notify_started pull0 w s).
Proof.
  intros Hk Hopen Hs. unfold notify_started.
  apply fine_bind; [by eapply tidy_execIfOps|]. intros [] s1 Hs1.
  unfold bind at 1, get_worker. destruct (workers s1 !! w) as [k1|]; [|done].
  destruct (startCb k1) as [cb|]; [|exact Hs1].
  apply fine_bind; [by apply tidy_call|]. intros [] s2 Hs2.
  by apply tidy_upd_worker.
Qed.

Lemma tidy_notify_stopped (w : wid) (s : World) (k : PathWorker) :
  tidy s → fine tidy (notify_stopped pull0 w k s).
Proof.
  intros Hs. unfold notify_stopped. destruct (stopCb k) as [cb|]; [|exact Hs].
  apply fine_bind; [by apply tidy_call|]. intros [] s2 Hs2.
  by apply tidy_upd_worker.
Qed.

Lemma tidy_reopen (again : M unit) (w : wid) (s : World) (k : PathWorker) :
  (∀ s, tidy s → fine tidy (again s)) →
  workers s !! w = Some k → state k = Draining → tidy s →
  fine tidy (bind (upd_worker w (set_state Opened)) (λ _, again) s).
Proof.
  intros Hagain Hk Hst Hs. erewrite bind_Done by (by apply upd_worker_run).
  apply Hagain. apply (tidy_field w k); [done | | done].
  unfold same_io, is_open. rewrite Hst. by repeat split.
Qed.

Lemma tidy_drain (again : M unit) (w : wid) (s : World) (k : PathWorker) :
  (∀ s, tidy s → fine tidy (again s)) →
  workers s !! w = Some k → state k = Opened → tidy s →
  fine tidy (bind (execIfOps w)
               (λ _, bind (upd_worker w (set_state Draining)) (λ _, again)) s).
Proof.
  intros Hagain Hk Hst Hs.
  assert (is_open k = true) as Hopen by (unfold is_open; by rewrite Hst).
  pose proof (execIfOps_effect w s k Hk) as H.
  unfold bind at 1. destruct (execIfOps w s) as [[] s'|e s'|s']; [|done..].
  subst s'. erewrite bind_Done by (apply upd_worker_run; unfold executed; lookup_same).
  apply Hagain.
  eapply (tidy_field w); [unfold executed; lookup_same | | by apply tidy_executed].
  unfold same_io, is_open. simpl. rewrite in_flight_after_state. simpl. rewrite Hst.
  by repeat split.
Qed.

Lemma tidy_tick_at (depth : nat) (w : wid) (s : World) :
  tidy s → fine tidy (tick_at pull0 depth w s).
Proof.
  revert s. induction depth as [|depth IH]; intros s Hs;
    (destruct (workers s !! w) as [k|] eqn:Hk; [|by rewrite tick_at_fail]);
    erewrite tick_at_run by done; cbv zeta;
    destruct (control k) eqn:Hc, (state k) eqn:Hst;
    first
      [ exact Hs
      | by apply (tidy_open w s k)
      | by apply tidy_notify_stopped
      | apply (tidy_notify_started w s k); [done | by unfold is_open; rewrite Hst | done]
      | apply (tidy_closeIfDrained w s k); [done | by unfold is_open; rewrite Hst | done]
      | apply (tidy_reopen _ w s k); [first [exact IH | by intros] | done..]
      | apply (tidy_drain _ w s k); [first [exact IH | by intros] | done..] ].
Qed.

Lemma tidy_tick (w : wid) (s : World) : tidy s → fine tidy (tick pull0 w s).
Proof. apply tidy_tick_at. Qed.

Lemma tidy_start (w : wid) (cb : option Callback) (s : World) :
  tidy s → fine tidy (start pull0 w cb s).
Proof.
  intros Hs. unfold start. munfold.
  apply fine_bind; [by apply tidy_upd_worker|]. intros [] s1 Hs1.
  apply fine_bind; [|by intros; apply tidy_tick].
  destruct cb as [cb|]; [|exact Hs1].
  unfold bind at 1, get_worker. destruct (workers s1 !! w) as [k1|]; [|done].
  unfold assert. destruct (is_null (startCb k1)); [|done].
  unfold bind at 1. simpl. by apply tidy_upd_worker.
Qed.

Lemma tidy_stop (w : wid) (cb : option Callback) (s : World) :
  tidy s → fine tidy (stop pull0 w cb s).
Proof.
  intros Hs. unfold stop. munfold.
  apply fine_bind; [by apply tidy_upd_worker|]. intros [] s1 Hs1.
  unfold bind at 1, get_worker. destruct (workers s1 !! w) as [k1|]; [|done].
  unfold assert. destruct (is_null (stopCb k1)); [|done].
  unfold bind at 1. simpl.
  apply fine_bind; [by apply tidy_upd_worker|]. intros [] s2 Hs2.
  by apply tidy_tick.
Qed.

Lemma tidy_pull_iter (s : World) : tidy s → fine tidy (pull_iter pull0 s).
Proof.
  intros Hs. unfold pull_iter. munfold. unfold bind at 1, get.
  destruct (deque_isEmpty (scheduleQueue s)); [exact Hs|].
  destruct (negb _ && _); [exact Hs|].
  destruct (deque_shift (scheduleQueue s)) as [[p|] rest]; [|done].
  unfold bind at 1, modify.
  assert (tidy (set_scheduleQueue rest s)) as Hs1 by (by eapply tidy_frame).
  revert Hs1. generalize (set_scheduleQueue rest s). intros s1 Hs1.
  unfold bind at 1, get_worker. destruct (workers s1 !! p) as [k|]; [|done].
  destruct (control k); [exact Hs1|].
  destruct (negb (State_eqb (state k) Closed)).
  { apply fine_bind; [by apply tidy_start | by intros]. }
  destruct (numActivePathWorkers s <? maxOpenFiles s)%Z.
  { unfold bind at 1, get. unfold bind at 1, set_active, modify.
    apply fine_bind; [|by intros]. apply tidy_start. by eapply tidy_frame. }
  destruct (negb (deque_isEmpty (stoppableQueue s))); [|done].
  unfold bind at 1, get.
  destruct (deque_shift (stoppableQueue s1)) as [[v|] rest']; [|done].
  unfold bind at 1, modify.
  apply fine_bind; [apply tidy_stop; by eapply tidy_frame|]. intros [] s2 Hs2.
  unfold bind, modify. by eapply tidy_frame.
Qed.

End Tidy.

Lemma tidy_pull (fuel : nat) (s : World) : tidy s → fine tidy (pull fuel s).
Proof.
  revert s. induction fuel as [|fuel IH]; intros s Hs; [done|].
  simpl. munfold. apply fine_bind; [by apply tidy_pull_iter|].
  intros [] s1 Hs1; [exact Hs1 | by apply IH].
Qed.

(** *** The calls of the clients and the replies *)

Lemma tidy_op (fuel : nat) (w : wid) (o : Op) (s : World) :
  tidy s → fine tidy (op fuel w o s).
Proof.
  intros Hs. unfold op, add, push_op, emit. munfold.
  apply fine_bind.
  - apply fine_bind.
    + apply fine_bind; [by apply tidy_upd_worker|]. intros [] s1 Hs1.
      unfold modify. by eapply tidy_frame.
    + intros [] s1 Hs1. apply tidy_tick; [apply tidy_pull | done].
  - intros [] s1 Hs1. unfold bind, modify. apply tidy_pull. by eapply tidy_frame.
Qed.

Lemma tidy_storageFor (p : string) (s : World) : tidy s → fine tidy (storageFor p s).
Proof.
  intros Hs. destruct (pathInterfaces s !! p) as [h|] eqn:Hp.
  - by rewrite (storageFor_known p s h).
  - rewrite storageFor_new by done. simpl.
    destruct Hs as [Hval Hs]. split; simpl.
    + intros r Hr. rewrite length_app. specialize (Hval r Hr). lia.
    + intros j k Hk. apply lookup_app_Some in Hk as [Hk|[Hlen Hk]].
      * by apply (tidy_worker_same_io s _ j k), Hs.
      * apply list_lookup_singleton_Some in Hk as [Hj <-].
        assert (∀ c, outstanding j c s = 0) as Hc.
        { intros c. apply count_if_none. intros r Hr. unfold asks.
          apply andb_false_iff. left. apply Nat.eqb_neq.
          specialize (Hval r Hr). lia. }
        unfold tidy_worker, outstanding in *. simpl. rewrite !Hc.
        split_and!; try done. intros r Hr Hj'. specialize (Hval r Hr). lia.
Qed.

Lemma tidy_run_call (fuel : nat) (c : Call) (s : World) :
  tidy s → fine tidy (run_call fuel c s).
Proof.
  intros Hs. destruct c as [p|h offset size cb|h offset data cb]; simpl; munfold.
  - apply fine_bind; [by apply tidy_storageFor | by intros].
  - unfold read. munfold. unfold bind at 1, get_handle.
    destruct (handles s !! h); [by apply tidy_op | done].
  - unfold write. munfold. unfold bind at 1, get_handle.
    destruct (handles s !! h); [by apply tidy_op | done].
Qed.

Lemma fine_for_each {A} (I : World → Prop) (f : A → M unit) (l : list A) (s : World) :
  (∀ a s1, I s1 → fine I (f a s1)) → I s → fine I (for_each f l s).
Proof.
  intros Hf. revert s. induction l as [|a l IH]; intros s Hs; simpl; [done|].
  munfold. apply fine_bind; [by apply Hf|]. intros [] s1 Hs1. by apply IH.
Qed.

Lemma tidy_invoke (fuel : nat) (cb : ClientCb) (args : list Arg) (s : World) :
  tidy s → fine tidy (invoke fuel cb args s).
Proof.
  intros Hs. unfold invoke, emit. munfold. unfold bind at 1, modify.
  apply fine_for_each; [by intros; apply tidy_run_call|]. by eapply tidy_frame.
Qed.

Lemma no_requests (w : wid) (l : list IoReq) (r : IoReq) :
  (∀ c, count_if (asks w c) l = 0) → r ∈ l → req_worker r ≠ w.
Proof.
  intros H Hr Hw. pose proof (count_if_zero _ _ _ (H (req_kind r)) Hr) as Hf.
  unfold asks in Hf. rewrite Hw, Nat.eqb_refl in Hf. by destruct (req_kind r).
Qed.

(** A turn of the event loop on the reply to [r], a request of the worker at
    [w]: [r] is no longer in flight, the worker becomes [k1] and requests of
    [w] are issued. *)
Lemma tidy_turn (i : nat) (r : IoReq) (w : wid) (k k1 : PathWorker) (new : list IoReq)
    (s s' : World) :
  pending s !! i = Some r → req_worker r = w →
  workers s !! w = Some k →
  workers s' = <[w := k1]> (workers s) →
  pending s' = delete i (pending s) ++ new →
  (∀ r', r' ∈ new → req_worker r' = w) →
  tidy s →
  tidy_worker s' w k1 →
  tidy s'.
Proof.
  intros Hi Hr Hk Hw Hp Hnew [Hval Hs] Hk1. split.
  - intros r' Hr'. rewrite Hp in Hr'. rewrite Hw, length_insert.
    apply elem_of_app in Hr' as [Hr'|Hr'].
    + by apply Hval, (list_elem_of_delete_inv _ i).
    + rewrite (Hnew r' Hr'). by eapply lookup_lt_Some.
  - intros j kj Hj. rewrite Hw in Hj. destruct (decide (j = w)) as [->|Hne].
    + rewrite list_lookup_insert_eq in Hj by (by eapply lookup_lt_Some). by simplify_eq.
    + rewrite list_lookup_insert_ne in Hj by done.
      destruct (Hs j kj Hj) as (H1 & H2 & H3 & H4 & H5 & H6).
      assert (∀ c, outstanding j c s' = outstanding j c s) as Hc.
      { intros c. unfold outstanding. rewrite Hp, count_if_app.
        rewrite (count_if_none _ new)
          by (intros r' Hr'; apply (asks_other w); [by apply Hnew | done]).
        pose proof (count_if_delete (asks j c) _ _ _ Hi) as Hd.
        rewrite (asks_other w j c r) in Hd by done. lia. }
      unfold tidy_worker. rewrite !Hc. split_and!; try done.
      intros r' Hr' Hrj. rewrite Hp in Hr'.
      apply elem_of_app in Hr' as [Hr'|Hr'].
      * by apply H6; [eapply list_elem_of_delete_inv|].
      * rewrite (Hnew r' Hr') in Hrj. done.
Qed.

Lemma tidy_on_reply (fuel : nat) (i : nat) (r : IoReq) (reply : OsReply) (s : World) :
  tidy s → pending s !! i = Some r →
  fine tidy (on_reply fuel r reply (set_pending (delete i (pending s)) s)).
Proof.
  intros Hs Hi.
  assert (∃ k, workers s !! req_worker r = Some k) as [k Hk].
  { apply lookup_lt_is_Some. destruct Hs as [Hval _]. apply Hval.
    by eapply list_elem_of_lookup_2. }
  pose proof (proj2 Hs _ _ Hk) as (H1 & H2 & H3 & H4 & H5 & H6).
  pose proof (count_if_delete (asks (req_worker r) ROpen) _ _ _ Hi) as D1.
  pose proof (count_if_delete (asks (req_worker r) RClose) _ _ _ Hi) as D2.
  pose proof (count_if_delete (asks (req_worker r) RRead) _ _ _ Hi) as D3.
  pose proof (count_if_delete (asks (req_worker r) RWrite) _ _ _ Hi) as D4.
  rewrite asks_own in D1, D2, D3, D4.
  unfold outstanding in *.
  set (s1 := set_pending (delete i (pending s)) s).
  assert (workers s1 !! req_worker r = Some k) as Hk1 by done.
  destruct r as [w dir|w path|w d|w d size offset cb|w d data offset cb]; simpl in *.
  - (* mkdirp *)
    destruct (os_err reply); [done|]. munfold.
    erewrite bind_Done by (by apply upd_worker_run).
    erewrite bind_Done by (apply get_worker_run; lookup_same).
    unfold issue, modify. simpl.
    apply (tidy_turn i (Mkdirp w dir) w k (set_fullDirMade true k) [FsOpen w (fullPath k)] s);
      [done | done | done | done | done | | done |].
    { intros r' Hr'. by apply list_elem_of_singleton in Hr' as ->. }
    unfold tidy_worker, outstanding. simpl. rewrite !count_if_app. simpl.
    rewrite !(asks_own _ (FsOpen w (fullPath k))). simpl.
    split_and!; [lia | lia | lia | lia | intros Ho; specialize (H5 Ho); lia |].
    intros r' Hr' Hj. apply elem_of_app in Hr' as [Hr'|Hr'].
    + apply (addressed_same _ k); [done..|]. apply H6; [|done].
      by eapply list_elem_of_delete_inv.
    + by apply list_elem_of_singleton in Hr' as ->.
  - (* open *)
    destruct (os_err reply); [done|]. munfold.
    erewrite bind_Done by (by apply get_worker_run).
    destruct (state k) eqn:Hst; simpl in *; try done.
    unfold bind at 1. simpl.
    erewrite bind_Done by (by apply upd_worker_run).
    erewrite bind_Done by (apply upd_worker_run; lookup_same).
    apply tidy_tick; [apply tidy_pull|]. simpl. rewrite list_insert_insert_eq.
    unfold is_open in H5. rewrite Hst in H5. destruct (H5 eq_refl) as [H7 H8].
    assert (∀ c, count_if (asks w c) (delete i (pending s)) = 0) as Hnone
      by (intros []; lia).
    apply (tidy_turn i (FsOpen w path) w k (set_fd (os_num reply) (set_state Opened k)) [] s);
      [done | done | done | done | by rewrite app_nil_r | | done |].
    { intros r' Hr'. by apply elem_of_nil in Hr'. }
    unfold tidy_worker, outstanding. simpl.
    split_and!; [lia | lia | lia | lia | done |].
    intros r' Hr' Hj. by destruct (no_requests w _ r' Hnone Hr').
  - (* close *)
    destruct (os_err reply); [done|]. munfold.
    erewrite bind_Done by (by apply get_worker_run).
    destruct (state k) eqn:Hst; simpl in *; try done.
    unfold bind at 1. simpl.
    erewrite bind_Done by (by apply upd_worker_run).
    erewrite bind_Done by (apply upd_worker_run; lookup_same).
    apply tidy_tick; [apply tidy_pull|]. simpl. rewrite list_insert_insert_eq.
    unfold is_open in H5. rewrite Hst in H5. destruct (H5 eq_refl) as [H7 H8].
    assert (∀ c, count_if (asks w c) (delete i (pending s)) = 0) as Hnone
      by (intros []; lia).
    apply (tidy_turn i (FsClose w d) w k (set_fd 0 (set_state Closed k)) [] s);
      [done | done | done | done | by rewrite app_nil_r | | done |].
    { intros r' Hr'. by apply elem_of_nil in Hr'. }
    unfold tidy_worker, outstanding. simpl.
    split_and!; [lia | lia | lia | lia | done |].
    intros r' Hr' Hj. by destruct (no_requests w _ r' Hnone Hr').
  - (* read *)
    munfold. erewrite bind_Done by (by apply upd_worker_run).
    assert (tidy (set_workers (<[w := set_inFlightReads (inFlightReads k - 1) k]> (workers s1)) s1))
      as Hs2.
    { apply (tidy_turn i (FsRead w d size offset cb) w k
               (set_inFlightReads (inFlightReads k - 1) k) [] s);
        [done | done | done | done | by rewrite app_nil_r | | done |].
      { intros r' Hr'. by apply elem_of_nil in Hr'. }
      unfold tidy_worker, outstanding. simpl.
      split_and!; [lia | lia | lia | lia | |].
      - unfold is_open. simpl. fold (is_open k). intros Ho. specialize (H5 Ho). lia.
      - intros r' Hr' Hj. apply (addressed_same _ k); [done..|]. apply H6; [|done].
        by eapply list_elem_of_delete_inv. }
    apply fine_bind; [|by intros; apply tidy_tick; [apply tidy_pull|]].
    destruct (os_err reply); [by apply tidy_invoke|].
    destruct (os_num reply =? 0)%Z; [by apply tidy_invoke|].
    unfold assert. destruct (os_num reply =? size)%Z; [|done].
    unfold bind at 1. simpl. by apply tidy_invoke.
  - (* write *)
    munfold. erewrite bind_Done by (by apply upd_worker_run).
    assert (tidy (set_workers (<[w := set_inFlightWrites (inFlightWrites k - 1) k]> (workers s1)) s1))
      as Hs2.
    { apply (tidy_turn i (FsWrite w d data offset cb) w k
               (set_inFlightWrites (inFlightWrites k - 1) k) [] s);
        [done | done | done | done | by rewrite app_nil_r | | done |].
      { intros r' Hr'. by apply elem_of_nil in Hr'. }
      unfold tidy_worker, outstanding. simpl.
      split_and!; [lia | lia | lia | lia | |].
      - unfold is_open. simpl. fold (is_open k). intros Ho. specialize (H5 Ho). lia.
      - intros r' Hr' Hj. apply (addressed_same _ k); [done..|]. apply H6; [|done].
        by eapply list_elem_of_delete_inv. }
    apply fine_bind; [|by intros; apply tidy_tick; [apply tidy_pull|]].
    destruct (os_err reply); [by apply tidy_invoke|].
    unfold assert. destruct (os_num reply =? _)%Z; [|done].
    unfold bind at 1. simpl. by apply tidy_invoke.
Qed.

Lemma tidy_step (fuel : nat) (e : Input) (s : World) :
  tidy s → fine tidy (step fuel e s).
Proof.
  intros Hs. destruct e as [c|i reply]; simpl; [by apply tidy_run_call|].
  munfold. unfold bind at 1, get. destruct (pending s !! i) as [r|] eqn:Hi; [|done].
  unfold bind at 1, modify. by apply tidy_on_reply.
Qed.

Lemma tidy_run (fuel : nat) (es : list Input) (s : World) :
  tidy s → fine tidy (run fuel es s).
Proof. intros Hs. apply fine_for_each; [by intros; apply tidy_step | done]. Qed.

Lemma tidy_new (cfg : Config) (s0 : World) :
  new_RandomAccessFilesystem cfg = inr s0 → tidy s0.
Proof.
  unfold new_RandomAccessFilesystem. intros H.
  destruct (negb _); [done|]. destruct (negb _); [done|].
  injection H as <-. split; simpl.
  - intros r Hr. by apply elem_of_nil in Hr.
  - intros j k Hk. done.
Qed.

Lemma tidy_reached (cfg : Config) (s0 s : World) (fuel : nat) (es : list Input) :
  new_RandomAccessFilesystem cfg = inr s0 → run fuel es s0 = Done tt s → tidy s.
Proof.
  intros Hnew Hrun. pose proof (tidy_run fuel es s0 (tidy_new cfg s0 Hnew)) as H.
  by rewrite Hrun in H.
Qed.

Lemma count_if_one {A} (f : A → bool) (l : list A) (x : A) :
  x ∈ l → f x = true → 1 ≤ count_if f l.
Proof.
  intros Hx Hf. destruct (count_if f l) eqn:Hc; [|lia].
  by rewrite (count_if_zero f l x Hc Hx) in Hf.
Qed.

(** Between two turns of the event loop the counters of a worker are the
    numbers of its reads and of its writes that wait for their reply; both
    are zero unless its file is open. *)
Theorem in_flight_counters_are_exact (cfg : Config) (s0 s : World) (fuel : nat)
    (es : list Input) (j : wid) (k : PathWorker) :
  new_RandomAccessFilesystem cfg = inr s0 →
  run fuel es s0 = Done tt s →
  workers s !! j = Some k →
  inFlightReads k = Z.of_nat (outstanding j RRead s) ∧
  inFlightWrites k = Z.of_nat (outstanding j RWrite s) ∧
  (is_open k = false → inFlightReads k = 0%Z ∧ inFlightWrites k = 0%Z).
Proof.
  intros Hnew Hrun Hk.
  destruct (tidy_reached cfg s0 s fuel es Hnew Hrun) as [_ Ht].
  destruct (Ht j k Hk) as (_ & _ & H3 & H4 & H5 & _).
  split_and!; [done | done |]. intros Ho. destruct (H5 Ho). lia.
Qed.

Lemma in_flight_counters_are_exact_witness :
  let s := world_of (run 20 two_files_open store2) in
  inFlightReads opened_a = Z.of_nat (outstanding 0 RRead s) ∧
  inFlightWrites opened_a = Z.of_nat (outstanding 0 RWrite s) ∧
  (is_open opened_a = false →
   inFlightReads opened_a = 0%Z ∧ inFlightWrites opened_a = 0%Z).
Proof.
  apply (in_flight_counters_are_exact (mkConfig (Some "dir"%string) (Some 2%Z)) store2
           (world_of (run 20 two_files_open store2)) 20 two_files_open 0 opened_a).
  - reflexivity.
  - vm_compute. reflexivity.
  - vm_compute. reflexivity.
Defined.

(** Between two turns of the event loop a worker has one request to open
    its file in flight ([mkdirp], then [FS.open]) exactly when it is
    opening, and one [FS.close] exactly when it is closing: never two at
    once, and none in another state. *)
Theorem one_open_or_close_at_a_time (cfg : Config) (s0 s : World) (fuel : nat)
    (es : list Input) (j : wid) (k : PathWorker) :
  new_RandomAccessFilesystem cfg = inr s0 →
  run fuel es s0 = Done tt s →
  workers s !! j = Some k →
  outstanding j ROpen s = (if State_eqb (state k) Opening then 1 else 0) ∧
  outstanding j RClose s = (if State_eqb (state k) Closing then 1 else 0).
Proof.
  intros Hnew Hrun Hk.
  destruct (tidy_reached cfg s0 s fuel es Hnew Hrun) as [_ Ht].
  by destruct (Ht j k Hk) as (H1 & H2 & _).
Qed.

Lemma one_open_or_close_at_a_time_witness :
  let s := world_of (run 20 a_is_opening store2) in
  outstanding 0 ROpen s = (if State_eqb (state opening_a) Opening then 1 else 0) ∧
  outstanding 0 RClose s = (if State_eqb (state opening_a) Closing then 1 else 0).
Proof.
  apply (one_open_or_close_at_a_time (mkConfig (Some "dir"%string) (Some 2%Z)) store2
           (world_of (run 20 a_is_opening store2)) 20 a_is_opening 0 opening_a).
  - reflexivity.
  - vm_compute. reflexivity.
  - vm_compute. reflexivity.
Defined.

(** Between two turns of the event loop every request in flight belongs to
    a worker in the state for it: a read or a write to a worker whose file
    is open, for the descriptor that the worker holds; [FS.close] to a
    worker that is closing, with no read or write left, for its descriptor;
    [mkdirp] and [FS.open] to a worker that is opening, for its directory
    and its file. *)
Theorem requests_match_their_worker (cfg : Config) (s0 s : World) (fuel : nat)
    (es : list Input) (r : IoReq) :
  new_RandomAccessFilesystem cfg = inr s0 →
  run fuel es s0 = Done tt s →
  r ∈ pending s →
  ∃ k, workers s !! req_worker r = Some k ∧ addressed k r ∧
       match req_kind r with
       | ROpen => state k = Opening
       | RClose =>
           state k = Closing ∧
           outstanding (req_worker r) RRead s = 0 ∧ outstanding (req_worker r) RWrite s = 0
       | RRead | RWrite => is_open k = true
       end.
Proof.
  intros Hnew Hrun Hr.
  destruct (tidy_reached cfg s0 s fuel es Hnew Hrun) as [Hval Ht].
  destruct (lookup_lt_is_Some_2 _ _ (Hval r Hr)) as [k Hk]. exists k.
  destruct (Ht _ k Hk) as (H1 & H2 & H3 & H4 & H5 & H6).
  split; [done|]. split; [by apply H6|].
  assert (asks (req_worker r) (req_kind r) r = true) as Hown
    by (rewrite asks_own; by destruct (req_kind r)).
  pose proof (count_if_one (asks (req_worker r) (req_kind r)) _ r Hr Hown) as Hc.
  unfold outstanding in *.
  destruct (req_kind r).
  - rewrite H1 in Hc. destruct (state k); simpl in Hc; try lia. done.
  - rewrite H2 in Hc. destruct (state k) eqn:Hst; simpl in Hc; try lia.
    split; [done|]. apply H5. unfold is_open. by rewrite Hst.
  - destruct (is_open k); [done|]. destruct (H5 eq_refl). lia.
  - destruct (is_open k); [done|]. destruct (H5 eq_refl). lia.
Qed.

Lemma requests_match_their_worker_witness :
  ∃ k, workers (world_of (run 20 two_files_open store2))
         !! req_worker (FsWrite 0 6 [x01] 0 (done 1)) = Some k ∧
       addressed k (FsWrite 0 6 [x01] 0 (done 1)) ∧
       is_open k = true.
Proof.
  apply (requests_match_their_worker (mkConfig (Some "dir"%string) (Some 2%Z)) store2
           (world_of (run 20 two_files_open store2)) 20 two_files_open
           (FsWrite 0 6 [x01] 0 (done 1))).
  - reflexivity.
  - vm_compute. reflexivity.
  - vm_compute. apply list_elem_of_singleton. reflexivity.
Defined.

(** ** The scheduler between two turns of the event loop *)

(** *** What [tick], [start] and [stop] do when no callback is due *)

Lemma exec_loop_open (turns : nat) :
  ∀ (w : wid) (s : World) (k : PathWorker),
  workers s !! w = Some k → is_open k = true →
  match exec_loop turns w s with
  | Thrown e _ => e = AssertionError "readSize > 0"
  | _ => True
  end.
Proof.
  induction turns as [|turns IH]; intros w s k Hk Hopen.
  - simpl. munfold. erewrite bind_Done by (by apply get_worker_run).
    by destruct (ops k).
  - simpl. munfold. erewrite bind_Done by (by apply get_worker_run).
    destruct (ops k) as [|o rest] eqn:Hops; simpl; [done|].
    fold (is_open k). rewrite Hopen. simpl.
    unfold bind at 1. simpl. rewrite <- bind_assoc.
    destruct o as [offset size cb|offset data cb].
    + pose proof (exec_turn_read w s k rest offset size cb Hk) as Hturn.
      cbv zeta in Hturn. unfold bind at 1.
      destruct (0 <? size)%Z eqn:Hsize; rewrite Hturn; [|done].
      eapply IH; [lookup_same | done].
    + pose proof (exec_turn_write w s k rest offset data cb Hk) as Hturn.
      cbv zeta in Hturn. unfold bind at 1. rewrite Hturn.
      eapply IH; [lookup_same | done].
Qed.

Lemma execIfOps_open (w : wid) (s : World) (k : PathWorker) :
  workers s !! w = Some k → is_open k = true →
  match execIfOps w s with
  | Done _ s' => s' = executed w k s
  | Thrown e _ => e = AssertionError "readSize > 0"
  | Starved _ => False
  end.
Proof.
  intros Hk Hopen. pose proof (execIfOps_effect w s k Hk) as H.
  pose proof (exec_loop_open (length (ops k)) w s k Hk Hopen) as He.
  unfold execIfOps in *. munfold.
  erewrite bind_Done in * by (by apply get_worker_run).
  by destruct (exec_loop _ w s).
Qed.

Lemma same_scheduler_refl (s : World) : same_scheduler s s.
Proof. by repeat split. Qed.

Lemma notify_started_quiet (pull0 : M unit) (w : wid) (s : World) (k : PathWorker) :
  workers s !! w = Some k → is_open k = true → startCb k = None →
  match notify_started pull0 w s with
  | Done _ s' =>
      ∃ k', workers s' = <[w := k']> (workers s) ∧ same_scheduler s s' ∧
            control k' = control k ∧ state k' = state k ∧
            startCb k' = startCb k ∧ stopCb k' = stopCb k
  | Thrown e _ => e = AssertionError "readSize > 0"
  | Starved _ => False
  end.
Proof.
  intros Hk Hopen Hcb. unfold notify_started.
  pose proof (execIfOps_open w s k Hk Hopen) as H.
  unfold bind at 1. destruct (execIfOps w s) as [[] s1|e s1|s1]; [|done..].
  subst s1. erewrite bind_Done by (apply get_worker_run; unfold executed; lookup_same).
  rewrite in_flight_after_startCb. simpl. rewrite Hcb.
  eexists. split; [reflexivity|]. split; [done|].
  by rewrite in_flight_after_control, in_flight_after_state, in_flight_after_startCb,
    in_flight_after_stopCb.
Qed.

Lemma closeIfDrained_quiet (w : wid) (s : World) (k : PathWorker) :
  workers s !! w = Some k → is_open k = true →
  ∃ s' k', closeIfDrained w s = Done tt s' ∧
    workers s' = <[w := k']> (workers s) ∧ same_scheduler s s' ∧
    control k' = control k ∧ startCb k' = startCb k ∧ stopCb k' = stopCb k ∧
    (state k' = state k ∨ state k' = Closing).
Proof.
  intros Hk Hopen. rewrite (closeIfDrained_run w s k Hk Hopen).
  destruct (_ && _)%Z.
  - eexists _, (set_state Closing k). split; [reflexivity|].
    split_and!; try done. by right.
  - exists s, k. split; [reflexivity|]. rewrite list_insert_id by done.
    split_and!; try done. by left.
Qed.

Lemma tick_quiet (pull0 : M unit) (w : wid) (s : World) (k : PathWorker) :
  workers s !! w = Some k →
  (control k = Start → is_open k = true → startCb k = None) →
  (control k = Stop → state k = Closed → stopCb k = None) →
  match tick pull0 w s with
  | Done _ s' =>
      ∃ k', workers s' = <[w := k']> (workers s) ∧ same_scheduler s s' ∧ ticked k k'
  | Thrown e _ => e = AssertionError "readSize > 0"
  | Starved _ => False
  end.
Proof.
  intros Hk Hstart Hstop. unfold tick. erewrite tick_at_run by done. cbv zeta.
  destruct (control k) eqn:Hc, (state k) eqn:Hst;
    try (exists k; rewrite list_insert_id by done;
         split; [done|]; split; [apply same_scheduler_refl|];
         unfold ticked; rewrite Hc, Hst; by repeat split).
  - (* start, closed *)
    rewrite (open_run w s k Hk Hst). cbv zeta.
    exists (set_state Opening k). split; [done|]. split; [done|].
    unfold ticked. rewrite Hc, Hst. simpl in *. split_and!; congruence.
  - (* start, opened *)
    assert (is_open k = true) as Hopen by (unfold is_open; by rewrite Hst).
    pose proof (notify_started_quiet pull0 w s k Hk Hopen (Hstart eq_refl Hopen)) as H.
    destruct (notify_started pull0 w s) as [[] s'|e s'|s']; [|done..].
    destruct H as (k' & Hw & Hq & E1 & E2 & E3 & E4). exists k'.
    split; [done|]. split; [done|]. unfold ticked. rewrite Hc, Hst. simpl in *. split_and!; congruence.
  - (* start, draining *)
    assert (is_open k = true) as Hopen by (unfold is_open; by rewrite Hst).
    erewrite bind_Done by (by apply upd_worker_run).
    erewrite tick_at_run by lookup_same. simpl. rewrite Hc.
    match goal with |- match notify_started _ _ ?s1 with _ => _ end =>
      pose proof (notify_started_quiet pull0 w s1 (set_state Opened k)) as H end.
    destruct (notify_started pull0 w _) as [[] s'|e s'|s'];
      [|apply H; [lookup_same | done | by apply Hstart]
       |apply H; [lookup_same | done | by apply Hstart]].
    destruct H as (k' & Hw & Hq & E1 & E2 & E3 & E4);
      [lookup_same | done | by apply Hstart|].
    exists k'. simpl in *. rewrite list_insert_insert_eq in Hw.
    split; [done|]. split; [done|]. unfold ticked. rewrite Hc, Hst. simpl in *. split_and!; congruence.
  - (* stop, closed *)
    unfold notify_stopped. rewrite (Hstop eq_refl eq_refl).
    exists k. rewrite list_insert_id by done.
    split; [done|]. split; [apply same_scheduler_refl|].
    unfold ticked. rewrite Hc, Hst. simpl in *. split_and!; congruence.
  - (* stop, opened *)
    assert (is_open k = true) as Hopen by (unfold is_open; by rewrite Hst).
    pose proof (execIfOps_open w s k Hk Hopen) as H.
    unfold bind at 1. destruct (execIfOps w s) as [[] s1|e s1|s1]; [|done..].
    subst s1. erewrite bind_Done by (apply upd_worker_run; unfold executed; lookup_same).
    erewrite tick_at_run by lookup_same. simpl.
    rewrite in_flight_after_control. simpl. rewrite Hc.
    match goal with |- match closeIfDrained _ ?s1 with _ => _ end =>
      destruct (closeIfDrained_quiet w s1
                  (set_state Draining (in_flight_after (ops k) (set_ops [] k))))
        as (s' & k' & -> & Hw & Hq & E1 & E2 & E3 & E4); [lookup_same | done |] end.
    exists k'. simpl in *. rewrite !list_insert_insert_eq in Hw.
    rewrite in_flight_after_control, in_flight_after_startCb, in_flight_after_stopCb in *.
    simpl in *.
    split; [done|]. split; [done|]. unfold ticked. rewrite Hc, Hst.
    simpl in *. split_and!; try congruence; try (destruct E4 as [E4|E4]; [left|right]; congruence).
  - (* stop, draining *)
    assert (is_open k = true) as Hopen by (unfold is_open; by rewrite Hst).
    destruct (closeIfDrained_quiet w s k Hk Hopen)
      as (s' & k' & -> & Hw & Hq & E1 & E2 & E3 & E4).
    exists k'. split; [done|]. split; [done|]. unfold ticked. rewrite Hc, Hst.
    simpl in *. split_and!; try congruence; try (destruct E4 as [E4|E4]; [left|right]; congruence).
Qed.

Lemma same_scheduler_trans (s1 s2 s3 : World) :
  same_scheduler s1 s2 → same_scheduler s2 s3 → same_scheduler s1 s3.
Proof.
  intros (A1 & A2 & A3 & A4 & A5) (B1 & B2 & B3 & B4 & B5). unfold same_scheduler.
  by rewrite B1, B2, B3, B4, B5.
Qed.

Lemma start_effect (pull0 : M unit) (p : wid) (cb : option Callback) (s : World)
    (k : PathWorker) :
  workers s !! p = Some k → startCb k = None →
  (is_Some cb → state k = Closed) →
  match start pull0 p cb s with
  | Done _ s' =>
      ∃ k', workers s' = <[p := k']> (workers s) ∧ same_scheduler s s' ∧
            ticked (set_startCb cb (set_control Start k)) k'
  | Thrown e _ => e = AssertionError "readSize > 0"
  | Starved _ => False
  end.
Proof.
  intros Hk Hcb Hclosed. unfold start. munfold.
  erewrite bind_Done by (by apply upd_worker_run).
  set (s1 := set_workers (<[p := set_control Start k]> (workers s)) s).
  assert (workers s1 !! p = Some (set_control Start k)) as Hk1 by (unfold s1; lookup_same).
  assert (∃ s2, (match cb with
                 | Some _ =>
                     bind (get_worker p) (λ k0,
                       bind (assert (is_null (startCb k0)) "!this.startCb")
                         (λ _, upd_worker p (set_startCb cb)))
                 | None => ret tt
                 end) s1 = Done tt s2 ∧
                workers s2 = <[p := set_startCb cb (set_control Start k)]> (workers s) ∧
                same_scheduler s s2) as (s2 & Hrun & Hw2 & Hq2).
  { destruct cb as [cb|].
    - erewrite bind_Done by (by apply get_worker_run). simpl. rewrite Hcb. simpl.
      unfold bind at 1. simpl. rewrite (upd_worker_run p _ s1 _ Hk1).
      eexists. split; [reflexivity|]. simpl. by rewrite list_insert_insert_eq.
    - exists s1. split; [reflexivity|]. simpl. split; [|done].
      f_equal. destruct k; simpl in *. by subst. }
  rewrite (bind_Done _ _ _ _ _ Hrun).
  assert (workers s2 !! p = Some (set_startCb cb (set_control Start k))) as Hk2.
  { rewrite Hw2. apply list_lookup_insert_eq. by eapply lookup_lt_Some. }
  pose proof (tick_quiet pull0 p s2 _ Hk2) as H.
  destruct (tick pull0 p s2) as [[] s'|e s'|s']; [|apply H; simpl..].
  - destruct H as (k' & Hw & Hq & Ht); simpl.
    + intros _ Hopen. destruct cb as [cb|]; [|done].
      unfold is_open in Hopen. simpl in Hopen. by rewrite Hclosed in Hopen.
    + done.
    + exists k'. rewrite Hw2, list_insert_insert_eq in Hw. split; [done|]. split; [|done].
      by eapply same_scheduler_trans.
  - intros _ Hopen. destruct cb as [cb|]; [|done].
    unfold is_open in Hopen. simpl in Hopen. by rewrite Hclosed in Hopen.
  - done.
  - intros _ Hopen. destruct cb as [cb|]; [|done].
    unfold is_open in Hopen. simpl in Hopen. by rewrite Hclosed in Hopen.
  - done.
Qed.

Lemma stop_effect (pull0 : M unit) (v : wid) (cb : Callback) (s : World) (k : PathWorker) :
  workers s !! v = Some k → stopCb k = None → state k = Opened →
  match stop pull0 v (Some cb) s with
  | Done _ s' =>
      ∃ k', workers s' = <[v := k']> (workers s) ∧ same_scheduler s s' ∧
            ticked (set_stopCb (Some cb) (set_control Stop k)) k'
  | Thrown e _ => e = AssertionError "readSize > 0"
  | Starved _ => False
  end.
Proof.
  intros Hk Hcb Hst. unfold stop. munfold.
  erewrite bind_Done by (by apply upd_worker_run).
  erewrite bind_Done by (apply get_worker_run; lookup_same).
  simpl. rewrite Hcb. simpl. unfold bind at 1. simpl.
  erewrite bind_Done by (apply upd_worker_run; lookup_same).
  simpl. rewrite list_insert_insert_eq.
  match goal with |- match tick _ _ ?s2 with _ => _ end =>
    pose proof (tick_quiet pull0 v s2 (set_stopCb (Some cb) (set_control Stop k))) as H end.
  destruct (tick pull0 v _) as [[] s'|e s'|s'];
    [|apply H; simpl; [lookup_same | done | congruence]..].
  destruct H as (k' & Hw & Hq & Ht); simpl; [lookup_same | done | congruence |].
  exists k'. simpl in Hw. rewrite list_insert_insert_eq in Hw. by split.
Qed.

(** *** The shapes of the workers *)

Ltac shapes :=
  unfold shape, at_rest, starting, stopping in *;
  repeat match goal with m : Mode |- _ => destruct m end;
  repeat case_decide; subst.

Lemma shape_stoppable (m : Mode) (s : World) (v : wid) (k : PathWorker) :
  shape m s v k → v ∈ stoppableQueue s →
  control k = Start ∧ state k = Opened ∧ stopCb k = None.
Proof. intros H Hin. shapes; intuition. Qed.

Lemma shape_closed (m : Mode) (s : World) (p : wid) (k : PathWorker) :
  shape m s p k → control k = Stop → state k = Closed →
  startCb k = None ∧ p ∉ stoppableQueue s.
Proof.
  intros H Hc Hst.
  assert (at_rest s p k → startCb k = None ∧ p ∉ stoppableQueue s) as Hrest.
  { intros (H1 & H2 & H3 & H4). split.
    - destruct (startCb k) as [cb|] eqn:Hcb; [|done].
      destruct (H1 cb eq_refl) as (_ & ? & _). congruence.
    - intros Hin. destruct (H4 Hin). congruence. }
  shapes; auto.
  - destruct H as [_ [(? & _)|(_ & [?|?] & _)]]; congruence.
  - destruct H as (_ & ? & [(_ & _ & ?)|(? & _)]); [done | congruence].
Qed.

Lemma shape_stopped (m : Mode) (s : World) (p : wid) (k : PathWorker) :
  shape m s p k → control k = Stop → state k ≠ Closed → ¬ blocked s →
  startCb k = None.
Proof.
  intros H Hc Hst Hb.
  assert (at_rest s p k → startCb k = None) as Hrest.
  { intros (H1 & _). destruct (startCb k) as [cb|] eqn:Hcb; [|done].
    destruct (H1 cb eq_refl) as (_ & ? & _). congruence. }
  shapes; auto.
  - destruct H as [_ [(? & _)|(_ & _ & _ & _ & ?)]]; [congruence | done].
  - destruct H as (_ & _ & [(_ & ? & _)|(? & _)]); [done | congruence].
Qed.

Lemma shape_frame (m : Mode) (s s' : World) (j : wid) (k : PathWorker) :
  shape m s j k →
  (j ∈ stoppableQueue s' ↔ j ∈ stoppableQueue s) →
  (blocked s → blocked s') →
  shape m s' j k.
Proof.
  intros H [Hq1 Hq2] Hb. shapes.
  - destruct H as (H1 & H2 & H3 & H4). split_and!; auto.
  - destruct H as [H1 [H2|(H2 & H3 & H4 & H5 & H6)]]; (split; [done|]).
    + left. destruct H2 as (? & ? & ? & ?). split_and!; auto.
    + right. split_and!; auto.
  - destruct H as (H1 & H2 & H3 & H4). split_and!; auto.
  - destruct H as (H1 & H2 & H3). split_and!; auto.
  - destruct H as (H1 & H2 & H3 & H4). split_and!; auto.
Qed.

Lemma ticked_start (k k' : PathWorker) (cb : option Callback) :
  ticked (set_startCb cb (set_control Start k)) k' →
  control k' = Start ∧ startCb k' = cb ∧ stopCb k' = stopCb k ∧
  match state k with
  | Closed => state k' = Opening
  | Draining => state k' = Opened
  | _ => state k' = state k
  end.
Proof. unfold ticked. simpl. intros (? & ? & ? & ?). by destruct (state k). Qed.

Lemma ticked_stop (k k' : PathWorker) (cb : option Callback) :
  state k = Opened →
  ticked (set_stopCb cb (set_control Stop k)) k' →
  control k' = Stop ∧ startCb k' = startCb k ∧ stopCb k' = cb ∧
  (state k' = Draining ∨ state k' = Closing).
Proof. unfold ticked. simpl. intros -> (? & ? & ? & ?). done. Qed.

Lemma shape_rescue (m : Mode) (s s' : World) (p : wid) (k k' : PathWorker) :
  shape m s p k → control k = Stop → state k ≠ Closed → ¬ blocked s →
  ticked (set_startCb None (set_control Start k)) k' →
  stoppableQueue s' = stoppableQueue s →
  shape m s' p k'.
Proof.
  intros H Hc Hst Hb (E1 & E2 & E3 & E4)%ticked_start Hq.
  assert (at_rest s p k → at_rest s' p k') as Hrest.
  { intros (H1 & H2 & H3 & H4). unfold at_rest. rewrite Hq, E1, E2, E3.
    split_and!; [done | done | done |].
    intros Hin. destruct (H4 Hin). congruence. }
  shapes; auto.
  - destruct H as [_ [(? & _)|(_ & _ & _ & _ & ?)]]; [congruence | done].
  - destruct H as (_ & _ & [(_ & ? & _)|(? & _)]); [done | congruence].
Qed.

Lemma shape_fresh (m : Mode) (s s' : World) (p : wid) (k k' : PathWorker) :
  shape m s p k → control k = Stop → state k = Closed →
  ticked (set_startCb (Some (OnStarted p)) (set_control Start k)) k' →
  stoppableQueue s' = stoppableQueue s →
  shape m s' p k'.
Proof.
  intros H Hc Hst (E1 & E2 & E3 & E4)%ticked_start Hq. rewrite Hst in E4.
  assert (at_rest s p k → at_rest s' p k') as Hrest.
  { intros (H1 & H2 & H3 & H4). unfold at_rest. rewrite Hq, E1, E2, E3.
    destruct (H3 Hc) as [[_ Hcb]|[[?|?] _]]; [|congruence..].
    split_and!; [|done|done|].
    - intros cb [= <-]. by rewrite E4.
    - intros Hin. destruct (H4 Hin). congruence. }
  shapes; auto.
  - destruct H as [_ [(? & _)|(_ & [?|?] & _)]]; congruence.
  - destruct H as (H1 & H2 & [H3|(? & _)]); [|congruence].
    rewrite Hq, E1, E2, E3, E4. split_and!; auto.
Qed.

Lemma shape_evict (m : Mode) (s s' : World) (v : wid) (k k' : PathWorker) :
  shape m s v k → v ∈ stoppableQueue s → v ∉ stoppableQueue s' → blocked s' →
  ticked (set_stopCb (Some OnStopped) (set_control Stop k)) k' →
  shape m s' v k'.
Proof.
  intros H Hin Hout Hb Ht.
  destruct (shape_stoppable m s v k H Hin) as (Hc & Hst & Hcb).
  apply (ticked_stop _ _ _ Hst) in Ht as (E1 & E2 & E3 & E4).
  assert (at_rest s v k → at_rest s' v k') as Hrest.
  { intros (H1 & H2 & H3 & H4). unfold at_rest. rewrite E1, E2, E3.
    split_and!; [|by intros cb [= <-]|by right|done].
    intros cb Hcb'. destruct (H1 cb Hcb') as (_ & _ & ? & _). congruence. }
  shapes; auto.
  - destruct H as [H1 _]. rewrite E1, E2, E3. split; [done|]. right. split_and!; auto.
  - by destruct H as (_ & ? & _).
Qed.

Lemma at_rest_ticked (s s' : World) (w : wid) (k k' : PathWorker) :
  at_rest s w k → ticked k k' → stoppableQueue s' = stoppableQueue s →
  at_rest s' w k'.
Proof.
  intros (H1 & H2 & H3 & H4) (E1 & E2 & E3 & E4) Hq. unfold at_rest.
  rewrite Hq, E1, E2, E3. split_and!; [| done | |].
  - intros cb Hcb. destruct (H1 cb Hcb) as (? & Hc & Hst & ?).
    rewrite Hc, Hst in E4. split_and!; congruence.
  - intros Hc. rewrite Hc in E4. destruct (H3 Hc) as [[Hst ?]|[[Hst|Hst] ?]];
      rewrite Hst in E4.
    + left. split; congruence.
    + right. split; [|done]. destruct E4 as [E4|E4]; [left|right]; congruence.
    + right. split; [|done]. right. congruence.
  - intros Hin. destruct (H4 Hin) as (Hc & Hst & ?). rewrite Hc, Hst in E4.
    split_and!; congruence.
Qed.

(** *** One iteration of [pull] *)

Lemma count_if_insert {A} (f : A → bool) (l : list A) (i : nat) (x y : A) :
  l !! i = Some x →
  count_if f (<[i := y]> l) + (if f x then 1 else 0) =
  count_if f l + (if f y then 1 else 0).
Proof.
  revert i. induction l as [|z l IH]; intros [|i] H; simplify_eq/=; [lia|].
  specialize (IH i H). lia.
Qed.

(** The worker at [w] becomes [k'], the queues and the counter change. *)
Lemma Sound_step (m m' : Mode) (s s' : World) (w : wid) (k k' : PathWorker) :
  Sound m s → workers s !! w = Some k → workers s' = <[w := k']> (workers s) →
  handles s' = handles s →
  NoDup (stoppableQueue s') →
  (∀ j, j ∈ stoppableQueue s' → j < length (workers s)) →
  (∀ j, j ∈ scheduleQueue s' → j < length (workers s)) →
  (numActivePathWorkers s' + (if holds_slot k then 1 else 0) =
   numActivePathWorkers s + (if holds_slot k' then 1 else 0))%Z →
  shape m' s' w k' →
  (∀ j kj, j ≠ w → workers s !! j = Some kj → shape m s j kj → shape m' s' j kj) →
  Sound m' s'.
Proof.
  intros (S1 & S2 & S3 & S4 & S5 & S6) Hk Hw Hh Hnd Hst Hsch Hnum Hshape Hothers.
  unfold Sound, slots in *. rewrite Hw, Hh, length_insert. split_and!; try done.
  - pose proof (count_if_insert holds_slot _ w k k' Hk).
    destruct (holds_slot k), (holds_slot k'); lia.
  - intros j kj Hj. destruct (decide (j = w)) as [->|Hne].
    + rewrite list_lookup_insert_eq in Hj by (by eapply lookup_lt_Some). by simplify_eq.
    + rewrite list_lookup_insert_ne in Hj by done. by apply Hothers, S6.
Qed.

Lemma blocked_head (s : World) (p : wid) (rest : list wid) (k : PathWorker) :
  blocked s → scheduleQueue s = p :: rest → workers s !! p = Some k →
  control k = Stop ∧ state k = Closed ∧ (maxOpenFiles s ≤ numActivePathWorkers s)%Z.
Proof.
  intros (p' & rest' & kp & Hq' & Hkp & Hcp & Hsp & Hn) Hq Hk.
  rewrite Hq in Hq'. by simplify_eq.
Qed.

Lemma holds_slot_start (k : PathWorker) : control k = Start → holds_slot k = true.
Proof. unfold holds_slot. by intros ->. Qed.

Lemma holds_slot_open (k : PathWorker) : state k ≠ Closed → holds_slot k = true.
Proof. unfold holds_slot. intros H. destruct (state k); [done|by rewrite orb_true_r..]. Qed.

Lemma holds_slot_closed (k : PathWorker) :
  control k = Stop → state k = Closed → holds_slot k = false.
Proof. unfold holds_slot. by intros -> ->. Qed.

Lemma pull_iter_sound (pull0 : M unit) (m : Mode) (s : World) :
  Sound m s →
  match pull_iter pull0 s with
  | Done Return s' => Sound m s' ∧ saturated s'
  | Done Continue s' => Sound m s'
  | Thrown e _ => allowed e
  | Starved _ => True
  end.
Proof.
  intros Hs. pose proof Hs as (S1 & S2 & S3 & S4 & S5 & S6).
  unfold pull_iter. munfold. unfold bind at 1, get.
  destruct (scheduleQueue s) as [|p rest] eqn:Hq; simpl.
  { split; [done | by left]. }
  destruct (negb (numActivePathWorkers s <? maxOpenFiles s)%Z
            && deque_isEmpty (stoppableQueue s)) eqn:Hgo.
  { split; [done|]. right. apply andb_true_iff in Hgo as [H1 H2]. split.
    - by apply negb_true_iff, Z.ltb_ge in H1.
    - by destruct (stoppableQueue s). }
  unfold bind at 1, modify.
  set (s1 := set_scheduleQueue rest s).
  assert (is_Some (workers s !! p)) as [k Hk].
  { apply lookup_lt_is_Some, S3. by left. }
  rewrite (bind_Done _ _ _ _ _ (get_worker_run p s1 k Hk)).
  assert (∀ j, j ∈ rest → j < length (workers s)) as Hrest.
  { intros j Hj. apply S3. by right. }
  destruct (control k) eqn:Hc.
  - (* the worker is started already *)
    simpl. apply (Sound_step m m s s1 p k k); try done.
    + by rewrite list_insert_id.
    + eapply shape_frame; [by apply S6 | done |].
      intros Hb. destruct (blocked_head s p rest k Hb Hq Hk). congruence.
    + intros j kj _ _ Hj. eapply shape_frame; [done | done |].
      intros Hb. destruct (blocked_head s p rest k Hb Hq Hk). congruence.
  - destruct (State_eqb (state k) Closed) eqn:Hst; simpl.
    + assert (state k = Closed) as Hclosed by (by destruct (state k)).
      destruct (shape_closed m s p k (S6 p k Hk) Hc Hclosed) as [Hcb Hout].
      destruct (numActivePathWorkers s <? maxOpenFiles s)%Z eqn:Hroom.
      * (* a free slot *)
        unfold bind at 1, get. unfold bind at 1, set_active, modify.
        match goal with |- match bind (start _ _ _) _ ?s2 with _ => _ end =>
          pose proof (start_effect pull0 p (Some (OnStarted p)) s2 k Hk Hcb (λ _, Hclosed)) as H;
          unfold bind at 1; destruct (start pull0 p (Some (OnStarted p)) s2) as [[] s3|e s3|s3]
        end; [|by subst; left|done].
        destruct H as (k' & Hw & (Q1 & Q2 & Q3 & Q4 & Q5) & Ht). simpl in *.
        pose proof (ticked_start _ _ _ Ht) as (E1 & _).
        apply Z.ltb_lt in Hroom.
        apply (Sound_step m m s s3 p k k'); [done | done | done | done | | | | | |].
        -- by rewrite Q2.
        -- rewrite Q2. done.
        -- rewrite Q1. done.
        -- rewrite Q3, (holds_slot_closed k), (holds_slot_start k') by done. lia.
        -- apply (shape_fresh m s s3 p k k'); [by apply S6 | done | done | done | done].
        -- intros j kj _ _ Hj. eapply shape_frame; [done | by rewrite Q2 |].
           intros Hb. destruct (blocked_head s p rest k Hb Hq Hk) as (_ & _ & ?). lia.
      * (* a worker is stopped for this one *)
        simpl in Hgo. destruct (stoppableQueue s) as [|v rest'] eqn:Hstop; [done|]. simpl.
        unfold bind at 1, get. simpl. rewrite Hstop. simpl.
        unfold bind at 1, modify.
        assert (is_Some (workers s !! v)) as [kv Hkv].
        { apply lookup_lt_is_Some, S2. by left. }
        assert (v ∈ stoppableQueue s) as Hin by (rewrite Hstop; by left).
        destruct (shape_stoppable m s v kv (S6 v kv Hkv) Hin) as (Hcv & Hsv & Hcbv).
        apply NoDup_cons in S1 as [Hv Hnd].
        match goal with |- match bind (stop _ _ _) _ ?s2 with _ => _ end =>
          pose proof (stop_effect pull0 v OnStopped s2 kv Hkv Hcbv Hsv) as H;
          unfold bind at 1; destruct (stop pull0 v (Some OnStopped) s2) as [[] s3|e s3|s3]
        end; [|by subst; left|done].
        destruct H as (k' & Hw & (Q1 & Q2 & Q3 & Q4 & Q5) & Ht). simpl in *.
        pose proof (ticked_stop _ _ _ Hsv Ht) as (E1 & E2 & E3 & E4).
        unfold bind, modify. simpl.
        assert (v ≠ p) as Hvp by (intros ->; simplify_eq; congruence).
        apply Z.ltb_ge in Hroom.
        match goal with |- Sound m ?s4 =>
          assert (blocked s4) as Hb
        end.
        { exists p, (scheduleQueue s3), k. simpl. rewrite Hw, Q3, Q4.
          rewrite list_lookup_insert_ne by done. done. }
        eapply (Sound_step m m s _ v kv k'); [done | done | done | done | | | | | |]; simpl.
        -- by rewrite Q2.
        -- rewrite Q2. intros j Hj. apply S2. by right.
        -- rewrite Q1. intros j [->|Hj]%elem_of_cons; [by eapply lookup_lt_Some | by apply Hrest].
        -- rewrite Q3, (holds_slot_start kv), (holds_slot_open k') by
             (done || (destruct E4; congruence)). lia.
        -- eapply (shape_evict m s); [by apply S6 | done | simpl; by rewrite Q2 | done | done].
        -- intros j kj Hne _ Hj. eapply shape_frame; [done | | done].
           simpl. rewrite Q2, Hstop, elem_of_cons. split; [by right | by intros [?|?]].
    + (* the worker is stopping: it is started again *)
      assert (state k ≠ Closed) as Hopen by (by destruct (state k)).
      assert (¬ blocked s) as Hnb.
      { intros Hb. destruct (blocked_head s p rest k Hb Hq Hk) as (_ & ? & _). done. }
      pose proof (shape_stopped m s p k (S6 p k Hk) Hc Hopen Hnb) as Hcb.
      assert (is_Some (@None Callback) → state k = Closed) as Hno by (by intros [? ?]).
      pose proof (start_effect pull0 p None s1 k Hk Hcb Hno) as H.
      unfold bind at 1. destruct (start pull0 p None s1) as [[] s3|e s3|s3];
        [|by subst; left|done].
      destruct H as (k' & Hw & (Q1 & Q2 & Q3 & Q4 & Q5) & Ht). simpl in *.
      pose proof (ticked_start _ _ _ Ht) as (E1 & _).
      apply (Sound_step m m s s3 p k k'); [done | done | done | done | | | | | |].
      * by rewrite Q2.
      * rewrite Q2. done.
      * rewrite Q1. done.
      * rewrite Q3, (holds_slot_open k), (holds_slot_start k') by done. lia.
      * apply (shape_rescue m s s3 p k k'); [by apply S6 | done | done | done | done | done].
      * intros j kj _ _ Hj. eapply shape_frame; [done | by rewrite Q2 | done].
Qed.

(** *** [pull] and [tick] between two turns *)

Lemma pull_settled (fuel : nat) (m : Mode) (s : World) :
  Sound m s → settled m (pull fuel s).
Proof.
  revert s. induction fuel as [|fuel IH]; intros s Hs; [done|].
  simpl. munfold. pose proof (pull_iter_sound (pull fuel) m s Hs) as H.
  unfold bind. destruct (pull_iter (pull fuel) s) as [[] s1|e s1|s1]; try done.
  by apply IH.
Qed.

(** No worker is ever dropped. *)
Lemma workers_stay_pull (n fuel : nat) :
  keeps (λ s, n ≤ length (workers s)) (λ s, n ≤ length (workers s)) (pull fuel).
Proof.
  apply keeps_pull; unfold keeps, ok; try done.
  - intros w f s k _ Hs _. simpl. by rewrite length_insert.
  - intros w o rest s k Hs Hk _. destruct o as [offset size cb|offset data cb].
    + erewrite exec_turn_read by done. cbv zeta.
      destruct (0 <? size)%Z; simpl; by rewrite length_insert.
    + erewrite exec_turn_write by done. simpl. by rewrite length_insert.
Qed.

Lemma workers_stay_invoke (n fuel : nat) (cb : ClientCb) (args : list Arg) :
  keeps (λ s, n ≤ length (workers s)) (λ s, n ≤ length (workers s)) (invoke fuel cb args).
Proof.
  apply keeps_invoke; unfold keeps, ok; try done.
  - intros w f s k _ Hs _. simpl. by rewrite length_insert.
  - intros w o s Hs. destruct (workers s !! w) as [k|] eqn:Hk.
    + erewrite push_op_run by done. simpl. by rewrite length_insert.
    + by rewrite push_op_fail.
  - intros w o rest s k Hs Hk _. destruct o as [offset size c|offset data c].
    + erewrite exec_turn_read by done. cbv zeta.
      destruct (0 <? size)%Z; simpl; by rewrite length_insert.
    + erewrite exec_turn_write by done. simpl. by rewrite length_insert.
  - intros p s Hs. destruct (pathInterfaces s !! p) as [h|] eqn:Hp.
    + by erewrite storageFor_known.
    + rewrite storageFor_new by done. simpl. rewrite length_app. lia.
Qed.

Lemma saturated_same (s s' : World) :
  same_scheduler s s' → saturated s → saturated s'.
Proof. intros (Q1 & Q2 & Q3 & Q4 & Q5). unfold saturated. by rewrite Q1, Q2, Q3, Q4. Qed.

Lemma ticked_holds_slot (k k' : PathWorker) :
  ticked k k' → holds_slot k' = holds_slot k.
Proof.
  intros (E1 & _ & _ & E4). unfold holds_slot. rewrite E1.
  destruct (control k), (state k); simpl in *; try done; try (by rewrite E4);
    by destruct E4 as [-> | ->].
Qed.

Lemma at_rest_same (s s' : World) (j : wid) (k k' : PathWorker) :
  control k' = control k → state k' = state k →
  startCb k' = startCb k → stopCb k' = stopCb k →
  (j ∈ stoppableQueue s' → j ∈ stoppableQueue s) →
  at_rest s j k → at_rest s' j k'.
Proof.
  intros E1 E2 E3 E4 Hq (H1 & H2 & H3 & H4). unfold at_rest.
  rewrite E1, E2, E3, E4. split_and!; auto.
Qed.

(** A change of the world that the scheduler does not see. *)
Lemma Sound_field (s s' : World) (w : wid) (k k' : PathWorker) :
  Sound Idle s → workers s !! w = Some k → workers s' = <[w := k']> (workers s) →
  same_scheduler s s' →
  control k' = control k → state k' = state k →
  startCb k' = startCb k → stopCb k' = stopCb k →
  Sound Idle s'.
Proof.
  intros Hs Hk Hw (Q1 & Q2 & Q3 & Q4 & Q5) E1 E2 E3 E4.
  pose proof Hs as (S1 & S2 & S3 & S4 & S5 & S6).
  apply (Sound_step Idle Idle s s' w k k'); [done | done | done | done | | | | | |].
  - by rewrite Q2.
  - by rewrite Q2.
  - by rewrite Q1.
  - rewrite Q3. unfold holds_slot. by rewrite E1, E2.
  - apply (at_rest_same s s' w k); [done.. | by rewrite Q2 | by apply S6].
  - intros j kj _ _ Hj. apply (at_rest_same s s' j kj); [done.. | by rewrite Q2 | done].
Qed.

Lemma Sound_scheduleQueue (q : list wid) (s : World) :
  Sound Idle s → (∀ j, j ∈ q → j < length (workers s)) →
  Sound Idle (set_scheduleQueue q s).
Proof.
  intros (S1 & S2 & S3 & S4 & S5 & S6) Hq. split_and!; try done.
Qed.

Lemma tick_rest (pull0 : M unit) (w : wid) (s : World) :
  Sound Idle s → saturated s → w < length (workers s) →
  match tick pull0 w s with
  | Done _ s' =>
      Sound Idle s' ∧ saturated s' ∧ length (workers s') = length (workers s)
  | Thrown e _ => allowed e
  | Starved _ => True
  end.
Proof.
  intros Hs Hsat Hw. pose proof Hs as (S1 & S2 & S3 & S4 & S5 & S6).
  destruct (lookup_lt_is_Some_2 _ _ Hw) as [k Hk].
  pose proof (S6 w k Hk) as (H1 & H2 & H3 & H4).
  assert (control k = Start → is_open k = true → startCb k = None) as Hstart.
  { intros Hc Hopen. destruct (startCb k) as [cb|] eqn:Hcb; [|done].
    destruct (H1 cb eq_refl) as (_ & _ & Hst & _). unfold is_open in Hopen.
    by rewrite Hst in Hopen. }
  assert (control k = Stop → state k = Closed → stopCb k = None) as Hstop.
  { intros Hc Hst. destruct (H3 Hc) as [[_ ?]|[[?|?] _]]; [done | congruence..]. }
  pose proof (tick_quiet pull0 w s k Hk Hstart Hstop) as H.
  destruct (tick pull0 w s) as [[] s'|e s'|s']; simpl; [|by subst; left|done].
  destruct H as (k' & Hw' & Hq & Ht).
  split; [|split; [by eapply saturated_same | by rewrite Hw', length_insert]].
  pose proof Hq as (Q1 & Q2 & Q3 & Q4 & Q5).
  apply (Sound_step Idle Idle s s' w k k'); [done | done | done | done | | | | | |].
  - by rewrite Q2.
  - by rewrite Q2.
  - by rewrite Q1.
  - by rewrite Q3, (ticked_holds_slot k k').
  - by apply (at_rest_ticked s s' w k k'); [apply S6 | |].
  - intros j kj _ _ Hj. apply (at_rest_same s s' j kj); [done.. | by rewrite Q2 | done].
Qed.

(** *** The calls of the clients *)

Lemma op_settled (fuel : nat) (w : wid) (o : Op) (s : World) :
  Sound Idle s → saturated s → w < length (workers s) →
  settled Idle (op fuel w o s).
Proof.
  intros Hs Hsat Hw. destruct (lookup_lt_is_Some_2 _ _ Hw) as [k Hk].
  unfold op. munfold. unfold bind at 1. rewrite (add_run (pull fuel) w o s k Hk).
  assert (Sound Idle (pushed w o k s)) as Hs1.
  { by apply (Sound_field s _ w k (set_ops (deque_push o (ops k)) k)). }
  pose proof (tick_rest (pull fuel) w (pushed w o k s) Hs1) as H.
  destruct (tick (pull fuel) w _) as [[] s2|e s2|s2];
    [|apply H; [done | simpl; by rewrite length_insert]|done].
  destruct H as (Hs2 & Hsat2 & Hlen); [done | simpl; by rewrite length_insert|].
  simpl in Hlen. rewrite length_insert in Hlen.
  unfold bind, modify. apply pull_settled. apply Sound_scheduleQueue; [done|].
  intros j [Hj| ->%list_elem_of_singleton]%elem_of_app; [|lia].
  destruct Hs2 as (_ & _ & S3 & _). by apply S3.
Qed.

Lemma storageFor_settled (p : string) (s : World) :
  Sound Idle s → saturated s →
  match storageFor p s with
  | Done _ s' => Sound Idle s' ∧ saturated s'
  | Thrown e _ => allowed e
  | Starved _ => True
  end.
Proof.
  intros Hs Hsat. destruct (pathInterfaces s !! p) as [h|] eqn:Hp.
  - by rewrite (storageFor_known p s h).
  - rewrite storageFor_new by done. split; [|done].
    destruct Hs as (S1 & S2 & S3 & S4 & S5 & S6). unfold Sound, slots in *. simpl.
    rewrite length_app. simpl. split_and!; [done | | | | |].
    + intros j Hj. specialize (S2 j Hj). lia.
    + intros j Hj. specialize (S3 j Hj). lia.
    + intros h i [Hi|[_ Hi]]%lookup_app_Some.
      * specialize (S4 h i Hi). lia.
      * apply list_lookup_singleton_Some in Hi as [_ <-]. simpl. lia.
    + rewrite count_if_app. simpl. lia.
    + intros j k [Hk|[Hlen Hk]]%lookup_app_Some.
      * by apply (at_rest_same s _ j k), S6.
      * apply list_lookup_singleton_Some in Hk as [Hj <-]. unfold at_rest. simpl.
        split_and!; [done | done | by left |].
        intros Hin. specialize (S2 j Hin). lia.
Qed.

Lemma run_call_settled (fuel : nat) (c : Call) (s : World) :
  Sound Idle s → saturated s → settled Idle (run_call fuel c s).
Proof.
  intros Hs Hsat. destruct c as [p|h offset size cb|h offset data cb]; simpl; munfold.
  - pose proof (storageFor_settled p s Hs Hsat) as H.
    unfold bind. by destruct (storageFor p s).
  - unfold read. munfold. unfold bind at 1, get_handle.
    destruct (handles s !! h) as [i|] eqn:Hi; [|done].
    apply op_settled; [done | done |]. destruct Hs as (_ & _ & _ & S4 & _). by eapply S4.
  - unfold write. munfold. unfold bind at 1, get_handle.
    destruct (handles s !! h) as [i|] eqn:Hi; [|done].
    apply op_settled; [done | done |]. destruct Hs as (_ & _ & _ & S4 & _). by eapply S4.
Qed.

Lemma for_each_settled {A} (f : A → M unit) (l : list A) (s : World) :
  (∀ a s1, Sound Idle s1 → saturated s1 → settled Idle (f a s1)) →
  Sound Idle s → saturated s → settled Idle (for_each f l s).
Proof.
  intros Hf. revert s. induction l as [|a l IH]; intros s Hs Hsat; simpl; [done|].
  munfold. specialize (Hf a s Hs Hsat). unfold bind.
  destruct (f a s) as [[] s1|e s1|s1]; [|done..]. destruct Hf. by apply IH.
Qed.

Lemma invoke_settled (fuel : nat) (cb : ClientCb) (args : list Arg) (s : World) :
  Sound Idle s → saturated s → settled Idle (invoke fuel cb args s).
Proof.
  intros Hs Hsat. unfold invoke, emit. munfold. unfold bind at 1, modify.
  apply for_each_settled; [by intros; apply run_call_settled | | done].
  destruct Hs as (S1 & S2 & S3 & S4 & S5 & S6). by split_and!.
Qed.

(** *** The callbacks of [start] and [stop] *)

(** The start callback of the worker at [w] runs, then [startCb] is reset. *)
Lemma fire_started (fuel : nat) (w : wid) (s : World) :
  Sound (Starting w) (set_stoppableQueue (deque_push w (stoppableQueue s)) s) →
  w < length (workers s) →
  settled Idle (bind (call (pull fuel) (OnStarted w))
                  (λ _, upd_worker w (set_startCb None)) s).
Proof.
  intros Hs Hw. simpl. munfold. unfold bind at 2, modify. unfold bind at 1. cbv beta.
  set (s1 := set_stoppableQueue _ s) in *.
  pose proof (pull_settled fuel (Starting w) s1 Hs) as H.
  pose proof (workers_stay_pull (S w) fuel s1 Hw) as Hlen.
  destruct (pull fuel s1) as [[] s2|e s2|s2]; [|done..].
  destruct H as [Hs2 Hsat2]. simpl in Hlen.
  destruct (lookup_lt_is_Some_2 _ _ Hlen) as [k Hk].
  rewrite (upd_worker_run w _ s2 k Hk). split; [|done].
  pose proof Hs2 as (S1 & S2 & S3 & S4 & S5 & S6).
  apply (Sound_step (Starting w) Idle s2 _ w k (set_startCb None k));
    [done | done | done | done | done | done | done | done | |].
  - specialize (S6 w k Hk). simpl in S6. rewrite decide_True in S6 by done.
    destruct S6 as [_ [(Hc & Hst & Hcb & Hin)|(Hc & Hst & Hcb & Hout & _)]];
      simpl; unfold at_rest; simpl; rewrite ?Hc, ?Hcb.
    + split_and!; [done | done | done | by intros; split_and!].
    + split_and!; [done | by intros cb [= <-] | by intros; right | done].
  - intros j kj Hne _ Hj. simpl in Hj. rewrite decide_False in Hj by done. exact Hj.
Qed.

(** The stop callback of the worker at [w] runs, then [stopCb] is reset. *)
Lemma fire_stopped (fuel : nat) (w : wid) (s : World) :
  Sound (Stopping w) (set_numActivePathWorkers (numActivePathWorkers s - 1) s) →
  w < length (workers s) →
  settled Idle (bind (call (pull fuel) OnStopped)
                  (λ _, upd_worker w (set_stopCb None)) s).
Proof.
  intros Hs Hw. simpl. munfold. unfold bind at 2, get. unfold bind at 2, set_active, modify.
  unfold bind at 1. cbv beta.
  match goal with |- settled _ (match pull fuel ?s0 with _ => _ end) => set (s1 := s0) end.
  assert (Sound (Stopping w) s1) as Hs1 by exact Hs.
  pose proof (pull_settled fuel (Stopping w) s1 Hs1) as H.
  pose proof (workers_stay_pull (S w) fuel s1 Hw) as Hlen.
  destruct (pull fuel s1) as [[] s2|e s2|s2]; [|done..].
  destruct H as [Hs2 Hsat2]. simpl in Hlen.
  destruct (lookup_lt_is_Some_2 _ _ Hlen) as [k Hk].
  rewrite (upd_worker_run w _ s2 k Hk). split; [|done].
  pose proof Hs2 as (S1 & S2 & S3 & S4 & S5 & S6).
  apply (Sound_step (Stopping w) Idle s2 _ w k (set_stopCb None k));
    [done | done | done | done | done | done | done | done | |].
  - specialize (S6 w k Hk). simpl in S6. rewrite decide_True in S6 by done.
    destruct S6 as (_ & Hout & [(Hc & Hst & Hcb)|(Hc & Hst & Hcb)]);
      simpl; unfold at_rest; simpl; rewrite ?Hc, ?Hst, ?Hcb.
    + split_and!; [done | done | by intros; left | done].
    + split_and!; [by intros cb [= <-] | done | done | done].
  - intros j kj Hne _ Hj. simpl in Hj. rewrite decide_False in Hj by done. exact Hj.
Qed.

(** *** The replies of the operating system *)

Lemma then_tick (fuel : nat) (m : M unit) (w : wid) (s : World) :
  settled Idle (m s) →
  ok (λ s, S w ≤ length (workers s)) (λ s, S w ≤ length (workers s)) (m s) →
  settled Idle (bind m (λ _, tick (pull fuel) w) s).
Proof.
  intros H Hlen. unfold bind. destruct (m s) as [[] s1|e s1|s1]; [|done..].
  destruct H as [Hs1 Hsat1]. simpl in Hlen.
  pose proof (tick_rest (pull fuel) w s1 Hs1 Hsat1 Hlen) as H.
  destruct (tick (pull fuel) w s1) as [[] s2|e s2|s2]; [|done..]. by destruct H as (? & ? & _).
Qed.

Lemma on_reply_settled (fuel : nat) (i : nat) (r : IoReq) (reply : OsReply) (s : World) :
  Sound Idle s → saturated s → tidy s → pending s !! i = Some r →
  settled Idle (on_reply fuel r reply (set_pending (delete i (pending s)) s)).
Proof.
  intros Hs Hsat Ht Hi.
  assert (req_worker r < length (workers s)) as Hlen.
  { destruct Ht as [Hval _]. apply Hval. by eapply list_elem_of_lookup_2. }
  destruct (lookup_lt_is_Some_2 _ _ Hlen) as [k Hk].
  pose proof (proj2 Ht _ _ Hk) as (T1 & T2 & _).
  pose proof (count_if_delete (asks (req_worker r) ROpen) _ _ _ Hi) as D1.
  pose proof (count_if_delete (asks (req_worker r) RClose) _ _ _ Hi) as D2.
  rewrite asks_own in D1, D2. unfold outstanding in *.
  pose proof Hs as (S1 & S2 & S3 & S4 & S5 & S6).
  pose proof (S6 _ _ Hk) as (R1 & R2 & R3 & R4).
  set (s1 := set_pending (delete i (pending s)) s).
  assert (workers s1 !! req_worker r = Some k) as Hk1 by done.
  assert (Sound Idle s1) as Hs1 by exact Hs.
  assert (saturated s1) as Hsat1 by exact Hsat.
  destruct r as [w dir|w path|w d|w d size offset cb|w d data offset cb]; simpl in *.
  - (* mkdirp *)
    destruct (os_err reply); [done|]. munfold.
    erewrite bind_Done by (by apply upd_worker_run).
    erewrite bind_Done by (apply get_worker_run; lookup_same).
    unfold issue, modify. simpl. split; [|exact Hsat].
    by apply (Sound_field s _ w k (set_fullDirMade true k)).
  - (* open *)
    destruct (os_err reply); [done|]. munfold.
    erewrite bind_Done by (by apply get_worker_run).
    destruct (state k) eqn:Hst; simpl in *; try lia.
    assert (control k = Start) as Hc.
    { destruct (control k) eqn:Hc; [done|].
      destruct (R3 eq_refl) as [[? _]|[[?|?] _]]; congruence. }
    assert (w ∉ stoppableQueue s) as Hout.
    { intros Hin. destruct (R4 Hin) as (_ & ? & _). congruence. }
    unfold bind at 1. simpl.
    erewrite bind_Done by (by apply upd_worker_run).
    erewrite bind_Done by (apply upd_worker_run; lookup_same).
    unfold tick. erewrite tick_at_run by lookup_same. simpl. rewrite Hc.
    rewrite list_insert_insert_eq.
    set (k2 := set_fd (os_num reply) (set_state Opened k)).
    set (s2 := set_workers (<[w := k2]> (workers s)) s1).
    assert (workers s2 !! w = Some k2) as Hk2 by (unfold s2; lookup_same).
    unfold notify_started.
    match goal with |- context [bind (execIfOps w) _ ?x] => change x with s2 end.
    pose proof (execIfOps_open w s2 k2 Hk2 eq_refl) as H.
    unfold bind at 1. destruct (execIfOps w s2) as [[] s3|e s3|s3]; [|subst; simpl; by left|done].
    subst s3. set (k3 := in_flight_after (ops k2) (set_ops [] k2)).
    assert (workers (executed w k2 s2) !! w = Some k3) as Hk3
      by (unfold executed; lookup_same).
    assert (control k3 = Start ∧ state k3 = Opened ∧ startCb k3 = startCb k ∧
            stopCb k3 = stopCb k) as (E1 & E2 & E3 & E4).
    { unfold k3. by rewrite in_flight_after_control, in_flight_after_state,
        in_flight_after_startCb, in_flight_after_stopCb. }
    assert (workers (executed w k2 s2) = <[w := k3]> (workers s)) as Hw3.
    { unfold executed. simpl. by rewrite list_insert_insert_eq. }
    rewrite (bind_Done _ _ _ _ _ (get_worker_run w _ k3 Hk3)). rewrite E3.
    destruct (startCb k) as [c|] eqn:Hcb.
    + destruct (R1 c eq_refl) as (-> & _ & _ & Hno).
      apply fire_started; [|by rewrite Hw3, length_insert].
      apply (Sound_step Idle (Starting w) s _ w k k3);
        [done | done | done | done | | | | | |]; simpl.
      * apply NoDup_app. split_and!; [done | | apply NoDup_singleton].
        intros j Hj ->%list_elem_of_singleton. done.
      * intros j [Hj| ->%list_elem_of_singleton]%elem_of_app; [by apply S2 | done].
      * done.
      * by rewrite (holds_slot_start k), (holds_slot_start k3).
      * rewrite decide_True by done. split; [congruence|]. left.
        split_and!; [done | done | congruence |]. apply elem_of_app. right. by left.
      * intros j kj Hne _ Hj. rewrite decide_False by done.
        apply (at_rest_same s _ j kj); [done.. | | done].
        simpl. intros [?| ->%list_elem_of_singleton]%elem_of_app; done.
    + simpl. split; [|exact Hsat].
      apply (Sound_step Idle Idle s _ w k k3);
        [done | done | done | done | done | done | done | | |]; simpl.
      * by rewrite (holds_slot_start k), (holds_slot_start k3).
      * unfold at_rest. rewrite E1, E2, E3, E4. split_and!; [done | done | done |].
        intros Hin. done.
      * intros j kj Hne _ Hj. by apply (at_rest_same s _ j kj).
  - (* close *)
    destruct (os_err reply); [done|]. munfold.
    erewrite bind_Done by (by apply get_worker_run).
    destruct (state k) eqn:Hst; simpl in *; try lia.
    assert (w ∉ stoppableQueue s) as Hout.
    { intros Hin. destruct (R4 Hin) as (_ & ? & _). congruence. }
    assert (startCb k = None) as Hcb.
    { destruct (startCb k) as [c|] eqn:Hcb; [|done].
      destruct (R1 c eq_refl) as (_ & _ & ? & _). congruence. }
    unfold bind at 1. simpl.
    erewrite bind_Done by (by apply upd_worker_run).
    erewrite bind_Done by (apply upd_worker_run; lookup_same).
    unfold tick. erewrite tick_at_run by lookup_same. simpl.
    rewrite list_insert_insert_eq.
    set (k2 := set_fd 0 (set_state Closed k)).
    set (s2 := set_workers (<[w := k2]> (workers s)) s1).
    assert (workers s2 !! w = Some k2) as Hk2 by (unfold s2; lookup_same).
    match goal with |- context [open w ?x] => change x with s2 end.
    destruct (control k) eqn:Hc.
    + (* started again while it was closing: the file is opened again *)
      rewrite (open_run w s2 k2 Hk2 eq_refl). cbv zeta. split; [|exact Hsat].
      apply (Sound_step Idle Idle s _ w k (set_state Opening k2));
        [done | done | | done | done | done | done | | |]; simpl.
      * by rewrite list_insert_insert_eq.
      * by rewrite (holds_slot_start k), (holds_slot_start (set_state Opening k2)).
      * unfold at_rest. simpl. rewrite Hc, Hcb. split_and!; [done | done | done |].
        intros Hin. done.
      * intros j kj Hne _ Hj. by apply (at_rest_same s _ j kj).
    + destruct (R3 eq_refl) as [[? _]|[_ Hstop]]; [congruence|].
      unfold notify_stopped. simpl. rewrite Hstop.
      apply fire_stopped; [|simpl; by rewrite length_insert].
      apply (Sound_step Idle (Stopping w) s _ w k k2);
        [done | done | done | done | done | done | done | | |]; simpl.
      * rewrite (holds_slot_open k) by congruence.
        rewrite (holds_slot_closed k2) by done. lia.
      * rewrite decide_True by done. split_and!; [done | done |]. left. by split_and!.
      * intros j kj Hne _ Hj. rewrite decide_False by done.
        by apply (at_rest_same s _ j kj).
  - (* read *)
    munfold. erewrite bind_Done by (by apply upd_worker_run).
    set (s2 := set_workers _ s1).
    assert (Sound Idle s2) as Hs2
      by (by apply (Sound_field s _ w k (set_inFlightReads (inFlightReads k - 1) k))).
    assert (S w ≤ length (workers s2)) as Hlen2 by (simpl; by rewrite length_insert).
    apply then_tick.
    + destruct (os_err reply); [by apply invoke_settled|].
      destruct (os_num reply =? 0)%Z; [by apply invoke_settled|].
      unfold assert. destruct (os_num reply =? size)%Z; [|by right; left].
      unfold bind at 1. simpl. by apply invoke_settled.
    + destruct (os_err reply); [by apply workers_stay_invoke|].
      destruct (os_num reply =? 0)%Z; [by apply workers_stay_invoke|].
      unfold assert. destruct (os_num reply =? size)%Z; [|done].
      unfold bind at 1. simpl. by apply workers_stay_invoke.
  - (* write *)
    munfold. erewrite bind_Done by (by apply upd_worker_run).
    set (s2 := set_workers _ s1).
    assert (Sound Idle s2) as Hs2
      by (by apply (Sound_field s _ w k (set_inFlightWrites (inFlightWrites k - 1) k))).
    assert (S w ≤ length (workers s2)) as Hlen2 by (simpl; by rewrite length_insert).
    apply then_tick.
    + destruct (os_err reply); [by apply invoke_settled|].
      unfold assert. destruct (os_num reply =? _)%Z; [|by right; right].
      unfold bind at 1. simpl. by apply invoke_settled.
    + destruct (os_err reply); [by apply workers_stay_invoke|].
      unfold assert. destruct (os_num reply =? _)%Z; [|done].
      unfold bind at 1. simpl. by apply workers_stay_invoke.
Qed.

(** *** Every run *)

Lemma step_rested (fuel : nat) (e : Input) (s : World) :
  Sound Idle s → saturated s → tidy s → rested (step fuel e s).
Proof.
  intros Hs Hsat Ht. pose proof (tidy_step fuel e s Ht) as Htidy.
  assert (settled Idle (step fuel e s)) as H.
  { destruct e as [c|i reply]; simpl; [by apply run_call_settled|].
    munfold. unfold bind at 1, get. destruct (pending s !! i) as [r|] eqn:Hi; [|done].
    unfold bind at 1, modify. by apply on_reply_settled. }
  destruct (step fuel e s) as [[] s1|e1 s1|s1]; simpl in *; [|done..].
  by destruct H.
Qed.

Lemma run_rested (fuel : nat) (es : list Input) (s : World) :
  Sound Idle s → saturated s → tidy s → rested (run fuel es s).
Proof.
  unfold run. revert s. induction es as [|e es IH]; intros s Hs Hsat Ht; simpl; [done|].
  munfold. pose proof (step_rested fuel e s Hs Hsat Ht) as H. unfold bind.
  destruct (step fuel e s) as [[] s1|e1 s1|s1]; [|done..].
  destruct H as (? & ? & ?). by apply IH.
Qed.

Lemma Sound_new (cfg : Config) (s0 : World) :
  new_RandomAccessFilesystem cfg = inr s0 → Sound Idle s0 ∧ saturated s0.
Proof.
  unfold new_RandomAccessFilesystem. intros H.
  destruct (negb _); [done|]. destruct (negb _); [done|].
  injection H as <-. split; [|by left]. unfold Sound. simpl.
  split_and!; [constructor | | | | done |]; intros *; try by rewrite lookup_nil.
  - by intros ?%elem_of_nil.
  - by intros ?%elem_of_nil.
Qed.

Lemma rested_new (cfg : Config) (s0 : World) (fuel : nat) (es : list Input) :
  new_RandomAccessFilesystem cfg = inr s0 → rested (run fuel es s0).
Proof.
  intros Hnew. destruct (Sound_new cfg s0 Hnew). apply run_rested; [done | done |].
  by apply (tidy_new cfg).
Qed.

Lemma count_if_le {A} (f g : A → bool) (l : list A) :
  (∀ x, f x = true → g x = true) → count_if f l ≤ count_if g l.
Proof.
  intros H. induction l as [|x l IH]; simpl; [done|].
  specialize (H x). destruct (f x); [rewrite H by done|destruct (g x)]; lia.
Qed.



(** Between two turns of the event loop, [numActivePathWorkers] is the
    number of workers that the scheduler wants started or whose file is not
    closed yet; so the files that are open, or being opened or closed, are
    never more than [maxOpenFiles]. *)
Theorem open_files_within_budget (cfg : Config) (s0 s : World) (fuel : nat)
    (es : list Input) :
  new_RandomAccessFilesystem cfg = inr s0 →
  (1 ≤ maxOpenFiles s0)%Z →
  run fuel es s0 = Done tt s →
  numActivePathWorkers s = Z.of_nat (count_if holds_slot (workers s)) ∧
  (Z.of_nat (count_if has_file (workers s)) ≤ maxOpenFiles s)%Z.
Proof.
  intros Hnew Hmax Hrun. pose proof (rested_new cfg s0 fuel es Hnew) as H.
  rewrite Hrun in H. destruct H as ((_ & _ & _ & _ & Hn & _) & _ & _).
  split; [exact Hn|].
  assert (within_budget (maxOpenFiles s0) s0) as Hs0.
  { unfold new_RandomAccessFilesystem in Hnew.
    repeat case_match; simplify_eq. unfold within_budget. simpl in *.
    split_and!; [done | lia | constructor | done]. }
  pose proof (within_budget_keeps (maxOpenFiles s0) fuel es s0 Hs0) as Hb.
  rewrite Hrun in Hb. destruct Hb as (Hm & Hle & _).
  pose proof (count_if_le has_file holds_slot (workers s)) as Hc.
  unfold slots in Hn. rewrite Hm.
  assert (count_if has_file (workers s) ≤ count_if holds_slot (workers s)); [|lia].
  apply Hc. intros k Hk. unfold holds_slot. unfold has_file in Hk. rewrite Hk.
  apply orb_true_r.
Qed.

Lemma open_files_within_budget_witness :
  let s := world_of (run 20 a_is_rescued store2) in
  numActivePathWorkers s = Z.of_nat (count_if holds_slot (workers s)) ∧
  (Z.of_nat (count_if has_file (workers s)) ≤ maxOpenFiles s)%Z.
Proof.
  apply (open_files_within_budget (mkConfig (Some "dir"%string) (Some 2%Z)) store2
           (world_of (run 20 a_is_rescued store2)) 20 a_is_rescued).
  - reflexivity.
  - simpl. lia.
  - vm_compute. reflexivity.
Defined.

(** [pull] leaves nothing undone: between two turns of the event loop no
    worker waits on the schedule queue, or else the budget is used up and no
    worker is there to be stopped. *)
Theorem no_work_left_undone (cfg : Config) (s0 s : World) (fuel : nat) (es : list Input) :
  new_RandomAccessFilesystem cfg = inr s0 →
  run fuel es s0 = Done tt s →
  scheduleQueue s = [] ∨
  ((maxOpenFiles s ≤ numActivePathWorkers s)%Z ∧ stoppableQueue s = []).
Proof.
  intros Hnew Hrun. pose proof (rested_new cfg s0 fuel es Hnew) as H.
  rewrite Hrun in H. by destruct H as (_ & ? & _).
Qed.

Lemma no_work_left_undone_witness :
  let s := world_of (run 20 b_takes_a_slot store2) in
  scheduleQueue s = [] ∨
  ((maxOpenFiles s ≤ numActivePathWorkers s)%Z ∧ stoppableQueue s = []).
Proof.
  apply (no_work_left_undone (mkConfig (Some "dir"%string) (Some 2%Z)) store2
           (world_of (run 20 b_takes_a_slot store2)) 20 b_takes_a_slot).
  - reflexivity.
  - vm_compute. reflexivity.
Defined.

(** Between two turns of the event loop a worker under [stop] is closed,
    with no stop callback pending, or it drains or closes with the stop
    callback of its eviction pending, which will give its slot back; and a
    worker of the stoppable queue has no callback pending, so that [stop]
    can be called on it. *)
Theorem stopped_workers_give_their_slot_back (cfg : Config) (s0 s : World) (fuel : nat)
    (es : list Input) (j : wid) (k : PathWorker) :
  new_RandomAccessFilesystem cfg = inr s0 →
  run fuel es s0 = Done tt s →
  workers s !! j = Some k →
  (control k = Stop →
     (state k = Closed ∧ stopCb k = None) ∨
     ((state k = Draining ∨ state k = Closing) ∧ stopCb k = Some OnStopped)) ∧
  (j ∈ stoppableQueue s → startCb k = None ∧ stopCb k = None).
Proof.
  intros Hnew Hrun Hk. pose proof (rested_new cfg s0 fuel es Hnew) as H.
  rewrite Hrun in H. destruct H as ((_ & _ & _ & _ & _ & Hshape) & _ & _).
  destruct (Hshape j k Hk) as (H1 & H2 & H3 & H4). split; [done|].
  intros Hin. destruct (H4 Hin) as (_ & Hst & Hcb). split; [|done].
  destruct (startCb k) as [cb|] eqn:Hs; [|done].
  destruct (H1 cb eq_refl) as (_ & _ & ? & _). congruence.
Qed.

Lemma stopped_workers_give_their_slot_back_witness :
  (control evicted_a = Stop →
     (state evicted_a = Closed ∧ stopCb evicted_a = None) ∨
     ((state evicted_a = Draining ∨ state evicted_a = Closing) ∧
      stopCb evicted_a = Some OnStopped)) ∧
  (0 ∈ stoppableQueue (world_of (run 20 b_takes_a_slot store2)) →
   startCb evicted_a = None ∧ stopCb evicted_a = None).
Proof.
  apply (stopped_workers_give_their_slot_back (mkConfig (Some "dir"%string) (Some 2%Z)) store2
           (world_of (run 20 b_takes_a_slot store2)) 20 b_takes_a_slot 0 evicted_a).
  - reflexivity.
  - vm_compute. reflexivity.
  - vm_compute. reflexivity.
Defined.

(** ** A store without a budget *)

Lemma dormant_pull (fuel : nat) (s : World) :
  dormant s → world_of (pull fuel s) = s.
Proof.
  intros (Hmax & Hnum & Hstop & _). destruct fuel as [|fuel]; [done|].
  simpl. munfold. unfold bind at 1, pull_iter. munfold. unfold bind at 1, get.
  destruct (deque_isEmpty (scheduleQueue s)); [done|].
  rewrite Hstop, Hnum. simpl.
  replace (0 <? maxOpenFiles s)%Z with false by (symmetry; apply Z.ltb_ge; lia).
  done.
Qed.

Lemma dormant_pull_ends (fuel : nat) (s : World) :
  dormant s → pull (S fuel) s = Done tt s.
Proof.
  intros (Hmax & Hnum & Hstop & _).
  simpl. munfold. unfold bind at 1, pull_iter. munfold. unfold bind at 1, get.
  destruct (deque_isEmpty (scheduleQueue s)); [done|].
  rewrite Hstop, Hnum. simpl.
  replace (0 <? maxOpenFiles s)%Z with false by (symmetry; apply Z.ltb_ge; lia).
  done.
Qed.

Lemma dormant_tick (pull0 : M unit) (w : wid) (s : World) (k : PathWorker) :
  dormant s → workers s !! w = Some k → tick pull0 w s = Done tt s.
Proof.
  intros (_ & _ & _ & _ & Hw & _) Hk. destruct (Hw w k Hk) as (Hc & Hst & Hcb).
  unfold tick. erewrite tick_at_run by done. cbv zeta. rewrite Hc, Hst.
  unfold notify_stopped. by rewrite Hcb.
Qed.

Lemma dormant_op (fuel : nat) (w : wid) (o : Op) (s : World) :
  dormant s → dormant (world_of (op fuel w o s)).
Proof.
  intros Hs. unfold op. munfold. destruct (workers s !! w) as [k|] eqn:Hk.
  - unfold bind at 1. rewrite (add_run (pull fuel) w o s k Hk).
    assert (dormant (pushed w o k s)) as Hs1.
    { destruct Hs as (H1 & H2 & H3 & H4 & H5 & H6 & H7). unfold pushed.
      split_and!; simpl; try done.
      - intros j kj Hj. destruct (decide (j = w)) as [->|Hne].
        + rewrite list_lookup_insert_eq in Hj by (by eapply lookup_lt_Some).
          injection Hj as <-. simpl. by apply (H5 w k).
        + rewrite list_lookup_insert_ne in Hj by done. by apply (H5 j).
      - apply Forall_app. split; [done|]. by constructor.
      - intros w'. rewrite submitted_app, <- H7.
        change (queue_of (set_workers (<[w := set_ops (deque_push o (ops k)) k]> (workers s)) s) w'
                = queue_of s w' ++ submitted w' [EvSubmit w o]).
        rewrite (queue_of_insert s w w' k) by done. simpl.
        case_decide as Hw.
        + subst. unfold queue_of. by rewrite Hk.
        + by rewrite app_nil_r. }
    erewrite dormant_tick; [|done|unfold pushed; lookup_same].
    unfold bind, modify.
    match goal with |- dormant (world_of (pull fuel ?s2)) =>
      assert (dormant s2) as Hs2 by (by destruct Hs1 as (? & ? & ? & ? & ? & ? & ?)) end.
    by rewrite dormant_pull.
  - unfold bind at 1, add. munfold. unfold bind at 1. by rewrite push_op_fail.
Qed.

Lemma dormant_run_call (fuel : nat) (c : Call) (s : World) :
  dormant s → dormant (world_of (run_call fuel c s)).
Proof.
  intros Hs. destruct c as [p|h offset size cb|h offset data cb]; simpl; munfold.
  - destruct (pathInterfaces s !! p) as [h|] eqn:Hp.
    + unfold bind. by rewrite (storageFor_known p s h).
    + unfold bind. rewrite storageFor_new by done. simpl.
      destruct Hs as (H1 & H2 & H3 & H4 & H5 & H6 & H7). split_and!; simpl; try done.
      * intros j k [Hk|[_ Hk]]%lookup_app_Some; [by apply (H5 j)|].
        by apply list_lookup_singleton_Some in Hk as [_ <-].
      * intros w. rewrite <- H7. unfold queue_of. simpl.
        destruct (workers s !! w) as [k|] eqn:Hk.
        -- by rewrite (lookup_app_l_Some _ _ _ _ Hk).
        -- apply lookup_ge_None in Hk.
           destruct ((workers s ++ _) !! w) as [k|] eqn:Hk'; [|done].
           apply lookup_app_Some in Hk' as [Hk'|[_ Hk']].
           ++ apply lookup_lt_Some in Hk'. lia.
           ++ by apply list_lookup_singleton_Some in Hk' as [_ <-].
  - unfold read. munfold. unfold bind at 1, get_handle.
    destruct (handles s !! h); [by apply dormant_op | done].
  - unfold write. munfold. unfold bind at 1, get_handle.
    destruct (handles s !! h); [by apply dormant_op | done].
Qed.

Lemma dormant_step (fuel : nat) (e : Input) (s : World) :
  dormant s → dormant (world_of (step fuel e s)).
Proof.
  intros Hs. destruct e as [c|i reply]; simpl; [by apply dormant_run_call|].
  munfold. unfold bind at 1, get.
  destruct Hs as (H1 & H2 & H3 & H4 & H5 & H6 & H7). rewrite H4. simpl.
  by split_and!.
Qed.

Lemma dormant_run (fuel : nat) (es : list Input) (s : World) :
  dormant s → dormant (world_of (run fuel es s)).
Proof.
  unfold run. revert s. induction es as [|e es IH]; intros s Hs; simpl; [done|].
  munfold. pose proof (dormant_step fuel e s Hs) as H. unfold bind.
  destruct (step fuel e s) as [[] s1|e1 s1|s1]; simpl in *; [by apply IH | done..].
Qed.

Lemma only_submissions_callbacks (t : list Event) :
  only_submissions t → callbacks t = [].
Proof. induction 1 as [|ev t Hev _ IH]; [done|]. by destruct ev. Qed.

(** The constructor takes a negative [maxOpenFiles] (its [assert] only
    refuses what is falsy).  Such a store takes every call, and does nothing
    with it: whatever the clients call, no request is ever made to the
    operating system, no file is ever opened and no completion is ever
    invoked; the ops stay in the queues of their workers. *)
Theorem negative_budget_does_nothing (cfg : Config) (s0 : World) (fuel : nat)
    (es : list Input) :
  new_RandomAccessFilesystem cfg = inr s0 →
  (maxOpenFiles s0 < 0)%Z →
  let s := world_of (run fuel es s0) in
  pending s = [] ∧
  (∀ r, EvIssue r ∉ trace s) ∧
  callbacks (trace s) = [] ∧
  (∀ w, queue_of s w = submitted w (trace s)) ∧
  (∀ j k, workers s !! j = Some k → state k = Closed).
Proof.
  intros Hnew Hmax. simpl.
  assert (dormant s0) as Hs0.
  { unfold new_RandomAccessFilesystem in Hnew. repeat case_match; simplify_eq.
    simpl in *. split_and!; try done. constructor. }
  destruct (dormant_run fuel es s0 Hs0) as (H1 & H2 & H3 & H4 & H5 & H6 & H7).
  split_and!; [done | | | done |].
  - intros r Hr. unfold only_submissions in H6. rewrite Forall_forall in H6.
    by apply (H6 _ Hr).
  - by apply only_submissions_callbacks.
  - intros j k Hk. by destruct (H5 j k Hk) as (_ & ? & _).
Qed.

Lemma negative_budget_does_nothing_witness :
  let s := world_of (run 20 a_is_written (fresh_store "dir" (-1))) in
  pending s = [] ∧
  (∀ r, EvIssue r ∉ trace s) ∧
  callbacks (trace s) = [] ∧
  (∀ w, queue_of s w = submitted w (trace s)) ∧
  (∀ j k, workers s !! j = Some k → state k = Closed).
Proof.
  apply (negative_budget_does_nothing (mkConfig (Some "dir"%string) (Some (-1)%Z))
           (fresh_store "dir" (-1)) 20 a_is_written).
  - reflexivity.
  - simpl. lia.
Defined.

(** ** Every read and write is answered once *)

Lemma handed_over_app (t1 t2 : list Event) :
  handed_over (t1 ++ t2) = handed_over t1 + handed_over t2.
Proof. apply count_if_app. Qed.















(** ** The slot of a closed file goes to the worker that waits *)

#[local] Arguments pull : simpl never.

(** [start] with a callback on a closed worker that has none: the worker is
    put under [start] and the opening of its file is requested. *)
Lemma start_closed_effect (pull0 : M unit) (p : wid) (cb : Callback) (s : World)
    (kp : PathWorker) :
  workers s !! p = Some kp → state kp = Closed → startCb kp = None →
  ∃ s',
    start pull0 p (Some cb) s = Done tt s' ∧
    workers s' =
      <[p := set_state Opening (set_startCb (Some cb) (set_control Start kp))]> (workers s) ∧
    same_scheduler s s' ∧
    pending s' = pending s ++
      [if fullDirMade kp then FsOpen p (fullPath kp) else Mkdirp p (fullDirPath kp)] ∧
    trace s' = trace s ++
      [EvIssue (if fullDirMade kp then FsOpen p (fullPath kp)
                else Mkdirp p (fullDirPath kp))].
Proof.
  intros Hk Hs Hcb. unfold start. munfold.
  erewrite bind_Done by (by apply upd_worker_run).
  unfold bind at 1. unfold bind at 1.
  erewrite get_worker_run by lookup_same. simpl. rewrite Hcb. simpl.
  unfold bind at 1. simpl.
  erewrite upd_worker_run by lookup_same. simpl.
  unfold tick. erewrite tick_at_run by lookup_same. simpl. rewrite Hs.
  erewrite open_run by (first [lookup_same | done]). simpl.
  eexists. split; [reflexivity|]. simpl.
  rewrite !list_insert_insert_eq. by split_and!.
Qed.

(** [pull] with one free slot, nothing to evict and a closed worker at the
    front of the schedule queue: the worker takes the slot and the loop
    ends there, whoever waits behind. *)
Lemma pull_serves_the_front (fuel : nat) (s : World) (p : wid) (rest : list wid)
    (kp : PathWorker) :
  scheduleQueue s = p :: rest → stoppableQueue s = [] →
  (numActivePathWorkers s + 1 = maxOpenFiles s)%Z →
  workers s !! p = Some kp → control kp = Stop → state kp = Closed → startCb kp = None →
  ∃ s',
    pull (S (S fuel)) s = Done tt s' ∧
    workers s' =
      <[p := set_state Opening (set_startCb (Some (OnStarted p)) (set_control Start kp))]>
        (workers s) ∧
    scheduleQueue s' = rest ∧ stoppableQueue s' = [] ∧
    numActivePathWorkers s' = maxOpenFiles s ∧ maxOpenFiles s' = maxOpenFiles s ∧
    pending s' = pending s ++
      [if fullDirMade kp then FsOpen p (fullPath kp) else Mkdirp p (fullDirPath kp)] ∧
    trace s' = trace s ++
      [EvActive (maxOpenFiles s);
       EvIssue (if fullDirMade kp then FsOpen p (fullPath kp)
                else Mkdirp p (fullDirPath kp))].
Proof.
  intros Hq Hstop Hnum Hk Hc Hs Hcb.
  set (s1 := set_trace (trace s ++ [EvActive (numActivePathWorkers s + 1)])
               (set_numActivePathWorkers (numActivePathWorkers s + 1)
                  (set_scheduleQueue rest s))).
  remember (pull (S fuel)) as pull0 eqn:Hpull0.
  destruct (start_closed_effect pull0 p (OnStarted p) s1 kp Hk Hs Hcb)
    as (s2 & Hrun & Hw & (Q1 & Q2 & Q3 & Q4 & Q5) & Hp & Ht).
  exists s2.
  assert (pull_iter pull0 s = Done Continue s2) as Hiter.
  { unfold pull_iter. munfold. unfold bind at 1. simpl. rewrite Hq. simpl.
    replace (numActivePathWorkers s <? maxOpenFiles s)%Z with true by lia. simpl.
    unfold bind at 1. simpl.
    erewrite bind_Done by (by apply get_worker_run).
    rewrite Hc, Hs. simpl. unfold bind at 1. simpl. unfold bind at 1. simpl.
    fold s1. unfold bind. by rewrite Hrun. }
  split.
  { change (pull (S (S fuel))) with
      (bind (pull_iter (pull (S fuel)))
         (λ c, match c with Return => ret tt | Continue => pull (S fuel) end)).
    rewrite <- Hpull0. erewrite bind_Done by exact Hiter.
    rewrite Hpull0.
    change (pull (S fuel)) with
      (bind (pull_iter (pull fuel))
         (λ c, match c with Return => ret tt | Continue => pull fuel end)).
    unfold pull_iter. munfold. unfold bind at 1. unfold bind at 1. simpl.
    rewrite Q1, Q2, Q3, Q4. simpl.
    destruct rest; simpl; [done|].
    replace (numActivePathWorkers s + 1 <? maxOpenFiles s)%Z with false by lia.
    by rewrite Hstop. }
  rewrite Hw, Q1, Q2, Q3, Q4, Hp, Ht. simpl.
  rewrite <- app_assoc, Hnum. simpl. by rewrite Hstop.
Qed.

(** The reply to the [FS.close] of an evicted worker [v], while the budget
    is used up and a closed worker [p] waits at the front of the schedule
    queue: [v] is closed and its stop callback runs once, which gives the
    slot back ([numActivePathWorkers] goes down by one); the [pull] of that
    callback gives the slot to [p] (the counter is back at [maxOpenFiles]),
    puts [p] under [start] with the callback that will make it stoppable,
    and requests the opening of its file.  The workers behind [p] keep
    waiting. *)
Theorem closed_file_hands_its_slot_over (fuel : nat) (s : World) (i : nat) (d : Z)
    (reply : OsReply) (v p : wid) (rest : list wid) (kv kp : PathWorker) :
  pending s !! i = Some (FsClose v d) → os_err reply = None →
  workers s !! v = Some kv →
  control kv = Stop → state kv = Closing → stopCb kv = Some OnStopped →
  scheduleQueue s = p :: rest → stoppableQueue s = [] →
  numActivePathWorkers s = maxOpenFiles s →
  workers s !! p = Some kp →
  control kp = Stop → state kp = Closed → startCb kp = None →
  let r := if fullDirMade kp then FsOpen p (fullPath kp) else Mkdirp p (fullDirPath kp) in
  ∃ s',
    step (S (S fuel)) (Reply i reply) s = Done tt s' ∧
    workers s' !! v = Some (set_stopCb None (set_fd 0 (set_state Closed kv))) ∧
    workers s' !! p =
      Some (set_state Opening (set_startCb (Some (OnStarted p)) (set_control Start kp))) ∧
    (∀ j, j ≠ v → j ≠ p → workers s' !! j = workers s !! j) ∧
    scheduleQueue s' = rest ∧ stoppableQueue s' = [] ∧
    numActivePathWorkers s' = maxOpenFiles s ∧
    pending s' = delete i (pending s) ++ [r] ∧
    trace s' = trace s ++
      [EvActive (maxOpenFiles s - 1); EvActive (maxOpenFiles s); EvIssue r].
Proof.
  intros Hi Herr Hkv Hcv Hsv Hcbv Hq Hstop Hnum Hkp Hcp Hsp Hcbp r.
  assert (p ≠ v) as Hne by (intros ->; congruence).
  unfold step. munfold. unfold bind at 1. simpl. rewrite Hi.
  unfold bind at 1. simpl. rewrite Herr. munfold.
  set (s0 := set_pending (delete i (pending s)) s).
  erewrite bind_Done by (by apply get_worker_run).
  rewrite Hsv. simpl. unfold bind at 1. simpl.
  erewrite bind_Done by (by apply upd_worker_run).
  erewrite bind_Done by (apply upd_worker_run; lookup_same).
  simpl. rewrite list_insert_insert_eq.
  set (k1 := set_fd 0 (set_state Closed kv)).
  set (s1 := set_workers (<[v := k1]> (workers s)) s0).
  assert (workers s1 !! v = Some k1) as Hk1 by (subst s1; lookup_same).
  unfold tick. erewrite tick_at_run by exact Hk1. simpl. rewrite Hcv.
  unfold notify_stopped. simpl. rewrite Hcbv. unfold call. munfold.
  unfold bind at 1. unfold bind at 1. simpl. unfold bind at 1. simpl.
  set (s2 := set_trace _ _).
  destruct (pull_serves_the_front fuel s2 p rest kp) as
    (s3 & Hrun & Hw & Q1 & Q2 & Q3 & Q4 & Hp & Ht);
    [done | done | simpl; lia | | done | done | done |].
  { subst s2 s1. simpl. by rewrite list_lookup_insert_ne. }
  rewrite Hrun.
  assert (workers s3 !! v = Some k1) as Hv3.
  { rewrite Hw. rewrite list_lookup_insert_ne by done. exact Hk1. }
  erewrite upd_worker_run by exact Hv3.
  eexists. split; [reflexivity|]. simpl.
  rewrite Hw, Q1, Q2, Q3, Hp, Ht. simpl.
  split_and!; try done.
  - apply list_lookup_insert_eq. rewrite !length_insert. by eapply lookup_lt_Some.
  - rewrite list_lookup_insert_ne by done.
    rewrite list_lookup_insert_eq; [done|].
    rewrite length_insert. by eapply lookup_lt_Some.
  - intros j Hjv Hjp. by rewrite !list_lookup_insert_ne.
  - rewrite <- app_assoc. simpl. by rewrite Hnum.
Qed.

Lemma closed_file_hands_its_slot_over_witness :
  let r := Mkdirp 1 "dir" in
  ∃ s',
    step 20 (Reply 1 (reply_ok 0)) b_waits = Done tt s' ∧
    workers s' !! 2 = Some (set_stopCb None (set_fd 0 (set_state Closed closing_c))) ∧
    workers s' !! 1 =
      Some (set_state Opening (set_startCb (Some (OnStarted 1)) (set_control Start closed_b))) ∧
    (∀ j, j ≠ 2 → j ≠ 1 → workers s' !! j = workers b_waits !! j) ∧
    scheduleQueue s' = [] ∧ stoppableQueue s' = [] ∧
    numActivePathWorkers s' = maxOpenFiles b_waits ∧
    pending s' = delete 1 (pending b_waits) ++ [r] ∧
    trace s' = trace b_waits ++
      [EvActive (maxOpenFiles b_waits - 1); EvActive (maxOpenFiles b_waits); EvIssue r].
Proof.
  assert (pending b_waits !! 1 = Some (FsClose 2 7)) as H1 by (vm_compute; reflexivity).
  assert (workers b_waits !! 2 = Some closing_c) as H2 by (vm_compute; reflexivity).
  assert (scheduleQueue b_waits = [1]) as H3 by (vm_compute; reflexivity).
  assert (stoppableQueue b_waits = []) as H4 by (vm_compute; reflexivity).
  assert (numActivePathWorkers b_waits = maxOpenFiles b_waits) as H5
    by (vm_compute; reflexivity).
  assert (workers b_waits !! 1 = Some closed_b) as H6 by (vm_compute; reflexivity).
  exact (closed_file_hands_its_slot_over 18 b_waits 1 7 (reply_ok 0) 2 1 [] closing_c
           closed_b H1 eq_refl H2 eq_refl eq_refl eq_refl H3 H4 H5 H6 eq_refl eq_refl
           eq_refl).
Defined.

(** * The version with timers *)

(** ** Invariants of its executions *)

Lemma lift_run {A} (m : M A) (x : Legacy.Extras) (s : World) :
  Legacy.lift m x s =
  match m s with
  | Done a s' => Done (a, x) s'
  | Thrown e s' => Thrown e s'
  | Starved s' => Starved s'
  end.
Proof. unfold Legacy.lift, bind. by destruct (m s). Qed.

Lemma start_with_callback (w : wid) (cb : Callback) (s : World) :
  Legacy.start w cb s = start (ret tt) w (Some cb) s.
Proof.
  unfold Legacy.start, start. munfold. unfold bind at 1 5.
  destruct (upd_worker w (set_control Start) s) as [[] s1|e s1|s1]; [|done..].
  rewrite bind_assoc. unfold bind at 1 4.
  destruct (get_worker w s1) as [k s2|e s2|s2]; [|done..].
  by rewrite bind_assoc.
Qed.

Lemma lift_bind {A B} (m : M A) (f : A → Legacy.L B) (x : Legacy.Extras) (s : World) :
  (Legacy.lift m ≫= f) x s = bind m (λ a, f a x) s.
Proof. unfold mbind, Legacy.L_bind, Legacy.lift, bind. by destruct (m s). Qed.

Lemma get_extras_bind {B} (f : Legacy.Extras → Legacy.L B) (x : Legacy.Extras) (s : World) :
  (Legacy.get_extras ≫= f) x s = f x x s.
Proof. reflexivity. Qed.

Lemma modify_extras_bind {B} (g : Legacy.Extras → Legacy.Extras) (f : unit → Legacy.L B)
    (x : Legacy.Extras) (s : World) :
  (Legacy.modify_extras g ≫= f) x s = f tt (g x) s.
Proof. reflexivity. Qed.

Lemma first_storageFor_known (p : string) (h : hid) (s : World) (x : Legacy.Extras) :
  pathInterfaces s !! p = Some h → Legacy.storageFor p x s = Done (h, x) s.
Proof.
  intros Hp. unfold Legacy.storageFor. rewrite lift_bind. unfold bind at 1, get.
  rewrite Hp. simpl.
  unfold mbind, Legacy.L_bind, mret, Legacy.L_ret, Legacy.lift, bind, get, ret. simpl.
  by rewrite Hp.
Qed.

Lemma first_storageFor_new (p : string) (s : World) (x : Legacy.Extras) :
  pathInterfaces s !! p = None → Legacy.pathWorkers x !! p = None →
  Legacy.storageFor p x s =
  Done (length (Legacy.interfaces x),
        Legacy.set_pathWorkers (<[p := length (workers s)]> (Legacy.pathWorkers x))
          (Legacy.set_interfaces (Legacy.interfaces x ++ [p]) x))
    (set_workers (workers s ++ [new_PathWorker (path_join (dirPath s) p)])
       (set_pathInterfaces (<[p := length (Legacy.interfaces x)]> (pathInterfaces s)) s)).
Proof.
  intros Hp Hpw. unfold Legacy.storageFor. rewrite lift_bind. unfold bind at 1, get.
  rewrite Hp. simpl.
  unfold mbind, Legacy.L_bind, mret, Legacy.L_ret, Legacy.lift, Legacy.get_extras,
    Legacy.modify_extras, bind, get, ret, assert, modify, throw. simpl.
  rewrite Hpw. simpl. by rewrite lookup_insert_eq.
Qed.

Lemma first_storageFor_twice (p : string) (w : wid) (s : World) (x : Legacy.Extras) :
  pathInterfaces s !! p = None → Legacy.pathWorkers x !! p = Some w →
  Legacy.storageFor p x s = Thrown (AssertionError "!this.pathWorkers[shortPath]") s.
Proof.
  intros Hp Hpw. unfold Legacy.storageFor. rewrite lift_bind. unfold bind at 1, get.
  rewrite Hp. simpl.
  unfold mbind, Legacy.L_bind, mret, Legacy.L_ret, Legacy.lift, Legacy.get_extras,
    Legacy.modify_extras, bind, get, ret, assert, modify, throw. simpl.
  by rewrite Hpw.
Qed.

Section Timers.

Variables I E : World → Prop.

Hypothesis I_E : ∀ s, I s → E s.
Hypothesis I_field : ∀ w f s k,
  same_file f → I s → workers s !! w = Some k →
  I (set_workers (<[w := f k]> (workers s)) s).
Hypothesis I_push_op : ∀ w o, keeps I E (push_op w o).
Hypothesis I_exec : ∀ w o rest s k,
  I s → workers s !! w = Some k → ops k = o :: rest →
  ok I E (bind (upd_worker w (set_ops rest)) (λ _, exec_op w o) s).
Hypothesis I_issue : ∀ r, lifecycle r = true → keeps I E (issue r).
Hypothesis I_callback : ∀ n args, keeps I E (emit (EvCallback n args)).
Hypothesis I_decrement : ∀ s, I s → ok I E (set_active (numActivePathWorkers s - 1) s).
Hypothesis I_increment : ∀ s,
  I s → (numActivePathWorkers s < maxOpenFiles s)%Z →
  ok I E (set_active (numActivePathWorkers s + 1) s).
Hypothesis I_stoppableQueue : ∀ q s, I s → I (set_stoppableQueue q s).
Hypothesis I_pending : ∀ q s, I s → I (set_pending q s).
Hypothesis I_register : ∀ p h s,
  pathInterfaces s !! p = None → I s →
  I (set_workers (workers s ++ [new_PathWorker (path_join (dirPath s) p)])
       (set_pathInterfaces (<[p := h]> (pathInterfaces s)) s)).

Lemma keeps_all_lift {A} (m : M A) : keeps I E m → keeps_all I E (Legacy.lift m).
Proof.
  intros Hm x s Hs. rewrite lift_run. specialize (Hm s Hs). by destruct (m s).
Qed.

Lemma keeps_all_ret {A} (a : A) : keeps_all I E (mret a : Legacy.L A).
Proof. intros x s Hs. exact Hs. Qed.

Lemma keeps_all_bind {A B} (m : Legacy.L A) (f : A → Legacy.L B) :
  keeps_all I E m → (∀ a, keeps_all I E (f a)) → keeps_all I E (m ≫= f).
Proof.
  intros Hm Hf x. unfold mbind, Legacy.L_bind.
  apply keeps_bind; [apply Hm|]. intros [a x']. apply Hf.
Qed.

Lemma keeps_all_get_extras : keeps_all I E Legacy.get_extras.
Proof. intros x s Hs. exact Hs. Qed.

Lemma keeps_all_modify_extras (f : Legacy.Extras → Legacy.Extras) :
  keeps_all I E (Legacy.modify_extras f).
Proof. intros x s Hs. exact Hs. Qed.

Lemma keeps_all_for_each {A} (f : A → Legacy.L unit) (l : list A) :
  (∀ a, keeps_all I E (f a)) → keeps_all I E (Legacy.for_each f l).
Proof.
  intros Hf. induction l as [|a l IH]; simpl.
  - apply keeps_all_ret.
  - apply keeps_all_bind; auto.
Qed.

Lemma keeps_quiet_tick (w : wid) : keeps I E (tick (ret tt) w).
Proof. apply keeps_tick; auto. apply keeps_ret. Qed.

Lemma keeps_first_start (w : wid) (cb : Callback) : keeps I E (Legacy.start w cb).
Proof.
  intros s Hs. rewrite start_with_callback.
  revert s Hs. apply keeps_start; auto. apply keeps_ret.
Qed.

Ltac timers_step :=
  cbv zeta;
  lazymatch goal with
  | |- keeps_all I E (_ ≫= _) => apply keeps_all_bind; [| intros ?]
  | |- keeps_all I E (mret _) => apply keeps_all_ret
  | |- keeps_all I E Legacy.get_extras => apply keeps_all_get_extras
  | |- keeps_all I E (Legacy.modify_extras _) => apply keeps_all_modify_extras
  | |- keeps_all I E (Legacy.delay _) => apply keeps_all_modify_extras
  | |- keeps_all I E (Legacy.lift _) => apply keeps_all_lift
  | |- keeps_all I E (match ?x with _ => _ end) => destruct x eqn:?
  | |- keeps I E (_ ≫= _) => apply keeps_bind; [| intros ?]
  | |- keeps I E (bind _ _) => apply keeps_bind; [| intros ?]
  | |- keeps I E (ret _) => apply keeps_ret
  | |- keeps I E (throw _) => by apply keeps_throw
  | |- keeps I E get => apply keeps_get
  | |- keeps I E (assert _ _) => by apply keeps_assert
  | |- keeps I E (get_worker _) => by apply keeps_get_worker
  | |- keeps I E (upd_worker _ _) =>
      apply keeps_upd_worker; [done | done | intros []; split; reflexivity]
  | |- keeps I E (issue _) => apply I_issue; reflexivity
  | |- keeps I E (emit (EvCallback _ _)) => apply I_callback
  | |- keeps I E (tick (ret tt) _) => apply keeps_quiet_tick
  | |- keeps I E (add (ret tt) _ _) => apply keeps_add; auto; apply keeps_ret
  | |- keeps I E (stop (ret tt) _ _) => apply keeps_stop; auto; apply keeps_ret
  | |- keeps I E (Legacy.start _ _) => apply keeps_first_start
  | |- keeps I E (modify (set_stoppableQueue _)) =>
      apply keeps_modify; intros; by apply I_stoppableQueue
  | |- keeps I E (modify (λ s, set_pending _ s)) =>
      apply keeps_modify; intros; by apply I_pending
  | |- keeps I E (match ?x with _ => _ end) => destruct x eqn:?
  end.

Lemma keeps_all_storageFor (p : string) : keeps_all I E (Legacy.storageFor p).
Proof.
  intros x s Hs. destruct (pathInterfaces s !! p) as [h|] eqn:Hp.
  - by rewrite (first_storageFor_known p h s x).
  - destruct (Legacy.pathWorkers x !! p) as [w|] eqn:Hpw.
    + rewrite (first_storageFor_twice p w s x) by done. by apply I_E.
    + rewrite (first_storageFor_new p s x) by done. by apply I_register.
Qed.

Lemma keeps_all_bind_get {B} (f : World → Legacy.L B) :
  (∀ s x, I s → ok I E (f s x s)) → keeps_all I E (Legacy.lift get ≫= f).
Proof.
  intros Hf x s Hs. unfold mbind, Legacy.L_bind.
  rewrite bind_Done with (a := (s, x)) (s' := s) by (by rewrite lift_run).
  by apply Hf.
Qed.

Lemma keeps_all_schedule (w : wid) : keeps_all I E (Legacy.schedule w).
Proof.
  unfold Legacy.schedule. timers_step; [by repeat timers_step|].
  timers_step; [apply keeps_all_ret|].
  timers_step; [apply keeps_all_modify_extras|].
  apply keeps_all_bind_get. intros s x Hs.
  destruct (numActivePathWorkers s <? maxOpenFiles s)%Z eqn:Hroom.
  - rewrite lift_run. apply Z.ltb_lt in Hroom.
    assert (ok I E (bind (set_active (numActivePathWorkers s + 1))
                      (λ _, Legacy.start w (OnStarted w)) s)) as H.
    { apply ok_bind; [by apply I_increment|]. intros [] s' _ Hs'.
      by apply keeps_first_start. }
    munfold. by destruct (bind _ _ s).
  - destruct (deque_shift (stoppableQueue s)) as [[v|] rest].
    + apply keeps_all_bind; [|by intros; apply keeps_all_modify_extras|done].
      repeat timers_step.
    + by apply keeps_all_modify_extras.
Qed.

Lemma keeps_all_op (p : string) (o : Op) : keeps_all I E (Legacy.op p o).
Proof.
  unfold Legacy.op. repeat timers_step. apply keeps_all_schedule.
Qed.

Lemma keeps_all_run_call (c : Call) : keeps_all I E (Legacy.run_call c).
Proof.
  destruct c; simpl; unfold Legacy.read, Legacy.write, Legacy.get_interface.
  - timers_step; [apply keeps_all_storageFor | apply keeps_all_ret].
  - repeat timers_step; apply keeps_all_op.
  - repeat timers_step; apply keeps_all_op.
Qed.

Lemma keeps_all_invoke (cb : ClientCb) (args : list Arg) :
  keeps_all I E (Legacy.invoke cb args).
Proof.
  unfold Legacy.invoke. repeat timers_step.
  apply keeps_all_for_each, keeps_all_run_call.
Qed.

Lemma keeps_all_on_reply (r : IoReq) (reply : OsReply) :
  keeps_all I E (Legacy.on_reply r reply).
Proof.
  destruct r; simpl; repeat timers_step; apply keeps_all_invoke.
Qed.

Lemma keeps_all_step (e : Legacy.Input) : keeps_all I E (Legacy.step e).
Proof.
  destruct e; simpl.
  - apply keeps_all_run_call.
  - repeat timers_step. apply keeps_all_on_reply.
  - repeat timers_step. apply keeps_all_schedule.
Qed.

Lemma keeps_all_run (es : list Legacy.Input) : keeps_all I E (Legacy.run es).
Proof. apply keeps_all_for_each, keeps_all_step. Qed.

End Timers.

(** ** The budget of open files *)

Lemma within_budget_keeps_all (m : Z) (es : list Legacy.Input) :
  keeps_all (within_budget m) (within_budget m) (Legacy.run es).
Proof.
  apply keeps_all_run; clear es; unfold keeps, ok, within_budget.
  - auto.
  - intros w f s k _ H _. exact H.
  - intros w o s (Hm & Hn & Ht & Hl). effects.
    destruct (workers s !! w); simpl; rewrite ?active_writes_app, ?app_nil_r; auto.
  - intros w o rest s k (Hm & Hn & Ht & Hl) Hk _. effects. rewrite Hk. simpl.
    destruct o as [offset size cb|offset data cb]; simpl;
      rewrite list_lookup_insert_eq by (by eapply lookup_lt_Some); simpl;
      rewrite ?list_lookup_insert_eq by (rewrite length_insert; by eapply lookup_lt_Some);
      simpl.
    + destruct (0 <? size)%Z; simpl;
        rewrite ?list_lookup_insert_eq by (rewrite length_insert; by eapply lookup_lt_Some);
        simpl; rewrite ?active_writes_app, ?app_nil_r; auto.
    + rewrite ?active_writes_app, ?app_nil_r; auto.
  - intros r _ s (Hm & Hn & Ht & Hl). effects.
    rewrite active_writes_app, app_nil_r. auto.
  - intros n args s (Hm & Hn & Ht & Hl). effects.
    rewrite active_writes_app, app_nil_r. auto.
  - intros s (Hm & Hn & Ht & Hl). effects. rewrite active_writes_app.
    split_and!; [done | lia | | cbn; by rewrite List.last_last].
    apply Forall_app. split; [done|]. constructor; [lia | constructor].
  - intros s (Hm & Hn & Ht & Hl) Hroom. effects. rewrite active_writes_app.
    split_and!; [done | lia | | cbn; by rewrite List.last_last].
    apply Forall_app. split; [done|]. constructor; [lia | constructor].
  - intros q s H. exact H.
  - intros q s H. exact H.
  - intros p h s _ H. exact H.
Qed.

(** [numActivePathWorkers <= maxOpenFiles] at every moment of every
    execution of the version with timers, for a store built with
    [maxOpenFiles >= 1]: whatever the calls of the clients, the replies of
    the operating system and the timers that fire, and wherever the
    execution is observed, the counter is within the budget and so is every
    value that was ever assigned to it. *)
Theorem timers_keep_the_budget (cfg : Config) (s0 : World) (x0 : Legacy.Extras)
    (es : list Legacy.Input) :
  Legacy.new_RandomAccessFilesystem cfg = inr (s0, x0) →
  (1 ≤ maxOpenFiles s0)%Z →
  let s := world_of (Legacy.run es x0 s0) in
  maxOpenFiles s = maxOpenFiles s0 ∧
  (numActivePathWorkers s ≤ maxOpenFiles s)%Z ∧
  Forall (λ n, (n ≤ maxOpenFiles s)%Z) (active_writes (trace s)) ∧
  numActivePathWorkers s = List.last (active_writes (trace s)) 0%Z.
Proof.
  intros Hnew Hmax. simpl.
  assert (within_budget (maxOpenFiles s0) s0) as Hs0.
  { unfold Legacy.new_RandomAccessFilesystem, new_RandomAccessFilesystem in Hnew.
    repeat case_match; simplify_eq. unfold within_budget. simpl in *.
    split_and!; [done | lia | constructor | done]. }
  pose proof (within_budget_keeps_all (maxOpenFiles s0) es x0 s0 Hs0) as H.
  assert (within_budget (maxOpenFiles s0) (world_of (Legacy.run es x0 s0)))
    as (Hm & Hn & Ht & Hl).
  { unfold ok in H. by destruct (Legacy.run es x0 s0). }
  rewrite Hm. auto.
Qed.

Lemma timers_keep_the_budget_witness :
  let s := world_of (Legacy.run b_after_a no_extras (fresh_store "dir" 1)) in
  maxOpenFiles s = maxOpenFiles (fresh_store "dir" 1) ∧
  (numActivePathWorkers s ≤ maxOpenFiles s)%Z ∧
  Forall (λ n, (n ≤ maxOpenFiles s)%Z) (active_writes (trace s)) ∧
  numActivePathWorkers s = List.last (active_writes (trace s)) 0%Z.
Proof.
  apply (timers_keep_the_budget (mkConfig (Some "dir"%string) (Some 1%Z))
           (fresh_store "dir" 1) no_extras b_after_a).
  - reflexivity.
  - simpl. lia.
Defined.

(** ** The version with timers between two turns of the event loop *)

(** *** What [tick] does when its callbacks call no [pull] *)

Lemma call_alone (cb : Callback) (s : World) :
  ∃ s', call (ret tt) cb s = Done tt s' ∧ workers s' = workers s ∧
        (scheduleQueue s' = scheduleQueue s ∧ pathInterfaces s' = pathInterfaces s).
Proof. destruct cb; eexists; (split; [reflexivity|]); done. Qed.

Lemma notify_started_alone (w : wid) (s : World) (k : PathWorker) :
  workers s !! w = Some k → is_open k = true →
  match notify_started (ret tt) w s with
  | Done _ s' =>
      ∃ k', workers s' = <[w := k']> (workers s) ∧ control k' = control k ∧
            (scheduleQueue s' = scheduleQueue s ∧ pathInterfaces s' = pathInterfaces s) ∧
            state k' = state k ∧ ops k' = []
  | Thrown e _ => e = AssertionError "readSize > 0"
  | Starved _ => False
  end.
Proof.
  intros Hk Hopen. unfold notify_started.
  pose proof (execIfOps_open w s k Hk Hopen) as H.
  unfold bind at 1. destruct (execIfOps w s) as [[] s1|e s1|s1]; [|done..].
  subst s1. set (k3 := in_flight_after (ops k) (set_ops [] k)).
  assert (workers (executed w k s) !! w = Some k3) as Hk3
    by (unfold executed; lookup_same).
  rewrite (bind_Done _ _ _ _ _ (get_worker_run w _ k3 Hk3)).
  assert (control k3 = control k ∧ state k3 = state k ∧ ops k3 = []) as (E1 & E2 & E3).
  { unfold k3. by rewrite in_flight_after_control, in_flight_after_state,
      in_flight_after_ops. }
  destruct (startCb k3) as [cb|].
  - destruct (call_alone cb (executed w k s)) as (s2 & Hrun & Hw & Hq).
    rewrite (bind_Done _ _ _ _ _ Hrun).
    erewrite upd_worker_run by (rewrite Hw; exact Hk3).
    destruct Hq as [Hq Hp].
    exists (set_startCb None k3). simpl. rewrite Hw, Hq, Hp. unfold executed. simpl.
    by rewrite list_insert_insert_eq.
  - exists k3. by unfold executed.
Qed.

Lemma closeIfDrained_alone (w : wid) (s : World) (k : PathWorker) :
  workers s !! w = Some k → is_open k = true →
  ∃ s' k', closeIfDrained w s = Done tt s' ∧
    workers s' = <[w := k']> (workers s) ∧ control k' = control k ∧
    (scheduleQueue s' = scheduleQueue s ∧ pathInterfaces s' = pathInterfaces s) ∧
    (state k' = state k ∨ state k' = Closing) ∧ ops k' = ops k.
Proof.
  intros Hk Hopen. rewrite (closeIfDrained_run w s k Hk Hopen).
  destruct (_ && _)%Z.
  - eexists _, (set_state Closing k). split; [reflexivity|].
    split_and!; try done. by right.
  - exists s, k. split; [reflexivity|]. rewrite list_insert_id by done.
    split_and!; try done. by left.
Qed.

Lemma tick_alone (w : wid) (s : World) (k : PathWorker) :
  workers s !! w = Some k →
  match tick (ret tt) w s with
  | Done _ s' =>
      ∃ k', workers s' = <[w := k']> (workers s) ∧
            (scheduleQueue s' = scheduleQueue s ∧ pathInterfaces s' = pathInterfaces s) ∧
            ticked_alone k k'
  | Thrown e _ => e = AssertionError "readSize > 0"
  | Starved _ => False
  end.
Proof.
  intros Hk. unfold tick. erewrite tick_at_run by done. cbv zeta.
  destruct (control k) eqn:Hc, (state k) eqn:Hst;
    try (exists k; rewrite list_insert_id by done;
         split; [done|]; split; [done|];
         unfold ticked_alone; rewrite Hc, Hst; by repeat split).
  - (* start, closed *)
    rewrite (open_run w s k Hk Hst). cbv zeta.
    exists (set_state Opening k). split; [done|]. split; [done|].
    unfold ticked_alone. rewrite Hc, Hst. by repeat split.
  - (* start, opened *)
    assert (is_open k = true) as Hopen by (unfold is_open; by rewrite Hst).
    pose proof (notify_started_alone w s k Hk Hopen) as H.
    destruct (notify_started (ret tt) w s) as [[] s'|e s'|s']; [|done..].
    destruct H as (k' & Hw & E1 & Hq & E2 & E3). exists k'.
    split; [done|]. split; [done|]. unfold ticked_alone. rewrite Hc, Hst.
    split_and!; congruence.
  - (* start, draining *)
    erewrite bind_Done by (by apply upd_worker_run).
    erewrite tick_at_run by lookup_same. simpl. rewrite Hc.
    match goal with |- match notify_started _ _ ?s1 with _ => _ end =>
      pose proof (notify_started_alone w s1 (set_state Opened k)) as H end.
    destruct (notify_started (ret tt) w _) as [[] s'|e s'|s'];
      [|apply H; [lookup_same | done]|apply H; [lookup_same | done]].
    destruct H as (k' & Hw & E1 & Hq & E2 & E3); [lookup_same | done|].
    exists k'. simpl in *. rewrite list_insert_insert_eq in Hw.
    split; [done|]. split; [done|]. unfold ticked_alone. rewrite Hc, Hst.
    split_and!; congruence.
  - (* stop, closed *)
    unfold notify_stopped. destruct (stopCb k) as [cb|].
    + destruct (call_alone cb s) as (s2 & Hrun & Hw & Hq).
      rewrite (bind_Done _ _ _ _ _ Hrun).
      erewrite upd_worker_run by (rewrite Hw; exact Hk).
      destruct Hq as [Hq Hp].
      exists (set_stopCb None k). simpl. rewrite Hw, Hq, Hp.
      split; [done|]. split; [done|]. unfold ticked_alone. rewrite Hc, Hst.
      by repeat split.
    + exists k. rewrite list_insert_id by done.
      split; [done|]. split; [done|]. unfold ticked_alone. rewrite Hc, Hst.
      by repeat split.
  - (* stop, opened *)
    assert (is_open k = true) as Hopen by (unfold is_open; by rewrite Hst).
    pose proof (execIfOps_open w s k Hk Hopen) as H.
    unfold bind at 1. destruct (execIfOps w s) as [[] s1|e s1|s1]; [|done..].
    subst s1. erewrite bind_Done by (apply upd_worker_run; unfold executed; lookup_same).
    erewrite tick_at_run by lookup_same. simpl.
    rewrite in_flight_after_control. simpl. rewrite Hc.
    match goal with |- match closeIfDrained _ ?s1 with _ => _ end =>
      destruct (closeIfDrained_alone w s1
                  (set_state Draining (in_flight_after (ops k) (set_ops [] k))))
        as (s' & k' & -> & Hw & E1 & Hq & E2 & E3); [lookup_same | done |] end.
    exists k'. simpl in *. rewrite !list_insert_insert_eq in Hw.
    rewrite in_flight_after_control in E1. rewrite in_flight_after_ops in E3.
    simpl in *.
    split; [done|]. split; [done|]. unfold ticked_alone. rewrite Hc, Hst.
    split_and!; congruence.
  - (* stop, draining *)
    assert (is_open k = true) as Hopen by (unfold is_open; by rewrite Hst).
    destruct (closeIfDrained_alone w s k Hk Hopen)
      as (s' & k' & -> & Hw & E1 & Hq & E2 & E3).
    exists k'. split; [done|]. split; [done|]. unfold ticked_alone. rewrite Hc, Hst.
    split_and!; try congruence; try (destruct E2 as [E2|E2]; [left|right]; congruence).
Qed.


Lemma insert_same {A} (l : list A) (i : nat) (x y : A) :
  i < length l → <[i := x]> l = <[i := y]> l → x = y.
Proof.
  intros Hi H. assert (<[i := x]> l !! i = <[i := y]> l !! i) as H' by (by rewrite H).
  rewrite !list_lookup_insert_eq in H' by done. by simplify_eq.
Qed.

(** A [tick] when no callback is due. *)
Lemma tick_both (w : wid) (s : World) (k : PathWorker) :
  workers s !! w = Some k →
  (control k = Start → is_open k = true → startCb k = None) →
  (control k = Stop → state k = Closed → stopCb k = None) →
  match tick (ret tt) w s with
  | Done _ s' =>
      ∃ k', workers s' = <[w := k']> (workers s) ∧ same_scheduler s s' ∧
            pathInterfaces s' = pathInterfaces s ∧
            ticked k k' ∧ ticked_alone k k'
  | Thrown e _ => e = AssertionError "readSize > 0"
  | Starved _ => False
  end.
Proof.
  intros Hk Hstart Hstop.
  pose proof (tick_quiet (ret tt) w s k Hk Hstart Hstop) as H1.
  pose proof (tick_alone w s k Hk) as H2.
  destruct (tick (ret tt) w s) as [[] s'|e s'|s']; [|done..].
  destruct H1 as (k' & Hw & Hq & Ht). destruct H2 as (k'' & Hw' & [_ Hp] & Ht').
  exists k'. split_and!; [done..|].
  rewrite Hw in Hw'. apply insert_same in Hw'; [by subst | by eapply lookup_lt_Some].
Qed.

Lemma stop_alone (v : wid) (cb : Callback) (s : World) (k : PathWorker) :
  workers s !! v = Some k → stopCb k = None → state k = Opened →
  match stop (ret tt) v (Some cb) s with
  | Done _ s' =>
      ∃ k', workers s' = <[v := k']> (workers s) ∧ same_scheduler s s' ∧
            pathInterfaces s' = pathInterfaces s ∧
            ticked (set_stopCb (Some cb) (set_control Stop k)) k' ∧ ops k' = []
  | Thrown e _ => e = AssertionError "readSize > 0"
  | Starved _ => False
  end.
Proof.
  intros Hk Hcb Hst. unfold stop. munfold.
  erewrite bind_Done by (by apply upd_worker_run).
  erewrite bind_Done by (apply get_worker_run; lookup_same).
  simpl. rewrite Hcb. simpl. unfold bind at 1. simpl.
  erewrite bind_Done by (apply upd_worker_run; lookup_same).
  simpl. rewrite list_insert_insert_eq.
  match goal with |- match tick _ _ ?s2 with _ => _ end =>
    pose proof (tick_both v s2 (set_stopCb (Some cb) (set_control Stop k))) as H end.
  destruct (tick (ret tt) v _) as [[] s'|e s'|s'];
    [|apply H; simpl; [lookup_same | done | congruence]..].
  destruct H as (k' & Hw & Hq & Hp & Ht & (_ & Ht')); simpl;
    [lookup_same | done | congruence |].
  exists k'. simpl in Hw. rewrite list_insert_insert_eq in Hw.
  simpl in Ht'. rewrite Hst in Ht'. by destruct Ht'.
Qed.

(** *** What keeps the scheduler grounded *)

Lemma tidy_alone (s : World) : tidy s → fine tidy (ret tt s).
Proof. done. Qed.

Lemma registry_same (s s' : World) (x : Legacy.Extras) :
  length (workers s') = length (workers s) → pathInterfaces s' = pathInterfaces s →
  registry s x → registry s' x.
Proof. intros Hl Hp. unfold registry. by rewrite Hl, Hp. Qed.

Lemma grounded_tick (w : wid) (s : World) (x : Legacy.Extras) :
  grounded s x → w < length (workers s) →
  match tick (ret tt) w s with
  | Done _ s' =>
      grounded s' x ∧
      ∃ k k', workers s !! w = Some k ∧ workers s' = <[w := k']> (workers s) ∧
              ticked_alone k k'
  | Thrown e _ => allowed e
  | Starved _ => False
  end.
Proof.
  intros (Hs & Ht & Hq & Hr) Hw.
  destruct (lookup_lt_is_Some_2 _ _ Hw) as [k Hk].
  pose proof (tick_rest (ret tt) w s Hs (or_introl Hq) Hw) as H1.
  pose proof (tidy_tick (ret tt) tidy_alone w s Ht) as H2.
  pose proof (tick_alone w s k Hk) as H3.
  destruct (tick (ret tt) w s) as [[] s'|e s'|s']; [|done..].
  destruct H1 as (Hs' & _ & Hlen). destruct H3 as (k' & Hw' & [Hq' Hp'] & Ht').
  split; [|by exists k, k'].
  split_and!; [done | done | congruence | by eapply registry_same].
Qed.

(** [start] on a closed worker that has no start callback. *)
Lemma first_start_alone (p : wid) (cb : Callback) (s : World) (k : PathWorker) :
  workers s !! p = Some k → state k = Closed → startCb k = None →
  ∃ s',
    Legacy.start p cb s = Done tt s' ∧
    workers s' =
      <[p := set_state Opening (set_startCb (Some cb) (set_control Start k))]> (workers s) ∧
    same_scheduler s s' ∧ pathInterfaces s' = pathInterfaces s.
Proof.
  intros Hk Hs Hcb. unfold Legacy.start. munfold.
  erewrite bind_Done by (by apply upd_worker_run).
  erewrite bind_Done by (apply get_worker_run; lookup_same).
  simpl. rewrite Hcb. simpl. unfold bind at 1. simpl.
  erewrite bind_Done by (apply upd_worker_run; lookup_same).
  unfold tick. erewrite tick_at_run by lookup_same. simpl. rewrite Hs.
  erewrite open_run by (first [lookup_same | done]). simpl.
  eexists. split; [reflexivity|]. simpl.
  rewrite !list_insert_insert_eq. by split_and!.
Qed.

Lemma timed_settled (w : wid) (s : World) (x : Legacy.Extras) (k : PathWorker) :
  workers s !! w = Some k → timed (Some w) s x →
  (control k = Stop → ops k ≠ [] → w ∈ Legacy.timers x) →
  timed None s x.
Proof.
  intros Hk Ht Hw j kj Hj. destruct (Ht j kj Hj) as [H1 H2]. split; [done|].
  intros Hc Ho. destruct (H2 Hc Ho) as [[= <-]|Hin]; [|by right].
  right. simplify_eq. by apply Hw.
Qed.

Lemma timed_delay (w : wid) (s : World) (x : Legacy.Extras) :
  timed (Some w) s x → timed None s (Legacy.set_timers (Legacy.timers x ++ [w]) x).
Proof.
  intros Ht j kj Hj. destruct (Ht j kj Hj) as [H1 H2]. split; [done|].
  intros Hc Ho. right. simpl. apply elem_of_app.
  destruct (H2 Hc Ho) as [[= <-]|Hin]; [right; by left | by left].
Qed.

Lemma registry_delay (w : wid) (s : World) (x : Legacy.Extras) :
  w < length (workers s) → registry s x →
  registry s (Legacy.set_timers (Legacy.timers x ++ [w]) x).
Proof.
  intros Hw (R1 & R2 & R3). split_and!; [done | done |]. simpl.
  intros j [Hj| ->%list_elem_of_singleton]%elem_of_app; [by apply R3 | done].
Qed.

(** [schedule] for a worker whose queue may have no timer yet. *)
Lemma schedule_steady (w : wid) (s : World) (x : Legacy.Extras) :
  grounded s x → w < length (workers s) → timed (Some w) s x →
  steady_after (Legacy.schedule w x s).
Proof.
  intros Hg Hw Ht. pose proof Hg as (Hs & Hty & Hq & Hr).
  pose proof Hs as (S1 & S2 & S3 & S4 & S5 & S6).
  destruct (lookup_lt_is_Some_2 _ _ Hw) as [k Hk].
  unfold Legacy.schedule. rewrite lift_bind.
  rewrite (bind_Done _ _ _ _ _ (get_worker_run w s k Hk)).
  destruct (control k) eqn:Hc.
  { (* started already *)
    split; [done|]. apply (timed_settled w s x k); [done | done | congruence]. }
  destruct (State_eqb (state k) Closed) eqn:Hst; simpl.
  2:{ (* stopping: try again later *)
    split; [|by apply timed_delay]. split_and!; [done..|by apply registry_delay]. }
  assert (state k = Closed) as Hclosed by (by destruct (state k)).
  destruct (shape_closed Idle s w k (S6 w k Hk) Hc Hclosed) as [Hcb Hout].
  rewrite lift_bind. unfold bind at 1, get.
  destruct (numActivePathWorkers s <? maxOpenFiles s)%Z eqn:Hroom.
  - (* a free slot *)
    rewrite lift_run. munfold. unfold bind at 1, set_active, modify.
    set (s1 := set_trace _ _).
    destruct (first_start_alone w (OnStarted w) s1 k Hk Hclosed Hcb)
      as (s2 & Hrun & Hw2 & (Q1 & Q2 & Q3 & Q4 & Q5) & Hp).
    pose proof (tidy_start (ret tt) tidy_alone w (Some (OnStarted w)) s1) as Hty2.
    rewrite <- start_with_callback, Hrun in Hty2.
    rewrite Hrun. simpl in *.
    set (k' := set_state Opening (set_startCb (Some (OnStarted w)) (set_control Start k))) in *.
    split; [split_and!|].
    + apply (Sound_step Idle Idle s s2 w k k'); [done | done | done | done | | | | | |].
      * by rewrite Q2.
      * by rewrite Q2.
      * rewrite Q1, Hq. by intros j Hj%elem_of_nil.
      * rewrite Q3, (holds_slot_closed k), (holds_slot_start k') by done. lia.
      * apply (shape_fresh Idle s s2 w k k'); [by apply S6 | done | done | | done].
        unfold ticked. simpl. by rewrite Hclosed.
      * intros j kj _ _ Hj. eapply shape_frame; [done | by rewrite Q2 |].
        intros (p & rest & kp & Hb & _). rewrite Hq in Hb. done.
    + apply Hty2. by eapply tidy_frame.
    + by rewrite Q1.
    + eapply registry_same; [|exact Hp|exact Hr]. by rewrite Hw2, length_insert.
    + intros j kj Hj. rewrite Hw2 in Hj. destruct (decide (j = w)) as [->|Hne].
      * rewrite list_lookup_insert_eq in Hj by done. simplify_eq. split; [by left | done].
      * rewrite list_lookup_insert_ne in Hj by done.
        destruct (Ht j kj Hj) as [H1 H2]. split; [done|].
        intros Hcj Ho. destruct (H2 Hcj Ho) as [[= ->]|?]; [done | by right].
  - destruct (stoppableQueue s) as [|v rest] eqn:Hstop; simpl.
    { (* nothing to stop: try again later *)
      split; [|by apply timed_delay]. split_and!; [done..|by apply registry_delay]. }
    (* a worker is stopped for this one *)
    rewrite lift_bind. munfold. rewrite bind_assoc. unfold bind at 1, modify.
    set (s1 := set_stoppableQueue rest s).
    assert (is_Some (workers s !! v)) as [kv Hkv].
    { apply lookup_lt_is_Some, S2. by left. }
    assert (v ∈ stoppableQueue s) as Hin by (rewrite Hstop; by left).
    destruct (shape_stoppable Idle s v kv (S6 v kv Hkv) Hin) as (Hcv & Hsv & Hcbv).
    apply NoDup_cons in S1 as [Hv Hnd].
    pose proof (stop_alone v OnStopped s1 kv Hkv Hcbv Hsv) as H.
    pose proof (tidy_stop (ret tt) tidy_alone v (Some OnStopped) s1) as Hty2.
    unfold bind at 1.
    destruct (stop (ret tt) v (Some OnStopped) s1) as [[] s3|e s3|s3]; [|by subst; left|done].
    destruct H as (k' & Hw3 & (Q1 & Q2 & Q3 & Q4 & Q5) & Hp & Htk & Hops). simpl in *.
    pose proof (ticked_stop _ _ _ Hsv Htk) as (E1 & E2 & E3 & E4).
    assert (v ≠ w) as Hvw by (intros ->; simplify_eq; congruence).
    assert (startCb kv = None) as Hscb.
    { pose proof (S6 v kv Hkv) as (H1 & _).
      destruct (startCb kv) as [c|]; [|done].
      destruct (H1 c eq_refl) as (_ & _ & ? & _). congruence. }
    split; [split_and!|].
    + apply (Sound_step Idle Idle s s3 v kv k'); [done | done | done | done | | | | | |].
      * by rewrite Q2.
      * rewrite Q2. intros j Hj. apply S2. by right.
      * rewrite Q1, Hq. by intros j Hj%elem_of_nil.
      * rewrite Q3, (holds_slot_start kv), (holds_slot_open k') by
          (done || (destruct E4; congruence)). lia.
      * simpl. unfold at_rest. rewrite E1, E2, E3, Hscb, Q2.
        split_and!; [done | by intros cb [= <-] | by intros; right | done].
      * intros j kj Hne _ Hj. simpl in *. apply (at_rest_same s s3 j kj); [done.. | | done].
        rewrite Q2, Hstop. intros ?. by right.
    + apply Hty2. by eapply tidy_frame.
    + by rewrite Q1.
    + apply registry_delay; [by rewrite Hw3, length_insert|].
      eapply registry_same; [|exact Hp|exact Hr]. by rewrite Hw3, length_insert.
    + apply timed_delay. intros j kj Hj. rewrite Hw3 in Hj.
      destruct (decide (j = v)) as [->|Hne].
      * rewrite list_lookup_insert_eq in Hj by (by eapply lookup_lt_Some). simplify_eq.
        split; [congruence | done].
      * rewrite list_lookup_insert_ne in Hj by done. by apply Ht.
Qed.

(** *** The calls of the clients *)

Lemma op_steady (p : string) (o : Op) (w : wid) (s : World) (x : Legacy.Extras) :
  steady s x → Legacy.pathWorkers x !! p = Some w → w < length (workers s) →
  steady_after (Legacy.op p o x s).
Proof.
  intros [Hg Ht] Hp Hw. pose proof Hg as (Hs & Hty & Hq & Hr).
  destruct (lookup_lt_is_Some_2 _ _ Hw) as [k Hk].
  unfold Legacy.op. rewrite get_extras_bind, Hp, lift_bind.
  unfold bind at 1. rewrite (add_run (ret tt) w o s k Hk).
  set (k1 := set_ops (deque_push o (ops k)) k).
  assert (workers (pushed w o k s) !! w = Some k1) as Hk1 by (unfold pushed; lookup_same).
  assert (grounded (pushed w o k s) x) as Hg1.
  { split_and!.
    - by apply (Sound_field s _ w k k1).
    - apply (tidy_frame (set_workers (<[w := k1]> (workers s)) s)); [done | done |].
      by apply (tidy_field w k).
    - done.
    - apply (registry_same s); [simpl; by rewrite length_insert | done | done]. }
  pose proof (grounded_tick w (pushed w o k s) x Hg1) as H.
  destruct (tick (ret tt) w (pushed w o k s)) as [[] s2|e s2|s2];
    [|apply H; simpl; by rewrite length_insert..].
  destruct H as (Hg2 & k1' & k' & Hk1' & Hw2 & Hc' & Htk);
    [simpl; by rewrite length_insert|].
  rewrite Hk1 in Hk1'. simplify_eq. simpl in Hw2. rewrite list_insert_insert_eq in Hw2.
  apply schedule_steady; [done | by rewrite Hw2, length_insert |].
  intros j kj Hj. rewrite Hw2 in Hj. destruct (decide (j = w)) as [->|Hne].
  - rewrite list_lookup_insert_eq in Hj by done. simplify_eq.
    destruct (Ht w k Hk) as [H1 _]. simpl in *. split; [|by left].
    intros Hcj. rewrite Hc' in Hcj. simpl in Hcj. rewrite Hcj in Htk.
    destruct (H1 Hcj) as [Hst|[Hst Ho]]; rewrite Hst in Htk; simpl in Htk.
    + left. destruct Htk. congruence.
    + right. done.
  - rewrite list_lookup_insert_ne in Hj by done.
    destruct (Ht j kj Hj) as [H1 H2]. split; [done|]. intros Hcj Ho. right.
    by destruct (H2 Hcj Ho).
Qed.

Lemma storageFor_steady (p : string) (s : World) (x : Legacy.Extras) :
  steady s x → steady_after (Legacy.storageFor p x s).
Proof.
  intros [Hg Ht]. pose proof Hg as (Hs & Hty & Hq & (R1 & R2 & R3)).
  destruct (pathInterfaces s !! p) as [h|] eqn:Hp.
  { by rewrite (first_storageFor_known p h s x). }
  rewrite (first_storageFor_new p s x Hp (R1 p Hp)). simpl.
  split; [split_and!|].
  - destruct Hs as (S1 & S2 & S3 & S4 & S5 & S6). unfold Sound, slots in *. simpl.
    rewrite length_app. simpl. split_and!; [done | | | | |].
    + intros j Hj. specialize (S2 j Hj). lia.
    + intros j Hj. specialize (S3 j Hj). lia.
    + intros h i Hi. specialize (S4 h i Hi). lia.
    + rewrite count_if_app. simpl. lia.
    + intros j k [Hk|[Hlen Hk]]%lookup_app_Some.
      * by apply (at_rest_same s _ j k), S6.
      * apply list_lookup_singleton_Some in Hk as [Hj <-]. unfold at_rest. simpl.
        split_and!; [done | done | by left |].
        intros Hin. specialize (S2 j Hin). lia.
  - destruct Hty as [Hval Hty]. split; simpl.
    + intros r Hr. rewrite length_app. specialize (Hval r Hr). lia.
    + intros j k Hk. apply lookup_app_Some in Hk as [Hk|[Hlen Hk]].
      * by apply (tidy_worker_same_io s _ j k), Hty.
      * apply list_lookup_singleton_Some in Hk as [Hj <-].
        assert (∀ c, outstanding j c s = 0) as Hc.
        { intros c. apply count_if_none. intros r Hr. unfold asks.
          apply andb_false_iff. left. apply Nat.eqb_neq.
          specialize (Hval r Hr). lia. }
        unfold tidy_worker, outstanding in *. simpl. rewrite !Hc.
        split_and!; try done. intros r Hr Hj'. specialize (Hval r Hr). lia.
  - done.
  - unfold registry. simpl. rewrite length_app. simpl. split_and!.
    + intros q Hq'. apply lookup_insert_None in Hq' as [Hq' Hne].
      rewrite lookup_insert_ne by done. by apply R1.
    + intros h q [Hh|[_ Hh]]%lookup_app_Some.
      * destruct (R2 h q Hh) as (w & Hw & Hlen).
        assert (q ≠ p) as Hne by (intros ->; rewrite (R1 p Hp) in Hw; done).
        exists w. rewrite lookup_insert_ne by done. split; [done | lia].
      * apply list_lookup_singleton_Some in Hh as [_ <-].
        exists (length (workers s)). rewrite lookup_insert_eq. split; [done | lia].
    + intros w Hw. specialize (R3 w Hw). lia.
  - intros j k [Hk|[Hlen Hk]]%lookup_app_Some; [by apply Ht|].
    apply list_lookup_singleton_Some in Hk as [_ <-]. simpl. split; [done|].
    intros _ Ho. done.
Qed.

Lemma get_interface_run (h : hid) (x : Legacy.Extras) (s : World) :
  Legacy.get_interface h x s =
  match Legacy.interfaces x !! h with
  | Some q => Done (q, x) s
  | None => Thrown (TypeError "pathInterface is undefined") s
  end.
Proof.
  unfold Legacy.get_interface. rewrite get_extras_bind.
  by destruct (Legacy.interfaces x !! h).
Qed.

Lemma run_call_steady (c : Call) (s : World) (x : Legacy.Extras) :
  steady s x → steady_after (Legacy.run_call c x s).
Proof.
  intros Hsx. pose proof Hsx as [(_ & _ & _ & (R1 & R2 & R3)) _].
  destruct c as [p|h offset size cb|h offset data cb]; simpl.
  - pose proof (storageFor_steady p s x Hsx) as H.
    unfold mbind, Legacy.L_bind, bind.
    destruct (Legacy.storageFor p x s) as [[h x'] s'|e s'|s']; done.
  - unfold Legacy.read, mbind, Legacy.L_bind, bind. rewrite get_interface_run.
    destruct (Legacy.interfaces x !! h) as [q|] eqn:Hh; [|done].
    destruct (R2 h q Hh) as (w & Hw & Hlen). simpl.
    by apply (op_steady q _ w).
  - unfold Legacy.write, mbind, Legacy.L_bind, bind. rewrite get_interface_run.
    destruct (Legacy.interfaces x !! h) as [q|] eqn:Hh; [|done].
    destruct (R2 h q Hh) as (w & Hw & Hlen). simpl.
    by apply (op_steady q _ w).
Qed.

Lemma for_each_steady {A} (f : A → Legacy.L unit) (l : list A) (s : World)
    (x : Legacy.Extras) :
  (∀ a s1 x1, steady s1 x1 → steady_after (f a x1 s1)) →
  steady s x → steady_after (Legacy.for_each f l x s).
Proof.
  intros Hf. revert s x. induction l as [|a l IH]; intros s x Hsx; simpl; [done|].
  unfold mbind, Legacy.L_bind. specialize (Hf a s x Hsx). unfold bind.
  destruct (f a x s) as [[[] x1] s1|e s1|s1]; [|done..]. by apply IH.
Qed.

Lemma invoke_steady (cb : ClientCb) (args : list Arg) (s : World) (x : Legacy.Extras) :
  steady s x → steady_after (Legacy.invoke cb args x s).
Proof.
  intros [(Hs & Hty & Hq & Hr) Ht]. unfold Legacy.invoke. rewrite lift_bind.
  unfold bind at 1, emit, modify.
  apply for_each_steady; [by intros; apply run_call_steady|].
  split; [split_and!|]; done.
Qed.

(** *** The callbacks of [start] and [stop] *)

Lemma call_started_run (w : wid) (s : World) :
  call (ret tt) (OnStarted w) s =
  Done tt (set_stoppableQueue (deque_push w (stoppableQueue s)) s).
Proof. reflexivity. Qed.

Lemma call_stopped_run (s : World) :
  call (ret tt) OnStopped s =
  Done tt (set_trace (trace s ++ [EvActive (numActivePathWorkers s - 1)])
             (set_numActivePathWorkers (numActivePathWorkers s - 1) s)).
Proof. reflexivity. Qed.

(** [tick] on a worker that is opened under [start]: the queue is executed,
    and the start callback, if any, puts the worker on the stoppable
    queue. *)
Lemma opened_run (w : wid) (s : World) (k : PathWorker) :
  workers s !! w = Some k → control k = Start → state k = Opened →
  startCb k = None ∨ startCb k = Some (OnStarted w) →
  match tick (ret tt) w s with
  | Done _ s' =>
      workers s' =
        <[w := set_startCb None (in_flight_after (ops k) (set_ops [] k))]> (workers s) ∧
      stoppableQueue s' =
        stoppableQueue s ++ match startCb k with Some _ => [w] | None => [] end ∧
      scheduleQueue s' = scheduleQueue s ∧
      numActivePathWorkers s' = numActivePathWorkers s ∧
      handles s' = handles s ∧ pathInterfaces s' = pathInterfaces s
  | Thrown e _ => e = AssertionError "readSize > 0"
  | Starved _ => False
  end.
Proof.
  intros Hk Hc Hst Hcb. unfold tick. erewrite tick_at_run by done. cbv zeta.
  rewrite Hc, Hst. unfold notify_started.
  assert (is_open k = true) as Hopen by (unfold is_open; by rewrite Hst).
  pose proof (execIfOps_open w s k Hk Hopen) as H.
  unfold bind at 1. destruct (execIfOps w s) as [[] s1|e s1|s1]; [|done..].
  subst s1. set (k3 := in_flight_after (ops k) (set_ops [] k)).
  assert (workers (executed w k s) !! w = Some k3) as Hk3
    by (unfold executed; lookup_same).
  rewrite (bind_Done _ _ _ _ _ (get_worker_run w _ k3 Hk3)).
  unfold k3 at 1. rewrite in_flight_after_startCb. simpl.
  destruct Hcb as [Hcb|Hcb]; rewrite Hcb.
  - assert (set_startCb None k3 = k3) as ->.
    { assert (startCb k3 = None) as H0
        by (unfold k3; by rewrite in_flight_after_startCb).
      clearbody k3. destruct k3; simpl in *. by subst. }
    unfold ret, executed. simpl. rewrite app_nil_r. by split_and!.
  - rewrite (bind_Done _ _ _ _ _ (call_started_run w _)).
    erewrite upd_worker_run by (simpl; exact Hk3).
    unfold executed. simpl. by rewrite list_insert_insert_eq.
Qed.

(** [tick] on a worker that is closed under [stop]: the stop callback, if
    any, gives the slot back. *)
Lemma closed_run (w : wid) (s : World) (k : PathWorker) :
  workers s !! w = Some k → control k = Stop → state k = Closed →
  stopCb k = None ∨ stopCb k = Some OnStopped →
  ∃ s',
    tick (ret tt) w s = Done tt s' ∧
    workers s' = <[w := set_stopCb None k]> (workers s) ∧
    stoppableQueue s' = stoppableQueue s ∧
    scheduleQueue s' = scheduleQueue s ∧
    numActivePathWorkers s' =
      (numActivePathWorkers s - match stopCb k with Some _ => 1 | None => 0 end)%Z ∧
    handles s' = handles s ∧ pathInterfaces s' = pathInterfaces s.
Proof.
  intros Hk Hc Hst Hcb. unfold tick. erewrite tick_at_run by done. cbv zeta.
  rewrite Hc, Hst. unfold notify_stopped.
  destruct Hcb as [Hcb|Hcb]; rewrite Hcb.
  - exists s. split; [done|]. split_and!; try done; [|lia].
    rewrite list_insert_id; [done|]. rewrite Hk. f_equal.
    destruct k; simpl in *. by subst.
  - rewrite (bind_Done _ _ _ _ _ (call_stopped_run s)).
    erewrite upd_worker_run by (simpl; exact Hk).
    eexists. split; [reflexivity|]. simpl. by split_and!.
Qed.

Lemma timed_field (e : option wid) (w : wid) (k k1 : PathWorker) (s s' : World)
    (x : Legacy.Extras) :
  workers s !! w = Some k → workers s' = <[w := k1]> (workers s) →
  control k1 = control k → state k1 = state k → ops k1 = ops k →
  timed e s x → timed e s' x.
Proof.
  intros Hk Hw E1 E2 E3 Ht j kj Hj. rewrite Hw in Hj.
  destruct (decide (j = w)) as [->|Hne].
  - rewrite list_lookup_insert_eq in Hj by (by eapply lookup_lt_Some). simplify_eq.
    rewrite E1, E2, E3. by apply Ht.
  - rewrite list_lookup_insert_ne in Hj by done. by apply Ht.
Qed.

Lemma timed_ticked (e : option wid) (w : wid) (k k' : PathWorker) (s s' : World)
    (x : Legacy.Extras) :
  workers s !! w = Some k → workers s' = <[w := k']> (workers s) →
  ticked_alone k k' → timed e s x → timed e s' x.
Proof.
  intros Hk Hw [E1 E2] Ht j kj Hj. rewrite Hw in Hj.
  destruct (decide (j = w)) as [->|Hne].
  - rewrite list_lookup_insert_eq in Hj by (by eapply lookup_lt_Some). simplify_eq.
    destruct (Ht w k Hk) as [H1 H2]. rewrite E1.
    destruct (control k) eqn:Hc.
    + split; [|done]. intros _.
      destruct (H1 eq_refl) as [Hst|[Hst Ho]]; rewrite Hst in E2; destruct E2 as [E2 E3].
      * left. congruence.
      * right. split; congruence.
    + split; [done|]. intros _ Ho. apply H2; [done|].
      destruct (state k); destruct E2 as [_ E3]; congruence.
  - rewrite list_lookup_insert_ne in Hj by done. by apply Ht.
Qed.

Lemma workers_stay_timers (n : nat) (cb : ClientCb) (args : list Arg) :
  keeps_all (λ s, n ≤ length (workers s)) (λ s, n ≤ length (workers s))
    (Legacy.invoke cb args).
Proof.
  apply keeps_all_invoke; unfold keeps, ok; try done.
  - intros w f s k _ Hs _. simpl. by rewrite length_insert.
  - intros w o s Hs. destruct (workers s !! w) as [k|] eqn:Hk.
    + erewrite push_op_run by done. simpl. by rewrite length_insert.
    + by rewrite push_op_fail.
  - intros w o rest s k Hs Hk _. destruct o as [offset size c|offset data c].
    + erewrite exec_turn_read by done. cbv zeta.
      destruct (0 <? size)%Z; simpl; by rewrite length_insert.
    + erewrite exec_turn_write by done. simpl. by rewrite length_insert.
  - intros p h s _ Hs. simpl. rewrite length_app. lia.
Qed.

(** *** The replies of the operating system *)

Lemma then_tick_steady (m : Legacy.L unit) (w : wid) (x : Legacy.Extras) (s : World) :
  steady_after (m x s) →
  ok (λ s, S w ≤ length (workers s)) (λ s, S w ≤ length (workers s)) (m x s) →
  steady_after ((m ≫= λ _, Legacy.lift (tick (ret tt) w)) x s).
Proof.
  intros H Hlen. unfold mbind, Legacy.L_bind, bind.
  destruct (m x s) as [[[] x1] s1|e s1|s1]; [|done..].
  destruct H as [Hg Ht]. simpl in *. rewrite lift_run.
  pose proof (grounded_tick w s1 x1 Hg Hlen) as H.
  destruct (tick (ret tt) w s1) as [[] s2|e s2|s2]; [|done..].
  destruct H as (Hg2 & k & k' & Hk & Hw & Htk). split; [done|].
  by apply (timed_ticked None w k k' s1).
Qed.

Lemma on_reply_steady (i : nat) (r : IoReq) (reply : OsReply) (s : World)
    (x : Legacy.Extras) :
  steady s x → pending s !! i = Some r →
  steady_after (Legacy.on_reply r reply x (set_pending (delete i (pending s)) s)).
Proof.
  intros [Hg Ht] Hi. pose proof Hg as (Hs & Hty & Hq & Hr).
  assert (req_worker r < length (workers s)) as Hlen.
  { destruct Hty as [Hval _]. apply Hval. by eapply list_elem_of_lookup_2. }
  destruct (lookup_lt_is_Some_2 _ _ Hlen) as [k Hk].
  pose proof (proj2 Hty _ _ Hk) as (T1 & T2 & T3 & T4 & T5 & T6).
  pose proof (count_if_delete (asks (req_worker r) ROpen) _ _ _ Hi) as D1.
  pose proof (count_if_delete (asks (req_worker r) RClose) _ _ _ Hi) as D2.
  pose proof (count_if_delete (asks (req_worker r) RRead) _ _ _ Hi) as D3.
  pose proof (count_if_delete (asks (req_worker r) RWrite) _ _ _ Hi) as D4.
  rewrite asks_own in D1, D2, D3, D4. unfold outstanding in *.
  pose proof Hs as (S1 & S2 & S3 & S4 & S5 & S6).
  pose proof (S6 _ _ Hk) as (R1 & R2 & R3 & R4).
  pose proof (Ht _ _ Hk) as [M1 M2].
  set (s1 := set_pending (delete i (pending s)) s).
  assert (workers s1 !! req_worker r = Some k) as Hk1 by done.
  destruct r as [w dir|w path|w d|w d size offset cb|w d data offset cb]; simpl in *.
  - (* mkdirp *)
    rewrite lift_run. destruct (os_err reply); [done|]. munfold.
    erewrite bind_Done by (by apply upd_worker_run).
    erewrite bind_Done by (apply get_worker_run; lookup_same).
    unfold issue, modify. simpl. split; [split_and!|].
    + by apply (Sound_field s _ w k (set_fullDirMade true k)).
    + apply (tidy_turn i (Mkdirp w dir) w k (set_fullDirMade true k)
               [FsOpen w (fullPath k)] s);
        [done | done | done | done | done | | done |].
      { intros r' Hr'. by apply list_elem_of_singleton in Hr' as ->. }
      unfold tidy_worker, outstanding. simpl. rewrite !count_if_app. simpl.
      rewrite !(asks_own _ (FsOpen w (fullPath k))). simpl.
      split_and!; [lia | lia | lia | lia | intros Ho; specialize (T5 Ho); lia |].
      intros r' Hr' Hj. apply elem_of_app in Hr' as [Hr'|Hr'].
      * apply (addressed_same _ k); [done..|]. apply T6; [|done].
        by eapply list_elem_of_delete_inv.
      * by apply list_elem_of_singleton in Hr' as ->.
    + done.
    + apply (registry_same s); [simpl; by rewrite length_insert | done | done].
    + by apply (timed_field None w k (set_fullDirMade true k) s).
  - (* open *)
    rewrite lift_run. destruct (os_err reply); [done|]. munfold.
    erewrite bind_Done by (by apply get_worker_run).
    destruct (state k) eqn:Hst; simpl in *; try lia.
    assert (control k = Start) as Hc.
    { destruct (control k) eqn:Hc; [done|].
      destruct (R3 eq_refl) as [[? _]|[[?|?] _]]; congruence. }
    assert (w ∉ stoppableQueue s) as Hout.
    { intros Hin. destruct (R4 Hin) as (_ & ? & _). congruence. }
    unfold bind at 1. simpl.
    erewrite bind_Done by (by apply upd_worker_run).
    erewrite bind_Done by (apply upd_worker_run; lookup_same).
    simpl. rewrite list_insert_insert_eq.
    set (k2 := set_fd (os_num reply) (set_state Opened k)).
    set (s2 := set_workers (<[w := k2]> (workers s)) s1).
    assert (workers s2 !! w = Some k2) as Hk2 by (unfold s2; lookup_same).
    assert (tidy s2) as Hty2.
    { unfold is_open in T5. rewrite Hst in T5. destruct (T5 eq_refl) as [T7 T8].
      assert (∀ c, count_if (asks w c) (delete i (pending s)) = 0) as Hnone
        by (intros []; lia).
      apply (tidy_turn i (FsOpen w path) w k k2 [] s);
        [done | done | done | done | by rewrite app_nil_r | | done |].
      { intros r' Hr'. by apply elem_of_nil in Hr'. }
      unfold tidy_worker, outstanding. simpl.
      split_and!; [lia | lia | lia | lia | done |].
      intros r' Hr' Hj. by destruct (no_requests w _ r' Hnone Hr'). }
    pose proof (tidy_tick (ret tt) tidy_alone w s2 Hty2) as Hty3.
    assert (startCb k2 = None ∨ startCb k2 = Some (OnStarted w)) as Hcb2.
    { simpl. destruct (startCb k) as [c|]; [|by left].
      right. by destruct (R1 c eq_refl) as (-> & _). }
    pose proof (opened_run w s2 k2 Hk2 Hc eq_refl Hcb2) as H.
    match goal with |- context [tick _ w ?x] => change x with s2 end.
    destruct (tick (ret tt) w s2) as [[] s3|e s3|s3]; [|subst; simpl; by left|done].
    destruct H as (Hw3 & Q2 & Q1 & Q3 & Q5 & Qp).
    set (k4 := set_startCb None (in_flight_after (ops k2) (set_ops [] k2))) in *.
    simpl in *. rewrite list_insert_insert_eq in Hw3.
    assert (control k4 = Start ∧ state k4 = Opened ∧ ops k4 = [] ∧ stopCb k4 = stopCb k)
      as (E1 & E2 & E3 & E4).
    { unfold k4. simpl. by rewrite in_flight_after_control, in_flight_after_state,
        in_flight_after_ops, in_flight_after_stopCb. }
    split; [split_and!|].
    + apply (Sound_step Idle Idle s s3 w k k4); [done | done | done | done | | | | | |].
      * rewrite Q2. destruct (startCb k); [|by rewrite app_nil_r].
        apply NoDup_app. split_and!; [done | | apply NoDup_singleton].
        intros j Hj ->%list_elem_of_singleton. done.
      * rewrite Q2. intros j [Hj|Hj]%elem_of_app; [by apply S2|].
        destruct (startCb k); [|by apply elem_of_nil in Hj].
        by apply list_elem_of_singleton in Hj as ->.
      * rewrite Q1, Hq. by intros j Hj%elem_of_nil.
      * by rewrite Q3, (holds_slot_start k), (holds_slot_start k4).
      * simpl. unfold at_rest. rewrite E1, E2, E4. simpl.
        split_and!; [done | done | done |].
        intros Hin. split_and!; [done | done |].
        destruct (startCb k) as [c|]; [by destruct (R1 c eq_refl) as (_ & _ & _ & ?)|].
        rewrite Q2, app_nil_r in Hin. done.
      * intros j kj Hne _ Hj. apply (at_rest_same s s3 j kj); [done.. | | done].
        rewrite Q2. intros [?|Hj']%elem_of_app; [done|].
        destruct (startCb k); [|by apply elem_of_nil in Hj'].
        by apply list_elem_of_singleton in Hj'.
    + done.
    + by rewrite Q1.
    + apply (registry_same s); [by rewrite Hw3, length_insert | done | done].
    + intros j kj Hj. rewrite Hw3 in Hj. destruct (decide (j = w)) as [->|Hne].
      * rewrite list_lookup_insert_eq in Hj by done. simplify_eq.
        split; [by intros; right | by rewrite E1].
      * rewrite list_lookup_insert_ne in Hj by done. by apply Ht.
  - (* close *)
    rewrite lift_run. destruct (os_err reply); [done|]. munfold.
    erewrite bind_Done by (by apply get_worker_run).
    destruct (state k) eqn:Hst; simpl in *; try lia.
    assert (control k = Stop) as Hc.
    { destruct (control k) eqn:Hc; [|done].
      destruct (M1 eq_refl) as [?|[? _]]; congruence. }
    destruct (R3 Hc) as [[? _]|[_ Hstop]]; [congruence|].
    assert (w ∉ stoppableQueue s) as Hout.
    { intros Hin. destruct (R4 Hin) as (? & _). congruence. }
    assert (startCb k = None) as Hcb.
    { destruct (startCb k) as [c|] eqn:Hcb; [|done].
      destruct (R1 c eq_refl) as (_ & ? & _). congruence. }
    unfold bind at 1. simpl.
    erewrite bind_Done by (by apply upd_worker_run).
    erewrite bind_Done by (apply upd_worker_run; lookup_same).
    simpl. rewrite list_insert_insert_eq.
    set (k2 := set_fd 0 (set_state Closed k)).
    set (s2 := set_workers (<[w := k2]> (workers s)) s1).
    assert (workers s2 !! w = Some k2) as Hk2 by (unfold s2; lookup_same).
    assert (tidy s2) as Hty2.
    { unfold is_open in T5. rewrite Hst in T5. destruct (T5 eq_refl) as [T7 T8].
      assert (∀ c, count_if (asks w c) (delete i (pending s)) = 0) as Hnone
        by (intros []; lia).
      apply (tidy_turn i (FsClose w d) w k k2 [] s);
        [done | done | done | done | by rewrite app_nil_r | | done |].
      { intros r' Hr'. by apply elem_of_nil in Hr'. }
      unfold tidy_worker, outstanding. simpl.
      split_and!; [lia | lia | lia | lia | done |].
      intros r' Hr' Hj. by destruct (no_requests w _ r' Hnone Hr'). }
    pose proof (tidy_tick (ret tt) tidy_alone w s2 Hty2) as Hty3.
    destruct (closed_run w s2 k2 Hk2 Hc eq_refl (or_intror Hstop))
      as (s3 & Hrun & Hw3 & Q2 & Q1 & Q3 & Q5 & Qp).
    match goal with |- context [tick _ w ?x] => change x with s2 end.
    rewrite Hrun in *. set (k4 := set_stopCb None k2) in *.
    simpl in *. rewrite list_insert_insert_eq in Hw3.
    rewrite Hstop in Q3.
    split; [split_and!|].
    + apply (Sound_step Idle Idle s s3 w k k4); [done | done | done | done | | | | | |].
      * by rewrite Q2.
      * by rewrite Q2.
      * rewrite Q1, Hq. by intros j Hj%elem_of_nil.
      * rewrite Q3, (holds_slot_open k) by congruence.
        rewrite (holds_slot_closed k4) by done. lia.
      * simpl. unfold at_rest. simpl. rewrite Hc, Hcb, Q2.
        split_and!; [done | done | by intros; left | done].
      * intros j kj Hne _ Hj. apply (at_rest_same s s3 j kj); [done.. | by rewrite Q2 | done].
    + done.
    + by rewrite Q1.
    + apply (registry_same s); [by rewrite Hw3, length_insert | done | done].
    + intros j kj Hj. rewrite Hw3 in Hj. destruct (decide (j = w)) as [->|Hne].
      * rewrite list_lookup_insert_eq in Hj by done. simplify_eq. simpl.
        split; [by rewrite Hc | by intros; apply M2].
      * rewrite list_lookup_insert_ne in Hj by done. by apply Ht.
  - (* read *)
    rewrite lift_bind. erewrite bind_Done by (by apply upd_worker_run).
    set (k2 := set_inFlightReads (inFlightReads k - 1) k).
    set (s2 := set_workers _ s1).
    assert (steady s2 x) as Hs2.
    { split; [split_and!|].
      - by apply (Sound_field s _ w k k2).
      - apply (tidy_turn i (FsRead w d size offset cb) w k k2 [] s);
          [done | done | done | done | by rewrite app_nil_r | | done |].
        { intros r' Hr'. by apply elem_of_nil in Hr'. }
        unfold tidy_worker, outstanding. simpl.
        split_and!; [lia | lia | lia | lia | |].
        + unfold is_open. simpl. fold (is_open k). intros Ho. specialize (T5 Ho). lia.
        + intros r' Hr' Hj. apply (addressed_same _ k); [done..|]. apply T6; [|done].
          by eapply list_elem_of_delete_inv.
      - done.
      - apply (registry_same s); [simpl; by rewrite length_insert | done | done].
      - by apply (timed_field None w k k2 s). }
    assert (S w ≤ length (workers s2)) as Hlen2 by (simpl; by rewrite length_insert).
    apply then_tick_steady.
    + destruct (os_err reply); [by apply invoke_steady|].
      destruct (os_num reply =? 0)%Z; [by apply invoke_steady|].
      rewrite lift_bind. unfold assert. destruct (os_num reply =? size)%Z; [|by right; left].
      unfold bind at 1. simpl. by apply invoke_steady.
    + destruct (os_err reply); [by apply workers_stay_timers|].
      destruct (os_num reply =? 0)%Z; [by apply workers_stay_timers|].
      rewrite lift_bind. unfold assert. destruct (os_num reply =? size)%Z; [|done].
      unfold bind at 1. simpl. by apply workers_stay_timers.
  - (* write *)
    rewrite lift_bind. erewrite bind_Done by (by apply upd_worker_run).
    set (k2 := set_inFlightWrites (inFlightWrites k - 1) k).
    set (s2 := set_workers _ s1).
    assert (steady s2 x) as Hs2.
    { split; [split_and!|].
      - by apply (Sound_field s _ w k k2).
      - apply (tidy_turn i (FsWrite w d data offset cb) w k k2 [] s);
          [done | done | done | done | by rewrite app_nil_r | | done |].
        { intros r' Hr'. by apply elem_of_nil in Hr'. }
        unfold tidy_worker, outstanding. simpl.
        split_and!; [lia | lia | lia | lia | |].
        + unfold is_open. simpl. fold (is_open k). intros Ho. specialize (T5 Ho). lia.
        + intros r' Hr' Hj. apply (addressed_same _ k); [done..|]. apply T6; [|done].
          by eapply list_elem_of_delete_inv.
      - done.
      - apply (registry_same s); [simpl; by rewrite length_insert | done | done].
      - by apply (timed_field None w k k2 s). }
    assert (S w ≤ length (workers s2)) as Hlen2 by (simpl; by rewrite length_insert).
    apply then_tick_steady.
    + destruct (os_err reply); [by apply invoke_steady|].
      rewrite lift_bind. unfold assert. destruct (os_num reply =? _)%Z; [|by right; right].
      unfold bind at 1. simpl. by apply invoke_steady.
    + destruct (os_err reply); [by apply workers_stay_timers|].
      rewrite lift_bind. unfold assert. destruct (os_num reply =? _)%Z; [|done].
      unfold bind at 1. simpl. by apply workers_stay_timers.
Qed.

(** *** The event loop *)

Lemma elem_of_delete_other {A} (l : list A) (i : nat) (a b : A) :
  l !! i = Some a → b ∈ l → b ≠ a → b ∈ delete i l.
Proof.
  revert i. induction l as [|c l IH]; intros [|i] Hi Hb Hne; simplify_eq/=.
  - apply elem_of_cons in Hb as [?|?]; done.
  - apply elem_of_cons in Hb as [->|Hb]; [by left|]. right. by eapply IH.
Qed.

Lemma step_steady (e : Legacy.Input) (s : World) (x : Legacy.Extras) :
  steady s x → steady_after (Legacy.step e x s).
Proof.
  intros Hsx. destruct e as [c|i reply|i]; simpl.
  - by apply run_call_steady.
  - rewrite lift_bind. unfold bind at 1, get.
    destruct (pending s !! i) as [r|] eqn:Hi; [|done].
    rewrite lift_bind. unfold bind at 1, modify. by apply on_reply_steady.
  - rewrite get_extras_bind. destruct (Legacy.timers x !! i) as [w|] eqn:Hi; [|done].
    rewrite modify_extras_bind.
    destruct Hsx as [(Hs & Hty & Hq & (R1 & R2 & R3)) Ht].
    assert (w ∈ Legacy.timers x) as Hw by (by eapply list_elem_of_lookup_2).
    apply schedule_steady; [split_and!; [done..|] | by apply R3 |].
    + split_and!; [done | done |]. simpl. intros j Hj%list_elem_of_delete_inv. by apply R3.
    + intros j k Hk. destruct (Ht j k Hk) as [H1 H2]. split; [done|].
      intros Hc Ho. destruct (H2 Hc Ho) as [?|Hj]; [done|].
      destruct (decide (j = w)) as [->|Hne]; [by left|]. right. simpl.
      by apply (elem_of_delete_other _ i w).
Qed.

Lemma run_steady (es : list Legacy.Input) (s : World) (x : Legacy.Extras) :
  steady s x → steady_after (Legacy.run es x s).
Proof. apply for_each_steady. intros. by apply step_steady. Qed.

Lemma steady_new (cfg : Config) (s0 : World) (x0 : Legacy.Extras) :
  Legacy.new_RandomAccessFilesystem cfg = inr (s0, x0) → steady s0 x0.
Proof.
  unfold Legacy.new_RandomAccessFilesystem. intros H.
  destruct (new_RandomAccessFilesystem cfg) as [e|s] eqn:Hnew; [done|].
  injection H as -> <-.
  destruct (Sound_new cfg s0 Hnew) as [Hs _]. pose proof (tidy_new cfg s0 Hnew) as Hty.
  unfold new_RandomAccessFilesystem in Hnew.
  destruct (negb _); [done|]. destruct (negb _); [done|]. injection Hnew as <-.
  split; [split_and!; [done | done | done |]|].
  - split_and!; simpl.
    + done.
    + intros h p Hh. by rewrite lookup_nil in Hh.
    + by intros w Hw%elem_of_nil.
  - intros j k Hk. simpl in Hk. by rewrite lookup_nil in Hk.
Qed.



(** In the version with timers no op is left behind.  When a run ends
    normally, every worker whose queue is not empty is either under [start]
    and opening, with exactly one [mkdirp] or [FS.open] request in flight
    (the queue is executed when the file is open), or under [stop] with a
    timer pending that will call [schedule] for it again. *)
Theorem timers_leave_no_op_behind (cfg : Config) (s0 : World) (x0 : Legacy.Extras)
    (es : list Legacy.Input) :
  Legacy.new_RandomAccessFilesystem cfg = inr (s0, x0) →
  match Legacy.run es x0 s0 with
  | Done (_, x) s =>
      ∀ j k, workers s !! j = Some k → ops k ≠ [] →
        (control k = Start ∧ state k = Opening ∧ outstanding j ROpen s = 1) ∨
        (control k = Stop ∧ j ∈ Legacy.timers x)
  | _ => True
  end.
Proof.
  intros Hnew. pose proof (run_steady es s0 x0 (steady_new cfg s0 x0 Hnew)) as H.
  destruct (Legacy.run es x0 s0) as [[[] x] s|e s|s]; [|done..].
  destruct H as [(_ & [_ Hty] & _) Ht]. intros j k Hk Ho.
  destruct (Ht j k Hk) as [H1 H2]. destruct (control k) eqn:Hc.
  - left. destruct (H1 eq_refl) as [Hst|[_ ?]]; [|done].
    destruct (Hty j k Hk) as (T1 & _). rewrite Hst in T1. done.
  - right. by destruct (H2 eq_refl Ho).
Qed.

Lemma timers_leave_no_op_behind_witness :
  match Legacy.run b_has_a_timer no_extras (fresh_store "dir" 1) with
  | Done (_, x) s =>
      ∀ j k, workers s !! j = Some k → ops k ≠ [] →
        (control k = Start ∧ state k = Opening ∧ outstanding j ROpen s = 1) ∨
        (control k = Stop ∧ j ∈ Legacy.timers x)
  | _ => True
  end.
Proof.
  apply (timers_leave_no_op_behind (mkConfig (Some "dir"%string) (Some 1%Z))
           (fresh_store "dir" 1) no_extras b_has_a_timer).
  reflexivity.
Defined.

(** ** No op is left behind *)

Lemma bind_same {A B} (m : M A) (f g : A → M B) (s : World) :
  (∀ a s', m s = Done a s' → f a s' = g a s') → bind m f s = bind m g s.
Proof. intros H. unfold bind. destruct (m s); auto. Qed.

(** When no callback is due, [tick] does not depend on [pull]. *)
Lemma notify_started_same (pull0 : M unit) (w : wid) (s : World) (k : PathWorker) :
  workers s !! w = Some k → is_open k = true → startCb k = None →
  notify_started pull0 w s = notify_started (ret tt) w s.
Proof.
  intros Hk Hopen Hcb. unfold notify_started.
  pose proof (execIfOps_open w s k Hk Hopen) as H.
  apply bind_same. intros [] s1 Hrun. rewrite Hrun in H. subst s1.
  erewrite !bind_Done by (apply get_worker_run; unfold executed; lookup_same).
  rewrite in_flight_after_startCb. simpl. by rewrite Hcb.
Qed.

Lemma tick_same (pull0 : M unit) (w : wid) (s : World) (k : PathWorker) :
  workers s !! w = Some k →
  (control k = Start → is_open k = true → startCb k = None) →
  (control k = Stop → state k = Closed → stopCb k = None) →
  tick pull0 w s = tick (ret tt) w s.
Proof.
  intros Hk Hstart Hstop. unfold tick. erewrite !tick_at_run by done. cbv zeta.
  destruct (control k) eqn:Hc, (state k) eqn:Hst; try reflexivity.
  - (* start, opened *)
    apply (notify_started_same pull0 w s k); [done | |].
    + unfold is_open. by rewrite Hst.
    + apply Hstart; [done|]. unfold is_open. by rewrite Hst.
  - (* start, draining *)
    erewrite !bind_Done by (by apply upd_worker_run).
    erewrite !tick_at_run by lookup_same. simpl. rewrite Hc.
    eapply notify_started_same; [lookup_same | done |]. simpl.
    apply Hstart; [done|]. unfold is_open. by rewrite Hst.
  - (* stop, closed *)
    unfold notify_stopped. by rewrite (Hstop eq_refl eq_refl).
  - (* stop, opened *)
    assert (is_open k = true) as Hopen by (unfold is_open; by rewrite Hst).
    pose proof (execIfOps_open w s k Hk Hopen) as H.
    apply bind_same. intros [] s1 Hrun. rewrite Hrun in H. subst s1.
    erewrite !bind_Done by (apply upd_worker_run; unfold executed; lookup_same).
    erewrite !tick_at_run by lookup_same. simpl.
    by rewrite in_flight_after_control.
Qed.

(** A [tick] when no callback is due, whatever [pull] is. *)
Lemma tick_apart (pull0 : M unit) (w : wid) (s : World) (k : PathWorker) :
  workers s !! w = Some k →
  (control k = Start → is_open k = true → startCb k = None) →
  (control k = Stop → state k = Closed → stopCb k = None) →
  match tick pull0 w s with
  | Done _ s' =>
      ∃ k', workers s' = <[w := k']> (workers s) ∧ same_scheduler s s' ∧
            ticked k k' ∧ ticked_alone k k'
  | Thrown e _ => e = AssertionError "readSize > 0"
  | Starved _ => False
  end.
Proof.
  intros Hk Hstart Hstop. rewrite (tick_same pull0 w s k Hk Hstart Hstop).
  pose proof (tick_both w s k Hk Hstart Hstop) as H.
  destruct (tick (ret tt) w s) as [[] s'|e s'|s']; [|done..].
  destruct H as (k' & Hw & Hq & _ & Ht & Ht'). by exists k'.
Qed.

Lemma start_apart (pull0 : M unit) (p : wid) (cb : option Callback) (s : World)
    (k : PathWorker) :
  workers s !! p = Some k → startCb k = None →
  (is_Some cb → state k = Closed) →
  match start pull0 p cb s with
  | Done _ s' =>
      ∃ k', workers s' = <[p := k']> (workers s) ∧ same_scheduler s s' ∧
            ticked (set_startCb cb (set_control Start k)) k' ∧
            ticked_alone (set_control Start k) k'
  | Thrown e _ => e = AssertionError "readSize > 0"
  | Starved _ => False
  end.
Proof.
  intros Hk Hcb Hclosed. unfold start. munfold.
  erewrite bind_Done by (by apply upd_worker_run).
  set (s1 := set_workers (<[p := set_control Start k]> (workers s)) s).
  assert (workers s1 !! p = Some (set_control Start k)) as Hk1 by (unfold s1; lookup_same).
  assert (∃ s2, (match cb with
                 | Some _ =>
                     bind (get_worker p) (λ k0,
                       bind (assert (is_null (startCb k0)) "!this.startCb")
                         (λ _, upd_worker p (set_startCb cb)))
                 | None => ret tt
                 end) s1 = Done tt s2 ∧
                workers s2 = <[p := set_startCb cb (set_control Start k)]> (workers s) ∧
                same_scheduler s s2) as (s2 & Hrun & Hw2 & Hq2).
  { destruct cb as [cb|].
    - erewrite bind_Done by (by apply get_worker_run). simpl. rewrite Hcb. simpl.
      unfold bind at 1. simpl. rewrite (upd_worker_run p _ s1 _ Hk1).
      eexists. split; [reflexivity|]. simpl. by rewrite list_insert_insert_eq.
    - exists s1. split; [reflexivity|]. simpl. split; [|done].
      f_equal. destruct k; simpl in *. by subst. }
  rewrite (bind_Done _ _ _ _ _ Hrun).
  assert (workers s2 !! p = Some (set_startCb cb (set_control Start k))) as Hk2.
  { rewrite Hw2. apply list_lookup_insert_eq. by eapply lookup_lt_Some. }
  pose proof (tick_apart pull0 p s2 _ Hk2) as H.
  destruct (tick pull0 p s2) as [[] s'|e s'|s']; [|apply H; simpl..].
  - destruct H as (k' & Hw & Hq & Ht & Ht'); simpl.
    + intros _ Hopen. destruct cb as [cb|]; [|done].
      unfold is_open in Hopen. simpl in Hopen. by rewrite Hclosed in Hopen.
    + done.
    + exists k'. rewrite Hw2, list_insert_insert_eq in Hw. split; [done|].
      split; [by eapply same_scheduler_trans|]. split; [done|]. exact Ht'.
  - intros _ Hopen. destruct cb as [cb|]; [|done].
    unfold is_open in Hopen. simpl in Hopen. by rewrite Hclosed in Hopen.
  - done.
  - intros _ Hopen. destruct cb as [cb|]; [|done].
    unfold is_open in Hopen. simpl in Hopen. by rewrite Hclosed in Hopen.
  - done.
Qed.

Lemma stop_apart (pull0 : M unit) (v : wid) (cb : Callback) (s : World) (k : PathWorker) :
  workers s !! v = Some k → stopCb k = None → state k = Opened →
  match stop pull0 v (Some cb) s with
  | Done _ s' =>
      ∃ k', workers s' = <[v := k']> (workers s) ∧ same_scheduler s s' ∧
            ticked (set_stopCb (Some cb) (set_control Stop k)) k' ∧ ops k' = []
  | Thrown e _ => e = AssertionError "readSize > 0"
  | Starved _ => False
  end.
Proof.
  intros Hk Hcb Hst. unfold stop. munfold.
  erewrite bind_Done by (by apply upd_worker_run).
  erewrite bind_Done by (apply get_worker_run; lookup_same).
  simpl. rewrite Hcb. simpl. unfold bind at 1. simpl.
  erewrite bind_Done by (apply upd_worker_run; lookup_same).
  simpl. rewrite list_insert_insert_eq.
  match goal with |- match tick _ _ ?s2 with _ => _ end =>
    pose proof (tick_apart pull0 v s2 (set_stopCb (Some cb) (set_control Stop k))) as H end.
  destruct (tick pull0 v _) as [[] s'|e s'|s'];
    [|apply H; simpl; [lookup_same | done | congruence]..].
  destruct H as (k' & Hw & Hq & Ht & (_ & Ht')); simpl; [lookup_same | done | congruence |].
  exists k'. simpl in Hw. rewrite list_insert_insert_eq in Hw.
  simpl in Ht'. rewrite Hst in Ht'. by destruct Ht'.
Qed.

(** The worker at [w] becomes [k'] and the other workers that wait stay on
    the schedule queue. *)
Lemma served_step (s s' : World) (w : wid) (k k' : PathWorker) :
  served s → workers s !! w = Some k → workers s' = <[w := k']> (workers s) →
  (control k' = Start →
     state k' = Opening ∨ state k' = Closing ∨ (state k' = Opened ∧ ops k' = [])) →
  (control k' = Stop → ops k' ≠ [] → w ∈ scheduleQueue s') →
  (∀ j, j ≠ w → j ∈ scheduleQueue s → j ∈ scheduleQueue s') →
  served s'.
Proof.
  intros Hs Hk Hw H1 H2 Hq j kj Hj. rewrite Hw in Hj.
  destruct (decide (j = w)) as [->|Hne].
  - rewrite list_lookup_insert_eq in Hj by (by eapply lookup_lt_Some). by simplify_eq.
  - rewrite list_lookup_insert_ne in Hj by done.
    destruct (Hs j kj Hj) as [H3 H4]. split; [done|]. intros Hc Ho. by apply Hq, H4.
Qed.

Lemma served_ticked (s s' : World) (w : wid) (k k' : PathWorker) :
  served s → workers s !! w = Some k → workers s' = <[w := k']> (workers s) →
  scheduleQueue s' = scheduleQueue s → ticked_alone k k' → served s'.
Proof.
  intros Hs Hk Hw Hq [E1 E2]. destruct (Hs w k Hk) as [H1 H2].
  apply (served_step s s' w k k'); [done | done | done | | | by rewrite Hq].
  - rewrite E1. intros Hc. rewrite Hc in E2.
    destruct (H1 Hc) as [Hst|[Hst|[Hst Ho]]]; rewrite Hst in E2; destruct E2 as [E2 E3].
    + left. congruence.
    + right. left. congruence.
    + right. right. split; congruence.
  - rewrite E1, Hq. intros Hc Ho. apply H2; [done|]. rewrite Hc in E2.
    destruct (state k); destruct E2 as [_ E3]; congruence.
Qed.

Lemma pull_iter_served (pull0 : M unit) (m : Mode) (s : World) :
  Sound m s → served s → fine served (pull_iter pull0 s).
Proof.
  intros Hs Hv. pose proof Hs as (S1 & S2 & S3 & S4 & S5 & S6).
  unfold pull_iter. munfold. unfold bind at 1, get.
  destruct (scheduleQueue s) as [|p rest] eqn:Hq; simpl; [done|].
  destruct (negb (numActivePathWorkers s <? maxOpenFiles s)%Z
            && deque_isEmpty (stoppableQueue s)) eqn:Hgo; [done|].
  unfold bind at 1, modify.
  set (s1 := set_scheduleQueue rest s).
  assert (is_Some (workers s !! p)) as [k Hk].
  { apply lookup_lt_is_Some, S3. by left. }
  rewrite (bind_Done _ _ _ _ _ (get_worker_run p s1 k Hk)).
  destruct (Hv p k Hk) as [V1 V2].
  assert (∀ j, j ≠ p → j ∈ scheduleQueue s → j ∈ rest) as Hrest.
  { rewrite Hq. intros j Hne [?|?]%elem_of_cons; done. }
  destruct (control k) eqn:Hc.
  - (* the worker is started already *)
    simpl. apply (served_step s s1 p k k);
      [done | done | by rewrite list_insert_id | by intros; apply V1 | | done].
    intros Hc'. congruence.
  - destruct (State_eqb (state k) Closed) eqn:Hst; simpl.
    + assert (state k = Closed) as Hclosed by (by destruct (state k)).
      destruct (shape_closed m s p k (S6 p k Hk) Hc Hclosed) as [Hcb Hout].
      destruct (numActivePathWorkers s <? maxOpenFiles s)%Z eqn:Hroom.
      * (* a free slot *)
        unfold bind at 1, get. unfold bind at 1, set_active, modify.
        match goal with |- fine _ (bind (start _ _ _) _ ?s2) =>
          pose proof (start_apart pull0 p (Some (OnStarted p)) s2 k Hk Hcb (λ _, Hclosed)) as H;
          unfold bind at 1; destruct (start pull0 p (Some (OnStarted p)) s2) as [[] s3|e s3|s3]
        end; [|done..].
        destruct H as (k' & Hw & (Q1 & Q2 & Q3 & Q4 & Q5) & Ht & [E1 E2]). simpl in *.
        rewrite Hclosed in E2. destruct E2 as [E2 E3].
        apply (served_step s s3 p k k'); [done | done | done | by left | | by rewrite Q1].
        intros Hc'. congruence.
      * (* a worker is stopped for this one *)
        simpl in Hgo. destruct (stoppableQueue s) as [|v rest'] eqn:Hstop; [done|]. simpl.
        unfold bind at 1, get. simpl. rewrite Hstop. simpl.
        unfold bind at 1, modify.
        assert (is_Some (workers s !! v)) as [kv Hkv].
        { apply lookup_lt_is_Some, S2. by left. }
        assert (v ∈ stoppableQueue s) as Hin by (rewrite Hstop; by left).
        destruct (shape_stoppable m s v kv (S6 v kv Hkv) Hin) as (Hcv & Hsv & Hcbv).
        match goal with |- fine _ (bind (stop _ _ _) _ ?s2) =>
          pose proof (stop_apart pull0 v OnStopped s2 kv Hkv Hcbv Hsv) as H;
          unfold bind at 1; destruct (stop pull0 v (Some OnStopped) s2) as [[] s3|e s3|s3]
        end; [|done..].
        destruct H as (k' & Hw & (Q1 & Q2 & Q3 & Q4 & Q5) & Ht & Ho). simpl in *.
        unfold bind, modify. simpl.
        eapply (served_step s _ v kv k'); [done | done | done | | | ]; simpl.
        -- pose proof (ticked_stop _ _ _ Hsv Ht) as (E1 & _). congruence.
        -- done.
        -- rewrite Q1, Hq. intros j _ Hj. done.
    + (* the worker is stopping: it is started again *)
      assert (state k ≠ Closed) as Hopen by (by destruct (state k)).
      assert (¬ blocked s) as Hnb.
      { intros Hb. destruct (blocked_head s p rest k Hb Hq Hk) as (_ & ? & _). done. }
      pose proof (shape_stopped m s p k (S6 p k Hk) Hc Hopen Hnb) as Hcb.
      assert (is_Some (@None Callback) → state k = Closed) as Hno by (by intros [? ?]).
      pose proof (start_apart pull0 p None s1 k Hk Hcb Hno) as H.
      unfold bind at 1. destruct (start pull0 p None s1) as [[] s3|e s3|s3]; [|done..].
      destruct H as (k' & Hw & (Q1 & Q2 & Q3 & Q4 & Q5) & Ht & [E1 E2]). simpl in *.
      apply (served_step s s3 p k k'); [done | done | done | | | by rewrite Q1].
      * intros _. destruct (state k); destruct E2 as [E2 E3]; auto.
      * intros Hc'. congruence.
Qed.

Lemma pull_served (fuel : nat) (m : Mode) (s : World) :
  Sound m s → served s → fine served (pull fuel s).
Proof.
  revert s. induction fuel as [|fuel IH]; intros s Hs Hv; [done|].
  change (pull (S fuel)) with
    (bind (pull_iter (pull fuel))
       (λ c, match c with Return => ret tt | Continue => pull fuel end)).
  pose proof (pull_iter_sound (pull fuel) m s Hs) as H1.
  pose proof (pull_iter_served (pull fuel) m s Hs Hv) as H2.
  unfold bind. destruct (pull_iter (pull fuel) s) as [[] s1|e s1|s1]; [done | | done..].
  by apply IH.
Qed.

Lemma at_rest_quiet (s : World) (w : wid) (k : PathWorker) :
  at_rest s w k →
  (control k = Start → is_open k = true → startCb k = None) ∧
  (control k = Stop → state k = Closed → stopCb k = None).
Proof.
  intros (H1 & H2 & H3 & H4). split.
  - intros Hc Hopen. destruct (startCb k) as [cb|] eqn:Hcb; [|done].
    destruct (H1 cb eq_refl) as (_ & _ & Hst & _). unfold is_open in Hopen.
    by rewrite Hst in Hopen.
  - intros Hc Hst. destruct (H3 Hc) as [[_ ?]|[[?|?] _]]; [done | congruence..].
Qed.

Lemma tick_served (pull0 : M unit) (w : wid) (s : World) :
  Sound Idle s → served s → w < length (workers s) → fine served (tick pull0 w s).
Proof.
  intros Hs Hv Hw. destruct (lookup_lt_is_Some_2 _ _ Hw) as [k Hk].
  destruct Hs as (_ & _ & _ & _ & _ & S6).
  destruct (at_rest_quiet s w k (S6 w k Hk)) as [Hstart Hstop].
  pose proof (tick_apart pull0 w s k Hk Hstart Hstop) as H.
  destruct (tick pull0 w s) as [[] s'|e s'|s']; [|done..].
  destruct H as (k' & Hw' & (Q1 & _) & _ & Ht). by apply (served_ticked s s' w k k').
Qed.

(** *** The calls of the clients *)

Lemma op_served (fuel : nat) (w : wid) (o : Op) (s : World) :
  Sound Idle s → saturated s → served s → w < length (workers s) →
  fine served (op fuel w o s).
Proof.
  intros Hs Hsat Hv Hw. destruct (lookup_lt_is_Some_2 _ _ Hw) as [k Hk].
  unfold op. munfold. unfold bind at 1. rewrite (add_run (pull fuel) w o s k Hk).
  set (k1 := set_ops (deque_push o (ops k)) k).
  assert (Sound Idle (pushed w o k s)) as Hs1.
  { by apply (Sound_field s _ w k k1). }
  assert (workers (pushed w o k s) !! w = Some k1) as Hk1 by (unfold pushed; lookup_same).
  pose proof (tick_rest (pull fuel) w (pushed w o k s) Hs1) as H.
  pose proof Hs1 as (_ & _ & _ & _ & _ & S6).
  destruct (at_rest_quiet _ w k1 (S6 w k1 Hk1)) as [Hstart Hstop].
  pose proof (tick_apart (pull fuel) w (pushed w o k s) k1 Hk1 Hstart Hstop) as H'.
  destruct (tick (pull fuel) w _) as [[] s2|e s2|s2]; [|done..].
  destruct H as (Hs2 & Hsat2 & Hlen); [done | simpl; by rewrite length_insert|].
  destruct H' as (k' & Hw2 & (Q1 & _) & _ & [E1 E2]).
  unfold k1 in E1, E2. simpl in E1, E2.
  simpl in Hlen, Hw2, Q1. rewrite length_insert in Hlen.
  rewrite list_insert_insert_eq in Hw2.
  unfold bind, modify. apply (pull_served fuel Idle).
  - apply Sound_scheduleQueue; [done|].
    intros j [Hj| ->%list_elem_of_singleton]%elem_of_app; [|lia].
    destruct Hs2 as (_ & _ & S3 & _). by apply S3.
  - destruct (Hv w k Hk) as [V1 V2].
    apply (served_step s _ w k k'); [done | done | done | | |]; simpl.
    + rewrite E1. intros Hc. rewrite Hc in E2.
      destruct (V1 Hc) as [Hst|[Hst|[Hst Ho]]]; rewrite Hst in E2; destruct E2 as [E2 E3].
      * by left.
      * right. by left.
      * right. right. done.
    + intros _ _. apply elem_of_app. right. by left.
    + intros j _ Hj. rewrite Q1. apply elem_of_app. by left.
Qed.

Lemma storageFor_served (p : string) (s : World) :
  served s → fine served (storageFor p s).
Proof.
  intros Hv. destruct (pathInterfaces s !! p) as [h|] eqn:Hp.
  - by rewrite (storageFor_known p s h).
  - rewrite storageFor_new by done. simpl.
    intros j k [Hk|[_ Hk]]%lookup_app_Some; [by apply Hv|].
    apply list_lookup_singleton_Some in Hk as [_ <-]. simpl. split; [done|].
    intros _ Ho. done.
Qed.

Lemma run_call_served (fuel : nat) (c : Call) (s : World) :
  Sound Idle s → saturated s → served s → fine served (run_call fuel c s).
Proof.
  intros Hs Hsat Hv. destruct c as [p|h offset size cb|h offset data cb]; simpl; munfold.
  - pose proof (storageFor_served p s Hv) as H.
    unfold bind. by destruct (storageFor p s).
  - unfold read. munfold. unfold bind at 1, get_handle.
    destruct (handles s !! h) as [i|] eqn:Hi; [|done].
    apply op_served; [done | done | done |].
    destruct Hs as (_ & _ & _ & S4 & _). by eapply S4.
  - unfold write. munfold. unfold bind at 1, get_handle.
    destruct (handles s !! h) as [i|] eqn:Hi; [|done].
    apply op_served; [done | done | done |].
    destruct Hs as (_ & _ & _ & S4 & _). by eapply S4.
Qed.

Lemma for_each_served {A} (f : A → M unit) (l : list A) (s : World) :
  (∀ a s1, Sound Idle s1 → saturated s1 → settled Idle (f a s1)) →
  (∀ a s1, Sound Idle s1 → saturated s1 → served s1 → fine served (f a s1)) →
  Sound Idle s → saturated s → served s → fine served (for_each f l s).
Proof.
  intros Hf Hg. revert s. induction l as [|a l IH]; intros s Hs Hsat Hv; simpl; [done|].
  munfold. specialize (Hf a s Hs Hsat). specialize (Hg a s Hs Hsat Hv). unfold bind.
  destruct (f a s) as [[] s1|e s1|s1]; [|done..]. destruct Hf. by apply IH.
Qed.

Lemma invoke_served (fuel : nat) (cb : ClientCb) (args : list Arg) (s : World) :
  Sound Idle s → saturated s → served s → fine served (invoke fuel cb args s).
Proof.
  intros Hs Hsat Hv. unfold invoke, emit. munfold. unfold bind at 1, modify.
  apply for_each_served;
    [by intros; apply run_call_settled | by intros; apply run_call_served | | done | done].
  destruct Hs as (S1 & S2 & S3 & S4 & S5 & S6). by split_and!.
Qed.

(** *** The replies of the operating system *)

Lemma served_upd_worker (w : wid) (f : PathWorker → PathWorker) (s : World) :
  (∀ k, control (f k) = control k ∧ state (f k) = state k ∧ ops (f k) = ops k) →
  served s → fine served (upd_worker w f s).
Proof.
  intros Hf Hv. destruct (workers s !! w) as [k|] eqn:Hk.
  - rewrite (upd_worker_run w f s k Hk). simpl.
    destruct (Hf k) as (E1 & E2 & E3). destruct (Hv w k Hk) as [V1 V2].
    apply (served_step s _ w k (f k)); [done | done | done | | | done].
    + by rewrite E1, E2, E3.
    + by rewrite E1, E3.
  - unfold upd_worker, get_worker. munfold. unfold bind. by rewrite Hk.
Qed.

Lemma then_tick_served (fuel : nat) (m : M unit) (w : wid) (s : World) :
  settled Idle (m s) → fine served (m s) →
  ok (λ s, S w ≤ length (workers s)) (λ s, S w ≤ length (workers s)) (m s) →
  fine served (bind m (λ _, tick (pull fuel) w) s).
Proof.
  intros H Hv Hlen. unfold bind. destruct (m s) as [[] s1|e s1|s1]; [|done..].
  destruct H as [Hs1 Hsat1]. by apply tick_served.
Qed.

Lemma on_reply_served (fuel : nat) (i : nat) (r : IoReq) (reply : OsReply) (s : World) :
  Sound Idle s → saturated s → tidy s → served s → pending s !! i = Some r →
  fine served (on_reply fuel r reply (set_pending (delete i (pending s)) s)).
Proof.
  intros Hs Hsat Ht Hv Hi.
  assert (req_worker r < length (workers s)) as Hlen.
  { destruct Ht as [Hval _]. apply Hval. by eapply list_elem_of_lookup_2. }
  destruct (lookup_lt_is_Some_2 _ _ Hlen) as [k Hk].
  pose proof (proj2 Ht _ _ Hk) as (T1 & T2 & _).
  pose proof (count_if_delete (asks (req_worker r) ROpen) _ _ _ Hi) as D1.
  pose proof (count_if_delete (asks (req_worker r) RClose) _ _ _ Hi) as D2.
  rewrite asks_own in D1, D2. unfold outstanding in *.
  pose proof Hs as (S1 & S2 & S3 & S4 & S5 & S6).
  pose proof (S6 _ _ Hk) as (R1 & R2 & R3 & R4).
  pose proof (Hv _ _ Hk) as [V1 V2].
  set (s1 := set_pending (delete i (pending s)) s).
  assert (workers s1 !! req_worker r = Some k) as Hk1 by done.
  assert (Sound Idle s1) as Hs1 by exact Hs.
  assert (saturated s1) as Hsat1 by exact Hsat.
  destruct r as [w dir|w path|w d|w d size offset cb|w d data offset cb]; simpl in *.
  - (* mkdirp *)
    destruct (os_err reply); [done|]. munfold.
    erewrite bind_Done by (by apply upd_worker_run).
    erewrite bind_Done by (apply get_worker_run; lookup_same).
    unfold issue, modify. simpl.
    by apply (served_step s _ w k (set_fullDirMade true k)).
  - (* open *)
    destruct (os_err reply); [done|]. munfold.
    erewrite bind_Done by (by apply get_worker_run).
    destruct (state k) eqn:Hst; simpl in *; try lia.
    assert (control k = Start) as Hc.
    { destruct (control k) eqn:Hc; [done|].
      destruct (R3 eq_refl) as [[? _]|[[?|?] _]]; congruence. }
    assert (w ∉ stoppableQueue s) as Hout.
    { intros Hin. destruct (R4 Hin) as (_ & ? & _). congruence. }
    unfold bind at 1. simpl.
    erewrite bind_Done by (by apply upd_worker_run).
    erewrite bind_Done by (apply upd_worker_run; lookup_same).
    unfold tick. erewrite tick_at_run by lookup_same. simpl. rewrite Hc.
    rewrite list_insert_insert_eq.
    set (k2 := set_fd (os_num reply) (set_state Opened k)).
    set (s2 := set_workers (<[w := k2]> (workers s)) s1).
    assert (workers s2 !! w = Some k2) as Hk2 by (unfold s2; lookup_same).
    unfold notify_started.
    match goal with |- context [bind (execIfOps w) _ ?x] => change x with s2 end.
    pose proof (execIfOps_open w s2 k2 Hk2 eq_refl) as H.
    unfold bind at 1. destruct (execIfOps w s2) as [[] s3|e s3|s3]; [|done..].
    subst s3. set (k3 := in_flight_after (ops k2) (set_ops [] k2)).
    assert (workers (executed w k2 s2) !! w = Some k3) as Hk3
      by (unfold executed; lookup_same).
    assert (control k3 = Start ∧ state k3 = Opened ∧ startCb k3 = startCb k ∧
            stopCb k3 = stopCb k ∧ ops k3 = []) as (E1 & E2 & E3 & E4 & E5).
    { unfold k3. by rewrite in_flight_after_control, in_flight_after_state,
        in_flight_after_startCb, in_flight_after_stopCb, in_flight_after_ops. }
    assert (workers (executed w k2 s2) = <[w := k3]> (workers s)) as Hw3.
    { unfold executed. simpl. by rewrite list_insert_insert_eq. }
    rewrite (bind_Done _ _ _ _ _ (get_worker_run w _ k3 Hk3)). rewrite E3.
    assert (served (executed w k2 s2)) as Hv3.
    { apply (served_step s _ w k k3); [done | done | done | | | done].
      - intros _. right. by right.
      - rewrite E1. done. }
    destruct (startCb k) as [c|] eqn:Hcb; [|exact Hv3].
    destruct (R1 c eq_refl) as (-> & _ & _ & Hno).
    simpl. munfold. unfold bind at 2, modify. unfold bind at 1. cbv beta.
    set (s4 := set_stoppableQueue _ _).
    assert (Sound (Starting w) s4) as Hs4.
    { apply (Sound_step Idle (Starting w) s _ w k k3);
        [done | done | done | done | | | | | |]; simpl.
      * apply NoDup_app. split_and!; [done | | apply NoDup_singleton].
        intros j Hj ->%list_elem_of_singleton. done.
      * intros j [Hj| ->%list_elem_of_singleton]%elem_of_app; [by apply S2 | done].
      * done.
      * by rewrite (holds_slot_start k), (holds_slot_start k3).
      * rewrite decide_True by done. split; [congruence|]. left.
        split_and!; [done | done | congruence |]. apply elem_of_app. right. by left.
      * intros j kj Hne _ Hj. rewrite decide_False by done.
        apply (at_rest_same s _ j kj); [done.. | | done].
        simpl. intros [?| ->%list_elem_of_singleton]%elem_of_app; done. }
    pose proof (pull_served fuel (Starting w) s4 Hs4 Hv3) as H.
    destruct (pull fuel s4) as [[] s5|e s5|s5]; [|done..].
    by apply served_upd_worker.
  - (* close *)
    destruct (os_err reply); [done|]. munfold.
    erewrite bind_Done by (by apply get_worker_run).
    destruct (state k) eqn:Hst; simpl in *; try lia.
    assert (w ∉ stoppableQueue s) as Hout.
    { intros Hin. destruct (R4 Hin) as (_ & ? & _). congruence. }
    assert (startCb k = None) as Hcb.
    { destruct (startCb k) as [c|] eqn:Hcb; [|done].
      destruct (R1 c eq_refl) as (_ & _ & ? & _). congruence. }
    unfold bind at 1. simpl.
    erewrite bind_Done by (by apply upd_worker_run).
    erewrite bind_Done by (apply upd_worker_run; lookup_same).
    unfold tick. erewrite tick_at_run by lookup_same. simpl.
    rewrite list_insert_insert_eq.
    set (k2 := set_fd 0 (set_state Closed k)).
    set (s2 := set_workers (<[w := k2]> (workers s)) s1).
    assert (workers s2 !! w = Some k2) as Hk2 by (unfold s2; lookup_same).
    match goal with |- context [open w ?x] => change x with s2 end.
    destruct (control k) eqn:Hc.
    + (* started again while it was closing: the file is opened again *)
      rewrite (open_run w s2 k2 Hk2 eq_refl). cbv zeta. simpl.
      apply (served_step s _ w k (set_state Opening k2));
        [done | done | | by left | | done]; simpl.
      * by rewrite list_insert_insert_eq.
      * rewrite Hc. done.
    + destruct (R3 eq_refl) as [[? _]|[_ Hstop]]; [congruence|].
      unfold notify_stopped. simpl. rewrite Hstop.
      simpl. munfold. unfold bind at 2, get. unfold bind at 2, set_active, modify.
      unfold bind at 1. cbv beta.
      match goal with |- fine _ (match pull fuel ?s0 with _ => _ end) => set (s4 := s0) end.
      assert (Sound (Stopping w) s4) as Hs4.
      { apply (Sound_step Idle (Stopping w) s _ w k k2);
          [done | done | done | done | done | done | done | | |]; simpl.
        * rewrite (holds_slot_open k) by congruence.
          rewrite (holds_slot_closed k2) by done. lia.
        * rewrite decide_True by done. split_and!; [done | done |]. left. by split_and!.
        * intros j kj Hne _ Hj. rewrite decide_False by done.
          by apply (at_rest_same s _ j kj). }
      assert (served s4) as Hv4.
      { apply (served_step s _ w k k2); [done | done | done | | | done]; simpl.
        - rewrite Hc. done.
        - intros _. by apply V2. }
      pose proof (pull_served fuel (Stopping w) s4 Hs4 Hv4) as H.
      destruct (pull fuel s4) as [[] s5|e s5|s5]; [|done..].
      by apply served_upd_worker.
  - (* read *)
    munfold. erewrite bind_Done by (by apply upd_worker_run).
    set (k2 := set_inFlightReads (inFlightReads k - 1) k).
    set (s2 := set_workers _ s1).
    assert (Sound Idle s2) as Hs2 by (by apply (Sound_field s _ w k k2)).
    assert (served s2) as Hv2 by (by apply (served_step s _ w k k2)).
    assert (S w ≤ length (workers s2)) as Hlen2 by (simpl; by rewrite length_insert).
    apply then_tick_served.
    + destruct (os_err reply); [by apply invoke_settled|].
      destruct (os_num reply =? 0)%Z; [by apply invoke_settled|].
      unfold assert. destruct (os_num reply =? size)%Z; [|by right; left].
      unfold bind at 1. simpl. by apply invoke_settled.
    + destruct (os_err reply); [by apply invoke_served|].
      destruct (os_num reply =? 0)%Z; [by apply invoke_served|].
      unfold assert. destruct (os_num reply =? size)%Z; [|done].
      unfold bind at 1. simpl. by apply invoke_served.
    + destruct (os_err reply); [by apply workers_stay_invoke|].
      destruct (os_num reply =? 0)%Z; [by apply workers_stay_invoke|].
      unfold assert. destruct (os_num reply =? size)%Z; [|done].
      unfold bind at 1. simpl. by apply workers_stay_invoke.
  - (* write *)
    munfold. erewrite bind_Done by (by apply upd_worker_run).
    set (k2 := set_inFlightWrites (inFlightWrites k - 1) k).
    set (s2 := set_workers _ s1).
    assert (Sound Idle s2) as Hs2 by (by apply (Sound_field s _ w k k2)).
    assert (served s2) as Hv2 by (by apply (served_step s _ w k k2)).
    assert (S w ≤ length (workers s2)) as Hlen2 by (simpl; by rewrite length_insert).
    apply then_tick_served.
    + destruct (os_err reply); [by apply invoke_settled|].
      unfold assert. destruct (os_num reply =? _)%Z; [|by right; right].
      unfold bind at 1. simpl. by apply invoke_settled.
    + destruct (os_err reply); [by apply invoke_served|].
      unfold assert. destruct (os_num reply =? _)%Z; [|done].
      unfold bind at 1. simpl. by apply invoke_served.
    + destruct (os_err reply); [by apply workers_stay_invoke|].
      unfold assert. destruct (os_num reply =? _)%Z; [|done].
      unfold bind at 1. simpl. by apply workers_stay_invoke.
Qed.

(** *** Every run *)

Lemma step_served (fuel : nat) (e : Input) (s : World) :
  Sound Idle s → saturated s → tidy s → served s → fine served (step fuel e s).
Proof.
  intros Hs Hsat Ht Hv. destruct e as [c|i reply]; simpl; [by apply run_call_served|].
  munfold. unfold bind at 1, get. destruct (pending s !! i) as [r|] eqn:Hi; [|done].
  unfold bind at 1, modify. by apply on_reply_served.
Qed.

Lemma run_served (fuel : nat) (es : list Input) (s : World) :
  Sound Idle s → saturated s → tidy s → served s → fine served (run fuel es s).
Proof.
  unfold run. revert s. induction es as [|e es IH]; intros s Hs Hsat Ht Hv; simpl; [done|].
  munfold. pose proof (step_rested fuel e s Hs Hsat Ht) as H.
  pose proof (step_served fuel e s Hs Hsat Ht Hv) as H'. unfold bind.
  destruct (step fuel e s) as [[] s1|e1 s1|s1]; [|done..].
  destruct H as (? & ? & ?). by apply IH.
Qed.

(** No op is left behind.  When a run ends normally, every worker whose
    queue is not empty is in one of three situations: it is under [start]
    and opening, with exactly one [mkdirp] or [FS.open] request in flight
    (the queue is executed when the file is open); it is under [start] and
    closing, with exactly one [FS.close] request in flight (the file is
    opened again when it is closed); or it is under [stop] and on the
    schedule queue, while the budget is used up and no worker can be
    stopped (the next stop callback calls [pull]). *)
Theorem no_op_is_left_behind (cfg : Config) (s0 s : World) (fuel : nat) (es : list Input) :
  new_RandomAccessFilesystem cfg = inr s0 →
  run fuel es s0 = Done tt s →
  ∀ j k, workers s !! j = Some k → ops k ≠ [] →
    (control k = Start ∧ state k = Opening ∧ outstanding j ROpen s = 1) ∨
    (control k = Start ∧ state k = Closing ∧ outstanding j RClose s = 1) ∨
    (control k = Stop ∧ j ∈ scheduleQueue s ∧
     (maxOpenFiles s ≤ numActivePathWorkers s)%Z ∧ stoppableQueue s = []).
Proof.
  intros Hnew Hrun j k Hk Ho.
  destruct (Sound_new cfg s0 Hnew) as [Hs0 Hsat0]. pose proof (tidy_new cfg s0 Hnew) as Ht0.
  assert (served s0) as Hv0.
  { unfold new_RandomAccessFilesystem in Hnew.
    destruct (negb _); [done|]. destruct (negb _); [done|]. injection Hnew as <-.
    intros j' k' Hk'. simpl in Hk'. by rewrite lookup_nil in Hk'. }
  pose proof (run_rested fuel es s0 Hs0 Hsat0 Ht0) as H.
  pose proof (run_served fuel es s0 Hs0 Hsat0 Ht0 Hv0) as H'.
  rewrite Hrun in H, H'. simpl in H, H'. destruct H as (_ & Hsat & [_ Ht]).
  destruct (H' j k Hk) as [V1 V2]. destruct (Ht j k Hk) as (T1 & T2 & _).
  destruct (control k) eqn:Hc.
  - destruct (V1 eq_refl) as [Hst|[Hst|[_ ?]]]; [| |done].
    + left. rewrite Hst in T1. done.
    + right. left. rewrite Hst in T2. done.
  - right. right. specialize (V2 eq_refl Ho).
    destruct Hsat as [Hq|[? ?]]; [|done]. rewrite Hq in V2. by apply elem_of_nil in V2.
Qed.

Lemma no_op_is_left_behind_witness :
  (control closed_b = Start ∧ state closed_b = Opening ∧ outstanding 1 ROpen b_waits = 1) ∨
  (control closed_b = Start ∧ state closed_b = Closing ∧ outstanding 1 RClose b_waits = 1) ∨
  (control closed_b = Stop ∧ 1 ∈ scheduleQueue b_waits ∧
   (maxOpenFiles b_waits ≤ numActivePathWorkers b_waits)%Z ∧ stoppableQueue b_waits = []).
Proof.
  apply (no_op_is_left_behind (mkConfig (Some "dir"%string) (Some 2%Z)) store2 b_waits 20
           (two_files_open ++ [Client (CallWrite 1 0 [x02] (done 3))]) eq_refl).
  - vm_compute. reflexivity.
  - vm_compute. reflexivity.
  - simpl. discriminate.
Defined.

(** ** The version with timers: order of dispatch *)




(** ** The version with timers: completions *)

Lemma L_bind_assoc {A B C} (m : Legacy.L A) (f : A → Legacy.L B) (g : B → Legacy.L C)
    (x : Legacy.Extras) (s : World) :
  ((m ≫= f) ≫= g) x s = (m ≫= λ a, f a ≫= g) x s.
Proof.
  unfold mbind, Legacy.L_bind, bind. by destruct (m x s) as [[a x'] s'| |].
Qed.

Lemma callbacks_quiet_all (c : list (nat * list Arg)) (body : list Call) (w : wid) :
  keeps_all (λ s, callbacks (trace s) = c) (λ s, callbacks (trace s) = c)
    (Legacy.for_each Legacy.run_call body ≫= λ _, Legacy.lift (tick (ret tt) w)).
Proof.
  apply keeps_all_bind;
    [ apply keeps_all_for_each; intros; apply keeps_all_run_call
    | intros; apply keeps_all_lift, keeps_quiet_tick ];
    trace_frame callbacks_app.
Qed.

Lemma invoke_then_tick_all (cb : ClientCb) (args : list Arg) (w : wid)
    (x : Legacy.Extras) (s : World) :
  callbacks (trace (world_of
    ((Legacy.invoke cb args ≫= λ _, Legacy.lift (tick (ret tt) w)) x s))) =
  callbacks (trace s) ++ [(cb_name cb, args)].
Proof.
  unfold Legacy.invoke. rewrite L_bind_assoc, lift_bind.
  unfold emit, modify, bind at 1. simpl.
  apply (ok_world_of (λ s, callbacks (trace s) = _)).
  apply (callbacks_quiet_all _ (cb_body cb) w x). simpl. by rewrite callbacks_app.
Qed.

(** The callback of [FS.read] in the version with timers, for a read of
    [size > 0] bytes.  With an error of the operating system the completion
    of the op is invoked with that error and [null]; with no error and zero
    bytes read it is invoked with the error ["Could not satisfy length"] and
    [null]; with exactly [size] bytes read it is invoked with [null] and the
    buffer, whose length is [size]; with any other count the assertion
    [read === readSize] fails and the completion is not invoked.  In each
    case no other completion is invoked while the reply is handled. *)
Theorem timers_read_completion_policy (s : World) (x : Legacy.Extras) (w : wid)
    (k : PathWorker) (fd size offset : Z) (cb : ClientCb) (reply : OsReply) :
  workers s !! w = Some k →
  (0 < size)%Z →
  let o := Legacy.on_reply (FsRead w fd size offset cb) reply x s in
  let s1 := set_workers (<[w := set_inFlightReads (inFlightReads k - 1) k]> (workers s)) s in
  let readData := Buffer_fill (Buffer_alloc size) (os_bytes reply) in
  let before := callbacks (trace s) in
  let after := callbacks (trace (world_of o)) in
  match os_err reply with
  | Some e => after = before ++ [(cb_name cb, [AErr (OSError e); ANull])]
  | None =>
      if (os_num reply =? 0)%Z then
        after = before ++ [(cb_name cb, [AErr (JsError "Could not satisfy length"); ANull])]
      else if (os_num reply =? size)%Z then
        after = before ++ [(cb_name cb, [ANull; ABuf readData])] ∧
        Z.of_nat (length readData) = size
      else
        o = Thrown (AssertionError "read === readSize") s1 ∧ after = before
  end.
Proof.
  intros Hk Hsize. cbv zeta. unfold Legacy.on_reply.
  rewrite lift_bind. erewrite bind_Done by (by apply upd_worker_run).
  destruct (os_err reply) as [e|].
  { exact (invoke_then_tick_all cb _ w x _). }
  destruct (os_num reply =? 0)%Z.
  { exact (invoke_then_tick_all cb _ w x _). }
  destruct (os_num reply =? size)%Z.
  - split.
    + rewrite L_bind_assoc, lift_bind.
      exact (invoke_then_tick_all cb _ w x _).
    + rewrite Buffer_fill_length, Buffer_alloc_length. lia.
  - split; reflexivity.
Qed.

Lemma timers_read_completion_policy_witness :
  callbacks (trace (world_of
    (Legacy.on_reply (FsRead 0 6 4 0 (done 9)) (mkOsReply None 4 [x01; x02; x03; x04])
       no_extras a_is_read))) =
  callbacks (trace a_is_read) ++ [(9, [ANull; ABuf [x01; x02; x03; x04]])].
Proof.
  assert (workers a_is_read !! 0 = Some reading_a) as Hk by (vm_compute; reflexivity).
  assert (0 < 4)%Z as Hsize by lia.
  exact (proj1 (timers_read_completion_policy a_is_read no_extras 0 reading_a 6 4 0 (done 9)
                  (mkOsReply None 4 [x01; x02; x03; x04]) Hk Hsize)).
Defined.

(** The callback of [FS.write] in the version with timers.  With an error of
    the operating system the completion of the op is invoked with that
    error; with no error the count of bytes written must be the length of
    the caller's buffer, and the completion is then invoked with [null]; a
    partial write with no error fails the assertion
    [written === writeData.length] and the completion is not invoked. *)
Theorem timers_write_completion_policy (s : World) (x : Legacy.Extras) (w : wid)
    (k : PathWorker) (fd offset : Z) (data : list byte) (cb : ClientCb) (reply : OsReply) :
  workers s !! w = Some k →
  let o := Legacy.on_reply (FsWrite w fd data offset cb) reply x s in
  let s1 := set_workers (<[w := set_inFlightWrites (inFlightWrites k - 1) k]> (workers s)) s in
  let before := callbacks (trace s) in
  let after := callbacks (trace (world_of o)) in
  match os_err reply with
  | Some e => after = before ++ [(cb_name cb, [AErr (OSError e)])]
  | None =>
      if (os_num reply =? Z.of_nat (length data))%Z then
        after = before ++ [(cb_name cb, [ANull])]
      else
        o = Thrown (AssertionError "written === writeData.length") s1 ∧ after = before
  end.
Proof.
  intros Hk. cbv zeta. unfold Legacy.on_reply.
  rewrite lift_bind. erewrite bind_Done by (by apply upd_worker_run).
  destruct (os_err reply) as [e|].
  { exact (invoke_then_tick_all cb _ w x _). }
  destruct (os_num reply =? Z.of_nat (length data))%Z.
  - rewrite L_bind_assoc, lift_bind.
    exact (invoke_then_tick_all cb _ w x _).
  - split; reflexivity.
Qed.

Lemma timers_write_completion_policy_witness :
  let s1 := set_workers
              (<[0 := set_inFlightWrites (inFlightWrites reading_a - 1) reading_a]>
                 (workers a_is_read)) a_is_read in
  Legacy.on_reply (FsWrite 0 6 [x01; x02] 0 (done 8)) (reply_ok 1) no_extras a_is_read =
    Thrown (AssertionError "written === writeData.length") s1 ∧
  callbacks (trace (world_of
    (Legacy.on_reply (FsWrite 0 6 [x01; x02] 0 (done 8)) (reply_ok 1) no_extras a_is_read))) =
  callbacks (trace a_is_read).
Proof.
  assert (workers a_is_read !! 0 = Some reading_a) as Hk by (vm_compute; reflexivity).
  exact (timers_write_completion_policy a_is_read no_extras 0 reading_a 6 0 [x01; x02]
           (done 8) (reply_ok 1) Hk).
Defined.

(** ** The version with timers: the registry *)

Lemma registered_keeps_all (p : string) (h : hid) (es : list Legacy.Input) :
  keeps_all (λ s, pathInterfaces s !! p = Some h) (λ s, pathInterfaces s !! p = Some h)
    (Legacy.run es).
Proof.
  apply keeps_all_run; clear es; unfold keeps, ok.
  - auto.
  - intros w f s k _ H _. exact H.
  - intros w o s H. effects. by destruct (workers s !! w).
  - intros w o rest s k H Hk _. effects. rewrite Hk. simpl.
    destruct o as [offset size cb|offset data cb]; simpl;
      rewrite list_lookup_insert_eq by (by eapply lookup_lt_Some); simpl;
      rewrite ?list_lookup_insert_eq by (rewrite length_insert; by eapply lookup_lt_Some);
      simpl; [|done].
    destruct (0 <? size)%Z; simpl;
      rewrite ?list_lookup_insert_eq by (rewrite length_insert; by eapply lookup_lt_Some);
      by simpl.
  - intros r _ s H. by effects.
  - intros n args s H. by effects.
  - intros s H. by effects.
  - intros s H _. by effects.
  - intros q s H. exact H.
  - intros q s H. exact H.
  - intros p' h' s Hp' H. simpl. rewrite lookup_insert_ne; [done|]. intros ->. congruence.
Qed.

Lemma storageFor_registers (p : string) (h : hid) (s s1 : World) (x x1 : Legacy.Extras) :
  Legacy.storageFor p x s = Done (h, x1) s1 → pathInterfaces s1 !! p = Some h.
Proof.
  intros Hrun. destruct (pathInterfaces s !! p) as [h'|] eqn:Hp.
  - rewrite (first_storageFor_known p h' s x Hp) in Hrun. by simplify_eq.
  - destruct (Legacy.pathWorkers x !! p) as [w|] eqn:Hpw.
    + by rewrite (first_storageFor_twice p w s x Hp Hpw) in Hrun.
    + rewrite (first_storageFor_new p s x Hp Hpw) in Hrun. simplify_eq.
      simpl. by rewrite lookup_insert_eq.
Qed.

(** [storageFor] is memoised in the version with timers.  Once
    [storageFor(p)] has returned the handle [h], whatever happens next (calls
    of clients, replies of the operating system, timers that fire) and
    whatever the outcome, asking for [p] again returns [h] and creates
    nothing: the store, its workers and its tables are unchanged. *)
Theorem timers_storageFor_memoised (p : string) (h : hid) (s s1 : World)
    (x x1 : Legacy.Extras) (es : list Legacy.Input) :
  Legacy.storageFor p x s = Done (h, x1) s1 →
  let s2 := world_of (Legacy.run es x1 s1) in
  ∀ x2, Legacy.storageFor p x2 s2 = Done (h, x2) s2.
Proof.
  intros Hrun s2 x2. apply first_storageFor_known.
  apply (ok_world_of (λ s, pathInterfaces s !! p = Some h)).
  apply registered_keeps_all. by eapply storageFor_registers.
Qed.

Lemma timers_storageFor_memoised_witness :
  let x1 := Legacy.mkExtras (<["a" := 0]> ∅) ["a"] [] in
  let s1 := world_of (Legacy.storageFor "a" no_extras (fresh_store "dir" 1)) in
  let s2 := world_of (Legacy.run (tail b_after_a) x1 s1) in
  Legacy.storageFor "a" two_paths s2 = Done (0, two_paths) s2.
Proof.
  assert (Legacy.storageFor "a" no_extras (fresh_store "dir" 1) =
          Done (0, Legacy.mkExtras (<["a" := 0]> ∅) ["a"] [])
            (world_of (Legacy.storageFor "a" no_extras (fresh_store "dir" 1)))) as H
    by (vm_compute; reflexivity).
  exact (timers_storageFor_memoised "a" 0 _ _ no_extras _ (tail b_after_a) H two_paths).
Defined.

(** ** The version with timers: eviction *)

(** [schedule] on a worker [w] that is closed under [stop], when the budget
    is used up and the stoppable queue is [v :: vs] with [v] opened and no
    stop callback pending (as the workers of the stoppable queue are): it
    takes [v], the front of the stoppable queue, and calls [v.stop] with the
    callback that decrements [numActivePathWorkers]; [v] ends under [stop],
    draining or closing, with that callback pending; the counter is
    unchanged, [w] is untouched, and one timer is set for [w]. *)
Theorem timers_eviction_is_fifo (s : World) (x : Legacy.Extras) (w : wid) (k : PathWorker)
    (v : wid) (vs : list wid) (kv : PathWorker) :
  workers s !! w = Some k → control k = Stop → state k = Closed →
  (maxOpenFiles s ≤ numActivePathWorkers s)%Z →
  stoppableQueue s = v :: vs →
  workers s !! v = Some kv → state kv = Opened → stopCb kv = None →
  forallb valid_op (ops kv) = true →
  ∃ s' kv',
    Legacy.schedule w x s =
      Done (tt, Legacy.set_timers (Legacy.timers x ++ [w]) x) s' ∧
    stoppableQueue s' = vs ∧
    numActivePathWorkers s' = numActivePathWorkers s ∧
    workers s' !! v = Some kv' ∧
    control kv' = Stop ∧ stopCb kv' = Some OnStopped ∧
    (state kv' = Draining ∨ state kv' = Closing) ∧
    workers s' !! w = Some k ∧
    (∀ s1, call (ret tt) OnStopped s1 =
           Done tt (set_trace (trace s1 ++ [EvActive (numActivePathWorkers s1 - 1)])
                      (set_numActivePathWorkers (numActivePathWorkers s1 - 1) s1))).
Proof.
  intros Hk Hc Hs Hfull Hstop Hkv Hsv Hcbv Hvalid.
  assert (w ≠ v) as Hne by (intros ->; congruence).
  destruct (stop_opened_effect (ret tt) v (Some OnStopped)
              (set_stoppableQueue vs s) kv Hkv Hsv Hcbv Hvalid)
    as (s' & k' & Hrun & [Hq1 Hq2] & Hnum & Hk' & Hc' & Hcb' & Hst & Hother).
  exists s', k'. split_and!; try done.
  - unfold Legacy.schedule. rewrite lift_bind.
    erewrite bind_Done by (by apply get_worker_run).
    rewrite Hc, Hs. simpl. rewrite lift_bind. unfold bind at 1, get.
    replace (numActivePathWorkers s <? maxOpenFiles s)%Z with false by lia.
    rewrite Hstop. simpl. rewrite lift_bind.
    munfold. unfold bind at 1. unfold bind at 1. simpl.
    rewrite Hrun. reflexivity.
  - by rewrite (Hother w).
Qed.

Lemma timers_eviction_is_fifo_witness :
  ∃ s' kv',
    Legacy.schedule 1 two_paths b_is_added =
      Done (tt, Legacy.set_timers (Legacy.timers two_paths ++ [1]) two_paths) s' ∧
    stoppableQueue s' = [] ∧
    numActivePathWorkers s' = numActivePathWorkers b_is_added ∧
    workers s' !! 0 = Some kv' ∧
    control kv' = Stop ∧ stopCb kv' = Some OnStopped ∧
    (state kv' = Draining ∨ state kv' = Closing) ∧
    workers s' !! 1 = Some closed_b ∧
    (∀ s1, call (ret tt) OnStopped s1 =
           Done tt (set_trace (trace s1 ++ [EvActive (numActivePathWorkers s1 - 1)])
                      (set_numActivePathWorkers (numActivePathWorkers s1 - 1) s1))).
Proof.
  assert (workers b_is_added !! 1 = Some closed_b) as H1 by (vm_compute; reflexivity).
  assert (maxOpenFiles b_is_added ≤ numActivePathWorkers b_is_added)%Z as H2
    by (vm_compute; discriminate).
  assert (stoppableQueue b_is_added = [0]) as H3 by (vm_compute; reflexivity).
  assert (workers b_is_added !! 0 = Some opened_a) as H4 by (vm_compute; reflexivity).
  exact (timers_eviction_is_fifo b_is_added two_paths 1 closed_b 0 [] opened_a
           H1 eq_refl eq_refl H2 H3 H4 eq_refl eq_refl eq_refl).
Defined.
